(* ===== verification/_CoqProject ===== *)
-Q . S2P
Prelude.v
KArray.v
KArrayLemmas.v
KArraySpec.v
KArrayTheorems.v
KArrayContracts.v
CxPlatVector.v
PoolAlloc.v
PoolTheorems.v
KArrayObject.v
Assertions.v
TimeConv.v
TimePlatforms.v
Interlocked.v
Event.v
EventTheorems.v
EventDestroy.v
EventTiming.v
WinEvent.v
WinEventTheorems.v
WinUser.v
WinUserTheorems.v
Platform.v
SystemServices.v
Thread.v
ThreadTheorems.v
WinThreadTheorems.v
WinAsync.v
SysLock.v
SysLockTheorems.v
Lock.v
ControlDevice.v
ControlTheorems.v
DriverHelpers.v
Irql.v
TestLib.v
Memory.v
MemoryTest.v
Runner.v
Explore.v
LockTest.v
LockLevels.v
ThreadTest.v
EventTest.v
VectorTest.v
SystemTests.v
Placement.v
