(* ===== verification/Prelude.v ===== *)
(** * A verification library for cxplat

    cxplat is Microsoft's C platform abstraction: memory, locks, events, time,
    processors, threads and random numbers with one interface on POSIX, Windows
    user mode and the Windows kernel, plus a growable array ([Rtl::KArray]) that
    kernel code uses as [CxPlatVector].  Most of it is functions and macros of
    the headers in inc/ and of one source file per platform in src/lib/.

    ** Method

    The code is translated to executable functions.  A function that changes
    state is a computation of the monad [M] of this file, from a state to an
    [outcome]: it returns, it stops the process on purpose, or it faults (null
    or freed memory, uninitialized objects, lost objects, double frees,
    divisions by zero); a loop that exhausts its fuel is [NoFuel].  Theorems
    about such functions conclude with the outcome, so they prove that the
    function returns.  The loops of [KArray] are given the distance between
    their bounds as fuel, and the lemmas [while_up] and [while_down] show that it
    is enough.  Machine integers are integers with the wrap-around of their
    width written out ([wrap], [sgn]).  Concurrent code is a step function per
    thread, one C statement at a time; its theorems hold of every sequence of
    steps.  What the operating system answers is a type class per platform with
    the documented facts the code relies on as laws, and concrete instances
    of it appear in the examples.

    ** The files

    - [Prelude] (this file): integers, outcomes, the monad, loops, lists.
    - [KArray]: inc/karray.h, the class [KArray] member by member, over a heap of
      blocks whose slots are raw or hold a constructed object.  References are
      locations of that heap, so arguments may alias the array.  [move_] is
      [cxplatstd::move]: of an lvalue it is an lvalue, so that the moves of the
      class are copies ([move_lvalue]).  The members check PAGED_CODE; the contracts are stated for a level at which pageable code
      may run ([LowIrql]).
    - [KArrayLemmas]: the memory operations, loops and element shifts.
    - [KArraySpec]: [repr s a l rest], the array [a] holds the list [l] and owns
      its buffer, [rest] is every other block; a specification of each member.
    - [KArrayTheorems]: clients as trees of calls, and the theorem that under
      every client within the contract the array refines a list.
    - [KArrayContracts]: when append succeeds and what it costs, sorted insertion,
      checked access, iteration, destruction, move assignment, the filling
      constructor, arguments that alias the array.
    - [CxPlatVector]: inc/cxplatvector.h, where the array is [std::vector] in user
      mode and [KArray] in the kernel: one interface ([Vector], [VectorLaws]) with
      both as instances, and clients that cannot tell them apart.
    - [PoolAlloc]: inc/karray.h before the array: pool types, the operators new
      and delete of [KALLOCATOR] and [KALLOCATOR_NONPAGED], the signature of
      [DebugBlock].  [PoolTheorems]: interrupt levels, sizes, round trips.
      [KArrayObject]: array objects in the pool, from new to delete.
    - [Assertions]: the assertion macros of the three platforms.
    - [TimeConv]: the time functions of cxplat_posix.h and .c, cxplat_winuser.h
      and cxplat_winkernel.h: exactness of the conversions, 32-bit arithmetic
      across wrap-around, deadlines, timer values.  [TimePlatforms]: the time
      interface as a class ([TimeLaws]) with the three platforms as instances.
    - [Interlocked]: cxplat_posix_shim.h, the atomic operations and their
      interleavings.
    - [Event]: cxplat_posix.h, the event over a mutex and a condition variable,
      with any number of threads.  [EventTheorems]: linearizability, mutual
      exclusion, no lost wake-up, bounded completion of the calls.
      [EventDestroy]: a thread whose wait was satisfied may destroy the event.
      [EventTiming]: the pthread calls of its initialization, and timed waits over
      a monotonic and a realtime clock.
    - [WinEvent]: cxplat_winuser.h and cxplat_winkernel.h, the events and thread
      waits over the dispatcher of Windows with its clock.  [WinEventTheorems]:
      they implement the atomic event of [Event]; the timing of waits.
    - [WinUser]: src/lib/cxplat_winuser.c, the heap with its debug header and
      failure injection, the processor tables, initialization.  A pointer is a
      block with an offset.
      [WinUserTheorems]: their correctness and cleanup.
    - [Platform]: src/lib/cxplat_posix.c and src/lib/cxplat_winkernel.c,
      initialization, allocation and random numbers.  It shares the failure
      injection of [WinUser].
    - [SystemServices]: status codes, handles and the objects of [CxPlatEvent]
      that own one, random numbers and failure
      injection settings on Windows, thread identifiers, the flag operators of
      the POSIX shim, the unit conversions of inc/cxplat.h.
    - [Thread]: thread creation on the platforms, with placement, names and custom
      contexts, and [CxPlatAsyncT] of inc/cxplat.hpp.  [ThreadTheorems]: on POSIX,
      what the calls leave when they fail, and that the threads call their
      callbacks once and free their contexts.  [WinThreadTheorems]: on Windows.
      [WinAsync]: [CxPlatAsyncT] with its [WaitFor], over the thread creation of
      [Thread] and the waits of [WinEvent].
    - [SysLock]: the locks and reader-writer locks of the three platforms over the
      documented locks of the systems, with the initialization and destruction
      of each platform, and the C++ classes that wrap them.
      [SysLockTheorems]: what a lock promises ([LockLaws]), proved of each
      platform; exclusion and completion from the promises alone.
    - [Lock]: the dispatch locks of cxplat_winkernel.h and the interrupt level.
    - [ControlDevice]: src/test/bin/winkernel/control.cpp, the device through
      which user-mode tests run kernel-mode tests: its creation, and its
      callbacks as concurrent threads.  [ControlTheorems]: one client at a time,
      the dispatch of control codes, the verdict of a test, and the schedules in
      which a failing test finds no client.
    - [DriverHelpers]: src/test/bin/cxplat_driver_helpers.h, the installation of
      the driver's service and the overlapped requests of its client.
    - [Irql]: the interrupt level macros of the three platforms, and processors
      that run code in which they are nested with the dispatch locks of [Lock],
      their statements interleaved.
    - [Memory]: the memory macros over blocks of bytes, the heap of a platform as
      an interface ([Allocator], [AllocatorLaws]) and the memory test as its client.
      [MemoryTest]: the three heaps as instances, and the test of failure injection.
    - [Placement]: the processor tables of [WinUser] given to the thread creation of
      [Thread].
    - [TestLib]: src/test/lib/TestAbstractionLayer.h, the test macros, and rules for
      tests.  The tests of src/test/lib are clients of the components:
      [MemoryTest], [LockTest] (lock, event and asynchronous call together),
      [LockLevels] (the interrupt levels of both lock tests),
      [ThreadTest], [EventTest], [VectorTest] (over the interface [Vector]), [SystemTests] (time,
      over [TimeLaws], processors and random numbers).  [Explore]: the search the
      finite ones are proved by.
    - [Runner]: src/test/bin/cxplat_gtest.cpp and winkernel/driver.cpp, the test
      program and the test driver, over [DriverHelpers], [ControlDevice] and
      [Platform]; [Elsewhere] is the program built where there is no driver.

    ** What the theorems show

    Most show that the code does what it means to: containers refine lists,
    events of all platforms refine one atomic event, locks exclude and their
    sections finish, elapsed times are exact across wrap-around, resources are
    released on the failure paths that release them.  The components also fit
    together: a thread bound to a processor is told that number there
    ([thread_placement]), the lock keeps a thread from setting an event in every
    interleaving of the lock test ([lock_test_runs]), processors that nest
    dispatch locks come back to their interrupt levels ([irql_nesting]), and a
    case passes in the kernel, through the driver, exactly when its test reports
    no failure and the request is completed in time ([runner_verdict]).  Some show where it does not:
    the filling constructor of [KArray] ignores a failed allocation
    ([ctor_ignores_failure]), appending an own element may read freed memory
    ([append_own_element]), the user-mode conversion to counter units is the
    identity ([user_us_to_plat_identity]), what [KArray] calls a move is a copy
    ([move_lvalue]), the processor information is freed twice on a failure
    ([initialize_all_or_nothing]), an asynchronous call may be destroyed before
    its thread ends ([win_async_life]), thread creation reports failures as
    success ([linux_thread_create], [user_thread_create]) or keeps a reference
    ([kernel_thread_create]), a compare-exchange truncates its result
    ([compare_exchange_truncates]), a long kernel sleep ends at once
    ([kernel_timer_values]), readers of the dispatch reader-writer lock share
    one saved interrupt level ([shared_lock_loses_irql]), recursive acquisition
    of a lock means something else on each platform ([lock_nesting]), deleting
    an array above APC_LEVEL stops a checked kernel although its destructor is
    declared for those levels ([karray_above_apc]), timed waits follow changes
    of the realtime clock outside Linux ([wall_clock_waits]), a failed
    [CreateEvent] is not noticed ([win_null_event]), the control device can
    lose the client a failing test reports to ([ctl_failure_without_client]),
    a failed initialization crashes the driver ([driver_lifecycle]), a driver
    request that times out outlives the call that sent it
    ([driver_client_requests]), and the test of failure injection cannot pass
    and is not run ([failure_injection_test_fails], [failure_injection_not_run]).

    ** Bounds

    The only fuel is that of the loops of [KArray] (above), of the retry loop of the
    driver service, whose theorems hold of any fuel above the number of retries,
    and of the search in [Explore], whose result is checked to be closed, which
    proves that the fuel sufficed.  For the concurrent files a completion theorem
    gives the number of steps after which every call has finished, and no theorem
    has a bound on the number of threads, on the length of a history, or on sizes
    other than the widths of the C types.

    ** Not modelled

    The text that assertions, tests and tracing log; the source annotations of
    cxplat_sal_stub.h, which expand to nothing; inline.c, which only instantiates
    inline functions that are modelled where they are defined; prototypes, code
    segment and analyzer macros, aliases of scheduler yields; the type traits at
    the top of karray.h, other than [remove_reference], which are the element
    type interface of [KArray]; the event tests on Windows, where how fast a wait
    is served is not specified.  In [SysLock] read locks are unlimited: the EAGAIN
    of [pthread_rwlock_rdlock] is left out.  In the lock and thread tests a thread
    creation that succeeds makes a thread and one that fails makes none; the other
    outcomes are in [ThreadTheorems], [WinThreadTheorems] and [WinAsync].
    Weak memory is not modelled either: the steps of the concurrent files are
    interleaved, which is what mutexes and the sequentially consistent builtins
    the code uses give. *)

From Stdlib Require Export ZArith Lia.
From stdpp Require Export base list gmap numbers.

#[export] Set Default Goal Selector "!".

Open Scope Z_scope.

(** ** Machine integers

    A [w]-bit C integer is a [Z]; [wrap w] is the value an unsigned type of
    width [w] holds, [sgn w] the value a two's complement signed type holds. *)

Definition wrap (w z : Z) : Z := z mod 2 ^ w.

Definition sgn (w z : Z) : Z :=
  let u := z mod 2 ^ w in if u <? 2 ^ (w - 1) then u else u - 2 ^ w.

Declare Scope cint_scope.
Delimit Scope cint_scope with cint.
Notation "'u8'" := (wrap 8) : cint_scope.
Notation "'u16'" := (wrap 16) : cint_scope.
Notation "'u32'" := (wrap 32) : cint_scope.
Notation "'u64'" := (wrap 64) : cint_scope.
Notation "'i16'" := (sgn 16) : cint_scope.
Notation "'i32'" := (sgn 32) : cint_scope.
Notation "'i64'" := (sgn 64) : cint_scope.
Open Scope cint_scope.

(** The values of the types of width [w]. *)
Definition is_u (w z : Z) : Prop := 0 <= z < 2 ^ w.
Definition is_s (w z : Z) : Prop := - 2 ^ (w - 1) <= z < 2 ^ (w - 1).

(** A signed computation that must not overflow: [None] is the overflow. *)
Definition checked_s (w z : Z) : option Z :=
  if (- 2 ^ (w - 1) <=? z) && (z <? 2 ^ (w - 1)) then Some z else None.

(** Arithmetic with quotients and remainders by literals. *)
Ltac zdm := Z.to_euclidean_division_equations; lia.

(** Literal powers of two, so that [lia] sees numbers. *)
Ltac pow2 :=
  change (2 ^ 8) with 256 in *; change (2 ^ 16) with 65536 in *;
  change (2 ^ 31) with 2147483648 in *; change (2 ^ 32) with 4294967296 in *;
  change (2 ^ 63) with 9223372036854775808 in *;
  change (2 ^ 64) with 18446744073709551616 in *;
  change (32 - 1) with 31 in *; change (64 - 1) with 63 in *.

Ltac unfold_int :=
  unfold is_u, is_s, checked_s, wrap, sgn in *; cbv zeta in *;
  change (32 - 1) with 31 in *; change (64 - 1) with 63 in *;
  change (16 - 1) with 15 in *; change (8 - 1) with 7 in *; pow2.

Lemma wrap_range w z : 0 <= w -> 0 <= wrap w z < 2 ^ w.
Proof. intros. apply Z.mod_pos_bound. lia. Qed.

Lemma wrap_small w z : is_u w z -> wrap w z = z.
Proof. intros. by apply Z.mod_small. Qed.

Lemma wrap_wrap w z : wrap w (wrap w z) = wrap w z.
Proof. unfold wrap. apply Zmod_mod. Qed.

Lemma wrap_add_l w a b : wrap w (wrap w a + b) = wrap w (a + b).
Proof. unfold wrap. apply Zplus_mod_idemp_l. Qed.

Lemma wrap_add_r w a b : wrap w (a + wrap w b) = wrap w (a + b).
Proof. unfold wrap. apply Zplus_mod_idemp_r. Qed.

Lemma wrap_sub_l w a b : wrap w (wrap w a - b) = wrap w (a - b).
Proof. unfold wrap. apply Zminus_mod_idemp_l. Qed.

Lemma wrap_sub_r w a b : wrap w (a - wrap w b) = wrap w (a - b).
Proof. unfold wrap. apply Zminus_mod_idemp_r. Qed.

Lemma sgn_range w z : 1 <= w -> is_s w (sgn w z).
Proof.
  intros Hw. unfold is_s, sgn.
  assert (2 ^ w = 2 * 2 ^ (w - 1)) as Hp.
  { rewrite <- (Z.pow_succ_r 2 (w - 1)) by lia. f_equal. lia. }
  pose proof (Z.mod_pos_bound z (2 ^ w)).
  case (Z.ltb_spec (z mod 2 ^ w) (2 ^ (w - 1))); lia.
Qed.

Lemma sgn_small w z : 1 <= w -> is_s w z -> sgn w z = z.
Proof.
  intros Hw [Hl Hu]. unfold sgn.
  assert (2 ^ w = 2 * 2 ^ (w - 1)) as Hp.
  { rewrite <- (Z.pow_succ_r 2 (w - 1)) by lia. f_equal. lia. }
  destruct (decide (0 <= z)).
  - rewrite Z.mod_small by lia. by rewrite (proj2 (Z.ltb_lt z (2 ^ (w - 1)))) by lia.
  - replace (z mod 2 ^ w) with (z + 2 ^ w).
    + rewrite (proj2 (Z.ltb_ge _ _)); lia.
    + rewrite <- (Z.mod_add z 1 (2 ^ w)) by lia.
      rewrite Z.mod_small; lia.
Qed.

(** A signed value and its unsigned image are congruent. *)
Lemma wrap_sgn w z : wrap w (sgn w z) = wrap w z.
Proof.
  unfold wrap, sgn. case_match; [apply Zmod_mod|].
  replace (z mod 2 ^ w - 2 ^ w) with (z mod 2 ^ w + (-1) * 2 ^ w) by lia.
  rewrite Z_mod_plus_full. apply Zmod_mod.
Qed.

Lemma sgn_wrap w z : sgn w (wrap w z) = sgn w z.
Proof. unfold wrap, sgn. by rewrite Zmod_mod. Qed.

Lemma checked_s_Some w z : is_s w z -> checked_s w z = Some z.
Proof.
  intros [H1 H2]. unfold checked_s.
  by rewrite (proj2 (Z.leb_le _ _) H1), (proj2 (Z.ltb_lt _ _) H2).
Qed.

Create HintDb cint discriminated.
#[export] Hint Resolve wrap_range wrap_small sgn_range sgn_small checked_s_Some : cint.

(** ** Outcomes of a C function

    [Ret]: the call returns, with the state it leaves.  [Stop]: the code
    terminates the process on purpose (a failed [CXPLAT_FRE_ASSERT], a fast
    fail).  [Fault]: the call does what the C or C++ semantics does not define,
    or, for the leaks, loses an object it should have destroyed.  [NoFuel]: the
    bound given to a loop was too small; every correctness theorem concludes
    with [Ret] or [Stop], so it also proves that the bound is enough. *)

Inductive stop_reason :=
  | AssertFailed
  | FastFail (Code : Z).

Inductive fault :=
  | NullDeref
  | BadAccess
  | UninitRead
  | UninitAssign
  | DestroyRaw
  | LeakedObject
  | DoubleFree
  | DivByZero
  | SignedOverflow.

Inductive outcome (S A : Type) :=
  | Ret (a : A) (s : S)
  | Stop (r : stop_reason)
  | Fault (f : fault)
  | NoFuel.
Arguments Ret {S A} _ _.
Arguments Stop {S A} _.
Arguments Fault {S A} _.
Arguments NoFuel {S A}.

(** A computation of the C program over the state [S]. *)
Definition M (S A : Type) : Type := S -> outcome S A.

#[export] Instance M_ret S : MRet (M S) := fun A a s => Ret a s.

#[export] Instance M_bind S : MBind (M S) := fun A B k m s =>
  match m s with
  | Ret a s' => k a s'
  | Stop r => Stop r
  | Fault f => Fault f
  | NoFuel => NoFuel
  end.

Definition stop {S A} (r : stop_reason) : M S A := fun _ => Stop r.
Definition fail_with {S A} (f : fault) : M S A := fun _ => Fault f.
Definition get {S} : M S S := fun s => Ret s s.
Definition put {S} (s : S) : M S unit := fun _ => Ret tt s.

(** [CXPLAT_FRE_ASSERT]: checked in every build. *)
Definition fre_assert {S} (b : bool) : M S unit :=
  if b then mret tt else stop AssertFailed.

(** The C loop [for (; cond(i); i = next(i)) body(i)]; the result is the value
    of [i] when the condition fails. *)
Fixpoint while {S} (fuel : nat) (cond : Z -> bool) (next : Z -> Z)
    (body : Z -> M S unit) (i : Z) : M S Z :=
  if cond i then
    match fuel with
    | O => fun _ => NoFuel
    | Datatypes.S f => mbind (fun _ => while f cond next body (next i)) (body i)
    end
  else mret i.

(** Rewriting rules for the monad. *)
Lemma bind_Ret {S A B} (m : M S A) (k : A -> M S B) s a s' :
  m s = Ret a s' -> (mbind k m) s = k a s'.
Proof. intros H. unfold mbind, M_bind. by rewrite H. Qed.

Lemma bind_Stop {S A B} (m : M S A) (k : A -> M S B) s r :
  m s = Stop r -> (mbind k m) s = Stop r.
Proof. intros H. unfold mbind, M_bind. by rewrite H. Qed.

Lemma bind_Fault {S A B} (m : M S A) (k : A -> M S B) s f :
  m s = Fault f -> (mbind k m) s = Fault f.
Proof. intros H. unfold mbind, M_bind. by rewrite H. Qed.

Lemma bind_inv {S A B} (m : M S A) (k : A -> M S B) s b s'' :
  (mbind k m) s = Ret b s'' -> exists a s', m s = Ret a s' /\ k a s' = Ret b s''.
Proof. unfold mbind, M_bind. destruct (m s) eqn:E; try done. eauto. Qed.

Lemma ret_app {S A} (a : A) (s : S) : (mret a : M S A) s = Ret a s.
Proof. done. Qed.

(** Total correctness of a loop from an invariant and a measure. *)
Lemma while_total {S} (Inv : Z -> S -> Prop) (measure : Z -> nat)
    cond next (body : Z -> M S unit) fuel i s :
  (forall j s, Inv j s -> cond j = true ->
     exists s', body j s = Ret tt s' /\ Inv (next j) s' /\
       (measure (next j) < measure j)%nat) ->
  (measure i <= fuel)%nat -> Inv i s ->
  exists j s', while fuel cond next body i s = Ret j s' /\ Inv j s' /\ cond j = false.
Proof.
  intros Hstep. revert i s. induction fuel as [|fuel IH]; intros i s Hm Hi; cbn;
    destruct (cond i) eqn:Hc; try (exists i, s; done).
  - destruct (Hstep i s Hi Hc) as (s' & _ & _ & ?). lia.
  - destruct (Hstep i s Hi Hc) as (s' & Hb & Hi' & ?).
    rewrite (bind_Ret _ _ _ _ _ Hb). apply IH; [lia|done].
Qed.

Ltac step_bind H := rewrite (bind_Ret _ _ _ _ _ H).

(** ** Lists *)

Lemma take_drop_insert_at {A} (l : list A) (i : nat) (x : A) :
  (i <= length l)%nat -> length (take i l ++ x :: drop i l) = S (length l).
Proof. intros. rewrite length_app, length_take, length_cons, length_drop. lia. Qed.

(** A list is known by its lookups below its length. *)
Lemma list_eq_lt {A} (l k : list A) :
  length l = length k ->
  (forall i, (i < length l)%nat -> l !! i = k !! i) -> l = k.
Proof.
  intros Hl H. apply list_eq. intros i.
  destruct (decide (i < length l)%nat); [auto|].
  rewrite !lookup_ge_None_2; [done|lia|lia].
Qed.

(** Reading and writing at the seam of an append. *)
Lemma lookup_mid {A} (l1 l2 : list A) (x : A) i :
  i = length l1 -> (l1 ++ x :: l2) !! i = Some x.
Proof. intros ->. by rewrite list_lookup_middle. Qed.

Lemma insert_mid {A} (l1 l2 : list A) (x y : A) i :
  i = length l1 -> <[i := y]> (l1 ++ x :: l2) = l1 ++ y :: l2.
Proof. intros ->. rewrite insert_app_r_alt by lia. by rewrite Nat.sub_diag. Qed.

Lemma drop_nth {A} (l : list A) (i : nat) (x : A) :
  l !! i = Some x -> drop i l = x :: drop (S i) l.
Proof. intros H. by rewrite (drop_S l x i H). Qed.

(** A non-empty list seen from its last element. *)
Lemma list_snoc_inv {A} (l : list A) : l <> [] -> exists l' x, l = l' ++ [x].
Proof. intros. destruct (exists_last H) as (l' & x & ->). eauto. Qed.

(** A sum over a list when one element is replaced. *)
Lemma sum_insert {A} (f : A -> nat) l i x y :
  l !! i = Some x -> (sum_list_with f (<[i := y]> l) + f x = sum_list_with f l + f y)%nat.
Proof.
  revert i. induction l as [|z l IH]; intros [|i] H; try done.
  - injection H as ->. cbn. lia.
  - specialize (IH i H). change (<[S i := y]> (z :: l)) with (z :: <[i := y]> l).
    cbn [sum_list_with]. lia.
Qed.

Lemma sum_zero {A} (f : A -> nat) l i x : sum_list_with f l = O -> l !! i = Some x -> f x = O.
Proof.
  revert i. induction l as [|y l IH]; intros [|i] Hs Hi; cbn in *; simplify_eq; [lia|].
  apply (IH i); [lia|done].
Qed.

Lemma sum_nonzero {A} (f : A -> nat) l :
  sum_list_with f l <> O -> exists i x, l !! i = Some x /\ f x <> O.
Proof.
  induction l as [|y l IH]; cbn; intros Hs; [done|]. destruct (decide (f y = O)) as [Hy|Hy].
  - destruct IH as (i & x & Hi & Hx); [lia|]. by exists (S i), x.
  - by exists O, y.
Qed.

(** [for (i = lo; i < hi; i++)] with a counter of width [w]: an invariant that
    each iteration carries from [i] to [i + 1] holds at the end. *)
Lemma while_up {S} (Inv : Z -> S -> Prop) w lo hi fuel (body : Z -> M S unit) s :
  0 <= lo -> hi < 2 ^ w -> (Z.to_nat (hi - lo) <= fuel)%nat ->
  (forall i s, lo <= i < hi -> Inv i s ->
     exists s', body i s = Ret tt s' /\ Inv (i + 1) s') ->
  Inv lo s ->
  exists s', while fuel (fun i => i <? hi) (fun i => wrap w (i + 1)) body lo s =
               Ret (Z.max lo hi) s' /\ Inv (Z.max lo hi) s'.
Proof.
  intros Hlo Hhi Hf Hstep Hi.
  destruct (while_total (fun i s => (lo <= i <= Z.max lo hi) /\ Inv i s)
              (fun i => Z.to_nat (hi - i)) (fun i => i <? hi)
              (fun i => wrap w (i + 1)) body fuel lo s) as (j & s' & H1 & [H2 H3] & H4).
  - intros j s1 [Hj HI] Hc. apply Z.ltb_lt in Hc.
    destruct (Hstep j s1 ltac:(lia) HI) as (s2 & Hb & HI').
    exists s2. rewrite (wrap_small w (j + 1)) by (unfold is_u; lia).
    split; [done|]. split; [split; [lia|done]|lia].
  - done.
  - split; [lia|done].
  - apply Z.ltb_ge in H4. assert (j = Z.max lo hi) as -> by lia. eauto.
Qed.

(** [for (i = hi; i > lo; i--)] with a counter of width [w]. *)
Lemma while_down {S} (Inv : Z -> S -> Prop) w lo hi fuel (body : Z -> M S unit) s :
  0 <= lo <= hi -> hi < 2 ^ w -> (Z.to_nat (hi - lo) <= fuel)%nat ->
  (forall i s, lo < i <= hi -> Inv i s ->
     exists s', body i s = Ret tt s' /\ Inv (i - 1) s') ->
  Inv hi s ->
  exists s', while fuel (fun i => lo <? i) (fun i => wrap w (i - 1)) body hi s =
               Ret lo s' /\ Inv lo s'.
Proof.
  intros Hlo Hhi Hf Hstep Hi.
  destruct (while_total (fun i s => (lo <= i <= hi) /\ Inv i s)
              (fun i => Z.to_nat (i - lo)) (fun i => lo <? i)
              (fun i => wrap w (i - 1)) body fuel hi s) as (j & s' & H1 & [H2 H3] & H4).
  - intros j s1 [Hj HI] Hc. apply Z.ltb_lt in Hc.
    destruct (Hstep j s1 ltac:(lia) HI) as (s2 & Hb & HI').
    exists s2. rewrite (wrap_small w (j - 1)) by (unfold is_u; lia).
    split; [done|]. split; [split; [lia|done]|lia].
  - done.
  - split; [lia|done].
  - apply Z.ltb_ge in H4. assert (j = lo) as -> by lia. eauto.
Qed.

(** A loop that runs its body exactly once. *)
Lemma while_once {S} fuel cond next (body : Z -> M S unit) i s s' :
  (1 <= fuel)%nat -> cond i = true -> cond (next i) = false -> body i s = Ret tt s' ->
  while fuel cond next body i s = Ret (next i) s'.
Proof.
  intros Hf Hc Hn Hb. destruct fuel as [|fuel]; [lia|]. cbn. rewrite Hc.
  rewrite (bind_Ret _ _ _ _ _ Hb). destruct fuel; cbn; by rewrite Hn.
Qed.

(** The slot after the seam. *)
Lemma lookup_mid2 {A} (l1 l2 : list A) (x y : A) i :
  i = S (length l1) -> (l1 ++ x :: y :: l2) !! i = Some y.
Proof.
  intros ->. rewrite lookup_app_r by lia.
  by replace (S (length l1) - length l1)%nat with 1%nat by lia.
Qed.

Lemma insert_mid2 {A} (l1 l2 : list A) (x y z : A) i :
  i = S (length l1) -> <[i := z]> (l1 ++ x :: y :: l2) = l1 ++ x :: z :: l2.
Proof.
  intros ->. rewrite insert_app_r_alt by lia.
  by replace (S (length l1) - length l1)%nat with 1%nat by lia.
Qed.

(** Lengths of appends, maps and replications. *)
Ltac len :=
  repeat (rewrite ?length_app, ?length_map, ?length_replicate, ?length_cons in *;
          cbn [length] in * ); try lia.

(** Removes the wrap-arounds that [lia] can see do not happen, innermost first. *)
Ltac wrap_norm :=
  repeat match goal with
         | |- context [wrap ?w ?z] =>
             lazymatch z with
             | context [wrap _ _] => fail
             | _ => rewrite (wrap_small w z) by (unfold is_u; lia)
             end
         end.
