(* ===== verification/KArray.v ===== *)
(** * The growable array [Rtl::KArray] (inc/karray.h)

    The C++ container cxplat uses as [CxPlatVector] in kernel mode.  The model
    keeps what the code manipulates: a heap of allocated blocks, each an array
    of element slots that are raw memory or hold a constructed object; the
    array object with its two [ULONG] fields and its buffer pointer; references
    ([T &], [T const &], [T &&]) as locations of that heap, so that an argument
    may alias the array's own buffer.  Construction, destruction,
    [memcpy]/[memmove]/[memset], allocation and freeing are operations on the
    heap that fault where C++ does not define them, and also where an object
    would be lost without its destructor having run.  [PAGED_CODE] is where the
    code has it: in checked builds of the kernel it stops the system when the
    interrupt level is too high. *)

From S2P Require Import Prelude.

(** One element slot of a block. *)
Inductive cell (T : Type) :=
  | Raw
  | Obj (v : T).
Arguments Raw {T}.
Arguments Obj {T} _.

(** ** [cxplatstd::move]

    Types of expressions as the templates see them: an object type, and the
    references to it; and whether an expression is an lvalue or an rvalue. *)
Inductive cpp_type := ObjectType | LRef | RRef.
Inductive category := LValue | RValue.

(** [remove_reference]: the primary template and the one specialization there is,
    for [_Tp&&]. *)
Definition remove_reference (t : cpp_type) : cpp_type :=
  match t with
  | RRef => ObjectType
  | _ => t
  end.

(** [t &&], with the collapsing of references. *)
Definition rvalue_reference (t : cpp_type) : cpp_type :=
  match t with
  | ObjectType => RRef
  | LRef => LRef
  | RRef => RRef
  end.

(** The [_Tp] a parameter [_Tp&&] deduces from its argument. *)
Definition deduced (c : category) : cpp_type :=
  match c with LValue => LRef | RValue => ObjectType end.

(** The category of [move(x)], by its return type
    [typename remove_reference<_Tp>::type&&].  There is no specialization for
    [_Tp&], so the [move] of an lvalue is an lvalue. *)
Definition move_ (c : category) : category :=
  match rvalue_reference (remove_reference (deduced c)) with
  | LRef => LValue
  | _ => RValue
  end.

(** What the template knows of its element type [T]. *)
Class ElemType (T : Type) := {
  sizeof : Z;
  trivially_copyable : bool;
  trivially_default_constructible : bool;
  trivially_destructible : bool;
  default_value : T;        (** what [T()] constructs *)
  zero_value : T;           (** the object all of whose bytes are zero *)
  moved_from : T -> T;      (** what the move constructor of [T] leaves in its argument *)
  sizeof_pos : 0 < sizeof;
  copyable_destructible :
    trivially_copyable = true -> trivially_destructible = true
}.

(** The pool allocator and the checked multiplication the container calls.
    [pool_ok k bytes] says whether the [k]-th allocation attempt succeeds.  The
    members run at the interrupt level [current_irql]; [checked_kernel] is a
    kernel build with [DBG]. *)
Class PoolEnv := {
  checked_kernel : bool;
  current_irql : Z;
  pool_ok : nat -> Z -> bool;
  RtlSIZETMult : Z -> Z -> option Z;
  RtlSIZETMult_fits a b :
    0 <= a -> 0 <= b -> a * b < 2 ^ 64 -> RtlSIZETMult a b = Some (a * b);
  RtlSIZETMult_overflows a b :
    0 <= a -> 0 <= b -> 2 ^ 64 <= a * b -> RtlSIZETMult a b = None
}.

(** The level pageable code may run at (APC_LEVEL), where it is checked. *)
Class LowIrql `{!PoolEnv} : Prop := low_irql : checked_kernel = true -> current_irql <= 1.

Definition FAST_FAIL_INVALID_ARG : Z := 5.
Definition ULONG_MAX : Z := 2 ^ 32 - 1.

(** A reference to an element slot: block and index. *)
Definition loc : Type := nat * Z.

Record KArray := mkKArray {
  m_bufferSize : Z;
  m_numElements : Z;
  p_ : option nat
}.

(** [_a] points to the array; here it is the array as it is while the iterator
    is used, which no member of the iterator changes. *)
Record iterator := mkIterator { it_a : KArray; it_i : Z }.

Record kstate (T : Type) := mkState {
  heap : gmap nat (list (cell T));
  next_block : nat
}.
Arguments mkState {T} _ _.
Arguments heap {T} _.
Arguments next_block {T} _.

Section Operations.
Context {T : Type} `{!ElemType T} `{!PoolEnv}.

#[local] Abbreviation M := (M (kstate T)).

(** The kernel's macro; in user mode and in retail builds it is empty. *)
Definition PAGED_CODE : M unit :=
  if checked_kernel then fre_assert (current_irql <=? 1) else mret tt.

(** ** Memory *)

Definition set_heap (h : gmap nat (list (cell T))) : M unit :=
  fun s => Ret tt (mkState h (next_block s)).

Definition block (b : nat) : M (list (cell T)) :=
  fun s => match heap s !! b with Some cs => Ret cs s | None => Fault BadAccess end.

Definition set_block (b : nat) (cs : list (cell T)) : M unit :=
  fun s => Ret tt (mkState (<[b := cs]> (heap s)) (next_block s)).

Definition read_cell (l : loc) : M (cell T) :=
  cs ← block l.1;
  if 0 <=? l.2
  then match cs !! Z.to_nat l.2 with Some c => mret c | None => fail_with BadAccess end
  else fail_with BadAccess.

Definition write_cell (l : loc) (c : cell T) : M unit :=
  _ ← read_cell l;
  cs ← block l.1;
  set_block l.1 (<[Z.to_nat l.2 := c]> cs).

(** Reading the object a reference denotes. *)
Definition load (l : loc) : M T :=
  c ← read_cell l;
  match c with Obj v => mret v | Raw => fail_with UninitRead end.

(** The argument of [T(x)]: the copy constructor reads an lvalue, the move
    constructor takes an rvalue and leaves it moved from. *)
Definition take_arg (c : category) (l : loc) : M T :=
  v ← load l;
  match c with
  | LValue => mret v
  | RValue => _ ← write_cell l (Obj (moved_from v)); mret v
  end.

(** Placement new of a [T] with value [v]. *)
Definition construct (l : loc) (v : T) : M unit :=
  c ← read_cell l;
  match c with
  | Raw => write_cell l (Obj v)
  | Obj _ => if trivially_destructible then write_cell l (Obj v)
             else fail_with LeakedObject
  end.

(** [x.~T()]: no code when the destructor is trivial. *)
Definition destroy (l : loc) : M unit :=
  c ← read_cell l;
  if trivially_destructible then mret tt
  else match c with Obj _ => write_cell l Raw | Raw => fail_with DestroyRaw end.

(** [x = v]: copy assignment needs a constructed [x] unless it is trivial. *)
Definition copy_assign (l : loc) (v : T) : M unit :=
  c ← read_cell l;
  match c with
  | Obj _ => write_cell l (Obj v)
  | Raw => if trivially_copyable then write_cell l (Obj v) else fail_with UninitAssign
  end.

(** [new (addressof(dst)) T(cxplatstd::move(src))]. *)
Definition move_construct (dst src : loc) : M unit :=
  v ← take_arg (move_ LValue) src; construct dst v.

(** The [n] slots of a block from [i] on. *)
Definition read_span (b : nat) (i n : Z) : M (list (cell T)) :=
  cs ← block b;
  if (0 <=? i) && (0 <=? n) && (i + n <=? Z.of_nat (length cs))
  then mret (take (Z.to_nat n) (drop (Z.to_nat i) cs))
  else fail_with BadAccess.

Definition write_span (b : nat) (i : Z) (seg : list (cell T)) : M unit :=
  cs ← block b;
  if (0 <=? i) && (i + Z.of_nat (length seg) <=? Z.of_nat (length cs))
  then set_block b (take (Z.to_nat i) cs ++ seg ++
                    drop (Z.to_nat i + length seg) cs)
  else fail_with BadAccess.

(** [memcpy]/[memmove] of [n] elements; zero elements touch nothing, which is
    how the code calls it with a null source. *)
Definition mem_copy (dst : nat) (di : Z) (src : option nat) (si n : Z) : M unit :=
  if n =? 0 then mret tt
  else match src with
       | None => fail_with NullDeref
       | Some b => seg ← read_span b si n; write_span dst di seg
       end.

(** [memset(_, 0, n * sizeof(T))]. *)
Definition mem_zero (b : nat) (i n : Z) : M unit :=
  write_span b i (replicate (Z.to_nat n) (Obj zero_value)).

Definition ExAllocatePoolUninitialized (NumberOfBytes : Z) : M (option nat) :=
  fun s =>
    let k := next_block s in
    if pool_ok k NumberOfBytes
    then Ret (Some k) (mkState (<[k := replicate (Z.to_nat (NumberOfBytes / sizeof)) Raw]>
                                  (heap s)) (S k))
    else Ret None (mkState (heap s) (S k)).

Definition is_obj (c : cell T) : bool := match c with Obj _ => true | Raw => false end.

(** Freeing a block that still holds objects with a destructor loses them. *)
Definition ExFreePoolWithTag (b : nat) : M unit :=
  fun s =>
    match heap s !! b with
    | None => Fault DoubleFree
    | Some cs =>
        if negb trivially_destructible && existsb is_obj cs then Fault LeakedObject
        else Ret tt (mkState (delete b (heap s)) (next_block s))
    end.

(** Dereferencing [_p]. *)
Definition deref (p : option nat) : M nat :=
  match p with Some b => mret b | None => fail_with NullDeref end.

(** [for (ULONG i = lo; i < hi; i++) body(i)] *)
Definition for_up (lo hi : Z) (body : Z -> M unit) : M unit :=
  _ ← while (Z.to_nat (hi - lo)) (fun i => i <? hi) (fun i => u32 (i + 1)) body lo;
  mret tt.

(** The same with a [size_t] counter. *)
Definition for_up64 (lo hi : Z) (body : Z -> M unit) : M unit :=
  _ ← while (Z.to_nat (hi - lo)) (fun i => i <? hi) (fun i => u64 (i + 1)) body lo;
  mret tt.

(** ** Members of [KArray] *)

Definition empty : KArray := mkKArray 0 0 None.

Definition count (a : KArray) : Z := m_numElements a.
Definition size (a : KArray) : Z := count a.
Definition data (a : KArray) : option nat := p_ a.

Definition reserve (a : KArray) (n : Z) : M (KArray * bool) :=
  _ ← PAGED_CODE;
  if n <=? m_bufferSize a then mret (a, true)
  else if ULONG_MAX <=? n then mret (a, false)
  else match RtlSIZETMult sizeof n with
  | None => mret (a, false)
  | Some bytesNeeded =>
      r ← ExAllocatePoolUninitialized bytesNeeded;
      match r with
      | None => mret (a, false)
      | Some p =>
          _ ← (if trivially_copyable
               then mem_copy p 0 (p_ a) 0 (m_numElements a)
               else for_up 0 (m_numElements a) (fun i =>
                      b ← deref (p_ a); move_construct (p, i) (b, i)));
          _ ← match p_ a with
              | Some old =>
                  _ ← for_up 0 (m_numElements a) (fun i => destroy (old, i));
                  ExFreePoolWithTag old
              | None => mret tt
              end;
          mret (mkKArray (u32 n) (m_numElements a) (Some p), true)
      end
  end.

Definition grow (a : KArray) (n : Z) : M (KArray * bool) :=
  _ ← PAGED_CODE;
  if n <=? m_bufferSize a then mret (a, true)
  else
    let n := if n <? 4 then 4 else n in
    let exponentialGrowth := u64 (m_bufferSize a + m_bufferSize a / 2) in
    let n := if n <? exponentialGrowth then exponentialGrowth else n in
    reserve a n.

(** [KArray(size_t count, const T &value)]: the result of [grow] is ignored. *)
Definition ctor (n : Z) (value : loc) : M KArray :=
  _ ← PAGED_CODE;
  if n =? 0 then mret empty
  else
    r ← grow empty n;
    let a := r.1 in
    _ ← for_up 0 n (fun i =>
          b ← deref (p_ a); v ← load value; copy_assign (b, i) v);
    mret (mkKArray (m_bufferSize a) (u32 n) (p_ a)).

Definition reset (a : KArray) : M KArray :=
  match p_ a with
  | None => mret a
  | Some b =>
      _ ← (if negb trivially_destructible
           then _ ← while (Z.to_nat (m_numElements a)) (fun i => 0 <? i)
                      (fun i => u32 (i - 1)) (fun i => destroy (b, u32 (i - 1)))
                      (m_numElements a);
                mret tt
           else mret tt);
      _ ← ExFreePoolWithTag b;
      mret empty
  end.

Definition dtor (a : KArray) : M unit := _ ← reset a; mret tt.

(** The move constructor: the new object and what is left of [rhs]. *)
Definition move_ctor (rhs : KArray) : KArray * KArray :=
  (mkKArray (m_bufferSize rhs) (m_numElements rhs) (p_ rhs), mkKArray 0 0 None).

(** Move assignment from another array: [*this] and what is left of [rhs]. *)
Definition move_assign (a rhs : KArray) : M (KArray * KArray) :=
  _ ← reset a;
  mret (mkKArray (m_bufferSize rhs) (m_numElements rhs) (p_ rhs), mkKArray 0 0 None).

Definition resize (a : KArray) (n : Z) : M (KArray * bool) :=
  r ← reserve a n;
  let a := r.1 in
  if negb r.2 then mret (a, false)
  else
    _ ← (if trivially_default_constructible then
           if m_numElements a <? n
           then b ← deref (p_ a); mem_zero b (m_numElements a) (n - m_numElements a)
           else mret tt
         else for_up64 (m_numElements a) n (fun i =>
                b ← deref (p_ a); construct (b, i) default_value));
    _ ← (if negb trivially_destructible then
           for_up64 n (m_numElements a) (fun i =>
             b ← deref (p_ a); destroy (b, i))
         else mret tt);
    mret (mkKArray (m_bufferSize a) (u32 n) (p_ a), true).

Definition clear (a : KArray) : M KArray := r ← resize a 0; mret r.1.

Definition pop_back (a : KArray) : M KArray :=
  r ← resize a (u64 (count a - 1)); mret r.1.

(** [append]: [T(t)] in the [T const &] overload, [T(move(t))] in the [T &&]
    overload, where [t] is a name and so an lvalue; only the first [checks] the
    interrupt level itself. *)
Definition append_with (checks : bool) (c : category) (a : KArray) (t : loc) : M (KArray * bool) :=
  _ ← (if checks then PAGED_CODE else mret tt);
  r ← grow a (u64 (m_numElements a + 1));
  let a := r.1 in
  if negb r.2 then mret (a, false)
  else
    b ← deref (p_ a);
    v ← take_arg c t;
    _ ← construct (b, m_numElements a) v;
    mret (mkKArray (m_bufferSize a) (u32 (m_numElements a + 1)) (p_ a), true).

Definition append_copy := append_with true LValue.
Definition append_move := append_with false (move_ LValue).

(** The overload a call of [append] selects by the category of its argument. *)
Definition append (c : category) : KArray -> loc -> M (KArray * bool) :=
  match c with LValue => append_copy | RValue => append_move end.

(** Both overloads of [push_back] call [append] with the name of the parameter. *)
Definition push_back_copy (a : KArray) (t : loc) : M (KArray * bool) :=
  _ ← PAGED_CODE; append LValue a t.
Definition push_back_move (a : KArray) (t : loc) : M (KArray * bool) :=
  _ ← PAGED_CODE; append LValue a t.

Definition moveElements (a : KArray) (from to number : Z) : M unit :=
  _ ← PAGED_CODE;
  if (from =? to) || (number =? 0) then mret tt
  else if trivially_copyable then
    b ← deref (p_ a); mem_copy b to (Some b) from number
  else if from <? to then
    _ ← fre_assert (m_numElements a =? u32 (from + number));
    b ← deref (p_ a);
    let delta := u32 (to - from) in
    let fuel := Z.to_nat (to + number) in
    i ← while fuel (fun i => m_numElements a <=? u32 (i - 1)) (fun i => u32 (i - 1))
          (fun i => move_construct (b, u32 (i - 1)) (b, u32 (i - delta - 1)))
          (u32 (to + number));
    i ← while fuel (fun i => to <? i) (fun i => u32 (i - 1))
          (fun i => _ ← destroy (b, u32 (i - 1));
                    move_construct (b, u32 (i - 1)) (b, u32 (i - delta - 1))) i;
    _ ← while fuel (fun i => from <? i) (fun i => u32 (i - 1))
          (fun i => destroy (b, u32 (i - 1))) i;
    mret tt
  else
    _ ← fre_assert (m_numElements a =? u32 (from + number));
    b ← deref (p_ a);
    let delta := u32 (from - to) in
    let fuel := Z.to_nat (from + number) in
    i ← while fuel (fun i => i <? from) (fun i => u32 (i + 1))
          (fun i => move_construct (b, i) (b, u32 (i + delta))) to;
    i ← while fuel (fun i => i <? u32 (to + number)) (fun i => u32 (i + 1))
          (fun i => _ ← destroy (b, i);
                    move_construct (b, i) (b, u32 (i + delta))) i;
    _ ← while fuel (fun i => i <? u32 (from + number)) (fun i => u32 (i + 1))
          (fun i => destroy (b, i)) i;
    mret tt.

Definition insertAt_with (c : category) (a : KArray) (index : Z) (t : loc)
    : M (KArray * bool) :=
  if m_numElements a <? index then mret (a, false)
  else
    r ← grow a (u64 (m_numElements a + 1));
    let a := r.1 in
    if negb r.2 then mret (a, false)
    else
      _ ← (if index <? m_numElements a
           then moveElements a (u32 index) (u32 (index + 1))
                  (u32 (m_numElements a - index))
           else mret tt);
      b ← deref (p_ a);
      v ← take_arg c t;
      _ ← construct (b, index) v;
      mret (mkKArray (m_bufferSize a) (u32 (m_numElements a + 1)) (p_ a), true).

Definition insertAt_copy := insertAt_with LValue.
Definition insertAt_move := insertAt_with (move_ LValue).

Definition insertAt (c : category) : KArray -> Z -> loc -> M (KArray * bool) :=
  match c with LValue => insertAt_copy | RValue => insertAt_move end.

(** The scan both sorted insertions start with: the first index whose element
    is not less than [*t], with that element. *)
Fixpoint scan (less : T -> T -> bool) (fuel : nat) (a : KArray) (t : loc) (i : Z)
    : M (option (Z * T)) :=
  if i <? m_numElements a then
    match fuel with
    | O => fun _ => NoFuel
    | S f =>
        b ← deref (p_ a);
        x ← load (b, i);
        y ← load t;
        if negb (less x y) then mret (Some (i, x)) else scan less f a t (u64 (i + 1))
    end
  else mret None.

(** [insertAt] and [append] are called with [t] or with [move(t)], of category [c]. *)
Definition insertSorted_with (c : category) (less : T -> T -> bool)
    (a : KArray) (t : loc) : M (KArray * bool) :=
  r ← scan less (Z.to_nat (m_numElements a)) a t 0;
  match r with
  | Some (i, _) => insertAt c a i t
  | None => append c a t
  end.

Definition insertSorted_copy := insertSorted_with LValue.
Definition insertSorted_move := insertSorted_with (move_ LValue).

Definition insertSortedUnique_with (c : category) (less : T -> T -> bool)
    (a : KArray) (t : loc) : M (KArray * bool) :=
  r ← scan less (Z.to_nat (m_numElements a)) a t 0;
  match r with
  | Some (i, x) =>
      y ← load t;
      if less y x then insertAt c a i t else mret (a, true)
  | None => append c a t
  end.

Definition insertSortedUnique_copy := insertSortedUnique_with LValue.
Definition insertSortedUnique_move := insertSortedUnique_with (move_ LValue).

Definition eraseAt (a : KArray) (index : Z) : M KArray :=
  _ ← PAGED_CODE;
  if m_numElements a <=? index then stop (FastFail FAST_FAIL_INVALID_ARG)
  else
    b ← deref (p_ a);
    _ ← destroy (b, index);
    _ ← moveElements a (u32 (index + 1)) (u32 index)
          (u32 (m_numElements a - index - 1));
    mret (mkKArray (m_bufferSize a) (u32 (m_numElements a - 1)) (p_ a)).

(** [operator[]], const or not: the reference to the element. *)
Definition at_index (a : KArray) (index : Z) : M loc :=
  if m_numElements a <=? index then stop (FastFail FAST_FAIL_INVALID_ARG)
  else b ← deref (p_ a); mret (b, index).

(** ** Iterators *)

(** [begin], const or not; the two [end]s differ in the check of the level. *)
Definition begin_ (a : KArray) : M iterator := _ ← PAGED_CODE; mret (mkIterator a 0).
Definition end_ (a : KArray) : M iterator := mret (mkIterator a (m_numElements a)).
Definition end_const (a : KArray) : M iterator :=
  _ ← PAGED_CODE; mret (mkIterator a (m_numElements a)).

(** [++it], and [it++] with the result and the iterator afterwards. *)
Definition it_next (it : iterator) : iterator := mkIterator (it_a it) (u64 (it_i it + 1)).
Definition it_post_next (it : iterator) : iterator * iterator :=
  let result := it in (result, it_next it).
Definition it_eq (x y : iterator) : bool := it_i y =? it_i x.
Definition it_neq (x y : iterator) : bool := negb (it_eq y x).

(** [*it] and [it->] of both iterator classes: the reference, and its address. *)
Definition it_deref (it : iterator) : M loc := at_index (it_a it) (it_i it).
Definition it_arrow (it : iterator) : M loc := at_index (it_a it) (it_i it).

(** [for (auto const &x : a) ...]: the elements visited, in order. *)
Fixpoint range_for (fuel : nat) (it last : iterator) : M (list T) :=
  if it_neq it last then
    match fuel with
    | O => fun _ => NoFuel
    | S f => l ← it_deref it;
             x ← load l;
             xs ← range_for f (it_next it) last;
             mret (x :: xs)
    end
  else mret [].

(** Of a constant array. *)
Definition elements (a : KArray) : M (list T) :=
  it ← begin_ a;
  last ← end_const a;
  range_for (Z.to_nat (m_numElements a)) it last.

End Operations.
