(* ===== verification/KArrayLemmas.v ===== *)
(** * Memory and loop lemmas for [KArray]

    How the heap operations of [KArray.v] act on one block, then the effect of
    each loop of the container: the relocation loop of [reserve], the three
    loops of each direction of [moveElements], the construction and destruction
    loops. *)

From S2P Require Import Prelude KArray.

Section Lemmas.
Context {T : Type} `{!ElemType T} `{!PoolEnv} `{Hirql : !LowIrql}.

Implicit Types (s : kstate T) (cs : list (cell T)) (l : list T) (a : KArray).

(** Below the level the check stops at, it does nothing. *)
Lemma paged {B} (k : unit -> M (kstate T) B) s : (mbind k PAGED_CODE) s = k tt s.
Proof.
  apply bind_Ret. unfold PAGED_CODE. destruct checked_kernel eqn:Hc; [|done].
  by rewrite (proj2 (Z.leb_le _ _) (low_irql Hc)).
Qed.

Lemma paged_if {B} (checks : bool) (k : unit -> M (kstate T) B) s :
  (mbind k (if checks then PAGED_CODE else mret tt)) s = k tt s.
Proof. destruct checks; [apply paged|done]. Qed.

(** Replacing one block. *)
Definition upd s (b : nat) cs : kstate T := mkState (<[b := cs]> (heap s)) (next_block s).

Lemma upd_upd s b cs cs' : upd (upd s b cs) b cs' = upd s b cs'.
Proof. unfold upd; cbn. by rewrite insert_insert_eq. Qed.

Lemma upd_id s b cs : heap s !! b = Some cs -> upd s b cs = s.
Proof. intros. unfold upd. rewrite insert_id by done. by destruct s. Qed.

Lemma upd_lookup s b cs : heap (upd s b cs) !! b = Some cs.
Proof. apply lookup_insert_eq. Qed.

Lemma upd_lookup_ne s b b' cs : b <> b' -> heap (upd s b cs) !! b' = heap s !! b'.
Proof. intros. by apply lookup_insert_ne. Qed.

(** A slot that may be constructed over, and what destruction leaves. *)
Definition dead_cell (c : cell T) : Prop := trivially_destructible = true \/ c = Raw.
Definition dead cs : Prop := Forall dead_cell cs.
Definition corpse (v : T) : cell T := if trivially_destructible then Obj v else Raw.

Lemma corpse_dead v : dead_cell (corpse v).
Proof. unfold dead_cell, corpse. destruct trivially_destructible; auto. Qed.

Lemma dead_replicate n : dead (replicate n Raw).
Proof. apply Forall_replicate. by right. Qed.

Lemma dead_trivial cs : trivially_destructible = true -> dead cs.
Proof. intros. apply Forall_forall. by left. Qed.

Lemma dead_app cs cs' : dead (cs ++ cs') <-> dead cs /\ dead cs'.
Proof. apply Forall_app. Qed.

(** ** Single-slot operations *)

Lemma read_cell_ok s b i cs c :
  heap s !! b = Some cs -> 0 <= i -> cs !! Z.to_nat i = Some c ->
  read_cell (b, i) s = Ret c s.
Proof.
  intros Hb Hi Hc. unfold read_cell; cbn.
  rewrite (bind_Ret _ _ s cs s) by (unfold block; by rewrite Hb).
  rewrite (proj2 (Z.leb_le _ _) Hi). by rewrite Hc.
Qed.

Lemma write_cell_ok s b i cs c c' :
  heap s !! b = Some cs -> 0 <= i -> cs !! Z.to_nat i = Some c ->
  write_cell (b, i) c' s = Ret tt (upd s b (<[Z.to_nat i := c']> cs)).
Proof.
  intros Hb Hi Hc. unfold write_cell.
  rewrite (bind_Ret _ _ s c s) by (by eapply read_cell_ok).
  rewrite (bind_Ret _ _ s cs s) by (unfold block; cbn; by rewrite Hb).
  done.
Qed.

Lemma load_ok s b i cs v :
  heap s !! b = Some cs -> 0 <= i -> cs !! Z.to_nat i = Some (Obj v) ->
  load (b, i) s = Ret v s.
Proof.
  intros. unfold load. by rewrite (bind_Ret _ _ s (Obj v) s) by (by eapply read_cell_ok).
Qed.

(** The [move] of a name is an lvalue: every move of the container is a copy. *)
Lemma move_lvalue : move_ LValue = LValue.
Proof. reflexivity. Qed.

Lemma take_lvalue_ok s b i cs v :
  heap s !! b = Some cs -> 0 <= i -> cs !! Z.to_nat i = Some (Obj v) ->
  take_arg LValue (b, i) s = Ret v s.
Proof. intros. unfold take_arg. by rewrite (bind_Ret _ _ s v s) by (by eapply load_ok). Qed.

Lemma construct_ok s b i cs c v :
  heap s !! b = Some cs -> 0 <= i -> cs !! Z.to_nat i = Some c -> dead_cell c ->
  construct (b, i) v s = Ret tt (upd s b (<[Z.to_nat i := Obj v]> cs)).
Proof.
  intros Hb Hi Hc Hd. unfold construct.
  rewrite (bind_Ret _ _ s c s) by (by eapply read_cell_ok).
  destruct c as [|w]; [by eapply write_cell_ok|].
  destruct Hd as [Ht|?]; [|done]. rewrite Ht. by eapply write_cell_ok.
Qed.

Lemma destroy_ok s b i cs v :
  heap s !! b = Some cs -> 0 <= i -> cs !! Z.to_nat i = Some (Obj v) ->
  destroy (b, i) s = Ret tt (upd s b (<[Z.to_nat i := corpse v]> cs)).
Proof.
  intros Hb Hi Hc. unfold destroy, corpse.
  rewrite (bind_Ret _ _ s (Obj v) s) by (by eapply read_cell_ok).
  destruct trivially_destructible.
  - rewrite list_insert_id by done. by rewrite upd_id.
  - by eapply write_cell_ok.
Qed.

(** Moving an object between two slots of one block. *)
Lemma move_construct_same s b i j cs v c :
  heap s !! b = Some cs -> 0 <= i -> 0 <= j ->
  cs !! Z.to_nat j = Some (Obj v) -> cs !! Z.to_nat i = Some c -> dead_cell c ->
  move_construct (b, i) (b, j) s =
    Ret tt (upd s b (<[Z.to_nat i := Obj v]> cs)).
Proof.
  intros Hb Hi Hj Hv Hc Hd. unfold move_construct. rewrite move_lvalue.
  erewrite bind_Ret by (by eapply take_lvalue_ok). by eapply construct_ok.
Qed.

(** Moving an object between two blocks. *)
Lemma move_construct_other s b p i j cs cs' v c :
  heap s !! b = Some cs -> heap s !! p = Some cs' -> 0 <= i -> 0 <= j ->
  cs !! Z.to_nat j = Some (Obj v) -> cs' !! Z.to_nat i = Some c -> dead_cell c ->
  move_construct (p, i) (b, j) s =
    Ret tt (upd s p (<[Z.to_nat i := Obj v]> cs')).
Proof.
  intros Hb Hp Hi Hj Hv Hc Hd. unfold move_construct. rewrite move_lvalue.
  erewrite bind_Ret by (by eapply take_lvalue_ok). by eapply construct_ok.
Qed.

(** ** Spans *)

Lemma read_span_ok s b cs i n :
  heap s !! b = Some cs -> 0 <= i -> 0 <= n -> i + n <= Z.of_nat (length cs) ->
  read_span b i n s = Ret (take (Z.to_nat n) (drop (Z.to_nat i) cs)) s.
Proof.
  intros Hb ???. unfold read_span.
  rewrite (bind_Ret _ _ s cs s) by (unfold block; by rewrite Hb).
  by rewrite (proj2 (Z.leb_le 0 i)), (proj2 (Z.leb_le 0 n)), (proj2 (Z.leb_le (i + n) _)).
Qed.

Lemma write_span_ok s b cs i seg :
  heap s !! b = Some cs -> 0 <= i -> i + Z.of_nat (length seg) <= Z.of_nat (length cs) ->
  write_span b i seg s =
    Ret tt (upd s b (take (Z.to_nat i) cs ++ seg ++ drop (Z.to_nat i + length seg) cs)).
Proof.
  intros Hb ??. unfold write_span.
  rewrite (bind_Ret _ _ s cs s) by (unfold block; by rewrite Hb).
  by rewrite (proj2 (Z.leb_le 0 i)), (proj2 (Z.leb_le (i + _) _)).
Qed.

(** ** Loops

    The induction that every ascending loop over the objects of a span shares:
    the body turns the object at its index into [f] of it, [l1] is done. *)
Lemma map_span_up (f : T -> cell T) w s b pre l post fuel (body : Z -> M (kstate T) unit) :
  heap s !! b = Some (pre ++ map Obj l ++ post) ->
  Z.of_nat (length pre + length l) < 2 ^ w -> (length l <= fuel)%nat ->
  (forall s' cs v i, heap s' !! b = Some cs -> 0 <= i -> cs !! Z.to_nat i = Some (Obj v) ->
     body i s' = Ret tt (upd s' b (<[Z.to_nat i := f v]> cs))) ->
  while fuel (fun i => i <? Z.of_nat (length pre + length l)) (fun i => wrap w (i + 1)) body
    (Z.of_nat (length pre)) s =
  Ret (Z.of_nat (length pre + length l)) (upd s b (pre ++ map f l ++ post)).
Proof.
  intros Hb Hw Hf Hbody.
  destruct (while_up (fun i s' => exists l1 l2, l = l1 ++ l2 /\
      i = Z.of_nat (length pre + length l1) /\
      s' = upd s b (pre ++ map f l1 ++ map Obj l2 ++ post))
    w (Z.of_nat (length pre)) (Z.of_nat (length pre + length l)) fuel body s)
    as (s' & Hr & l1 & l2 & Hl & Hi & Hs); [lia|done|lia| | |].
  - intros i s1 Hi (l1 & l2 & Hl & -> & ->).
    destruct l2 as [|v l2]; [rewrite app_nil_r in Hl; subst l1; lia|].
    rewrite (Hbody _ (pre ++ map f l1 ++ map Obj (v :: l2) ++ post) v);
      [|apply upd_lookup|lia|].
    + eexists. split; [done|]. exists (l1 ++ [v]), l2.
      rewrite length_app. split; [by rewrite <- app_assoc|]. split; [cbn; lia|].
      rewrite upd_upd. f_equal. cbn [map app].
      rewrite (app_assoc pre), insert_mid by (rewrite length_app, length_map; lia).
      by rewrite map_app, <- !app_assoc.
    + cbn [map app]. rewrite (app_assoc pre), lookup_mid; [done|].
      rewrite length_app, length_map; lia.
  - exists [], l. rewrite upd_id; [|done]. split; [done|]. split; [cbn; lia|done].
  - rewrite Z.max_r in Hr, Hi by lia. rewrite Hr. f_equal. subst s'. f_equal.
    assert (l2 = []) as ->.
    { apply length_zero_iff_nil. apply (f_equal length) in Hl. rewrite length_app in Hl. lia. }
    by rewrite Hl, !app_nil_r.
Qed.

Lemma destroy_up w s b pre l post fuel body :
  heap s !! b = Some (pre ++ map Obj l ++ post) ->
  Z.of_nat (length pre + length l) < 2 ^ w -> (length l <= fuel)%nat ->
  (forall i s', body i s' = destroy (b, i) s') ->
  while fuel (fun i => i <? Z.of_nat (length pre + length l)) (fun i => wrap w (i + 1)) body
    (Z.of_nat (length pre)) s =
  Ret (Z.of_nat (length pre + length l)) (upd s b (pre ++ map corpse l ++ post)).
Proof.
  intros Hb Hw Hf Hbody. apply map_span_up; try done. intros s' cs v i ???. rewrite Hbody.
  by apply destroy_ok.
Qed.

(** The destruction loop of [reset], from the last element down. *)
Lemma destroy_down s b l post fuel :
  heap s !! b = Some (map Obj l ++ post) ->
  Z.of_nat (length l) < 2 ^ 32 -> (length l <= fuel)%nat ->
  while fuel (fun i => 0 <? i) (fun i => u32 (i - 1)) (fun i => destroy (b, u32 (i - 1)))
    (Z.of_nat (length l)) s = Ret 0 (upd s b (map corpse l ++ post)).
Proof.
  intros Hb Hw Hf.
  destruct (while_down (fun i s' => exists l1 l2, l = l1 ++ l2 /\
      i = Z.of_nat (length l1) /\ s' = upd s b (map Obj l1 ++ map corpse l2 ++ post))
    32 0 (Z.of_nat (length l)) fuel (fun i => destroy (b, u32 (i - 1))) s)
    as (s' & Hr & l1 & l2 & Hl & Hi & Hs); [lia|done|lia| | |].
  - intros i s1 Hi (l1 & l2 & Hl & -> & ->).
    destruct (list_snoc_inv l1) as (l0 & v & ->); [intros ->; cbn in Hi; lia|].
    rewrite length_app in *; cbn [length] in *.
    rewrite (wrap_small 32) by (unfold is_u; lia).
    rewrite map_app, <- !app_assoc; cbn [map app].
    erewrite destroy_ok; [|apply upd_lookup|lia|apply lookup_mid; rewrite length_map; lia].
    eexists. split; [done|]. exists l0, (v :: l2).
    rewrite Hl, <- app_assoc. split; [done|]. split; [lia|].
    rewrite upd_upd, insert_mid; [done|rewrite length_map; lia].
  - exists l, []. rewrite app_nil_r, upd_id; done.
  - rewrite Hr. f_equal. subst s'. destruct l1; [|cbn in Hi; lia]. cbn in *. by subst.
Qed.

(** The construction loop of [resize]. *)
Lemma construct_up w s b pre cs post fuel v (body : Z -> M (kstate T) unit) :
  heap s !! b = Some (pre ++ cs ++ post) -> dead cs ->
  Z.of_nat (length pre + length cs) < 2 ^ w -> (length cs <= fuel)%nat ->
  (forall i s', body i s' = construct (b, i) v s') ->
  while fuel (fun i => i <? Z.of_nat (length pre + length cs)) (fun i => wrap w (i + 1)) body
    (Z.of_nat (length pre)) s =
  Ret (Z.of_nat (length pre + length cs)) (upd s b (pre ++ replicate (length cs) (Obj v) ++ post)).
Proof.
  intros Hb Hd Hw Hf Hbody.
  destruct (while_up (fun i s' => exists c1 c2, cs = c1 ++ c2 /\
      i = Z.of_nat (length pre + length c1) /\
      s' = upd s b (pre ++ replicate (length c1) (Obj v) ++ c2 ++ post))
    w (Z.of_nat (length pre)) (Z.of_nat (length pre + length cs)) fuel body s)
    as (s' & Hr & c1 & c2 & Hl & Hi & Hs); [lia|done|lia| | |].
  - intros i s1 Hi (c1 & c2 & Hl & -> & ->).
    destruct c2 as [|c c2]; [rewrite app_nil_r in Hl; subst c1; lia|].
    rewrite Hbody. erewrite construct_ok; [|apply upd_lookup|lia| |].
    + eexists. split; [done|]. exists (c1 ++ [c]), c2.
      rewrite length_app. split; [by rewrite <- app_assoc|]. split; [cbn; lia|].
      rewrite upd_upd. f_equal. cbn [app length].
      rewrite (app_assoc pre), insert_mid by (rewrite length_app, length_replicate; lia).
      rewrite replicate_add, <- !app_assoc. done.
    + cbn [app]. rewrite (app_assoc pre). apply lookup_mid.
      rewrite length_app, length_replicate; lia.
    + unfold dead in Hd. rewrite Hl in Hd. apply Forall_app in Hd as [_ Hd].
      by inversion Hd.
  - exists [], cs. rewrite upd_id; [|done]. split; [done|]. split; [cbn; lia|done].
  - rewrite Z.max_r in Hr, Hi by lia. rewrite Hr. f_equal. subst s'. f_equal.
    assert (c2 = []) as ->.
    { apply length_zero_iff_nil. apply (f_equal length) in Hl. rewrite length_app in Hl. lia. }
    by rewrite Hl, !app_nil_r.
Qed.

(** The relocation loop of [reserve] for types that are not trivially
    copyable: every object is moved to the same index of the new block. *)
Lemma relocate_up s b p l post k (body : Z -> M (kstate T) unit) :
  b <> p -> heap s !! b = Some (map Obj l ++ post) ->
  heap s !! p = Some (replicate k Raw) -> (length l <= k)%nat ->
  Z.of_nat (length l) < 2 ^ 32 ->
  (forall i s', body i s' = move_construct (p, i) (b, i) s') ->
  for_up 0 (Z.of_nat (length l)) body s =
  Ret tt (upd s p (map Obj l ++ replicate (k - length l) Raw)).
Proof.
  intros Hne Hb Hp Hk Hw Hbody. unfold for_up.
  destruct (while_up (fun i s' => exists l1 l2, l = l1 ++ l2 /\
      i = Z.of_nat (length l1) /\
      s' = upd s p (map Obj l1 ++ replicate (k - length l1) Raw))
    32 0 (Z.of_nat (length l)) (Z.to_nat (Z.of_nat (length l) - 0)) body s)
    as (s' & Hr & l1 & l2 & Hl & Hi & Hs); [lia|done|lia| | |].
  - intros i s1 Hi (l1 & l2 & Hl & -> & ->).
    destruct l2 as [|v l2]; [rewrite app_nil_r in Hl; subst l1; lia|].
    assert (length l1 < k)%nat by (apply (f_equal length) in Hl; rewrite length_app in Hl; cbn in Hl; lia).
    replace (k - length l1)%nat with (S (k - length (l1 ++ [v])))
      by (rewrite length_app; cbn; lia).
    rewrite Hbody. erewrite move_construct_other;
      [|rewrite upd_lookup_ne by done; exact Hb|apply upd_lookup|lia|lia
       |rewrite Hl, map_app, <- app_assoc; cbn; apply lookup_mid; rewrite !length_map; lia
       |cbn; apply lookup_mid; rewrite length_map; lia|by right].
    eexists. split; [done|]. exists (l1 ++ [v]), l2.
    rewrite <- app_assoc, length_app. split; [done|]. split; [cbn; lia|].
    rewrite upd_upd. cbn [replicate].
    rewrite !map_app, <- !app_assoc. cbn [map app].
    by rewrite !insert_mid by (rewrite ?length_map; lia).
  - exists [], l. cbn [map app length]. by rewrite Nat.sub_0_r, (upd_id s p).
  - rewrite Z.max_r in Hr, Hi by lia.
    assert (l2 = []) as ->.
    { apply length_zero_iff_nil. apply (f_equal length) in Hl. rewrite length_app in Hl. lia. }
    rewrite app_nil_r in *. subst l1 s'. by rewrite (bind_Ret _ _ _ _ _ Hr).
Qed.

(** ** [moveElements]

    Both callers move a run of elements by one slot. *)

(** One iteration: the object before the moved-from slot [i] moves into it. *)
Lemma shift_step_right s b P z m Q i j :
  heap s !! b = Some (P ++ Obj z :: Obj m :: Q) ->
  j = Z.of_nat (length P) -> i = Z.of_nat (S (length P)) ->
  (_ ← destroy (b, i); move_construct (b, i) (b, j)) s =
    Ret tt (upd s b (P ++ Obj z :: Obj z :: Q)).
Proof.
  intros Hb -> ->.
  erewrite bind_Ret by (eapply destroy_ok; [done|lia|by apply lookup_mid2; lia]).
  rewrite insert_mid2 by lia.
  erewrite move_construct_same;
    [|apply upd_lookup|lia|lia|apply lookup_mid; lia|apply lookup_mid2; lia
     |apply corpse_dead].
  by rewrite upd_upd, insert_mid2 by lia.
Qed.

(** One iteration of the other direction: the object after it moves in. *)
Lemma shift_step_left s b P z m Q i j :
  heap s !! b = Some (P ++ Obj m :: Obj z :: Q) ->
  i = Z.of_nat (length P) -> j = Z.of_nat (S (length P)) ->
  (_ ← destroy (b, i); move_construct (b, i) (b, j)) s =
    Ret tt (upd s b (P ++ Obj z :: Obj z :: Q)).
Proof.
  intros Hb -> ->.
  erewrite bind_Ret by (eapply destroy_ok; [done|lia|by apply lookup_mid; lia]).
  rewrite insert_mid by lia.
  erewrite move_construct_same;
    [|apply upd_lookup|lia|lia|apply lookup_mid2; lia|apply lookup_mid; lia
     |apply corpse_dead].
  by rewrite upd_upd, insert_mid by lia.
Qed.

(** The middle loop of the descending direction. *)
Lemma shift_right_loop s b A X x tail fuel :
  heap s !! b = Some (map Obj A ++ map Obj X ++ Obj x :: Obj x :: tail) ->
  Z.of_nat (length A + length X + 1) < 2 ^ 32 -> (length A + length X + 1 <= fuel)%nat ->
  exists y, while fuel (fun i => Z.of_nat (length A + 1) <? i) (fun i => u32 (i - 1))
    (fun i => _ ← destroy (b, u32 (i - 1));
              move_construct (b, u32 (i - 1)) (b, u32 (i - 1 - 1)))
    (Z.of_nat (length A + length X + 1)) s =
  Ret (Z.of_nat (length A + 1))
      (upd s b (map Obj A ++ Obj y :: map Obj (X ++ [x]) ++ tail)).
Proof.
  intros Hb Hw Hf.
  destruct (while_down (fun i s' => exists X1 y X2, X ++ [x] = X1 ++ y :: X2 /\
      i = Z.of_nat (length A + length X1 + 1) /\
      s' = upd s b (map Obj (A ++ X1) ++ Obj y :: map Obj (y :: X2) ++ tail))
    32 (Z.of_nat (length A + 1)) (Z.of_nat (length A + length X + 1)) fuel
    (fun i => _ ← destroy (b, u32 (i - 1));
              move_construct (b, u32 (i - 1)) (b, u32 (i - 1 - 1))) s)
    as (s' & Hr & X1 & y & X2 & HX & Hi & Hs); [lia|done|lia| | |].
  - intros i s1 Hi (X1 & y & X2 & HX & -> & ->).
    destruct (list_snoc_inv X1) as (X0 & z & ->); [intros ->; cbn in Hi; lia|].
    rewrite length_app in *. cbn [length] in *.
    rewrite !(wrap_small 32) by (unfold is_u; lia).
    erewrite shift_step_right;
      [|rewrite upd_lookup, app_assoc, map_app, <- app_assoc; reflexivity|len|len].
    eexists. split; [done|]. exists X0, z, (y :: X2).
    split; [by rewrite HX, <- app_assoc|]. split; [lia|by rewrite upd_upd].
  - exists X, x, []. split; [done|]. split; [lia|].
    rewrite map_app, <- app_assoc. by rewrite upd_id.
  - exists y. rewrite Hr. f_equal. subst s'.
    destruct X1; [|cbn in Hi; lia]. cbn in HX. by rewrite HX, app_nil_r.
Qed.

(** The middle loop of the ascending direction. *)
Lemma shift_left_loop s b A X x tail fuel :
  heap s !! b = Some (map Obj A ++ Obj x :: Obj x :: map Obj X ++ tail) ->
  Z.of_nat (length A + length X + 2) < 2 ^ 32 -> (length X <= fuel)%nat ->
  exists y, while fuel (fun i => i <? Z.of_nat (length A + length X + 1))
    (fun i => u32 (i + 1))
    (fun i => _ ← destroy (b, i); move_construct (b, i) (b, u32 (i + 1)))
    (Z.of_nat (length A + 1)) s =
  Ret (Z.of_nat (length A + length X + 1))
      (upd s b (map Obj A ++ map Obj (x :: X) ++ Obj y :: tail)).
Proof.
  intros Hb Hw Hf.
  destruct (while_up (fun i s' => exists X1 y X2, x :: X = X1 ++ y :: X2 /\
      i = Z.of_nat (length A + length X1 + 1) /\
      s' = upd s b (map Obj (A ++ X1 ++ [y]) ++ Obj y :: map Obj X2 ++ tail))
    32 (Z.of_nat (length A + 1)) (Z.of_nat (length A + length X + 1)) fuel
    (fun i => _ ← destroy (b, i); move_construct (b, i) (b, u32 (i + 1))) s)
    as (s' & Hr & X1 & y & X2 & HX & Hi & Hs); [lia|lia|lia| | |].
  - intros i s1 Hi (X1 & y & X2 & HX & -> & ->).
    pose proof (f_equal length HX) as HL. len.
    destruct X2 as [|z X2]; [cbn in HL; lia|]. cbn [length] in HL.
    rewrite !(wrap_small 32) by (unfold is_u; lia).
    erewrite shift_step_left; [|rewrite upd_lookup; cbn [map app]; reflexivity|len|len].
    eexists. split; [done|]. exists (X1 ++ [y]), z, X2.
    split; [by rewrite HX, <- app_assoc|]. split; [len|].
    by rewrite upd_upd, !map_app, <- !app_assoc.
  - exists [], x, X. split; [done|]. split; [cbn; lia|].
    cbn [app]. rewrite map_app, <- app_assoc. by rewrite upd_id.
  - exists y. pose proof (f_equal length HX) as HL. len.
    assert (X2 = []) as -> by (apply length_zero_iff_nil; lia).
    rewrite Z.max_r in Hr, Hi by lia. rewrite Hr. f_equal. subst s'.
    by rewrite HX, !map_app, <- !app_assoc.
Qed.

(** [memmove] of the run [X] onto the run [Y] of the same block. *)
Lemma mem_copy_span s b P X Q P' Y Q' di si n :
  heap s !! b = Some (P ++ X ++ Q) -> X <> [] ->
  P ++ X ++ Q = P' ++ Y ++ Q' -> length X = length Y ->
  si = Z.of_nat (length P) -> n = Z.of_nat (length X) -> di = Z.of_nat (length P') ->
  mem_copy b di (Some b) si n s = Ret tt (upd s b (P' ++ X ++ Q')).
Proof.
  intros Hb HX Heq Hl -> -> ->. unfold mem_copy.
  rewrite (proj2 (Z.eqb_neq _ 0)) by (destruct X; [done|len]).
  erewrite bind_Ret by (eapply read_span_ok; [done|lia|lia|len]).
  rewrite !Nat2Z.id, drop_app_length, take_app_length.
  erewrite write_span_ok; [|done|lia|rewrite Heq; len].
  rewrite Nat2Z.id, Heq, take_app_length, Hl.
  by rewrite (app_assoc P' Y), <- length_app, drop_app_length.
Qed.

(** The three loops of the descending direction, shift by one. *)
Lemma shift_right s b A X d tail n fuel :
  heap s !! b = Some (map Obj A ++ map Obj X ++ d :: tail) ->
  X <> [] -> dead_cell d -> n = Z.of_nat (length A + length X) ->
  Z.of_nat (length A + length X + 1) < 2 ^ 32 -> (length A + length X <= fuel)%nat ->
  exists c, dead_cell c /\
  (i ← while fuel (fun i => n <=? u32 (i - 1)) (fun i => u32 (i - 1))
          (fun i => move_construct (b, u32 (i - 1)) (b, u32 (i - 1 - 1))) (n + 1);
   i ← while fuel (fun i => Z.of_nat (length A + 1) <? i) (fun i => u32 (i - 1))
          (fun i => _ ← destroy (b, u32 (i - 1));
                    move_construct (b, u32 (i - 1)) (b, u32 (i - 1 - 1))) i;
   _ ← while fuel (fun i => Z.of_nat (length A) <? i) (fun i => u32 (i - 1))
          (fun i => destroy (b, u32 (i - 1))) i;
   mret tt) s = Ret tt (upd s b (map Obj A ++ c :: map Obj X ++ tail)).
Proof.
  intros Hb HX Hd Hn Hw Hf. destruct (list_snoc_inv X HX) as (X' & x & ->).
  rewrite map_app, <- app_assoc in Hb. cbn [map app] in Hb. len.
  erewrite bind_Ret.
  2:{ apply while_once; [lia| | |].
      - wrap_norm. apply Z.leb_le; lia.
      - wrap_norm. apply Z.leb_gt; lia.
      - wrap_norm. rewrite app_assoc, <- map_app in Hb.
        eapply move_construct_same; [done|lia|lia|apply lookup_mid; len
            |apply lookup_mid2; len|done]. }
  rewrite insert_mid2 by len. rewrite map_app, <- app_assoc. wrap_norm.
  destruct (shift_right_loop (upd s b (map Obj A ++ map Obj X' ++
              Obj x :: Obj x :: tail)) b A X' x tail fuel)
    as (y & Hy); [apply upd_lookup|lia|lia|].
  rewrite upd_upd in Hy.
  exists (corpse y). split; [apply corpse_dead|].
  replace (n + 1 - 1) with (Z.of_nat (length A + length X' + 1)) by lia.
  erewrite bind_Ret by exact Hy.
  erewrite bind_Ret; [done|].
  erewrite while_once; [|lia|apply Z.ltb_lt; lia|wrap_norm; apply Z.ltb_ge; lia
    |wrap_norm; eapply destroy_ok; [apply upd_lookup|lia|apply lookup_mid; len]].
  by rewrite upd_upd, insert_mid by len.
Qed.

Lemma moveElements_right s a b A X d tail :
  p_ a = Some b -> heap s !! b = Some (map Obj A ++ map Obj X ++ d :: tail) ->
  X <> [] -> dead_cell d -> m_numElements a = Z.of_nat (length A + length X) ->
  Z.of_nat (length A + length X + 1) < 2 ^ 32 ->
  exists c, dead_cell c /\
    moveElements a (Z.of_nat (length A)) (Z.of_nat (length A + 1)) (Z.of_nat (length X)) s
    = Ret tt (upd s b (map Obj A ++ c :: map Obj X ++ tail)).
Proof.
  intros Hp Hb HX Hd Hn Hw. unfold moveElements. rewrite paged.
  rewrite (proj2 (Z.eqb_neq _ (Z.of_nat (length A + 1)))) by lia.
  rewrite (proj2 (Z.eqb_neq (Z.of_nat (length X)) 0)) by (destruct X; [done|len]).
  cbn [orb]. rewrite Hp. destruct trivially_copyable eqn:Hc.
  - destruct X as [|x X]; [done|]. exists (Obj x).
    split; [left; by apply copyable_destructible|].
    rewrite (bind_Ret _ _ s b s) by done.
    erewrite (mem_copy_span _ _ _ _ _ (map Obj A ++ [Obj x]) (map Obj X ++ [d]) tail);
      [|done|done| |len|len|len|len]; cbn [map app]; by rewrite <- !app_assoc.
  - rewrite (proj2 (Z.ltb_lt _ (Z.of_nat (length A + 1)))) by lia.
    replace (m_numElements a =? u32 (Z.of_nat (length A) + Z.of_nat (length X))) with true
      by (symmetry; wrap_norm; apply Z.eqb_eq; lia).
    rewrite (bind_Ret _ _ s tt s), (bind_Ret _ _ s b s) by done.
    replace (u32 (Z.of_nat (length A + 1) - Z.of_nat (length A))) with 1
      by (wrap_norm; lia).
    replace (u32 (Z.of_nat (length A + 1) + Z.of_nat (length X)))
      with (m_numElements a + 1) by (wrap_norm; lia).
    eapply shift_right; try done. lia.
Qed.

(** The three loops of the ascending direction, shift by one. *)
Lemma shift_left s b A c x X tail fuel :
  heap s !! b = Some (map Obj A ++ c :: map Obj (x :: X) ++ tail) ->
  dead_cell c -> Z.of_nat (length A + length X + 2) < 2 ^ 32 -> (length X + 1 <= fuel)%nat ->
  exists c', dead_cell c' /\
  (i ← while fuel (fun i => i <? Z.of_nat (length A + 1)) (fun i => u32 (i + 1))
          (fun i => move_construct (b, i) (b, u32 (i + 1))) (Z.of_nat (length A));
   i ← while fuel (fun i => i <? Z.of_nat (length A + length X + 1)) (fun i => u32 (i + 1))
          (fun i => _ ← destroy (b, i); move_construct (b, i) (b, u32 (i + 1))) i;
   _ ← while fuel (fun i => i <? Z.of_nat (length A + length X + 2)) (fun i => u32 (i + 1))
          (fun i => destroy (b, i)) i;
   mret tt) s = Ret tt (upd s b (map Obj A ++ map Obj (x :: X) ++ c' :: tail)).
Proof.
  intros Hb Hd Hw Hf. cbn [map app] in Hb.
  erewrite bind_Ret.
  2:{ apply while_once; [lia|apply Z.ltb_lt; lia|wrap_norm; apply Z.ltb_ge; lia|].
      wrap_norm. eapply move_construct_same; [done|lia|lia|apply lookup_mid2; len
            |apply lookup_mid; len|done]. }
  rewrite insert_mid by len. wrap_norm.
  replace (Z.of_nat (length A) + 1) with (Z.of_nat (length A + 1)) by lia.
  destruct (shift_left_loop (upd s b (map Obj A ++ Obj x :: Obj x ::
              map Obj X ++ tail)) b A X x tail fuel) as (y & Hy);
    [apply upd_lookup|lia|lia|]. rewrite upd_upd in Hy.
  exists (corpse y). split; [apply corpse_dead|].
  erewrite bind_Ret by exact Hy.
  erewrite bind_Ret; [done|].
  rewrite app_assoc, <- map_app.
  erewrite while_once; [|lia|apply Z.ltb_lt; lia|wrap_norm; apply Z.ltb_ge; lia
    |eapply destroy_ok; [apply upd_lookup|lia|apply lookup_mid; len]].
  rewrite upd_upd, insert_mid by len. by rewrite map_app, <- app_assoc.
Qed.

Lemma moveElements_left s a b A c X tail :
  p_ a = Some b -> heap s !! b = Some (map Obj A ++ c :: map Obj X ++ tail) ->
  dead_cell c -> m_numElements a = Z.of_nat (length A + length X + 1) ->
  Z.of_nat (length A + length X + 1) < ULONG_MAX ->
  exists c', dead_cell c' /\
    moveElements a (Z.of_nat (length A + 1)) (Z.of_nat (length A)) (Z.of_nat (length X)) s
    = Ret tt (upd s b (map Obj A ++ map Obj X ++ c' :: tail)).
Proof.
  intros Hp Hb Hd Hn Hw. unfold ULONG_MAX in Hw. unfold moveElements. rewrite paged.
  rewrite (proj2 (Z.eqb_neq _ (Z.of_nat (length A)))) by lia. cbn [orb].
  destruct X as [|x X]; [exists c; cbn; by rewrite upd_id|].
  rewrite (proj2 (Z.eqb_neq _ 0)) by len. rewrite Hp. destruct trivially_copyable eqn:Hc.
  - destruct (list_snoc_inv (x :: X)) as (X' & y & HX'); [done|]. exists (Obj y).
    split; [left; by apply copyable_destructible|].
    rewrite (bind_Ret _ _ s b s) by done. rewrite HX' in *.
    erewrite (mem_copy_span _ _ (map Obj A ++ [c]) (map Obj (X' ++ [y])) tail
                (map Obj A) (c :: map Obj X') (Obj y :: tail)).
    + done.
    + rewrite <- app_assoc. done.
    + by destruct X'.
    + rewrite map_app, <- !app_assoc. done.
    + len.
    + len.
    + len.
    + len.
  - rewrite (proj2 (Z.ltb_ge _ (Z.of_nat (length A)))) by lia.
    replace (m_numElements a =? u32 (Z.of_nat (length A + 1) + Z.of_nat (length (x :: X))))
      with true by (symmetry; wrap_norm; apply Z.eqb_eq; lia).
    rewrite (bind_Ret _ _ s tt s), (bind_Ret _ _ s b s) by done.
    replace (u32 (Z.of_nat (length A + 1) - Z.of_nat (length A))) with 1
      by (wrap_norm; lia).
    replace (u32 (Z.of_nat (length A) + Z.of_nat (length (x :: X))))
      with (Z.of_nat (length A + length X + 1)) by (wrap_norm; len).
    replace (u32 (Z.of_nat (length A + 1) + Z.of_nat (length (x :: X))))
      with (Z.of_nat (length A + length X + 2)) by (wrap_norm; len).
    eapply shift_left; try done; len.
Qed.

(** ** Relocation and freeing, as [reserve] uses them *)

Lemma mem_copy_fresh s b p l post k :
  b <> p -> heap s !! b = Some (map Obj l ++ post) ->
  heap s !! p = Some (replicate k Raw) -> (length l <= k)%nat ->
  mem_copy p 0 (Some b) 0 (Z.of_nat (length l)) s =
    Ret tt (upd s p (map Obj l ++ replicate (k - length l) Raw)).
Proof.
  intros Hne Hb Hp Hk. unfold mem_copy. destruct (Z.eqb_spec (Z.of_nat (length l)) 0).
  - destruct l; [|len]. cbn. rewrite Nat.sub_0_r. by rewrite upd_id.
  - erewrite bind_Ret by (eapply read_span_ok; [done|lia|lia|len]).
    rewrite Nat2Z.id, drop_0, <- (length_map Obj l), take_app_length.
    erewrite write_span_ok; [|done|lia|len]. cbn. by rewrite drop_replicate.
Qed.

(** Either way [reserve] relocates, the new block holds copies of the elements. *)
Lemma relocate_ok s a b p l post k :
  p_ a = Some b -> m_numElements a = Z.of_nat (length l) ->
  b <> p -> heap s !! b = Some (map Obj l ++ post) ->
  heap s !! p = Some (replicate k Raw) -> (length l <= k)%nat ->
  Z.of_nat (length l) < 2 ^ 32 ->
  (if trivially_copyable then mem_copy p 0 (p_ a) 0 (m_numElements a)
   else for_up 0 (m_numElements a) (fun i => b ← deref (p_ a); move_construct (p, i) (b, i))) s
  = Ret tt (upd s p (map Obj l ++ replicate (k - length l) Raw)).
Proof.
  intros Hpa Hn Hne Hb Hp Hk Hw. rewrite Hpa, Hn. destruct trivially_copyable.
  - by apply (mem_copy_fresh s b p l post).
  - by apply (relocate_up s b p l post k).
Qed.

Lemma existsb_dead cs :
  dead cs -> negb trivially_destructible && existsb is_obj cs = false.
Proof.
  intros Hd. destruct trivially_destructible eqn:Ht; [done|]. cbn.
  induction Hd as [|c cs [Hc| ->] _ IH]; [done|congruence|done].
Qed.

Lemma free_ok s b cs :
  heap s !! b = Some cs -> dead cs ->
  ExFreePoolWithTag b s = Ret tt (mkState (delete b (heap s)) (next_block s)).
Proof. intros Hb Hd. unfold ExFreePoolWithTag. rewrite Hb. by rewrite existsb_dead. Qed.

Lemma dead_corpses l : dead (map corpse l).
Proof. apply Forall_map, Forall_forall. intros v _. apply corpse_dead. Qed.

Lemma destroy_free s b l post :
  heap s !! b = Some (map Obj l ++ post) -> dead post -> Z.of_nat (length l) < 2 ^ 32 ->
  (_ ← for_up 0 (Z.of_nat (length l)) (fun i => destroy (b, i)); ExFreePoolWithTag b) s =
    Ret tt (mkState (delete b (heap s)) (next_block s)).
Proof.
  intros Hb Hd Hw. unfold for_up.
  erewrite bind_Ret by (erewrite bind_Ret; [done|];
    apply (destroy_up 32 s b [] l post); [done|cbn;lia|lia|done]).
  erewrite free_ok; [|apply upd_lookup|].
  - cbn. by rewrite delete_insert_eq.
  - cbn [app]. apply dead_app. split; [apply dead_corpses|done].
Qed.

End Lemmas.

Create HintDb karray discriminated.
#[export] Hint Resolve corpse_dead dead_replicate dead_trivial upd_lookup : karray.
