(* ===== verification/KArraySpec.v ===== *)
(** * [KArray] implements a list

    [repr s a l rest]: in state [s] the array object [a] holds the list [l] and
    owns its buffer; [rest] is every other block of the heap.  Each operation
    is shown to take a represented array to a represented array with the same
    [rest], which says at once that it touches no other block, leaks none, and
    constructs and destroys each object exactly once. *)

From S2P Require Import Prelude KArray KArrayLemmas.

Section Spec.
Context {T : Type} `{!ElemType T} `{!PoolEnv} `{Hirql : !LowIrql}.

Implicit Types (s : kstate T) (l : list T) (a : KArray) (rest : gmap nat (list (cell T))).

Record repr s a l rest : Prop := {
  repr_fresh : forall b, (next_block s <= b)%nat -> heap s !! b = None;
  repr_count : m_numElements a = Z.of_nat (length l);
  repr_cap : m_numElements a <= m_bufferSize a < ULONG_MAX;
  repr_buf :
    match p_ a with
    | None => m_bufferSize a = 0 /\ heap s = rest
    | Some b => exists tail, rest !! b = None /\ heap s = <[b := map Obj l ++ tail]> rest /\
                  Z.of_nat (length l + length tail) = m_bufferSize a /\ dead tail
    end
}.

(** An object of [rest] that a reference argument may denote. *)
Definition external rest (t : loc) (v : T) : Prop :=
  exists cs, rest !! t.1 = Some cs /\ 0 <= t.2 /\ cs !! Z.to_nat t.2 = Some (Obj v).

(** The empty array owns nothing. *)
Lemma repr_empty s rest :
  (forall b, (next_block s <= b)%nat -> heap s !! b = None) -> heap s = rest ->
  repr s empty [] rest.
Proof. intros. split; cbn; [done|done|unfold ULONG_MAX; lia|done]. Qed.

Lemma repr_null s a l rest : repr s a l rest -> p_ a = None -> l = [] /\ m_bufferSize a = 0.
Proof.
  intros [_ Hn Hc Hb] Hp. rewrite Hp in Hb. destruct Hb as [Hb _].
  split; [|done]. apply length_zero_iff_nil. lia.
Qed.

(** What a represented array with a buffer looks like in the heap. *)
Lemma repr_some s a l rest b :
  repr s a l rest -> p_ a = Some b ->
  exists tail, heap s !! b = Some (map Obj l ++ tail) /\ dead tail /\
    Z.of_nat (length l + length tail) = m_bufferSize a.
Proof.
  intros [_ _ _ Hb] Hp. rewrite Hp in Hb. destruct Hb as (tail & _ & -> & ? & ?).
  exists tail. by rewrite lookup_insert_eq.
Qed.

Lemma repr_external s a l rest t v :
  repr s a l rest -> external rest t v ->
  Some t.1 <> p_ a /\ exists cs, heap s !! t.1 = Some cs /\ 0 <= t.2 /\
    cs !! Z.to_nat t.2 = Some (Obj v).
Proof.
  intros [_ _ _ Hb] (cs & Hr & Ht & Hv). destruct (p_ a) as [b|].
  - destruct Hb as (tail & Hnb & -> & _).
    assert (b <> t.1) by congruence. split; [congruence|].
    exists cs. by rewrite lookup_insert_ne.
  - destruct Hb as [_ ->]. split; [done|]. eauto.
Qed.

Lemma load_external s a l rest t v :
  repr s a l rest -> external rest t v -> load t s = Ret v s.
Proof.
  intros Hr He. destruct (repr_external _ _ _ _ _ _ Hr He) as (_ & cs & ? & ? & ?).
  destruct t. by eapply load_ok.
Qed.

(** Rewriting the owned block with the cells of another list. *)
Lemma repr_upd s a l l' tail' rest b n :
  repr s a l rest -> p_ a = Some b -> dead tail' -> n = Z.of_nat (length l') ->
  Z.of_nat (length l' + length tail') = m_bufferSize a ->
  repr (upd s b (map Obj l' ++ tail')) (mkKArray (m_bufferSize a) n (p_ a)) l' rest.
Proof.
  intros [Hf Hn Hc Hb] Hp Hd -> Hl. rewrite Hp in *.
  destruct Hb as (tail & Hnb & Hh & Hlen & Hdt). split; cbn.
  - intros b' Hb'. rewrite lookup_insert_ne; [by apply Hf|].
    intros <-. specialize (Hf _ Hb'). rewrite Hh, lookup_insert_eq in Hf. done.
  - done.
  - lia.
  - exists tail'. rewrite Hh, insert_insert_eq. done.
Qed.

(** ** [reserve] and [grow] *)

Definition reserve_ok s a (n : Z) : bool :=
  (n <=? m_bufferSize a) ||
  ((n <? ULONG_MAX) && (sizeof * n <? 2 ^ 64) && pool_ok (next_block s) (sizeof * n)).

Lemma repr_next s a l rest :
  repr s a l rest -> repr (mkState (heap s) (S (next_block s))) a l rest.
Proof. intros [Hf ???]. split; try done. cbn. intros b ?. apply Hf. lia. Qed.

(** Relocation into a fresh block of [n] slots, then release of the old one. *)
Lemma reserve_relocate s a l rest n :
  repr s a l rest -> m_bufferSize a < n < ULONG_MAX -> sizeof * n < 2 ^ 64 ->
  pool_ok (next_block s) (sizeof * n) = true ->
  exists s', reserve a n s = Ret (mkKArray n (m_numElements a) (Some (next_block s)), true) s' /\
    repr s' (mkKArray n (m_numElements a) (Some (next_block s))) l rest /\
    next_block s' = S (next_block s).
Proof.
  intros Hr Hn Hs Hp. pose proof sizeof_pos as Hsz.
  pose proof (repr_cap _ _ _ _ Hr) as Hcap. pose proof (repr_count _ _ _ _ Hr) as Hcnt.
  assert (0 < n) as Hn0 by lia.
  unfold reserve. rewrite paged. rewrite (proj2 (Z.leb_gt n _)), (proj2 (Z.leb_gt ULONG_MAX _)) by lia.
  rewrite RtlSIZETMult_fits by lia.
  set (k := next_block s) in *.
  assert (heap s !! k = None) as Hk by (apply (repr_fresh _ _ _ _ Hr); lia).
  set (s1 := mkState (<[k := replicate (Z.to_nat n) (@Raw T)]> (heap s)) (S k)).
  rewrite (bind_Ret _ _ s (Some k) s1).
  2:{ unfold ExAllocatePoolUninitialized. fold k. rewrite Hp. unfold s1.
      rewrite Z.mul_comm, Z.div_mul by lia. done. }
  assert (heap s1 !! k = Some (replicate (Z.to_nat n) Raw)) as Hs1 by apply lookup_insert_eq.
  unfold ULONG_MAX in *. replace (u32 n) with n by (wrap_norm; lia).
  pose proof (repr_buf _ _ _ _ Hr) as Hb. destruct (p_ a) as [b|] eqn:Hpa.
  - destruct Hb as (tail & Hnb & Hh & Hlen & Hd).
    assert (heap s !! b = Some (map Obj l ++ tail)) as Hb by (by rewrite Hh, lookup_insert_eq).
    assert (b <> k) as Hbk by congruence.
    assert (heap s1 !! b = Some (map Obj l ++ tail)) as Hb1 by (by unfold s1; cbn; rewrite lookup_insert_ne).
    pose proof (relocate_ok s1 a b k l tail (Z.to_nat n) Hpa Hcnt Hbk Hb1 Hs1 ltac:(lia) ltac:(lia)) as Hrel.
    rewrite Hpa in Hrel. rewrite (bind_Ret _ _ _ _ _ Hrel).
    rewrite Hcnt. erewrite bind_Ret.
    2:{ eapply destroy_free; [rewrite upd_lookup_ne by done; exact Hb1|done|lia]. }
    eexists. split; [done|]. split; [|done]. split; cbn.
    + intros b' Hb'. destruct (decide (b' = b)) as [->|]; [apply lookup_delete_eq|].
      rewrite lookup_delete_ne, !lookup_insert_ne by lia. apply (repr_fresh _ _ _ _ Hr). lia.
    + lia.
    + unfold ULONG_MAX; lia.
    + exists (replicate (Z.to_nat n - length l) Raw).
      assert (rest !! k = None) as Hrk
        by (rewrite Hh in Hk; by rewrite lookup_insert_ne in Hk by done).
      split; [done|]. split; [|split; [len|apply dead_replicate]].
      rewrite Hh. apply map_eq. intros j.
      rewrite lookup_delete. case_decide; [subst j; by rewrite lookup_insert_ne|].
      destruct (decide (k = j)) as [<-|]; by simplify_map_eq.
  - destruct Hb as [Hbs Hh]. assert (l = []) as -> by (apply length_zero_iff_nil; cbn in *; lia).
    cbn in Hcnt. rewrite Hcnt. erewrite bind_Ret by (by destruct trivially_copyable).
    erewrite bind_Ret by done. eexists. split; [done|]. split; [|done]. split; cbn.
    + intros b' Hb'. rewrite lookup_insert_ne by lia. apply (repr_fresh _ _ _ _ Hr). lia.
    + done.
    + unfold ULONG_MAX; lia.
    + exists (replicate (Z.to_nat n) Raw). rewrite <- Hh.
      split; [done|]. split; [done|]. split; [len|apply dead_replicate].
Qed.

Lemma reserve_refused s a n :
  m_bufferSize a < n -> ULONG_MAX <= n -> reserve a n s = Ret (a, false) s.
Proof.
  intros. unfold reserve. rewrite paged.
  by rewrite (proj2 (Z.leb_gt _ _)), (proj2 (Z.leb_le ULONG_MAX _)) by lia.
Qed.

Lemma reserve_spec s a l rest n :
  repr s a l rest -> 0 <= n ->
  exists a' s', reserve a n s = Ret (a', reserve_ok s a n) s' /\ repr s' a' l rest /\
    m_numElements a' = m_numElements a /\
    (reserve_ok s a n = true -> m_bufferSize a' = Z.max (m_bufferSize a) n) /\
    (reserve_ok s a n = false -> a' = a).
Proof.
  intros Hr Hn. unfold reserve_ok. pose proof sizeof_pos as Hsz.
  destruct (Z.leb_spec n (m_bufferSize a)); cbn.
  { exists a, s. unfold reserve. rewrite paged. rewrite (proj2 (Z.leb_le _ _)) by done.
    split; [done|]. split; [done|]. split; [done|]. split; [lia|done]. }
  destruct (Z.ltb_spec n ULONG_MAX); cbn.
  2:{ exists a, s. rewrite reserve_refused by lia. done. }
  destruct (Z.ltb_spec (sizeof * n) (2 ^ 64)); cbn.
  2:{ exists a, s. unfold reserve. rewrite paged.
      rewrite (proj2 (Z.leb_gt _ _)), (proj2 (Z.leb_gt ULONG_MAX _)) by lia.
      rewrite RtlSIZETMult_overflows by lia. done. }
  destruct (pool_ok (next_block s) (sizeof * n)) eqn:Hp.
  - destruct (reserve_relocate s a l rest n) as (s' & He & Hr' & _); [done|lia|done|done|].
    exists (mkKArray n (m_numElements a) (Some (next_block s))), s'. split; [done|].
    split; [done|]. split; [done|]. split; [cbn; lia|done].
  - exists a, (mkState (heap s) (S (next_block s))). unfold reserve. rewrite paged.
    rewrite (proj2 (Z.leb_gt _ _)), (proj2 (Z.leb_gt ULONG_MAX _)) by lia.
    rewrite RtlSIZETMult_fits by lia.
    erewrite bind_Ret by (unfold ExAllocatePoolUninitialized; by rewrite Hp).
    split; [done|]. split; [by apply repr_next|done].
Qed.

(** The capacity [grow] asks for when the buffer is too small. *)
Definition grow_capacity a (n : Z) : Z :=
  Z.max (Z.max n 4) (m_bufferSize a + m_bufferSize a / 2).

Definition grow_ok s a (n : Z) : bool :=
  (n <=? m_bufferSize a) || reserve_ok s a (grow_capacity a n).

Lemma grow_room s a n : n <= m_bufferSize a -> grow a n s = Ret (a, true) s.
Proof. intros. unfold grow. rewrite paged. by rewrite (proj2 (Z.leb_le _ _)). Qed.

Lemma grow_spec s a l rest n :
  repr s a l rest -> 0 <= n ->
  exists a' s', grow a n s = Ret (a', grow_ok s a n) s' /\ repr s' a' l rest /\
    m_numElements a' = m_numElements a /\
    (grow_ok s a n = true -> n <= m_bufferSize a' /\
       m_bufferSize a' = if n <=? m_bufferSize a then m_bufferSize a else grow_capacity a n) /\
    (grow_ok s a n = false -> a' = a).
Proof.
  intros Hr Hn. unfold grow_ok, grow. rewrite paged. pose proof (repr_cap _ _ _ _ Hr) as Hc.
  pose proof (repr_count _ _ _ _ Hr) as Hcnt.
  unfold ULONG_MAX in Hc.
  destruct (Z.leb_spec n (m_bufferSize a)); cbn.
  { exists a, s. split; [done|]. split; [done|]. split; [done|]. split; [lia|done]. }
  assert (0 <= m_bufferSize a + m_bufferSize a / 2 < 2 ^ 64) as Hg by zdm.
  replace (if _ <? u64 _ then _ else _) with (grow_capacity a n).
  2:{ unfold grow_capacity. rewrite (wrap_small 64) by done.
      destruct (Z.ltb_spec n 4); case (Z.ltb_spec _ (m_bufferSize a + m_bufferSize a / 2)); lia. }
  destruct (reserve_spec s a l rest (grow_capacity a n) Hr) as (a' & s' & He & Hr' & Hm & Ht & Hf);
    [unfold grow_capacity; lia|].
  exists a', s'. split; [done|]. split; [done|]. split; [done|]. split; [|done].
  intros Hok. rewrite (Ht Hok). unfold grow_capacity. lia.
Qed.

(** ** Insertion *)

(** Introduction of [repr] for an array with a buffer. *)
Lemma repr_intro s l rest b tail n cap :
  (forall b', (next_block s <= b')%nat -> rest !! b' = None) -> (b < next_block s)%nat ->
  rest !! b = None -> heap s = <[b := map Obj l ++ tail]> rest -> dead tail ->
  n = Z.of_nat (length l) -> cap = Z.of_nat (length l + length tail) -> cap < ULONG_MAX ->
  repr s (mkKArray cap n (Some b)) l rest.
Proof.
  intros Hf Hb Hrb Hh Hd -> -> Hc. split; cbn.
  - intros b' Hb'. rewrite Hh, lookup_insert_ne by lia. by apply Hf.
  - done.
  - lia.
  - exists tail. done.
Qed.

Lemma repr_elim s a l rest b :
  repr s a l rest -> p_ a = Some b ->
  exists tail, (forall b', (next_block s <= b')%nat -> rest !! b' = None) /\
    (b < next_block s)%nat /\ rest !! b = None /\
    heap s = <[b := map Obj l ++ tail]> rest /\ dead tail /\
    m_bufferSize a = Z.of_nat (length l + length tail) /\
    m_numElements a = Z.of_nat (length l) /\ m_bufferSize a < ULONG_MAX.
Proof.
  intros [Hf Hn Hc Hb] Hp. rewrite Hp in Hb. destruct Hb as (tail & Hrb & Hh & Hl & Hd).
  assert (b < next_block s)%nat as Hlt.
  { destruct (decide (b < next_block s)%nat); [done|].
    specialize (Hf b ltac:(lia)). rewrite Hh, lookup_insert_eq in Hf. done. }
  exists tail. split; [|split; [done|repeat split; try done; lia]].
  intros b' Hb'. specialize (Hf b' Hb'). rewrite Hh, lookup_insert_ne in Hf; [done|lia].
Qed.

(** The end of [append] and [insertAt]: the argument is copied into the dead slot
    between the cells of [l1] and [l2]. *)
Lemma construct_arg s b l1 c l2 tail rest t v i :
  heap s = <[b := map Obj l1 ++ c :: map Obj l2 ++ tail]> rest ->
  rest !! b = None -> dead_cell c -> external rest t v -> i = Z.of_nat (length l1) ->
  (x ← take_arg LValue t; construct (b, i) x) s =
    Ret tt (mkState (<[b := map Obj (l1 ++ v :: l2) ++ tail]> rest) (next_block s)).
Proof.
  intros Hh Hb Hd (cs & Ht & Hi & Hv) ->. destruct t as [tb ti]. cbn in *.
  assert (b <> tb) by congruence.
  erewrite bind_Ret by (eapply take_lvalue_ok; [by rewrite Hh, lookup_insert_ne|done|done]).
  erewrite construct_ok; [|by rewrite Hh, lookup_insert_eq|lia|apply lookup_mid; len|done].
  unfold upd; cbn. rewrite Hh, insert_insert_eq, insert_mid by len.
  by rewrite map_app, <- app_assoc.
Qed.

(** Room for one more element means a buffer with a dead slot after the list. *)
Lemma repr_room s a l rest :
  repr s a l rest -> m_numElements a + 1 <= m_bufferSize a ->
  exists b c tail, p_ a = Some b /\ dead_cell c /\ dead tail /\
    heap s = <[b := map Obj l ++ c :: tail]> rest /\ rest !! b = None /\
    m_bufferSize a = Z.of_nat (length l + length (c :: tail)) /\
    m_numElements a = Z.of_nat (length l) /\ m_bufferSize a < ULONG_MAX /\
    (b < next_block s)%nat /\ (forall b', (next_block s <= b')%nat -> rest !! b' = None).
Proof.
  intros Hr Hroom. destruct (p_ a) as [b|] eqn:Hp.
  - destruct (repr_elim _ _ _ _ _ Hr Hp) as (tail & ? & ? & ? & Hh & Hd & Hl & ? & ?).
    destruct tail as [|c tail]; [cbn in Hl; lia|]. inversion_clear Hd.
    exists b, c, tail. done.
  - destruct (repr_null _ _ _ _ Hr Hp) as [-> ?].
    pose proof (repr_count _ _ _ _ Hr). cbn in *. lia.
Qed.

Lemma append_with_spec checks s a l rest t v :
  repr s a l rest -> external rest t v ->
  let ok := grow_ok s a (m_numElements a + 1) in
  exists a' s', append_with checks LValue a t s = Ret (a', ok) s' /\
    repr s' a' (if ok then l ++ [v] else l) rest.
Proof.
  intros Hr He ok.
  pose proof (repr_cap _ _ _ _ Hr) as Hc. pose proof (repr_count _ _ _ _ Hr) as Hn.
  unfold ULONG_MAX in Hc. unfold append_with. rewrite paged_if. rewrite (wrap_small 64) by (unfold is_u; lia).
  destruct (grow_spec s a l rest (m_numElements a + 1) Hr) as (a1 & s1 & Hg & Hr1 & Hm & Hok & Hno);
    [lia|]. fold ok in Hg, Hok, Hno. rewrite (bind_Ret _ _ _ _ _ Hg). cbn [fst snd].
  destruct ok; cbn [negb].
  2:{ exists a1, s1. done. }
  destruct (Hok eq_refl) as [Hroom _].
  destruct (repr_room s1 a1 l rest Hr1) as (b & c & tail & Hp & Hd & Hdt & Hh & Hrb & Hl & Hn1 & Hc1 & Hb & Hf);
    [lia|].
  pose proof (construct_arg s1 b l c [] tail rest t v _ Hh Hrb Hd He Hn1) as Hca.
  rewrite Hp, (bind_Ret _ _ s1 b s1) by done.
  unfold mbind, M_bind in Hca |- *. destruct (take_arg LValue t s1) as [x s2| | |]; try done.
  rewrite Hca. eexists _, _. split; [done|]. eapply repr_intro; cbn; try done.
  - unfold ULONG_MAX in Hc1. wrap_norm. len.
  - len.
Qed.


(** [insertAt] makes the slot [i] free before it constructs into it. *)
Lemma open_slot s a b l c tail (i : nat) :
  p_ a = Some b -> heap s !! b = Some (map Obj l ++ c :: tail) -> dead_cell c ->
  m_numElements a = Z.of_nat (length l) -> Z.of_nat (length l + 1) < 2 ^ 32 ->
  (i <= length l)%nat ->
  exists c', dead_cell c' /\
    (if Z.of_nat i <? m_numElements a
     then moveElements a (u32 (Z.of_nat i)) (u32 (Z.of_nat i + 1)) (u32 (m_numElements a - Z.of_nat i))
     else mret tt) s =
    Ret tt (upd s b (map Obj (take i l) ++ c' :: map Obj (drop i l) ++ tail)).
Proof.
  intros Hp Hb Hd Hn Hw Hi.
  rewrite <- (take_drop i l), map_app, <- app_assoc in Hb.
  destruct (Z.ltb_spec (Z.of_nat i) (m_numElements a)).
  - destruct (moveElements_right s a b (take i l) (drop i l) c tail) as (c' & ? & Hmv);
      try done; [| |rewrite length_take, length_drop; lia|].
    + intros Hnil. apply (f_equal length) in Hnil. rewrite length_drop in Hnil. cbn in Hnil. lia.
    + rewrite length_take, length_drop. lia.
    + rewrite length_take, length_drop, Nat.min_l in Hmv by lia.
      exists c'. split; [done|]. wrap_norm.
      replace (Z.of_nat i + 1) with (Z.of_nat (i + 1)) by lia.
      by replace (m_numElements a - Z.of_nat i) with (Z.of_nat (length l - i)) by lia.
  - rewrite drop_ge in * by lia. exists c. split; [done|]. by rewrite upd_id.
Qed.

Lemma insertAt_with_spec s a l rest t v (i : nat) :
  repr s a l rest -> external rest t v -> (i <= length l)%nat ->
  let ok := grow_ok s a (m_numElements a + 1) in
  exists a' s', insertAt_with LValue a (Z.of_nat i) t s = Ret (a', ok) s' /\
    repr s' a' (if ok then take i l ++ v :: drop i l else l) rest.
Proof.
  intros Hr He Hi ok.
  pose proof (repr_cap _ _ _ _ Hr) as Hc. pose proof (repr_count _ _ _ _ Hr) as Hn.
  unfold ULONG_MAX in Hc. unfold insertAt_with.
  rewrite (proj2 (Z.ltb_ge _ _)) by lia. rewrite (wrap_small 64) by (unfold is_u; lia).
  destruct (grow_spec s a l rest (m_numElements a + 1) Hr) as (a1 & s1 & Hg & Hr1 & Hm & Hok & Hno);
    [lia|]. fold ok in Hg, Hok, Hno. rewrite (bind_Ret _ _ _ _ _ Hg). cbn [fst snd].
  destruct ok; cbn [negb].
  2:{ exists a1, s1. done. }
  destruct (Hok eq_refl) as [Hroom _].
  destruct (repr_room s1 a1 l rest Hr1) as (b & c & tail & Hp & Hd & Hdt & Hh & Hrb & Hl & Hn1 & Hc1 & Hb & Hf);
    [lia|]. unfold ULONG_MAX in Hc1.
  destruct (open_slot s1 a1 b l c tail i) as (c' & Hd' & Hmv);
    [done|by rewrite Hh, lookup_insert_eq|done|done|len|done|].
  rewrite (bind_Ret _ _ _ _ _ Hmv).
  set (s2 := upd s1 b _) in *.
  assert (heap s2 = <[b := map Obj (take i l) ++ c' :: map Obj (drop i l) ++ tail]> rest) as Hh2
    by (unfold s2, upd; cbn; by rewrite Hh, insert_insert_eq).
  assert (Z.of_nat i = Z.of_nat (length (take i l))) as Hi' by (rewrite length_take; lia).
  pose proof (construct_arg s2 b _ c' _ tail rest t v _ Hh2 Hrb Hd' He Hi') as Hca.
  rewrite Hp, (bind_Ret _ _ s2 b s2) by done.
  unfold mbind, M_bind in Hca |- *. destruct (take_arg LValue t s2) as [x s3| | |]; try done.
  rewrite Hca. eexists _, _. split; [done|]. eapply repr_intro; cbn; try done.
  - wrap_norm. rewrite take_drop_insert_at by lia. lia.
  - rewrite take_drop_insert_at by lia. cbn in Hl. lia.
Qed.

Lemma insertAt_with_bad c s a l rest t (i : Z) :
  repr s a l rest -> Z.of_nat (length l) < i -> insertAt_with c a i t s = Ret (a, false) s.
Proof.
  intros Hr Hi. unfold insertAt_with.
  by rewrite (proj2 (Z.ltb_lt _ _)) by (rewrite (repr_count _ _ _ _ Hr); lia).
Qed.

(** ** [eraseAt], [operator[]], [reset] *)

Lemma eraseAt_spec s a l rest (i : nat) :
  repr s a l rest -> (i < length l)%nat ->
  exists a' s', eraseAt a (Z.of_nat i) s = Ret a' s' /\ repr s' a' (delete i l) rest.
Proof.
  intros Hr Hi. destruct (p_ a) as [b|] eqn:Hp.
  2:{ destruct (repr_null _ _ _ _ Hr Hp) as [-> _]. cbn in Hi. lia. }
  destruct (repr_elim _ _ _ _ _ Hr Hp) as (tail & Hf & Hlt & Hrb & Hh & Hd & Hl & Hn & Hc).
  unfold eraseAt. rewrite paged. rewrite (proj2 (Z.leb_gt _ _)) by lia.
  rewrite Hp, (bind_Ret _ _ s b s) by done.
  destruct (lookup_lt_is_Some_2 l i Hi) as [x Hx].
  assert (l = take i l ++ x :: drop (S i) l) as Hsplit
    by (rewrite <- (drop_nth l i x Hx); symmetry; apply take_drop).
  assert (heap s !! b = Some (map Obj (take i l) ++ Obj x :: map Obj (drop (S i) l) ++ tail)) as Hb.
  { rewrite Hh, lookup_insert_eq, Hsplit at 1. by rewrite map_app, <- app_assoc. }
  erewrite bind_Ret by (eapply destroy_ok; [exact Hb|lia|apply lookup_mid; rewrite length_map, length_take; lia]).
  rewrite insert_mid by (rewrite length_map, length_take; lia).
  unfold ULONG_MAX in Hc.
  destruct (moveElements_left (upd s b (map Obj (take i l) ++ corpse x :: map Obj (drop (S i) l) ++ tail))
              a b (take i l) (corpse x) (drop (S i) l) tail) as (c & Hdc & Hmv);
    [done|apply upd_lookup|apply corpse_dead|rewrite length_take, length_drop; lia
    |unfold ULONG_MAX; rewrite length_take, length_drop; lia|].
  rewrite length_take, length_drop, Nat.min_l in Hmv by lia.
  erewrite bind_Ret.
  2:{ wrap_norm. replace (Z.of_nat i + 1) with (Z.of_nat (i + 1)) by lia.
      replace (m_numElements a - Z.of_nat i - 1) with (Z.of_nat (length l - S i)) by lia.
      exact Hmv. }
  rewrite upd_upd, app_assoc, <- map_app, <- delete_take_drop.
  eexists _, _. split; [done|].
  assert (length (delete i l) = (length l - 1)%nat) as Hdl by (apply length_delete; eauto).
  rewrite <- Hp. eapply repr_upd; try done; [by constructor| |]; rewrite Hdl.
  - wrap_norm. lia.
  - cbn. lia.
Qed.

Lemma at_index_spec s a l rest (i : nat) x :
  repr s a l rest -> l !! i = Some x ->
  exists b, at_index a (Z.of_nat i) s = Ret (b, Z.of_nat i) s /\ p_ a = Some b /\
    load (b, Z.of_nat i) s = Ret x s.
Proof.
  intros Hr Hx. pose proof (lookup_lt_Some _ _ _ Hx). destruct (p_ a) as [b|] eqn:Hp.
  2:{ destruct (repr_null _ _ _ _ Hr Hp) as [-> _]. done. }
  destruct (repr_some _ _ _ _ _ Hr Hp) as (tail & Hb & _). exists b.
  unfold at_index. rewrite (proj2 (Z.leb_gt _ _)) by (rewrite (repr_count _ _ _ _ Hr); lia).
  rewrite Hp. split; [done|]. split; [done|].
  eapply load_ok; [done|lia|]. rewrite Nat2Z.id, lookup_app_l by (by rewrite length_map).
  by rewrite list_lookup_fmap, Hx.
Qed.

Lemma reset_spec s a l rest :
  repr s a l rest ->
  exists s', reset a s = Ret empty s' /\ heap s' = rest /\ next_block s' = next_block s.
Proof.
  intros Hr. unfold reset. destruct (p_ a) as [b|] eqn:Hp.
  - destruct (repr_elim _ _ _ _ _ Hr Hp) as (tail & Hf & Hlt & Hrb & Hh & Hd & Hl & Hn & Hc).
    assert (heap s !! b = Some (map Obj l ++ tail)) as Hb by (by rewrite Hh, lookup_insert_eq).
    unfold ULONG_MAX in Hc. rewrite Hn.
    erewrite (bind_Ret _ _ s tt (upd s b (map corpse l ++ tail))).
    2:{ unfold corpse. destruct trivially_destructible eqn:Ht; cbn [negb].
        - by rewrite upd_id.
        - erewrite bind_Ret by (apply destroy_down; [done|lia|lia]).
          unfold corpse. by rewrite Ht. }
    erewrite bind_Ret
      by (eapply free_ok; [apply upd_lookup|apply dead_app; split; [apply dead_corpses|done]]).
    eexists. split; [done|]. split; [|done]. cbn.
    by rewrite delete_insert_eq, Hh, delete_insert_id.
  - pose proof (repr_buf _ _ _ _ Hr) as Hb. rewrite Hp in Hb. destruct Hb as [Hb Hh].
    pose proof (repr_count _ _ _ _ Hr). destruct (repr_null _ _ _ _ Hr Hp) as [-> _].
    exists s. split; [|done]. destruct a; cbn in *. subst. done.
Qed.

(** ** [resize] *)

(** The value of the elements [resize] adds. *)
Definition fill : T := if trivially_default_constructible then zero_value else default_value.

Definition resized (n : nat) l : list T := take n l ++ replicate (n - length l) fill.

Lemma for_up64_empty lo hi (body : Z -> M (kstate T) unit) s :
  hi <= lo -> for_up64 lo hi body s = Ret tt s.
Proof.
  intros. unfold for_up64. replace (Z.to_nat (hi - lo)) with O by lia. cbn.
  by rewrite (proj2 (Z.ltb_ge _ _)) by lia.
Qed.

(** Construction or zeroing of the slots from the end of the list to [n]. *)
Lemma resize_fill s a b l t1 t2 n :
  p_ a = Some b -> m_numElements a = Z.of_nat (length l) ->
  heap s !! b = Some (map Obj l ++ t1 ++ t2) -> dead t1 ->
  length t1 = (n - length l)%nat -> Z.of_nat n < 2 ^ 32 ->
  (if trivially_default_constructible then
     if m_numElements a <? Z.of_nat n
     then b ← deref (p_ a); mem_zero b (m_numElements a) (Z.of_nat n - m_numElements a)
     else mret tt
   else for_up64 (m_numElements a) (Z.of_nat n) (fun i =>
          b ← deref (p_ a); construct (b, i) default_value)) s =
  Ret tt (upd s b (map Obj (l ++ replicate (n - length l) fill) ++ t2)).
Proof.
  intros Hp Hn Hb Hd Ht Hw. rewrite Hp, Hn, map_app, fmap_replicate, <- app_assoc.
  destruct (decide (n <= length l)%nat) as [Hle|Hgt].
  { destruct t1; [|cbn in Ht; lia].
    replace (n - length l)%nat with O by lia. cbn in *. rewrite (upd_id s) by done.
    destruct trivially_default_constructible;
      [by rewrite (proj2 (Z.ltb_ge _ _)) by lia|by rewrite for_up64_empty by lia]. }
  unfold fill. destruct trivially_default_constructible.
  - rewrite (proj2 (Z.ltb_lt _ _)) by lia. rewrite (bind_Ret _ _ s b s) by done.
    unfold mem_zero. erewrite write_span_ok; [|done|lia|len].
    replace (Z.to_nat (Z.of_nat n - Z.of_nat (length l))) with (n - length l)%nat by lia.
    rewrite Nat2Z.id, length_replicate, take_app_length' by len.
    rewrite (app_assoc (map Obj l) t1), drop_app_length' by len. done.
  - unfold for_up64. erewrite bind_Ret; [done|].
    pose proof (construct_up 64 s b (map Obj l) t1 t2
      (Z.to_nat (Z.of_nat n - Z.of_nat (length l))) default_value
      (fun i => b ← deref (Some b); construct (b, i) default_value)) as Hc.
    rewrite Ht, length_map in Hc. replace (length l + (n - length l))%nat with n in Hc by lia.
    rewrite Hc; [done|done|done|lia|lia|done].
Qed.

(** Destruction of the elements from [n] on, if there are any. *)
Lemma resize_trim s a b l l2 post m :
  p_ a = Some b -> m_numElements a = Z.of_nat m ->
  heap s !! b = Some (map Obj l ++ map Obj l2 ++ post) ->
  length l2 = (m - length l)%nat -> Z.of_nat m < 2 ^ 32 ->
  (if negb trivially_destructible then
     for_up64 (Z.of_nat (length l)) (m_numElements a) (fun i => b ← deref (p_ a); destroy (b, i))
   else mret tt) s =
  Ret tt (upd s b (map Obj l ++ map corpse l2 ++ post)).
Proof.
  intros Hp Hn Hb Hl2 Hw. rewrite Hp, Hn. destruct trivially_destructible eqn:Ht; cbn [negb].
  { unfold corpse. rewrite Ht. by rewrite upd_id. }
  destruct (decide (m <= length l)%nat).
  { rewrite for_up64_empty by lia. destruct l2; [|cbn in Hl2; lia]. cbn in *. by rewrite upd_id. }
  unfold for_up64. erewrite bind_Ret; [done|].
  pose proof (destroy_up 64 s b (map Obj l) l2 post
    (Z.to_nat (Z.of_nat m - Z.of_nat (length l)))
    (fun i => b ← deref (Some b); destroy (b, i))) as Hc.
  rewrite length_map in Hc. replace (length l + length l2)%nat with m in Hc by lia.
  rewrite Hc; [done|done|lia|lia|done].
Qed.

(** Both loops, on an array that has room for [n] elements. *)
Lemma resize_loops s a b l rest n :
  repr s a l rest -> p_ a = Some b -> Z.of_nat n <= m_bufferSize a ->
  exists s', (_ ← (if trivially_default_constructible then
           if m_numElements a <? Z.of_nat n
           then b ← deref (p_ a); mem_zero b (m_numElements a) (Z.of_nat n - m_numElements a)
           else mret tt
         else for_up64 (m_numElements a) (Z.of_nat n) (fun i =>
                b ← deref (p_ a); construct (b, i) default_value));
    (if negb trivially_destructible then
           for_up64 (Z.of_nat n) (m_numElements a) (fun i =>
             b ← deref (p_ a); destroy (b, i))
         else mret tt)) s = Ret tt s' /\
    repr s' (mkKArray (m_bufferSize a) (Z.of_nat n) (p_ a)) (resized n l) rest.
Proof.
  intros Hr Hp Hroom.
  destruct (repr_elim _ _ _ _ _ Hr Hp) as (tail & Hf & Hlt & Hrb & Hh & Hd & Hl & Hn & Hc).
  unfold ULONG_MAX in Hc.
  rewrite <- (take_drop (n - length l) tail) in Hd. apply dead_app in Hd as [Hd1 Hd2].
  erewrite bind_Ret.
  2:{ eapply (resize_fill s a b l (take (n - length l) tail) (drop (n - length l) tail));
        [done|done|by rewrite take_drop, Hh, lookup_insert_eq|done|rewrite length_take; lia|lia]. }
  assert (length (resized n l) = n) as Hln
    by (unfold resized; rewrite length_app, length_take, length_replicate; lia).
  replace (l ++ replicate (n - length l) fill) with (resized n l ++ drop n l).
  2:{ unfold resized. destruct (decide (n <= length l)%nat).
      - replace (n - length l)%nat with O by lia. cbn. by rewrite !app_nil_r, take_drop.
      - by rewrite take_ge, drop_ge, app_nil_r by lia. }
  rewrite map_app, <- app_assoc.
  pose proof (resize_trim (upd s b (map Obj (resized n l) ++ map Obj (drop n l) ++
    drop (n - length l) tail)) a b (resized n l) (drop n l) (drop (n - length l) tail)
    (length l)) as Htr.
  rewrite Hln in Htr.
  rewrite Htr; [|done|done|apply upd_lookup|rewrite length_drop; lia|lia].
  eexists. split; [done|]. rewrite upd_upd.
  eapply repr_upd; try done.
  - apply dead_app. split; [apply dead_corpses|done].
  - by rewrite Hln.
  - rewrite Hln, length_app, length_map, !length_drop. lia.
Qed.

Lemma resize_spec s a l rest (n : nat) :
  repr s a l rest ->
  let ok := reserve_ok s a (Z.of_nat n) in
  exists a' s', resize a (Z.of_nat n) s = Ret (a', ok) s' /\
    repr s' a' (if ok then resized n l else l) rest.
Proof.
  intros Hr ok. unfold resize.
  destruct (reserve_spec s a l rest (Z.of_nat n) Hr) as (a1 & s1 & He & Hr1 & Hm & Hok & Hno); [lia|].
  fold ok in He, Hok, Hno. rewrite (bind_Ret _ _ _ _ _ He). cbn [fst snd].
  destruct ok; cbn [negb]; [|by exists a1, s1].
  specialize (Hok eq_refl). pose proof (repr_cap _ _ _ _ Hr1) as Hcap.
  unfold ULONG_MAX in Hcap.
  replace (u32 (Z.of_nat n)) with (Z.of_nat n) by (wrap_norm; lia).
  destruct (p_ a1) as [b|] eqn:Hp.
  - destruct (resize_loops s1 a1 b l rest n Hr1 Hp) as (s2 & Hl & Hr2); [lia|].
    rewrite Hp in Hl, Hr2. exists (mkKArray (m_bufferSize a1) (Z.of_nat n) (Some b)), s2.
    split; [|done]. apply bind_inv in Hl as (u & s3 & Hl1 & Hl2).
    by rewrite (bind_Ret _ _ _ _ _ Hl1), (bind_Ret _ _ _ _ _ Hl2).
  - destruct (repr_null _ _ _ _ Hr1 Hp) as [-> Hb0].
    pose proof (repr_count _ _ _ _ Hr1) as Hc1. cbn in Hc1.
    assert (n = O) as -> by lia. exists (mkKArray (m_bufferSize a1) 0 None), s1. rewrite Hc1.
    split; [by destruct trivially_default_constructible, trivially_destructible|].
    replace (mkKArray _ _ _) with a1; [exact Hr1|]. destruct a1; cbn in *. f_equal; [lia|done].
Qed.

(** ** Iteration *)

Lemma range_for_spec s a l rest fuel (i : nat) :
  repr s a l rest -> (i <= length l)%nat -> (length l - i <= fuel)%nat ->
  range_for fuel (mkIterator a (Z.of_nat i)) (mkIterator a (m_numElements a)) s = Ret (drop i l) s.
Proof.
  intros Hr. pose proof (repr_count _ _ _ _ Hr) as Hn. pose proof (repr_cap _ _ _ _ Hr) as Hc.
  unfold ULONG_MAX in Hc.
  revert i. induction fuel as [|fuel IH]; intros i Hi Hf; cbn [range_for];
    unfold it_neq, it_eq; cbn [it_i]; rewrite Hn.
  { rewrite (proj2 (Z.eqb_eq _ _)) by lia. cbn. by rewrite drop_ge by lia. }
  destruct (Z.eqb_spec (Z.of_nat i) (Z.of_nat (length l))); cbn [negb].
  { by rewrite drop_ge by lia. }
  destruct (lookup_lt_is_Some_2 l i) as [x Hx]; [lia|].
  destruct (at_index_spec s a l rest i x Hr Hx) as (b & Hat & Hp & Hld).
  unfold it_deref. cbn [it_a it_i].
  rewrite (bind_Ret _ _ _ _ _ Hat), (bind_Ret _ _ _ _ _ Hld).
  erewrite (bind_Ret _ _ s (drop (S i) l) s); [by rewrite (drop_nth l i x Hx)|].
  unfold it_next; cbn [it_a it_i]. rewrite (wrap_small 64) by (unfold is_u; lia).
  replace (Z.of_nat i + 1) with (Z.of_nat (S i)) by lia.
  rewrite <- Hn. apply IH; lia.
Qed.

(** ** The scan of the sorted insertions *)

Fixpoint find_slot (less : T -> T -> bool) (v : T) l : nat :=
  match l with
  | [] => O
  | x :: l' => if less x v then S (find_slot less v l') else O
  end.

Lemma find_slot_le less v l : (find_slot less v l <= length l)%nat.
Proof. induction l as [|x l IH]; cbn; [lia|]. destruct (less x v); lia. Qed.

Lemma scan_spec less s a l rest t v fuel (i : nat) :
  repr s a l rest -> external rest t v -> (i <= length l)%nat -> (length l - i <= fuel)%nat ->
  scan less fuel a t (Z.of_nat i) s =
    Ret (match drop (i + find_slot less v (drop i l)) l with
         | [] => None
         | x :: _ => Some (Z.of_nat (i + find_slot less v (drop i l)), x)
         end) s.
Proof.
  intros Hr He. pose proof (repr_count _ _ _ _ Hr) as Hn. pose proof (repr_cap _ _ _ _ Hr) as Hc.
  unfold ULONG_MAX in Hc.
  revert i. induction fuel as [|fuel IH]; intros i Hi Hf; cbn [scan]; rewrite Hn.
  { rewrite (proj2 (Z.ltb_ge _ _)) by lia. by rewrite (drop_ge l (i + _)) by lia. }
  destruct (Z.ltb_spec (Z.of_nat i) (Z.of_nat (length l))).
  2:{ by rewrite (drop_ge l (i + _)) by lia. }
  destruct (lookup_lt_is_Some_2 l i) as [x Hx]; [lia|].
  destruct (at_index_spec s a l rest i x Hr Hx) as (b & _ & Hp & Hld).
  rewrite Hp, (bind_Ret _ _ s b s), (bind_Ret _ _ _ _ _ Hld) by done.
  rewrite (bind_Ret _ _ s v s) by (by eapply load_external).
  rewrite (drop_nth l i x Hx). cbn [find_slot].
  destruct (less x v); cbn [negb].
  - rewrite (wrap_small 64) by (unfold is_u; lia).
    replace (Z.of_nat i + 1) with (Z.of_nat (S i)) by lia. rewrite IH by lia.
    by replace (i + S (find_slot less v (drop (S i) l)))%nat
      with (S i + find_slot less v (drop (S i) l))%nat by lia.
  - rewrite Nat.add_0_r, (drop_nth l i x Hx). done.
Qed.

(** Inserting at the found slot, as both branches of [insertSorted] do. *)
Definition insert_sorted (less : T -> T -> bool) (v : T) l : list T :=
  take (find_slot less v l) l ++ v :: drop (find_slot less v l) l.

Lemma insertSorted_with_spec less s a l rest t v :
  repr s a l rest -> external rest t v ->
  let ok := grow_ok s a (m_numElements a + 1) in
  exists a' s', insertSorted_with LValue less a t s = Ret (a', ok) s' /\
    repr s' a' (if ok then insert_sorted less v l else l) rest.
Proof.
  intros Hr He ok. unfold insertSorted_with.
  pose proof (scan_spec less s a l rest t v (Z.to_nat (m_numElements a)) 0 Hr He) as Hs.
  rewrite (repr_count _ _ _ _ Hr) in Hs at 1.
  rewrite (bind_Ret _ _ _ _ _ (Hs ltac:(lia) ltac:(lia))). cbn [Nat.add].
  rewrite drop_0. pose proof (find_slot_le less v l) as Hle. unfold insert_sorted.
  destruct (drop (find_slot less v l) l) as [|x r] eqn:Hd.
  - rewrite take_ge by (apply (f_equal length) in Hd; rewrite length_drop in Hd; cbn in Hd; lia).
    by apply append_with_spec.
  - rewrite <- Hd. by apply insertAt_with_spec.
Qed.

Lemma insertSortedUnique_with_spec less s a l rest t v :
  repr s a l rest -> external rest t v ->
  let present := match drop (find_slot less v l) l with
                 | [] => false | x :: _ => negb (less v x) end in
  let ok := present || grow_ok s a (m_numElements a + 1) in
  let added := negb present && ok in
  exists a' s', insertSortedUnique_with LValue less a t s = Ret (a', ok) s' /\
    repr s' a' (if added then insert_sorted less v l else l) rest.
Proof.
  intros Hr He present ok added. unfold insertSortedUnique_with, ok, added, present.
  pose proof (scan_spec less s a l rest t v (Z.to_nat (m_numElements a)) 0 Hr He) as Hs.
  rewrite (repr_count _ _ _ _ Hr) in Hs at 1.
  rewrite (bind_Ret _ _ _ _ _ (Hs ltac:(lia) ltac:(lia))). cbn [Nat.add].
  rewrite drop_0. pose proof (find_slot_le less v l) as Hle. unfold insert_sorted.
  destruct (drop (find_slot less v l) l) as [|x r] eqn:Hd.
  - rewrite take_ge by (apply (f_equal length) in Hd; rewrite length_drop in Hd; cbn in Hd; lia).
    by apply append_with_spec.
  - rewrite (bind_Ret _ _ s v s) by (by eapply load_external).
    destruct (less v x); cbn [negb orb andb]; [|by exists a, s].
    rewrite <- Hd. by apply insertAt_with_spec.
Qed.

End Spec.
