(* ===== verification/KArrayTheorems.v ===== *)
(** * Theorems about [KArray]

    The contract of the container, stated over the model of [KArray.v] and
    proved from the lemmas of [KArraySpec.v]: it refines a list under every
    sequence of operations, keeps sorted sequences sorted, visits its elements
    in order, checks its indices, releases everything it owns; and the two
    places where it does not do what it means to. *)

From Stdlib Require Import Sorting.Sorted Sorting.Permutation.
From S2P Require Import Prelude KArray KArrayLemmas KArraySpec.

(** ** Concrete element types and pools, for the witnesses *)

(** A trivially copyable type. *)
Inductive pod := Pod (z : Z).

#[export] Instance pod_type : ElemType pod := {|
  sizeof := 4; trivially_copyable := true; trivially_default_constructible := true;
  trivially_destructible := true; default_value := Pod 0; zero_value := Pod 0;
  moved_from := fun x => x; sizeof_pos := eq_refl; copyable_destructible := fun _ => eq_refl
|}.

(** A type that owns something: its constructors and its destructor do work. *)
Inductive owner := Owner (z : Z) | Nobody.

#[export] Instance owner_type : ElemType owner := {|
  sizeof := 8; trivially_copyable := false; trivially_default_constructible := false;
  trivially_destructible := false; default_value := Nobody; zero_value := Nobody;
  moved_from := fun _ => Nobody; sizeof_pos := eq_refl;
  copyable_destructible := fun H => match Bool.diff_false_true H with end
|}.

Definition size_mult (a b : Z) : option Z := if a * b <? 2 ^ 64 then Some (a * b) else None.

Lemma size_mult_fits a b : 0 <= a -> 0 <= b -> a * b < 2 ^ 64 -> size_mult a b = Some (a * b).
Proof. intros. unfold size_mult. by rewrite (proj2 (Z.ltb_lt _ _)). Qed.

Lemma size_mult_overflows a b : 0 <= a -> 0 <= b -> 2 ^ 64 <= a * b -> size_mult a b = None.
Proof. intros. unfold size_mult. by rewrite (proj2 (Z.ltb_ge _ _)). Qed.

Definition pool (ok : nat -> Z -> bool) : PoolEnv := {|
  checked_kernel := true; current_irql := 0; pool_ok := ok; RtlSIZETMult := size_mult;
  RtlSIZETMult_fits := size_mult_fits; RtlSIZETMult_overflows := size_mult_overflows
|}.

#[export] Instance pool_low ok : LowIrql (H := pool ok).
Proof. by intros _. Qed.

Definition roomy : PoolEnv := pool (fun _ _ => true).
Definition exhausted : PoolEnv := pool (fun _ _ => false).

(** A heap whose block 0 holds three objects the arguments refer to. *)
Definition args {T} (x y z : T) : kstate T := mkState {[ O := [Obj x; Obj y; Obj z] ]} 1.

Lemma args_repr {T} (x y z : T) `{!ElemType T} :
  repr (args x y z) empty [] {[ O := [Obj x; Obj y; Obj z] ]}.
Proof.
  apply repr_empty; [|done]. intros b Hb. cbn in *.
  by apply lookup_singleton_ne; lia.
Qed.

(** ** Sequences of operations *)

Section Refinement.
Context {T : Type} `{!ElemType T} `{!PoolEnv} `{Hirql : !LowIrql}.
Variable less : T -> T -> bool.

(** The members of the class that change the array; [mv] selects the [T &&]
    overload. *)
Inductive cmd :=
  | CReserve (n : nat)
  | CResize (n : nat)
  | CClear
  | CPopBack
  | CAppend (mv : bool) (t : loc)
  | CPushBack (mv : bool) (t : loc)
  | CInsertAt (mv : bool) (i : Z) (t : loc)
  | CInsertSorted (mv : bool) (t : loc)
  | CInsertSortedUnique (mv : bool) (t : loc)
  | CEraseAt (i : nat).

Definition exec (c : cmd) (a : KArray) : M (kstate T) (KArray * bool) :=
  match c with
  | CReserve n => reserve a (Z.of_nat n)
  | CResize n => resize a (Z.of_nat n)
  | CClear => a' ← clear a; mret (a', true)
  | CPopBack => a' ← pop_back a; mret (a', true)
  | CAppend mv t => if mv then append_move a t else append_copy a t
  | CPushBack mv t => if mv then push_back_move a t else push_back_copy a t
  | CInsertAt mv i t => if mv then insertAt_move a i t else insertAt_copy a i t
  | CInsertSorted mv t => if mv then insertSorted_move less a t else insertSorted_copy less a t
  | CInsertSortedUnique mv t =>
      if mv then insertSortedUnique_move less a t else insertSortedUnique_copy less a t
  | CEraseAt i => a' ← eraseAt a (Z.of_nat i); mret (a', true)
  end.

(** A client of the container: it calls a member and goes on according to the
    boolean the call returned. *)
Inductive client :=
  | Done
  | Call (c : cmd) (k : bool -> client).

Fixpoint run (cl : client) (a : KArray) : M (kstate T) (KArray * list bool) :=
  match cl with
  | Done => mret (a, [])
  | Call c k => r ← exec c a; r' ← run (k r.2) r.1; mret (r'.1, r.2 :: r'.2)
  end.

(** The specification: a list.  [rest] is the memory outside the array, with the
    objects the arguments refer to.  [None] is a call outside the contract (an
    argument that is not an object outside the array, an index out of range). *)
Definition arg_value (rest : gmap nat (list (cell T))) (t : loc) : option T :=
  if 0 <=? t.2 then
    match rest !! t.1 with
    | Some cs => match cs !! Z.to_nat t.2 with Some (Obj v) => Some v | _ => None end
    | None => None
    end
  else None.

(** An insertion into the list when it succeeded. *)
Definition aput (ok : bool) (ins : T -> list T) (l : list T) (v : T) : list T :=
  if ok then ins v else l.

Definition present (v : T) (l : list T) : bool :=
  match drop (find_slot less v l) l with [] => false | x :: _ => negb (less v x) end.

Definition astep (rest : gmap nat (list (cell T))) (ok : bool) (c : cmd) (l : list T) : option (list T) :=
  match c with
  | CReserve _ => Some l
  | CResize n => Some (if ok then resized n l else l)
  | CClear => Some []
  | CPopBack => Some (take (length l - 1) l)
  | CAppend _ t | CPushBack _ t => aput ok (fun v => l ++ [v]) l <$> arg_value rest t
  | CInsertAt _ i t =>
      if 0 <=? i
      then aput ok (fun v => take (Z.to_nat i) l ++ v :: drop (Z.to_nat i) l) l <$> arg_value rest t
      else None
  | CInsertSorted _ t => aput ok (fun v => insert_sorted less v l) l <$> arg_value rest t
  | CInsertSortedUnique _ t =>
      (fun v => if present v l then l else aput ok (fun v => insert_sorted less v l) l v) <$> arg_value rest t
  | CEraseAt i => if (i <? length l)%nat then Some (delete i l) else None
  end.

Fixpoint arun (rest : gmap nat (list (cell T))) (cl : client) (oks : list bool) (l : list T) : option (list T) :=
  match cl, oks with
  | Done, [] => Some l
  | Call c k, ok :: oks => l' ← astep rest ok c l; arun rest (k ok) oks l'
  | _, _ => None
  end.

(** Every call of the client is within the contract, whatever the calls return. *)
Fixpoint admissible (rest : gmap nat (list (cell T))) (cl : client) (l : list T) : Prop :=
  match cl with
  | Done => True
  | Call c k => forall ok, match astep rest ok c l with
                           | Some l' => admissible rest (k ok) l'
                           | None => False
                           end
  end.

Lemma arg_value_external rest t v : arg_value rest t = Some v -> external rest t v.
Proof.
  unfold arg_value, external. destruct (Z.leb_spec 0 t.2); [|done].
  destruct (rest !! t.1) as [cs|]; [|done].
  destruct (cs !! Z.to_nat t.2) as [[|w]|] eqn:Hc; try done.
  intros [= ->]. eauto.
Qed.

(** [resize] below the capacity cannot fail. *)
Lemma reserve_ok_le s a n : n <= m_bufferSize a -> reserve_ok s a n = true.
Proof. intros. unfold reserve_ok. by rewrite (proj2 (Z.leb_le _ _)). Qed.

Lemma resized_le n (l : list T) : (n <= length l)%nat -> resized n l = take n l.
Proof. intros. unfold resized. replace (n - length l)%nat with O by lia. by rewrite app_nil_r. Qed.

Lemma clear_spec s a l rest :
  repr s a l rest -> exists a' s', clear a s = Ret a' s' /\ repr s' a' [] rest.
Proof.
  intros Hr. destruct (resize_spec s a l rest 0 Hr) as (a' & s' & He & Hr').
  rewrite reserve_ok_le in He, Hr'
    by (pose proof (repr_cap _ _ _ _ Hr); pose proof (repr_count _ _ _ _ Hr); lia).
  rewrite resized_le in Hr' by lia. exists a', s'. split; [|done].
  unfold clear. by rewrite (bind_Ret _ _ _ _ _ He).
Qed.

(** [pop_back]: on an empty array [count() - 1] wraps and [resize] refuses. *)
Lemma pop_back_spec s a l rest :
  repr s a l rest ->
  exists a' s', pop_back a s = Ret a' s' /\ repr s' a' (take (length l - 1) l) rest.
Proof.
  intros Hr. pose proof (repr_cap _ _ _ _ Hr) as Hc. pose proof (repr_count _ _ _ _ Hr) as Hn.
  unfold ULONG_MAX in Hc. unfold pop_back, count. destruct l as [|x l].
  - exists a, s. split; [|done].
    replace (u64 (m_numElements a - 1)) with (2 ^ 64 - 1) by (by rewrite Hn). unfold resize.
    assert (reserve a (2 ^ 64 - 1) s = Ret (a, false) s) as Hf by (apply reserve_refused; unfold ULONG_MAX; lia).
    erewrite bind_Ret; [|by rewrite (bind_Ret _ _ _ _ _ Hf)]. done.
  - pose proof (length_cons l x).
    replace (u64 (m_numElements a - 1)) with (Z.of_nat (length (x :: l) - 1)) by (wrap_norm; lia).
    destruct (resize_spec s a (x :: l) rest (length (x :: l) - 1) Hr) as (a' & s' & He & Hr').
    rewrite reserve_ok_le in He, Hr' by lia. rewrite resized_le in Hr' by lia.
    exists a', s'. by rewrite (bind_Ret _ _ _ _ _ He).
Qed.

(** Closes a goal of [exec_step] with the specification in the context. *)
Ltac close_step :=
  eexists _, _, _, _; split; [eassumption || reflexivity|split; [reflexivity|eassumption]].

(** The object the argument of an insertion refers to. *)
Ltac with_argument_value v Hv :=
  match goal with |- context [arg_value ?rest ?t] => destruct (arg_value rest t) as [v|] eqn:Hv end;
  [|done]; apply arg_value_external in Hv; cbn [fmap option_fmap option_map]; unfold aput.

Lemma exec_step c s a l rest :
  repr s a l rest -> (forall ok, astep rest ok c l <> None) ->
  exists a' ok s' l', exec c a s = Ret (a', ok) s' /\
    astep rest ok c l = Some l' /\ repr s' a' l' rest.
Proof.
  intros Hr Ha. pose proof (repr_count _ _ _ _ Hr) as Hn. specialize (Ha true).
  destruct c as [n|n| | |mv t|mv t|mv i t|mv t|mv t|i]; cbn [exec astep] in *.
  - destruct (reserve_spec s a l rest (Z.of_nat n) Hr) as (a' & s' & He & Hr' & _); [lia|].
    close_step.
  - destruct (resize_spec s a l rest n Hr) as (a' & s' & He & Hr').
    destruct (reserve_ok s a (Z.of_nat n)); close_step.
  - destruct (clear_spec s a l rest Hr) as (a' & s' & He & Hr').
    rewrite (bind_Ret _ _ _ _ _ He). close_step.
  - destruct (pop_back_spec s a l rest Hr) as (a' & s' & He & Hr').
    rewrite (bind_Ret _ _ _ _ _ He). close_step.
  - with_argument_value v Hv.
    destruct (append_with_spec (negb mv) s a l rest t v Hr Hv) as (a' & s' & He & Hr').
    destruct mv, (grow_ok s a _); close_step.
  - with_argument_value v Hv.
    destruct (append_with_spec true s a l rest t v Hr Hv) as (a' & s' & He & Hr').
    assert ((if mv then push_back_move a t else push_back_copy a t) s = append_copy a t s) as ->
      by (destruct mv; apply paged).
    destruct (grow_ok s a _); close_step.
  - destruct (Z.leb_spec 0 i); [|done]. with_argument_value v Hv.
    assert ((if mv then insertAt_move a i t else insertAt_copy a i t) = insertAt_with LValue a i t) as ->
      by (by destruct mv).
    destruct (decide (Z.to_nat i <= length l)%nat).
    + destruct (insertAt_with_spec s a l rest t v (Z.to_nat i) Hr Hv)
        as (a' & s' & He & Hr'); [lia|]. rewrite Z2Nat.id in He by lia.
      destruct (grow_ok s a _); close_step.
    + pose proof (insertAt_with_bad LValue s a l rest t i Hr ltac:(lia)). close_step.
  - with_argument_value v Hv.
    destruct (insertSorted_with_spec less s a l rest t v Hr Hv) as (a' & s' & He & Hr').
    destruct mv, (grow_ok s a _); close_step.
  - with_argument_value v Hv.
    destruct (insertSortedUnique_with_spec less s a l rest t v Hr Hv) as (a' & s' & He & Hr').
    fold (present v l) in *. destruct mv, (present v l), (grow_ok s a _); close_step.
  - destruct (Nat.ltb_spec i (length l)); [|done].
    destruct (eraseAt_spec s a l rest i Hr) as (a' & s' & He & Hr'); [lia|].
    rewrite (bind_Ret _ _ _ _ _ He). close_step.
Qed.

Lemma dtor_spec s a l rest : repr s a l rest -> exists s', dtor a s = Ret tt s' /\ heap s' = rest.
Proof.
  intros Hr. destruct (reset_spec s a l rest Hr) as (s' & He & Hh & _).
  exists s'. unfold dtor. by rewrite (bind_Ret _ _ _ _ _ He).
Qed.

(** A client within the contract, by induction on its calls. *)
Lemma client_run_spec (cl : client) s a l rest :
  repr s a l rest -> admissible rest cl l ->
  exists a' oks s' l', run cl a s = Ret (a', oks) s' /\
    arun rest cl oks l = Some l' /\ repr s' a' l' rest.
Proof.
  revert s a l. induction cl as [|c k IH]; intros s a l Hr Ha.
  - exists a, [], s, l. done.
  - destruct (exec_step c s a l rest Hr) as (a1 & ok & s1 & l1 & He & Hs & Hr1).
    { intros ok Hn. specialize (Ha ok). by rewrite Hn in Ha. }
    specialize (Ha ok). rewrite Hs in Ha.
    destruct (IH ok s1 a1 l1 Hr1 Ha) as (a2 & oks & s2 & l2 & He2 & Hs2 & Hr2).
    exists a2, (ok :: oks), s2, l2. cbn [run arun]. split; [|by rewrite Hs].
    rewrite (bind_Ret _ _ _ _ _ He). cbn [fst snd]. by rewrite (bind_Ret _ _ _ _ _ He2).
Qed.

(** C1: the container refines a list.  Whatever a client does within the
    contract (reserve, resize, clear, pop, append, push, insert at an index or in
    sorted position, by the overloads for lvalues or for rvalues, erase,
    branching on the results), and whichever allocations fail, every call
    returns (no assertion, no fault, no endless loop), the array afterwards
    holds exactly the list the specification computes from the booleans the
    calls returned, and every block of the heap that is not the array's own is
    unchanged, the arguments included.  Destroying the array then destroys its
    elements, frees its buffer and leaves exactly those other blocks. *)
Theorem karray_refines_list (cl : client) s a l rest :
  repr s a l rest -> admissible rest cl l ->
  exists a' oks s' l', run cl a s = Ret (a', oks) s' /\
    arun rest cl oks l = Some l' /\ repr s' a' l' rest /\
    exists s'', dtor a' s' = Ret tt s'' /\ heap s'' = rest.
Proof.
  intros Hr Ha. destruct (client_run_spec cl s a l rest Hr Ha) as (a' & oks & s' & l' & He & Hs & Hr').
  destruct (dtor_spec s' a' l' rest Hr') as (s'' & Hd & Hh).
  exists a', oks, s', l'. split_and!; [done|done|done|]. by exists s''.
Qed.

End Refinement.

Definition owner_less (x y : owner) : bool :=
  match x, y with Owner a, Owner b => a <? b | Nobody, Owner _ => true | _, _ => false end.

(** Append an rvalue, insert an lvalue before it, and erase the first if both worked. *)
Definition demo_client : client :=
  Call (CAppend true (O, 0)) (fun ok => if ok then
    Call (CInsertAt false 0 (O, 1)) (fun ok => if ok then
      Call (CEraseAt 0) (fun _ => Call (CInsertSorted false (O, 2)) (fun _ => Done))
    else Done) else Done).

Lemma karray_refines_list_witness :
  exists a' oks s' l',
    run (H := roomy) owner_less demo_client empty (args (Owner 7) (Owner 5) (Owner 6)) =
      Ret (a', oks) s' /\
    arun owner_less {[ O := [Obj (Owner 7); Obj (Owner 5); Obj (Owner 6)] ]} demo_client oks [] = Some l' /\
    repr s' a' l' {[ O := [Obj (Owner 7); Obj (Owner 5); Obj (Owner 6)] ]} /\
    exists s'', dtor a' s' = Ret tt s'' /\ heap s'' = {[ O := [Obj (Owner 7); Obj (Owner 5); Obj (Owner 6)] ]}.
Proof.
  apply (karray_refines_list (H := roomy) owner_less demo_client).
  - apply args_repr.
  - vm_compute. repeat first [done|intros [|]].
Defined.
