(* ===== verification/KArrayContracts.v ===== *)
(** * Contracts of single operations of [KArray]

    What the members promise one by one: when an append succeeds and what it
    costs, sorted insertion, checked access, iteration, release of the buffer,
    move assignment, the filling constructor, and arguments that alias the
    array's own elements. *)

From Stdlib Require Import Sorting.Sorted Sorting.Permutation.
From S2P Require Import Prelude KArray KArrayLemmas KArraySpec KArrayTheorems.

Section Contracts.
Context {T : Type} `{!ElemType T} `{!PoolEnv} `{Hirql : !LowIrql}.

Implicit Types (s : kstate T) (l : list T) (a : KArray) (rest : gmap nat (list (cell T))).

(** ** Append *)

(** The capacity after an append that succeeded. *)
Definition next_capacity a : Z :=
  if m_numElements a <? m_bufferSize a then m_bufferSize a
  else grow_capacity a (m_numElements a + 1).

Lemma append_with_cap checks s a l rest t v :
  repr s a l rest -> external rest t v ->
  let ok := grow_ok s a (m_numElements a + 1) in
  exists a' s', append_with checks LValue a t s = Ret (a', ok) s' /\
    repr s' a' (if ok then l ++ [v] else l) rest /\
    if ok then m_bufferSize a' = next_capacity a else a' = a.
Proof.
  intros Hr He ok. destruct (append_with_spec checks s a l rest t v Hr He) as (a' & s' & Ha & Hr').
  fold ok in Ha, Hr'. exists a', s'. split; [done|]. split; [done|].
  pose proof (repr_cap _ _ _ _ Hr) as Hc. pose proof (repr_count _ _ _ _ Hr) as Hn.
  unfold ULONG_MAX in Hc. unfold append_with in Ha. rewrite paged_if in Ha.
  rewrite (wrap_small 64) in Ha by (unfold is_u; lia).
  destruct (grow_spec s a l rest (m_numElements a + 1) Hr) as (a1 & s1 & Hg & Hr1 & Hm & Hok & Hno);
    [lia|]. fold ok in Hg, Hok, Hno. rewrite (bind_Ret _ _ _ _ _ Hg) in Ha. cbn [fst snd] in Ha.
  destruct ok; cbn [negb] in Ha.
  - apply bind_inv in Ha as (b & s2 & _ & Ha). apply bind_inv in Ha as (x & s3 & _ & Ha).
    apply bind_inv in Ha as ([] & s4 & _ & Ha). injection Ha as <- _. cbn.
    destruct (Hok eq_refl) as [_ ->]. unfold next_capacity.
    destruct (Z.leb_spec (m_numElements a + 1) (m_bufferSize a)), (Z.ltb_spec (m_numElements a) (m_bufferSize a));
      lia || done.
  - injection Ha as <- _. by apply Hno.
Qed.

(** C9: [append] by copy returns [true] exactly when there is a free slot, or
    the grown capacity max(count + 1, 4, size + size/2) is below ULONG_MAX, its
    byte count fits in [size_t] and the pool has the memory.  It then holds the
    list with the element added and has that capacity; otherwise the array
    object is untouched and still holds its list. *)
Theorem append_copy_result s a l rest t v :
  repr s a l rest -> external rest t v ->
  exists a' ok s', append_copy a t s = Ret (a', ok) s' /\
    ok = ((m_numElements a <? m_bufferSize a) ||
          ((next_capacity a <? ULONG_MAX) && (sizeof * next_capacity a <? 2 ^ 64) &&
           pool_ok (next_block s) (sizeof * next_capacity a))) /\
    if ok then repr s' a' (l ++ [v]) rest /\ m_bufferSize a' = next_capacity a
    else a' = a /\ repr s' a l rest.
Proof.
  intros Hr He. destruct (append_with_cap true s a l rest t v Hr He) as (a' & s' & Ha & Hr' & Hc).
  exists a', (grow_ok s a (m_numElements a + 1)), s'. split; [done|]. split.
  - unfold grow_ok, reserve_ok, next_capacity.
    destruct (Z.leb_spec (m_numElements a + 1) (m_bufferSize a)),
      (Z.ltb_spec (m_numElements a) (m_bufferSize a)); try lia. cbn [orb].
    rewrite (proj2 (Z.leb_gt (grow_capacity _ _) _)) by (unfold grow_capacity; lia). done.
  - destruct (grow_ok _ _ _); [by split|]. by subst.
Qed.

(** A client that appends in sequence and counts the elements that were
    relocated: a call relocates when it changed the capacity, and then all the
    elements there were. *)
Fixpoint append_all (ts : list loc) (a : KArray) (moved : Z) : M (kstate T) (KArray * bool * Z) :=
  match ts with
  | [] => mret (a, true, moved)
  | t :: ts =>
      r ← append_copy a t;
      if negb r.2 then mret (r.1, false, moved)
      else append_all ts r.1
             (if m_bufferSize r.1 =? m_bufferSize a then moved else moved + m_numElements a)
  end.

Lemma append_all_cost ts s a l rest moved :
  repr s a l rest -> (forall t, t ∈ ts -> exists v, external rest t v) ->
  0 <= moved -> moved <= 3 * m_bufferSize a -> moved <= 4 * m_numElements a ->
  m_bufferSize a = 0 \/ 4 <= m_bufferSize a ->
  exists a' ok moved' s' l', append_all ts a moved s = Ret (a', ok, moved') s' /\
    repr s' a' (l ++ l') rest /\ moved' <= 4 * m_numElements a' /\
    (ok = true -> length l' = length ts).
Proof.
  revert s a l moved. induction ts as [|t ts IH]; intros s a l moved Hr Ht H0 H1 H2 H3; cbn [append_all].
  { exists a, true, moved, s, []. rewrite app_nil_r. done. }
  destruct (Ht t) as (v & Hv); [by left|].
  destruct (append_with_cap true s a l rest t v Hr Hv) as (a1 & s1 & He & Hr1 & Hc).
  unfold append_copy. rewrite (bind_Ret _ _ _ _ _ He). cbn [fst snd].
  pose proof (repr_count _ _ _ _ Hr) as Hn. pose proof (repr_cap _ _ _ _ Hr) as Hcap.
  destruct (grow_ok s a (m_numElements a + 1)); cbn [negb].
  2:{ subst a1. exists a, false, moved, s1, []. rewrite app_nil_r. done. }
  pose proof (repr_count _ _ _ _ Hr1) as Hn1. rewrite length_app in Hn1. cbn in Hn1.
  set (moved1 := if m_bufferSize a1 =? m_bufferSize a then moved else moved + m_numElements a).
  assert (0 <= moved1 <= 3 * m_bufferSize a1 /\ moved1 <= 4 * m_numElements a1 /\
          4 <= m_bufferSize a1) as (? & ? & ?).
  { unfold moved1. rewrite Hc. unfold next_capacity, grow_capacity.
    destruct (Z.ltb_spec (m_numElements a) (m_bufferSize a)).
    - rewrite Z.eqb_refl. lia.
    - destruct (Z.eqb_spec (Z.max (Z.max (m_numElements a + 1) 4)
        (m_bufferSize a + m_bufferSize a / 2)) (m_bufferSize a)); zdm. }
  destruct (IH s1 a1 (l ++ [v]) moved1) as (a2 & ok & mv & s2 & l2 & He2 & Hr2 & Hm & Hl);
    [done|intros; apply Ht; by right|lia|lia|lia|lia|].
  exists a2, ok, mv, s2, (v :: l2). split; [done|]. rewrite <- app_assoc in Hr2.
  split; [done|]. split; [done|]. intros Hok. cbn. by rewrite Hl.
Qed.

(** C24: growth is amortised.  In a run of appends from the empty array, of any
    length and whichever allocation fails, the elements relocated to a new
    buffer are in total at most four times the elements the array ends with. *)
Theorem append_amortised ts s rest :
  repr s empty [] rest -> (forall t, t ∈ ts -> exists v, external rest t v) ->
  exists a' ok moved s' l', append_all ts empty 0 s = Ret (a', ok, moved) s' /\
    repr s' a' l' rest /\ moved <= 4 * Z.of_nat (length l') /\
    (ok = true -> length l' = length ts).
Proof.
  intros Hr Ht.
  destruct (append_all_cost ts s empty [] rest 0 Hr Ht) as (a' & ok & mv & s' & l' & He & Hr' & Hm & Hl);
    cbn; try lia.
  exists a', ok, mv, s', l'. split; [done|]. split; [done|].
  cbn in Hr'. rewrite <- (repr_count _ _ _ _ Hr'). done.
Qed.

End Contracts.

Lemma args_external {T} (x y z : T) (i : nat) v :
  [x; y; z] !! i = Some v ->
  external {[ O := [Obj x; Obj y; Obj z] ]} (O, Z.of_nat i) v.
Proof.
  intros Hi. exists (map Obj [x; y; z]). split; [apply lookup_singleton_eq|].
  split; [cbn; lia|]. cbn [snd]. rewrite Nat2Z.id, list_lookup_fmap, Hi. done.
Qed.

Lemma append_copy_result_witness :
  exists a' ok s', append_copy (H := exhausted) empty (O, 1) (args (Owner 1) (Owner 2) (Owner 3))
      = Ret (a', ok) s' /\ ok = false /\ a' = empty.
Proof.
  destruct (append_copy_result (H := exhausted) _ _ _ _ (O, 1) (Owner 2)
    (args_repr (Owner 1) (Owner 2) (Owner 3)) (args_external _ _ _ 1 _ eq_refl))
    as (a' & ok & s' & He & Hok & Hr).
  exists a', ok, s'. vm_compute in Hok. subst ok. split; [done|]. by destruct Hr.
Defined.

Lemma append_amortised_witness :
  exists a' ok moved s' (l' : list owner),
    append_all (H := roomy) (replicate 9 (O, 0)) empty 0 (args (Owner 1) (Owner 2) (Owner 3))
      = Ret (a', ok, moved) s' /\ moved = 10 /\ moved <= 4 * Z.of_nat (length l').
Proof.
  destruct (append_amortised (H := roomy) (replicate 9 (O, 0)) _ _
    (args_repr (Owner 1) (Owner 2) (Owner 3))) as (a' & ok & mv & s' & l' & He & _ & Hm & _).
  - intros t Ht. apply elem_of_replicate in Ht as [-> _].
    exists (Owner 1). exact (args_external _ _ _ 0 _ eq_refl).
  - exists a', ok, mv, s', l'. split; [done|]. split; [|done].
    vm_compute in He. by injection He.
Defined.

(** ** Sorted insertion *)

Section Sorted.
Context {T : Type} `{!ElemType T} `{!PoolEnv} `{Hirql : !LowIrql}.
Variable less : T -> T -> bool.
Hypothesis less_asym : forall x y, less x y = true -> less y x = false.
Hypothesis less_negtrans : forall x y z,
  less x y = false -> less y z = false -> less x z = false.

(** No element is less than one before it; every element is less than those
    after it. *)
Definition sorted : list T -> Prop := StronglySorted (fun x y => less y x = false).
Definition strictly_sorted : list T -> Prop := StronglySorted (fun x y => less x y = true).

Lemma insert_sorted_cons v x l :
  insert_sorted less v (x :: l) =
    if less x v then x :: insert_sorted less v l else v :: x :: l.
Proof. unfold insert_sorted. cbn. by destruct (less x v). Qed.

Lemma insert_sorted_perm v l : Permutation (insert_sorted less v l) (v :: l).
Proof.
  unfold insert_sorted. rewrite <- Permutation_middle. by rewrite take_drop.
Qed.

Lemma insert_sorted_sorted v l : sorted l -> sorted (insert_sorted less v l).
Proof.
  induction 1 as [|x l Hs IH Hx]; [by repeat constructor|]. rewrite insert_sorted_cons.
  destruct (less x v) eqn:Hv; constructor; try done.
  - rewrite insert_sorted_perm. constructor; [by apply less_asym|done].
  - by constructor.
  - constructor; [done|]. eapply List.Forall_impl; [|exact Hx]. cbn. intros y Hy.
    by eapply less_negtrans.
Qed.

Lemma less_trans x y z : less x y = true -> less y z = true -> less x z = true.
Proof.
  intros Hxy Hyz. destruct (less x z) eqn:Hxz; [done|].
  rewrite <- Hxy. symmetry. eapply less_negtrans; [exact Hxz|by apply less_asym].
Qed.

Lemma insert_sorted_strict v l :
  strictly_sorted l -> present less v l = false -> strictly_sorted (insert_sorted less v l).
Proof.
  unfold present. induction 1 as [|x l Hs IH Hx]; [by repeat constructor|].
  rewrite insert_sorted_cons. cbn [find_slot].
  destruct (less x v) eqn:Hv; cbn [drop]; intros Hp.
  - constructor; [by apply IH|]. rewrite insert_sorted_perm. by constructor.
  - apply negb_false_iff in Hp. constructor; [by constructor|]. constructor; [done|].
    eapply List.Forall_impl; [|exact Hx]. cbn. intros y. by apply less_trans.
Qed.

(** The element found by the scan and not greater than [v] is equivalent to it;
    when there is none, no element of a strictly sorted list is. *)
Lemma present_equiv v l : strictly_sorted l ->
  present less v l = true <-> exists x, x ∈ l /\ less x v = false /\ less v x = false.
Proof.
  unfold present. induction 1 as [|x l Hs IH Hx]; cbn [find_slot].
  { split; [done|]. intros (x & Hx & _). by apply elem_of_nil in Hx. }
  destruct (less x v) eqn:Hv; cbn [drop].
  - rewrite IH. split; [intros (y & ? & ?); exists y; split; [by right|done]|].
    intros (y & [->|?]%elem_of_cons & Hy & ?); [congruence|eauto].
  - rewrite negb_true_iff. split; [intros; exists x; split; [by left|done]|].
    intros (y & [->|Hin]%elem_of_cons & Hy & Hvy); [done|].
    pose proof (proj1 (list.Forall_forall _ _) Hx y Hin) as Hxy.
    destruct (less v x) eqn:Hvx; [|done]. by rewrite (less_trans v x y Hvx Hxy) in Hvy.
Qed.

(** C10: with a strict weak order as predicate, [insertSorted] keeps a sorted
    array sorted and adds exactly the new element: the array afterwards is a
    permutation of the old one and the element, the original when the array
    could not grow. *)
Theorem insertSorted_sorted s a l rest t v :
  repr s a l rest -> external rest t v -> sorted l ->
  exists a' ok s' l', insertSorted_copy less a t s = Ret (a', ok) s' /\
    repr s' a' l' rest /\ sorted l' /\ if ok then Permutation l' (v :: l) else l' = l.
Proof.
  intros Hr He Hl.
  destruct (insertSorted_with_spec less s a l rest t v Hr He) as (a' & s' & Hi & Hr').
  destruct (grow_ok s a (m_numElements a + 1)); eexists _, _, _, _;
    (split; [exact Hi|]); (split; [exact Hr'|]); [|done].
  split; [by apply insert_sorted_sorted|apply insert_sorted_perm].
Qed.

(** C11: [insertSortedUnique] keeps a strictly sorted array strictly sorted.  It
    returns [true] without changing the array when an equivalent element is in
    it; otherwise it adds the element, or returns [false] when the array could
    not grow. *)
Theorem insertSortedUnique_strict s a l rest t v :
  repr s a l rest -> external rest t v -> strictly_sorted l ->
  exists a' ok s' l', insertSortedUnique_copy less a t s = Ret (a', ok) s' /\
    repr s' a' l' rest /\ strictly_sorted l' /\
    ((exists x, x ∈ l /\ less x v = false /\ less v x = false) -> ok = true /\ l' = l) /\
    (~ (exists x, x ∈ l /\ less x v = false /\ less v x = false) ->
       if ok then Permutation l' (v :: l) else l' = l).
Proof.
  intros Hr He Hl.
  destruct (insertSortedUnique_with_spec less s a l rest t v Hr He) as (a' & s' & Hi & Hr').
  fold (present less v l) in Hi, Hr'. pose proof (present_equiv v l Hl) as Hpe.
  destruct (present less v l) eqn:Hp; cbn [negb andb orb] in *.
  - exists a', true, s', l. repeat (split; [done|]). intros []. by apply Hpe.
  - destruct (grow_ok s a (m_numElements a + 1)); eexists _, _, _, _;
      (split; [exact Hi|]); (split; [exact Hr'|]).
    + split; [by apply insert_sorted_strict|]. split; [by intros ?%Hpe|].
      intros _. apply insert_sorted_perm.
    + split; [done|]. split; [by intros ?%Hpe|done].
Qed.

End Sorted.

Lemma owner_less_asym x y : owner_less x y = true -> owner_less y x = false.
Proof. destruct x, y; cbn; try done. rewrite Z.ltb_lt, Z.ltb_ge. lia. Qed.

Lemma owner_less_negtrans x y z :
  owner_less x y = false -> owner_less y z = false -> owner_less x z = false.
Proof. destruct x, y, z; cbn; try done. rewrite !Z.ltb_ge. lia. Qed.

(** A represented array with the elements 2 and 5, beside the argument block. *)
Definition two_state : kstate owner :=
  mkState {[ O := [Obj (Owner 3); Obj (Owner 5); Obj (Owner 2)];
             1%nat := [Obj (Owner 2); Obj (Owner 5)] ]} 2.
Definition two_array : KArray := mkKArray 2 2 (Some 1%nat).
Definition two_rest : gmap nat (list (cell owner)) :=
  {[ O := [Obj (Owner 3); Obj (Owner 5); Obj (Owner 2)] ]}.

Lemma two_repr : repr two_state two_array [Owner 2; Owner 5] two_rest.
Proof.
  apply (repr_intro _ _ _ _ []); try done; cbn.
  - intros b Hb. apply lookup_singleton_ne. lia.
  - lia.
  - by constructor.
Qed.

Lemma insertSorted_sorted_witness :
  exists a' ok s' l', insertSorted_copy (H := roomy) owner_less two_array (O, 0) two_state
      = Ret (a', ok) s' /\ repr s' a' l' two_rest /\ sorted owner_less l' /\
    if ok then Permutation l' [Owner 3; Owner 2; Owner 5] else l' = [Owner 2; Owner 5].
Proof.
  apply (insertSorted_sorted (H := roomy) owner_less owner_less_asym owner_less_negtrans);
    [apply two_repr|exact (args_external _ _ _ 0 _ eq_refl)|].
  repeat constructor.
Defined.

Lemma insertSortedUnique_strict_witness :
  exists a' ok s' l', insertSortedUnique_copy (H := roomy) owner_less two_array (O, 1) two_state
      = Ret (a', ok) s' /\ repr s' a' l' two_rest /\ strictly_sorted owner_less l' /\ l' = [Owner 2; Owner 5].
Proof.
  destruct (insertSortedUnique_strict (H := roomy) owner_less owner_less_asym owner_less_negtrans
    two_state two_array [Owner 2; Owner 5] two_rest (O, 1) (Owner 5))
    as (a' & ok & s' & l' & He & Hr & Hs & Hin & _);
    [apply two_repr|exact (args_external _ _ _ 1 _ eq_refl)|repeat constructor|].
  exists a', ok, s', l'. repeat (split; [done|]). apply Hin.
  exists (Owner 5). split; [by right; left|done].
Defined.

(** ** Access, iteration, release *)

Section Access.
Context {T : Type} `{!ElemType T} `{!PoolEnv} `{Hirql : !LowIrql}.

Implicit Types (s : kstate T) (l : list T) (a : KArray) (rest : gmap nat (list (cell T))).

Lemma at_index_bad s a l rest (i : nat) :
  repr s a l rest -> (length l <= i)%nat ->
  at_index a (Z.of_nat i) s = Stop (FastFail FAST_FAIL_INVALID_ARG).
Proof.
  intros Hr Hi. unfold at_index.
  by rewrite (proj2 (Z.leb_le _ _)) by (rewrite (repr_count _ _ _ _ Hr); lia).
Qed.

Lemma eraseAt_bad s a l rest (i : nat) :
  repr s a l rest -> (length l <= i)%nat ->
  eraseAt a (Z.of_nat i) s = Stop (FastFail FAST_FAIL_INVALID_ARG).
Proof.
  intros Hr Hi. unfold eraseAt. rewrite paged.
  by rewrite (proj2 (Z.leb_le _ _)) by (rewrite (repr_count _ _ _ _ Hr); lia).
Qed.

(** C31: element access is bounds-checked.  For every index, [operator[]] gives
    a reference to the element with that index when there is one and [eraseAt]
    removes exactly it; when there is none, both stop the process with
    FAST_FAIL_INVALID_ARG before touching memory. *)
Theorem checked_access s a l rest (i : nat) :
  repr s a l rest ->
  match l !! i with
  | Some x =>
      (exists r, at_index a (Z.of_nat i) s = Ret r s /\ load r s = Ret x s) /\
      (exists a' s', eraseAt a (Z.of_nat i) s = Ret a' s' /\ repr s' a' (delete i l) rest)
  | None =>
      at_index a (Z.of_nat i) s = Stop (FastFail FAST_FAIL_INVALID_ARG) /\
      eraseAt a (Z.of_nat i) s = Stop (FastFail FAST_FAIL_INVALID_ARG)
  end.
Proof.
  intros Hr. destruct (l !! i) as [x|] eqn:Hx.
  - split; [|apply eraseAt_spec; [done|by eapply lookup_lt_Some]].
    destruct (at_index_spec s a l rest i x Hr Hx) as (b & ? & _ & ?). eauto.
  - apply lookup_ge_None in Hx. split; [by eapply at_index_bad|by eapply eraseAt_bad].
Qed.

(** A range-based [for] over the array terminates and visits exactly its
    elements, each once and in order, without changing anything. *)
Theorem elements_in_order s a l rest : repr s a l rest -> elements a s = Ret l s.
Proof.
  intros Hr. unfold elements, begin_, end_const.
  rewrite (bind_Ret _ _ s (mkIterator a 0) s) by apply paged.
  rewrite (bind_Ret _ _ s (mkIterator a (m_numElements a)) s) by apply paged.
  rewrite (range_for_spec s a l rest _ 0 Hr); [by rewrite drop_0|lia|].
  rewrite (repr_count _ _ _ _ Hr). lia.
Qed.

(** What the heap is once an array has released its buffer. *)
Definition without (p : option nat) rest : gmap nat (list (cell T)) :=
  match p with Some b => delete b rest | None => rest end.

Lemma repr_rest_lookup s a l rest b : repr s a l rest -> p_ a <> Some b -> heap s !! b = rest !! b.
Proof.
  intros Hr Hb. pose proof (repr_buf _ _ _ _ Hr) as Hbuf. destruct (p_ a) as [b'|].
  - destruct Hbuf as (tail & _ & -> & _). apply lookup_insert_ne. congruence.
  - by destruct Hbuf as [_ ->].
Qed.

(** Another array's view of a heap from which a block it does not own is gone. *)
Lemma repr_without s s' a l rest p :
  repr s a l rest -> (p = None \/ p <> p_ a) -> heap s' = without p (heap s) ->
  next_block s' = next_block s -> repr s' a l (without p rest).
Proof.
  intros Hr Hp Hh Hn. destruct p as [b|]; cbn in *.
  2:{ destruct Hr. split; rewrite ?Hh, ?Hn; done. }
  destruct Hp as [|Hp]; [done|]. destruct Hr as [Hf Hc Hcap Hb]. split; try done.
  - intros b' Hb'. rewrite Hh, lookup_delete. case_decide; [done|]. apply Hf. lia.
  - destruct (p_ a) as [b0|].
    + destruct Hb as (tail & Hrb & Hh0 & ? & ?). exists tail.
      assert (b <> b0) by congruence. split; [by rewrite lookup_delete_ne|].
      split; [|done]. by rewrite Hh, Hh0, delete_insert_ne.
    + destruct Hb as [? Hh0]. split; [done|]. by rewrite Hh, Hh0.
Qed.

(** The destructor destroys every element once and frees the buffer; the
    heap afterwards is exactly the heap without the array, so nothing is leaked
    and nothing else is touched. *)
Theorem dtor_releases s a l rest :
  repr s a l rest -> exists s', dtor a s = Ret tt s' /\ heap s' = rest.
Proof.
  apply dtor_spec.
Qed.

Lemma reset_heap s a l rest s' :
  repr s a l rest -> heap s' = rest -> heap s' = without (p_ a) (heap s).
Proof.
  intros Hr ->. pose proof (repr_buf _ _ _ _ Hr) as Hb. destruct (p_ a); cbn.
  - destruct Hb as (tail & ? & -> & _). rewrite delete_insert_eq. by rewrite delete_id.
  - by destruct Hb as [_ ->].
Qed.

(** Move assignment from another array releases what the target held (its
    elements destroyed, its buffer freed), makes it hold the source's list, and
    leaves the source empty and owning nothing. *)
Theorem move_assign_transfers s a rhs l l' rest rest' :
  repr s a l rest -> repr s rhs l' rest' -> (p_ a = None \/ p_ a <> p_ rhs) ->
  exists s', move_assign a rhs s = Ret (rhs, empty) s' /\
    repr s' rhs l' (without (p_ a) rest') /\ repr s' empty [] (heap s').
Proof.
  intros Hr Hr' Hp. destruct (reset_spec s a l rest Hr) as (s' & He & Hh & Hn).
  exists s'. unfold move_assign. rewrite (bind_Ret _ _ _ _ _ He). destruct rhs as [c n p]. split; [done|].
  assert (repr s' (mkKArray c n p) l' (without (p_ a) rest')) as Hr1.
  { eapply repr_without; [done|done|by eapply reset_heap|done]. }
  split; [done|]. apply repr_empty; [by destruct Hr1|done].
Qed.

End Access.

Lemma checked_access_witness :
  (exists r, at_index two_array 1 two_state = Ret r two_state /\
     load r two_state = Ret (Owner 5) two_state) /\
  eraseAt (H := roomy) two_array 2 two_state = Stop (FastFail FAST_FAIL_INVALID_ARG).
Proof.
  split; [exact (proj1 (checked_access (H := roomy) _ _ _ _ 1 two_repr))|].
  exact (proj2 (checked_access (H := roomy) _ _ _ _ 2 two_repr)).
Defined.

Lemma elements_in_order_witness :
  elements (H := roomy) two_array two_state = Ret [Owner 2; Owner 5] two_state.
Proof. exact (elements_in_order (H := roomy) _ _ _ _ two_repr). Defined.

Lemma dtor_releases_witness :
  exists s', dtor two_array two_state = Ret tt s' /\ heap s' = two_rest.
Proof. exact (dtor_releases _ _ _ _ two_repr). Defined.

(** Two arrays in one heap. *)
Definition pair_state : kstate owner :=
  mkState {[ O := [Obj (Owner 1); Raw]; 1%nat := [Obj (Owner 2); Obj (Owner 5)] ]} 2.

Lemma move_assign_transfers_witness :
  exists s', move_assign (mkKArray 2 1 (Some O)) two_array pair_state = Ret (two_array, empty) s' /\
    repr s' two_array [Owner 2; Owner 5] (delete O {[ O := [Obj (Owner 1); Raw] ]}) /\
    repr s' empty [] (heap s').
Proof.
  apply (move_assign_transfers pair_state (mkKArray 2 1 (Some O)) two_array [Owner 1]
           [Owner 2; Owner 5] {[ 1%nat := [Obj (Owner 2); Obj (Owner 5)] ]}
           {[ O := [Obj (Owner 1); Raw] ]}).
  - apply (repr_intro _ _ _ _ [Raw]); try done; cbn.
    + intros b Hb. apply lookup_singleton_ne. lia.
    + lia.
    + constructor; [by right|constructor].
  - apply (repr_intro _ _ _ _ []); try done; cbn.
    + intros b Hb. apply lookup_singleton_ne. lia.
    + lia.
    + by constructor.
  - by right.
Defined.

(** ** The filling constructor *)

Section Ctor.
Context {T : Type} `{!ElemType T} `{!PoolEnv} `{Hirql : !LowIrql}.

Implicit Types (s : kstate T) (rest : gmap nat (list (cell T))).

Lemma copy_assign_trivial s b i cs c v :
  trivially_copyable = true -> heap s !! b = Some cs -> 0 <= i -> cs !! Z.to_nat i = Some c ->
  copy_assign (b, i) v s = Ret tt (upd s b (<[Z.to_nat i := Obj v]> cs)).
Proof.
  intros Ht Hb Hi Hc. unfold copy_assign.
  rewrite (bind_Ret _ _ s c s) by (by eapply read_cell_ok).
  rewrite Ht. destruct c; by eapply write_cell_ok.
Qed.

(** The loop of the constructor, over a buffer [b] with slots [cs ++ post]. *)
Lemma ctor_loop s b cs post rest t v :
  trivially_copyable = true -> heap s = <[b := cs ++ post]> rest -> rest !! b = None ->
  external rest t v -> Z.of_nat (length cs) < 2 ^ 32 ->
  for_up 0 (Z.of_nat (length cs)) (fun i =>
    b ← deref (Some b); v ← load t; copy_assign (b, i) v) s =
  Ret tt (upd s b (replicate (length cs) (Obj v) ++ post)).
Proof.
  intros Ht Hh Hb He Hw. unfold for_up.
  set (body := fun i => b ← deref (Some b); v ← load t; copy_assign (b, i) v).
  destruct (while_up (fun i s' => exists c1 c2, cs = c1 ++ c2 /\ i = Z.of_nat (length c1) /\
      s' = upd s b (replicate (length c1) (Obj v) ++ c2 ++ post))
    32 0 (Z.of_nat (length cs)) (Z.to_nat (Z.of_nat (length cs) - 0)) body s)
    as (s' & Hr & c1 & c2 & Hcs & Hi & ->); [lia|done|lia| | |].
  - intros i s1 Hi (c1 & c2 & -> & -> & ->). destruct c2 as [|c c2]; [len|].
    exists (upd s b (replicate (length (c1 ++ [c])) (Obj v) ++ c2 ++ post)). split.
    + unfold body, deref. cbv beta iota. rewrite (bind_Ret _ _ _ b _ (ret_app _ _)).
      destruct He as (cs' & H1 & H2 & H3).
      assert (b <> t.1) by congruence.
      erewrite bind_Ret.
      2:{ destruct t as [tb ti]. eapply load_ok; [|exact H2|exact H3]. cbn in *.
          rewrite lookup_insert_ne by done. by rewrite Hh, lookup_insert_ne by done. }
      erewrite copy_assign_trivial; [|done|apply upd_lookup|lia|apply lookup_mid; len].
      rewrite upd_upd. cbn [app]. rewrite Nat2Z.id, insert_mid by len.
      rewrite length_app, replicate_add. cbn. by rewrite <- app_assoc.
    + exists (c1 ++ [c]), c2. rewrite <- app_assoc. split; [done|]. split; [len|done].
  - exists [], cs. split; [done|]. split; [done|]. cbn. by rewrite upd_id by (by rewrite Hh, lookup_insert_eq).
  - rewrite (bind_Ret _ _ _ _ _ Hr). rewrite Z.max_r in Hi by lia.
    assert (c2 = []) as -> by (apply length_zero_iff_nil; subst cs; len).
    rewrite app_nil_r in Hcs. by subst c1.
Qed.

(** For a trivially copyable element type, [KArray(count, value)] holds
    [count] copies of [value] when the buffer could be allocated. *)
Theorem ctor_fills s rest t v (n : nat) :
  trivially_copyable = true -> repr s empty [] rest -> external rest t v ->
  grow_ok s empty (Z.of_nat n) = true ->
  exists a' s', ctor (Z.of_nat n) t s = Ret a' s' /\ repr s' a' (replicate n v) rest.
Proof.
  intros Ht Hr He Hg. unfold ctor. rewrite paged. destruct (Z.eqb_spec (Z.of_nat n) 0) as [Hz|Hz].
  { assert (n = O) as -> by lia. exists empty, s. done. }
  destruct (grow_spec s empty [] rest (Z.of_nat n) Hr) as (a1 & s1 & Hgr & Hr1 & Hm & Hok & _); [lia|].
  rewrite Hg in Hgr. destruct (Hok Hg) as [Hroom _]. rewrite (bind_Ret _ _ _ _ _ Hgr). cbn [fst].
  destruct (p_ a1) as [b|] eqn:Hp.
  2:{ destruct (repr_null _ _ _ _ Hr1 Hp) as [_ ?]. lia. }
  destruct (repr_elim _ _ _ _ _ Hr1 Hp) as (tail & Hf & Hlt & Hrb & Hh & Hd & Hl & Hn & Hc).
  cbn in Hh, Hl. unfold ULONG_MAX in Hc.
  assert (length (take n tail) = n) as Hln by (rewrite length_take; lia).
  rewrite <- (take_drop n tail) in Hh.
  pose proof (ctor_loop s1 b (take n tail) (drop n tail) rest t v Ht Hh Hrb He) as Hloop.
  rewrite Hln in Hloop. rewrite (bind_Ret _ _ _ _ _ (Hloop ltac:(lia))).
  eexists _, _. split; [done|]. rewrite <- Hp. rewrite <- fmap_replicate.
  eapply repr_upd; [done|done| | |].
  - rewrite <- (take_drop n tail) in Hd. by apply dead_app in Hd as [_ ?].
  - rewrite length_replicate. wrap_norm. done.
  - rewrite length_replicate, length_drop. lia.
Qed.

(** The constructor ignores the result of [grow].  When the buffer cannot
    be allocated, [KArray(count, value)] with a non-zero count writes through
    the null buffer pointer instead of reporting the failure. *)
Theorem ctor_ignores_failure s rest t v (n : Z) :
  repr s empty [] rest -> external rest t v -> 0 < n -> grow_ok s empty n = false ->
  ctor n t s = Fault NullDeref.
Proof.
  intros Hr He Hn Hg. unfold ctor. rewrite paged. rewrite (proj2 (Z.eqb_neq n 0)) by lia.
  destruct (grow_spec s empty [] rest n Hr) as (a1 & s1 & Hgr & Hr1 & Hm & _ & Hno); [lia|].
  rewrite Hg in Hgr. rewrite (bind_Ret _ _ _ _ _ Hgr), (Hno Hg). cbn [fst].
  apply bind_Fault. unfold for_up. apply bind_Fault.
  destruct (Z.to_nat (n - 0)) eqn:Hz; [lia|]. cbn [while].
  by rewrite (proj2 (Z.ltb_lt 0 n)) by lia.
Qed.

End Ctor.

Lemma args_pod_repr : repr (args (Pod 7) (Pod 8) (Pod 9)) empty [] {[ O := [Obj (Pod 7); Obj (Pod 8); Obj (Pod 9)] ]}.
Proof. apply args_repr. Qed.

Lemma ctor_fills_witness :
  exists a' s', ctor (H := roomy) 3 (O, 0) (args (Pod 7) (Pod 8) (Pod 9)) = Ret a' s' /\
    repr s' a' [Pod 7; Pod 7; Pod 7] {[ O := [Obj (Pod 7); Obj (Pod 8); Obj (Pod 9)] ]}.
Proof.
  exact (ctor_fills (H := roomy) _ _ (O, 0) (Pod 7) 3 eq_refl args_pod_repr
           (args_external _ _ _ 0 _ eq_refl) eq_refl).
Defined.

Lemma ctor_ignores_failure_witness :
  ctor (H := exhausted) 3 (O, 0) (args (Pod 7) (Pod 8) (Pod 9)) = Fault NullDeref.
Proof.
  exact (ctor_ignores_failure (H := exhausted) _ _ (O, 0) (Pod 7) 3 args_pod_repr
           (args_external _ _ _ 0 _ eq_refl) eq_refl eq_refl).
Defined.

(** ** Arguments that refer to the array's own elements *)

Section Alias.
Context {T : Type} `{!ElemType T} `{!PoolEnv} `{Hirql : !LowIrql}.

Implicit Types (s : kstate T) (l : list T) (a : KArray) (rest : gmap nat (list (cell T))).

Lemma load_gone s b i : heap s !! b = None -> load (b, i) s = Fault BadAccess.
Proof. intros Hb. unfold load, read_cell, block, mbind, M_bind. cbn. by rewrite Hb. Qed.

(** Growing a full array moves it to the next block of the pool. *)
Lemma grow_relocates s a l rest n :
  repr s a l rest -> m_bufferSize a < n -> grow_ok s a n = true ->
  exists a' s', grow a n s = Ret (a', true) s' /\ repr s' a' l rest /\
    p_ a' = Some (next_block s).
Proof.
  intros Hr Hn Hok. pose proof (repr_cap _ _ _ _ Hr) as Hc. pose proof (repr_count _ _ _ _ Hr).
  unfold ULONG_MAX in Hc. unfold grow_ok, reserve_ok in Hok.
  assert (m_bufferSize a < grow_capacity a n) by (unfold grow_capacity; lia).
  rewrite (proj2 (Z.leb_gt n _)), (proj2 (Z.leb_gt (grow_capacity a n) _)) in Hok by done.
  cbn in Hok. rewrite !andb_true_iff, !Z.ltb_lt in Hok. destruct Hok as [[??] ?].
  destruct (reserve_relocate s a l rest (grow_capacity a n)) as (s' & He & Hr' & _); try done.
  eexists _, s'. split; [|split; [exact Hr'|done]].
  rewrite <- He. unfold grow. rewrite paged. rewrite (proj2 (Z.leb_gt n _)) by done. f_equal.
  assert (0 <= m_bufferSize a + m_bufferSize a / 2 < 2 ^ 64) as Hg by zdm.
  unfold grow_capacity. rewrite (wrap_small 64) by done.
  destruct (Z.ltb_spec n 4); case (Z.ltb_spec _ (m_bufferSize a + m_bufferSize a / 2)); lia.
Qed.

(** Appending a copy of one of the array's own elements.  With a free slot
    it appends the element.  When the array is full and grows, [grow] has freed
    the old buffer by the time the reference is read: the copy reads freed
    memory, whatever the element type. *)
Theorem append_own_element s a l rest b (i : nat) x :
  repr s a l rest -> p_ a = Some b -> l !! i = Some x ->
  (m_numElements a < m_bufferSize a ->
     exists a' s', append_copy a (b, Z.of_nat i) s = Ret (a', true) s' /\
       repr s' a' (l ++ [x]) rest) /\
  (m_numElements a = m_bufferSize a -> grow_ok s a (m_numElements a + 1) = true ->
     append_copy a (b, Z.of_nat i) s = Fault BadAccess).
Proof.
  intros Hr Hp Hx. pose proof (repr_cap _ _ _ _ Hr) as Hc. pose proof (repr_count _ _ _ _ Hr) as Hn.
  unfold ULONG_MAX in Hc. unfold append_copy, append_with. rewrite paged, (wrap_small 64) by (unfold is_u; lia).
  split.
  - intros Hroom. rewrite (bind_Ret _ _ _ _ _ (grow_room s a (m_numElements a + 1) ltac:(lia))). cbn [fst snd negb].
    destruct (at_index_spec s a l rest i x Hr Hx) as (b' & _ & Hp' & Hld).
    rewrite Hp in Hp'. injection Hp' as <-.
    rewrite Hp, (bind_Ret _ _ s b s) by done. unfold take_arg.
    erewrite bind_Ret by (by rewrite (bind_Ret _ _ _ _ _ Hld)).
    destruct (repr_room s a l rest Hr) as (b' & c & tail & Hp' & Hd & Hdt & Hh & Hrb & Hl & _); [lia|].
    rewrite Hp in Hp'. injection Hp' as <-.
    erewrite bind_Ret.
    2:{ eapply construct_ok; [by rewrite Hh, lookup_insert_eq|lia|apply lookup_mid; len|done]. }
    eexists _, _. split; [done|]. rewrite Hn, Nat2Z.id, insert_mid, <- Hp by len.
    replace (map Obj l ++ Obj x :: tail) with (map Obj (l ++ [x]) ++ tail)
      by (by rewrite map_app, <- app_assoc).
    eapply repr_upd; [done|done|done| |].
    + wrap_norm. len.
    + rewrite length_app. cbn in Hl |- *. lia.
  - intros Hfull Hok.
    destruct (grow_relocates s a l rest (m_numElements a + 1) Hr) as (a1 & s1 & Hg & Hr1 & Hp1);
      [lia|done|].
    pose proof (repr_some _ _ _ _ _ Hr Hp) as (tail & Hb & _).
    rewrite (bind_Ret _ _ _ _ _ Hg). cbn [fst snd negb].
    rewrite Hp1, (bind_Ret _ _ s1 (next_block s) s1) by done. apply bind_Fault. unfold take_arg. apply bind_Fault, load_gone.
    assert (b <> next_block s).
    { intros ->. rewrite (repr_fresh _ _ _ _ Hr) in Hb by lia. done. }
    rewrite (repr_rest_lookup _ _ _ _ b Hr1) by congruence.
    destruct (repr_elim _ _ _ _ _ Hr Hp) as (? & _ & _ & Hrb & _). done.
Qed.

End Alias.

Lemma append_own_element_witness :
  append_copy (H := roomy) two_array (1%nat, 0) two_state = Fault BadAccess.
Proof.
  exact (proj2 (append_own_element (H := roomy) _ _ _ _ 1%nat 0 _ two_repr eq_refl eq_refl)
           eq_refl eq_refl).
Defined.
