(* ===== verification/CxPlatVector.v ===== *)
(** * [CxPlatVector] (inc/cxplatvector.h)

    In the kernel [CxPlatVector] is [KArray]; in user mode it is a class derived
    from [std::vector] whose [push_back] reports a failed allocation by its
    result and which adds [eraseAt].  [Vector] is what portable code may use of
    it, [VectorLaws] what it may rely on; both implementations satisfy the laws,
    and clients are verified against the laws alone. *)

From S2P Require Import Prelude KArray KArrayLemmas KArraySpec KArrayTheorems.

(** ** User mode *)

(** [std::vector]: its elements and its capacity.  When it is full, [push_back]
    asks for more memory and throws if there is none, without a change. *)
Record vector (T : Type) := mkVector { v_elems : list T; v_capacity : nat }.
Arguments mkVector {T} _ _.
Arguments v_elems {T} _.
Arguments v_capacity {T} _.

(** Whether the allocator has memory for [n] elements, and what capacity the
    library asks for. *)
Class StdAllocator := { has_memory : nat -> bool; grown : nat -> nat }.

(** The result of a call that may throw. *)
Inductive thrown (A : Type) := Returns (a : A) | Throws.
Arguments Returns {A} _.
Arguments Throws {A}.

Section UserVector.
Context {T : Type} `{!StdAllocator}.

Definition std_push_back (v : vector T) (x : T) : thrown (vector T) :=
  if (length (v_elems v) <? v_capacity v)%nat
  then Returns (mkVector (v_elems v ++ [x]) (v_capacity v))
  else
    let cap := Nat.max (S (length (v_elems v))) (grown (v_capacity v)) in
    if has_memory cap then Returns (mkVector (v_elems v ++ [x]) cap) else Throws.

(** [erase] of an iterator that is not in the vector, and [operator[]] beyond
    the end, are undefined. *)
Definition std_erase (i : Z) : M (vector T) unit := fun v =>
  if (0 <=? i) && (i <? Z.of_nat (length (v_elems v)))
  then Ret tt (mkVector (delete (Z.to_nat i) (v_elems v)) (v_capacity v))
  else Fault BadAccess.

Definition std_at (i : Z) : M (vector T) T := fun v =>
  match v_elems v !! Z.to_nat i with
  | Some x => if 0 <=? i then Ret x v else Fault BadAccess
  | None => Fault BadAccess
  end.

Definition std_size : M (vector T) Z := fun v => Ret (Z.of_nat (length (v_elems v))) v.

Definition user_push_back (value : T) : M (vector T) bool := fun v =>
  match std_push_back v value with
  | Returns v' => Ret true v'
  | Throws => Ret false v
  end.

Definition user_eraseAt (index : Z) : M (vector T) unit := std_erase index.
End UserVector.

(** ** The interface *)

Class Vector (T St : Type) := {
  push_back : T -> M St bool;
  eraseAt : Z -> M St unit;
  vec_size : M St Z;
  vec_at : Z -> M St T;
  holds : St -> list T -> Prop
}.

Class VectorLaws (T St : Type) `{!Vector T St} : Prop := {
  law_push s l x : holds s l ->
    exists ok s', push_back x s = Ret ok s' /\ holds s' (if ok then l ++ [x] else l);
  law_erase s l (i : nat) : holds s l -> (i < length l)%nat ->
    exists s', eraseAt (Z.of_nat i) s = Ret tt s' /\ holds s' (delete i l);
  law_size s l : holds s l -> vec_size s = Ret (Z.of_nat (length l)) s;
  law_at s l (i : nat) x : holds s l -> l !! i = Some x -> vec_at (Z.of_nat i) s = Ret x s
}.

#[export] Instance user_vector {T} `{!StdAllocator} : Vector T (vector T) := {|
  push_back := user_push_back; eraseAt := user_eraseAt; vec_size := std_size; vec_at := std_at;
  holds := fun v l => v_elems v = l
|}.

#[export] Instance user_vector_laws {T} `{!StdAllocator} : VectorLaws T (vector T).
Proof.
  split; cbn.
  - intros v l x <-. unfold user_push_back, std_push_back.
    destruct (_ <? _)%nat; [by exists true; eexists|]. destruct (has_memory _); [by exists true; eexists|].
    by exists false, v.
  - intros v l i <- Hi. unfold user_eraseAt, std_erase.
    rewrite (proj2 (Z.leb_le 0 (Z.of_nat i))), (proj2 (Z.ltb_lt _ _)) by lia. cbn. rewrite Nat2Z.id. by eexists.
  - by intros v l <-.
  - intros v l i x <- Hx. unfold std_at. rewrite Nat2Z.id, Hx. by rewrite (proj2 (Z.leb_le 0 (Z.of_nat i))) by lia.
Qed.

(** ** Kernel mode *)

(** An array object and the memory.  The argument of [push_back] is bound to a
    reference; it is an object of the caller, outside the array. *)
Section KernelVector.
Context {T : Type} `{!ElemType T} `{!PoolEnv} `{Hirql : !LowIrql}.

Definition kvector : Type := kstate T * KArray.

Definition lift {A} (f : KArray -> M (kstate T) (KArray * A)) : M kvector A := fun v =>
  match f v.2 v.1 with
  | Ret (a', x) s' => Ret x (s', a')
  | Stop r => Stop r
  | Fault e => Fault e
  | NoFuel => NoFuel
  end.

(** The caller's object. *)
Definition with_argument (x : T) (s : kstate T) : kstate T :=
  mkState (<[next_block s := [Obj x]]> (heap s)) (S (next_block s)).

Definition kernel_push_back (value : T) : M kvector bool := fun v =>
  lift (fun a => push_back_copy a (next_block v.1, 0)) (with_argument value v.1, v.2).

Definition kernel_eraseAt (index : Z) : M kvector unit :=
  lift (fun a => a' ← KArray.eraseAt a index; mret (a', tt)).

Definition kernel_size : M kvector Z := lift (fun a => mret (a, size a)).

Definition kernel_at (index : Z) : M kvector T :=
  lift (fun a => l ← at_index a index; x ← load l; mret (a, x)).

#[export] Instance kernel_vector : Vector T kvector := {|
  push_back := kernel_push_back; eraseAt := kernel_eraseAt; vec_size := kernel_size; vec_at := kernel_at;
  holds := fun v l => exists rest, repr v.1 v.2 l rest
|}.

Lemma lift_Ret {A} (f : KArray -> M (kstate T) (KArray * A)) s a s' a' x :
  f a s = Ret (a', x) s' -> lift f (s, a) = Ret x (s', a').
Proof. intros Hf. unfold lift. cbn. by rewrite Hf. Qed.

(** The caller's object is outside the array. *)
Lemma repr_argument s a l rest x :
  repr s a l rest ->
  repr (with_argument x s) a l (<[next_block s := [Obj x]]> rest) /\
  external (<[next_block s := [Obj x]]> rest) (next_block s, 0) x.
Proof.
  intros [Hf Hn Hc Hb]. split; [|exists [Obj x]; by rewrite lookup_insert_eq].
  split; cbn; [|done|done|].
  - intros b Hge. rewrite lookup_insert_ne by lia. apply Hf. lia.
  - destruct (p_ a) as [b|]; [|by destruct Hb as [? ->]].
    destruct Hb as (tail & Hrb & Hh & Hl & Hd). exists tail.
    assert (b <> next_block s) as Hne.
    { intros ->. specialize (Hf (next_block s) ltac:(lia)). rewrite Hh, lookup_insert_eq in Hf. done. }
    rewrite lookup_insert_ne by done. split; [done|]. split; [|done].
    by rewrite Hh, insert_insert_ne.
Qed.

#[export] Instance kernel_vector_laws : VectorLaws T kvector.
Proof.
  split; cbn.
  - intros [s a] l x [rest Hr]. destruct (repr_argument s a l rest x Hr) as [Hr1 He].
    destruct (append_with_spec true _ _ _ _ _ _ Hr1 He) as (a' & s' & Ha & Hr').
    eexists _, _. split; [apply lift_Ret; unfold push_back_copy; rewrite paged; exact Ha|]. by eexists.
  - intros [s a] l i [rest Hr] Hi. destruct (eraseAt_spec s a l rest i Hr Hi) as (a' & s' & He & Hr').
    exists (s', a'). split; [|by exists rest]. apply lift_Ret. by rewrite (bind_Ret _ _ _ _ _ He).
  - intros [s a] l [rest Hr]. unfold kernel_size, lift. cbn. cbn in Hr. unfold size, count. by rewrite (repr_count _ _ _ _ Hr).
  - intros [s a] l i x [rest Hr] Hx. destruct (at_index_spec s a l rest i x Hr Hx) as (b & Hat & _ & Hl).
    apply lift_Ret. by rewrite (bind_Ret _ _ _ _ _ Hat), (bind_Ret _ _ _ _ _ Hl).
Qed.
End KernelVector.

(** ** Portable clients *)

Section Clients.
Context {T : Type}.

(** A client pushes values and erases elements, and goes on according to the
    results of its pushes. *)
Inductive vclient :=
  | VDone
  | VPush (x : T) (k : bool -> vclient)
  | VErase (i : nat) (k : vclient).

Fixpoint vrun {St} `{!Vector T St} (c : vclient) : M St (list bool) :=
  match c with
  | VDone => mret []
  | VPush x k => ok ← push_back x; oks ← vrun (k ok); mret (ok :: oks)
  | VErase i k => _ ← eraseAt (Z.of_nat i); vrun k
  end.

(** The same client on a list, for the results the pushes had; [None] if it
    erases beyond the end. *)
Fixpoint vspec (c : vclient) (oks : list bool) (l : list T) : option (list T) :=
  match c, oks with
  | VDone, [] => Some l
  | VPush x k, ok :: oks => vspec (k ok) oks (if ok then l ++ [x] else l)
  | VErase i k, oks => if decide (i < length l)%nat then vspec k oks (delete i l) else None
  | _, _ => None
  end.

(** It never erases beyond the end, whichever pushes fail. *)
Fixpoint vsafe (c : vclient) (l : list T) : Prop :=
  match c with
  | VDone => True
  | VPush x k => forall ok : bool, vsafe (k ok) (if ok then l ++ [x] else l)
  | VErase i k => (i < length l)%nat /\ vsafe k (delete i l)
  end.

(** The elements, read back one after the other. *)
Fixpoint read_back {St} `{!Vector T St} (n : nat) (i : Z) : M St (list T) :=
  match n with
  | O => mret []
  | S n => x ← vec_at i; xs ← read_back n (i + 1); mret (x :: xs)
  end.

Section Laws.
Context {St : Type} `{L : VectorLaws T St}.

Lemma vrun_spec c s l :
  holds s l -> vsafe c l ->
  exists oks s' l', vrun c s = Ret oks s' /\ vspec c oks l = Some l' /\ holds s' l'.
Proof.
  induction c as [|x k IH|i k IH] in s, l |- *; cbn [vsafe vrun].
  - intros Hh _. by exists [], s, l.
  - intros Hh Hs. destruct (law_push s l x Hh) as (ok & s1 & Hp & Hh1).
    destruct (IH ok s1 _ Hh1 (Hs ok)) as (oks & s2 & l2 & Hr & Hl & Hh2).
    exists (ok :: oks), s2, l2. by rewrite (bind_Ret _ _ _ _ _ Hp), (bind_Ret _ _ _ _ _ Hr).
  - intros Hh [Hi Hs]. destruct (law_erase s l i Hh Hi) as (s1 & He & Hh1).
    destruct (IH s1 _ Hh1 Hs) as (oks & s2 & l2 & Hr & Hl & Hh2).
    exists oks, s2, l2. rewrite (bind_Ret _ _ _ _ _ He). split; [done|]. split; [|done].
    cbn. by rewrite decide_True.
Qed.

Lemma read_back_spec s l n i :
  holds s l -> (i + n = length l)%nat -> read_back n (Z.of_nat i) s = Ret (drop i l) s.
Proof.
  intros Hh. induction n as [|n IH] in i |- *; intros Hi; cbn [read_back].
  - by rewrite drop_ge by lia.
  - destruct (lookup_lt_is_Some_2 l i) as [x Hx]; [lia|].
    rewrite (bind_Ret _ _ _ _ _ (law_at s l i x Hh Hx)).
    replace (Z.of_nat i + 1) with (Z.of_nat (S i)) by lia.
    rewrite (bind_Ret _ _ _ _ _ (IH (S i) ltac:(lia))). by rewrite (drop_S _ _ _ Hx).
Qed.

Lemma contents_spec s l :
  holds s l -> vec_size s = Ret (Z.of_nat (length l)) s /\ read_back (length l) 0 s = Ret l s.
Proof. intros Hh. split; [by apply law_size|]. by apply (read_back_spec s l (length l) 0 Hh). Qed.
End Laws.
End Clients.

(** C16: [CxPlatVector] behaves the same in user mode and in the kernel.  A client
    that pushes, branches on the results and erases within the bounds runs to
    its end on both; each vector then has the size and the elements, index by
    index, of the list computed from its results; so if the same pushes
    succeeded, the two vectors have the same elements. *)
Theorem vector_portable {T} `{!ElemType T} `{!PoolEnv} `{Hirql : !LowIrql} `{!StdAllocator} (c : vclient (T := T))
    (v : vector T) (s : kstate T) a rest l :
  v_elems v = l -> repr s a l rest -> vsafe c l ->
  exists oks1 v' l1 oks2 w' l2,
    vrun c v = Ret oks1 v' /\ vspec c oks1 l = Some l1 /\
    vrun c (s, a) = Ret oks2 w' /\ vspec c oks2 l = Some l2 /\
    (vec_size v' = Ret (Z.of_nat (length l1)) v' /\ read_back (length l1) 0 v' = Ret l1 v') /\
    (vec_size w' = Ret (Z.of_nat (length l2)) w' /\ read_back (length l2) 0 w' = Ret l2 w') /\
    (oks1 = oks2 -> l1 = l2).
Proof.
  intros Hv Hr Hs.
  destruct (vrun_spec (St := vector T) c v l) as (oks1 & v' & l1 & Hr1 & Hl1 & Hh1); [exact Hv|done|].
  destruct (vrun_spec (St := kvector) c (s, a) l) as (oks2 & w' & l2 & Hr2 & Hl2 & Hh2); [by exists rest|done|].
  exists oks1, v', l1, oks2, w', l2. split_and!; try done.
  1-2: by apply (contents_spec (St := vector T) v' l1 Hh1).
  1-2: by apply (contents_spec (St := kvector) w' l2 Hh2).
  intros ->. congruence.
Qed.

(** Three pushes, of which the second and third elements stay. *)
Definition push_three : vclient (T := pod) :=
  VPush (Pod 5) (fun _ => VPush (Pod 6) (fun a => VPush (Pod 7) (fun ok => if ok then VErase 0 VDone else VDone))).

Definition ample : StdAllocator := {| has_memory := fun _ => true; grown := fun n => (2 * n)%nat |}.

Lemma vector_portable_witness :
  exists oks1 v' oks2 w',
    vrun (Vector0 := user_vector (H := ample)) push_three (mkVector [] 0) = Ret oks1 v' /\
    vspec push_three oks1 [] = Some [Pod 6; Pod 7] /\
    vrun (Vector0 := kernel_vector (H := roomy)) push_three (mkState ∅ 0, empty) = Ret oks2 w' /\
    read_back (Vector0 := kernel_vector (H := roomy)) 2 0 w' = Ret [Pod 6; Pod 7] w'.
Proof.
  destruct (vector_portable (H := roomy) (H0 := ample) push_three (mkVector [] 0) (mkState ∅ 0) empty ∅ [])
    as (oks1 & v' & l1 & oks2 & w' & l2 & Hr1 & Hl1 & Hr2 & Hl2 & _ & [_ Hb] & _).
  - reflexivity.
  - by apply repr_empty.
  - cbn. repeat (intros [|]); cbn; auto with lia.
  - assert (oks1 = [true; true; true]) as -> by (vm_compute in Hr1; congruence).
    assert (oks2 = [true; true; true]) as ->.
    { assert (exists w, vrun (Vector0 := kernel_vector (H := roomy)) push_three (mkState ∅ 0, empty) =
        Ret [true; true; true] w) as [w Hw] by (eexists; vm_compute; reflexivity).
      pose proof (eq_trans (eq_sym Hw) Hr2) as Heq. by injection Heq as <- _. }
    exists [true; true; true], v', [true; true; true], w'. split; [exact Hr1|]. split; [reflexivity|].
    split; [exact Hr2|]. injection Hl2 as <-. exact Hb.
Defined.
