(* ===== verification/PoolAlloc.v ===== *)
(** * Pool allocation and debug blocks (inc/karray.h, first half)

    The pool routines karray.h defines outside the kernel, the class-scope
    operators new and delete of [KALLOCATOR] and [KALLOCATOR_NONPAGED], the
    signature of [DebugBlock], and objects that derive from both
    ([PAGED_OBJECT], [NONPAGED_OBJECT]).  The kernel's pool is not part of the
    repository: whether it grants a request, and whether it checks the tag when
    a block is freed, are parameters.  [PAGED_CODE] is the kernel's check of the
    interrupt level in debug builds. *)

From S2P Require Import Prelude.

(** ** Builds and interrupt levels *)

(** The preprocessor symbols the code tests.  [DBG] selects the members of
    [DebugBlock], [DEBUG] the assertions. *)
Record build := mkBuild { KERNEL_MODE : bool; DBG : bool; DEBUG : bool }.

Definition PASSIVE_LEVEL : Z := 0.
Definition APC_LEVEL : Z := 1.
Definition DISPATCH_LEVEL : Z := 2.

Class PoolSystem := {
  the_build : build;
  irql : Z;                        (* the interrupt level of the calls *)
  grants : Z -> Z -> bool;         (* pool type and size of a request *)
  checks_tags : bool               (* the kernel pool stops at a wrong tag *)
}.

(** ** Pool types *)

Module POOL_TYPE.
Definition NonPagedPool : Z := 0.
Definition NonPagedPoolExecute : Z := NonPagedPool.
Definition PagedPool : Z := NonPagedPoolExecute + 1.
Definition NonPagedPoolMustSucceed : Z := NonPagedPool + 2.
Definition DontUseThisType : Z := NonPagedPoolMustSucceed + 1.
Definition NonPagedPoolCacheAligned : Z := NonPagedPool + 4.
Definition PagedPoolCacheAligned : Z := NonPagedPoolCacheAligned + 1.
Definition NonPagedPoolCacheAlignedMustS : Z := NonPagedPool + 6.
Definition MaxPoolType : Z := NonPagedPoolCacheAlignedMustS + 1.
Definition NonPagedPoolBase : Z := 0.
Definition NonPagedPoolBaseMustSucceed : Z := NonPagedPoolBase + 2.
Definition NonPagedPoolBaseCacheAligned : Z := NonPagedPoolBase + 4.
Definition NonPagedPoolBaseCacheAlignedMustS : Z := NonPagedPoolBase + 6.
Definition NonPagedPoolSession : Z := 32.
Definition PagedPoolSession : Z := NonPagedPoolSession + 1.
Definition NonPagedPoolMustSucceedSession : Z := PagedPoolSession + 1.
Definition DontUseThisTypeSession : Z := NonPagedPoolMustSucceedSession + 1.
Definition NonPagedPoolCacheAlignedSession : Z := DontUseThisTypeSession + 1.
Definition PagedPoolCacheAlignedSession : Z := NonPagedPoolCacheAlignedSession + 1.
Definition NonPagedPoolCacheAlignedMustSSession : Z := PagedPoolCacheAlignedSession + 1.
Definition NonPagedPoolNx : Z := 512.
Definition NonPagedPoolNxCacheAligned : Z := NonPagedPoolNx + 4.
Definition NonPagedPoolSessionNx : Z := NonPagedPoolNx + 32.

(** The seven kinds of pool, and the same kinds per session. *)
Definition plain : list Z :=
  [NonPagedPool; PagedPool; NonPagedPoolMustSucceed; DontUseThisType; NonPagedPoolCacheAligned;
   PagedPoolCacheAligned; NonPagedPoolCacheAlignedMustS].
Definition session : list Z :=
  [NonPagedPoolSession; PagedPoolSession; NonPagedPoolMustSucceedSession; DontUseThisTypeSession;
   NonPagedPoolCacheAlignedSession; PagedPoolCacheAlignedSession; NonPagedPoolCacheAlignedMustSSession].
End POOL_TYPE.

(** Cracking a pool type: the paged ones are the odd ones. *)
Definition paged_arena (t : Z) : bool := Z.testbit t 0.

(** ** Blocks *)

(** An address is an integer, 0 the null pointer.  A block keeps its size, what
    the pool recorded of the request (user-mode memory has neither pool type nor
    tag), and, while an object with a [DebugBlock] lives in it, its [Signature]. *)
Record block := mkBlock {
  bytes : Z; arena : option Z; tag : option Z; Signature : option Z
}.

Record pool := mkPool { live : gmap Z block; next : Z }.

Definition pool_ok (s : pool) : Prop :=
  0 < next s /\ forall p b, live s !! p = Some b -> 0 < p < next s.

#[local] Abbreviation P := (M pool).

Definition place (b : block) : P Z := fun s =>
  Ret (next s) (mkPool (<[next s := b]> (live s)) (next s + 1)).

Definition lookup_block (p : Z) : P block := fun s =>
  match live s !! p with Some b => Ret b s | None => Fault BadAccess end.

Definition remove_block (p : Z) : P unit := fun s => Ret tt (mkPool (delete p (live s)) (next s)).

Definition set_signature (p : Z) (v : option Z) : P unit := fun s =>
  match live s !! p with
  | Some b => Ret tt (mkPool (<[p := mkBlock (bytes b) (arena b) (tag b) v]> (live s)) (next s))
  | None => Fault BadAccess
  end.

Section Routines.
Context `{!PoolSystem}.

(** The kernel's macro: nothing in user mode and in retail builds. *)
Definition PAGED_CODE : P unit :=
  if KERNEL_MODE the_build && DBG the_build then fre_assert (irql <=? APC_LEVEL) else mret tt.

(** [CXPLAT_DBG_ASSERT]. *)
Definition dbg_assert (b : bool) : P unit :=
  if DEBUG the_build then fre_assert b else mret tt.

Definition malloc (n : Z) : P Z :=
  if grants 0 n then place (mkBlock n None None None) else mret 0.

Definition free (p : Z) : P unit :=
  if p =? 0 then mret tt else _ ← lookup_block p; remove_block p.

(** The kernel's routines may not be called above [DISPATCH_LEVEL], and paged pool
    may not be touched above [APC_LEVEL]. *)
Definition kernel_level (t : Z) : P unit :=
  if irql <=? (if paged_arena t then APC_LEVEL else DISPATCH_LEVEL) then mret tt else fail_with BadAccess.

Definition kernel_alloc (t n g : Z) : P Z :=
  _ ← kernel_level t;
  if grants t n then place (mkBlock n (Some t) (Some g) None) else mret 0.

Definition kernel_free (p g : Z) : P unit :=
  b ← lookup_block p;
  _ ← kernel_level (default 0 (arena b));
  _ ← (if checks_tags then fre_assert (bool_decide (tag b = Some g)) else mret tt);
  remove_block p.

Definition ExAllocatePoolUninitialized (PoolType NumberOfBytes Tag : Z) : P Z :=
  if KERNEL_MODE the_build then kernel_alloc PoolType NumberOfBytes Tag
  else malloc NumberOfBytes.

Definition ExFreePool (p : Z) : P unit := free p.

Definition ExFreePoolWithTag (p Tag : Z) : P unit :=
  if KERNEL_MODE the_build then kernel_free p Tag else ExFreePool p.
End Routines.

(** ** Class-scope new and delete *)

(** The operators a class gets from its allocator base class. *)
Record allocator := mkAllocator {
  AllocationTag : Z;
  AllocationArena : Z;
  op_new : Z -> P Z;
  op_delete : Z -> P unit;
  op_new_extra : Z -> Z -> P Z;
  op_new_array : Z -> P Z;
  op_delete_array : Z -> P unit;
  op_new_placement : Z -> Z -> P Z;
  op_delete_placement : Z -> Z -> P unit
}.

Module Paged.
Section Operators.
Context `{!PoolSystem}.
Variable TAG ARENA : Z.

Definition new (cb : Z) : P Z :=
  _ ← PAGED_CODE;
  ExAllocatePoolUninitialized ARENA cb TAG.

Definition del (p : Z) : P unit :=
  _ ← PAGED_CODE;
  if negb (p =? 0) then ExFreePoolWithTag p TAG else mret tt.

Definition new_extra (cb extraBytes : Z) : P Z :=
  _ ← PAGED_CODE;
  let size := u64 (cb + extraBytes) in
  if size <? cb then mret 0
  else ExAllocatePoolUninitialized ARENA size TAG.

Definition new_array (cb : Z) : P Z :=
  _ ← PAGED_CODE;
  ExAllocatePoolUninitialized ARENA cb TAG.

Definition del_array (p : Z) : P unit :=
  _ ← PAGED_CODE;
  if negb (p =? 0) then ExFreePoolWithTag p TAG else mret tt.

Definition new_placement (n p : Z) : P Z := _ ← PAGED_CODE; mret p.
Definition del_placement (p1 p2 : Z) : P unit := PAGED_CODE.
End Operators.
End Paged.

Module NonPaged.
Section Operators.
Context `{!PoolSystem}.
Variable TAG ARENA : Z.

Definition new (cb : Z) : P Z := ExAllocatePoolUninitialized ARENA cb TAG.

Definition del (p : Z) : P unit :=
  if negb (p =? 0) then ExFreePoolWithTag p TAG else mret tt.

Definition new_extra (cb extraBytes : Z) : P Z :=
  let size := u64 (cb + extraBytes) in
  if size <? cb then mret 0
  else ExAllocatePoolUninitialized ARENA size TAG.

Definition new_array (cb : Z) : P Z := ExAllocatePoolUninitialized ARENA cb TAG.

Definition del_array (p : Z) : P unit :=
  if negb (p =? 0) then ExFreePoolWithTag p TAG else mret tt.

Definition new_placement (n p : Z) : P Z := mret p.
Definition del_placement (p1 p2 : Z) : P unit := mret tt.
End Operators.
End NonPaged.

Definition KALLOCATOR `{!PoolSystem} (TAG ARENA : Z) : allocator :=
  mkAllocator TAG ARENA (Paged.new TAG ARENA) (Paged.del TAG) (Paged.new_extra TAG ARENA)
    (Paged.new_array TAG ARENA) (Paged.del_array TAG) Paged.new_placement Paged.del_placement.

Definition KALLOCATOR_NONPAGED `{!PoolSystem} (TAG ARENA : Z) : allocator :=
  mkAllocator TAG ARENA (NonPaged.new TAG ARENA) (NonPaged.del TAG) (NonPaged.new_extra TAG ARENA)
    (NonPaged.new_array TAG ARENA) (NonPaged.del_array TAG) NonPaged.new_placement NonPaged.del_placement.

(** ** Debug blocks *)

Section DebugBlock.
Context `{!PoolSystem}.
Variable SIGNATURE : Z.

(** The member's initializer, where the build has the member. *)
Definition DebugBlock (p : Z) : P unit :=
  if DBG the_build then set_signature p (Some SIGNATURE) else mret tt.

Definition read_signature (p : Z) : P Z :=
  b ← lookup_block p;
  match Signature b with Some v => mret v | None => fail_with UninitRead end.

Definition ASSERT_VALID (p : Z) : P unit :=
  if DBG the_build then
    if DEBUG the_build then v ← read_signature p; dbg_assert (v =? SIGNATURE) else mret tt
  else mret tt.

Definition destroy_DebugBlock (p : Z) : P unit :=
  if DBG the_build then
    _ ← PAGED_CODE;
    _ ← ASSERT_VALID p;
    v ← read_signature p;
    set_signature p (Some (Z.lor v 0x80))
  else mret tt.
End DebugBlock.

(** ** Objects *)

(** [PAGED_OBJECT<TAG>] and [NONPAGED_OBJECT<TAG>]: the allocator is the paged
    one for both, with another pool. *)
Definition PAGED_OBJECT `{!PoolSystem} (TAG : Z) : allocator := KALLOCATOR TAG POOL_TYPE.PagedPool.
Definition NONPAGED_OBJECT `{!PoolSystem} (TAG : Z) : allocator := KALLOCATOR TAG POOL_TYPE.NonPagedPoolNx.

(** The expressions [new (std::nothrow) C] and [delete p] for such a class:
    a null pointer is neither constructed nor destroyed. *)
Definition new_object `{!PoolSystem} (a : allocator) (cb : Z) : P Z :=
  p ← op_new a cb;
  _ ← (if p =? 0 then mret tt else DebugBlock (AllocationTag a) p);
  mret p.

Definition delete_object `{!PoolSystem} (a : allocator) (p : Z) : P unit :=
  if p =? 0 then mret tt
  else _ ← destroy_DebugBlock (AllocationTag a) p; op_delete a p.
