(* ===== verification/PoolTheorems.v ===== *)
(** * Theorems about pool allocation and debug blocks

    At the interrupt levels an allocator may be used at, its operators never stop
    or fault; what new gives delete takes back; new with extra bytes never gives
    less than both counts; and in builds that have the signature, using an
    object after its destruction is detected, for tags of ASCII characters. *)

From S2P Require Import Prelude PoolAlloc.

Section Pool.
Context `{E : !PoolSystem}.

(** The allocator of a class, paged or not. *)
Definition allocator_of (paged : bool) (TAG ARENA : Z) : allocator :=
  if paged then KALLOCATOR TAG ARENA else KALLOCATOR_NONPAGED TAG ARENA.

(** The level the table of karray.h asks for: allocation and freeing happen at
    PASSIVE_LEVEL. *)
Definition documented_level : Prop := KERNEL_MODE the_build = false \/ irql = PASSIVE_LEVEL.

(** The levels at which its operators work: up to APC_LEVEL, and for an allocator
    without pageable code and with nonpaged memory up to DISPATCH_LEVEL, the
    limit of the annotation NONPAGED. *)
Definition level_ok (paged : bool) (ARENA : Z) : Prop :=
  KERNEL_MODE the_build = false \/ irql <= APC_LEVEL \/
  (paged = false /\ paged_arena ARENA = false /\ irql <= DISPATCH_LEVEL).

Lemma documented_level_ok paged ARENA : documented_level -> level_ok paged ARENA.
Proof. intros [H|H]; [by left|right; left]. rewrite H. done. Qed.

(** What the pool records of a request. *)
Definition granted (ARENA cb TAG : Z) : block :=
  if KERNEL_MODE the_build then mkBlock cb (Some ARENA) (Some TAG) None else mkBlock cb None None None.

Definition request_granted (ARENA cb : Z) : bool :=
  grants (if KERNEL_MODE the_build then ARENA else 0) cb.

(** A block of [cb] bytes was requested: it is new, or there is none. *)
Definition obtained (ARENA cb TAG : Z) (s : pool) : outcome pool Z :=
  if request_granted ARENA cb
  then Ret (next s) (mkPool (<[next s := granted ARENA cb TAG]> (live s)) (next s + 1))
  else Ret 0 s.

(** ** The operators in closed form *)

Lemma paged_code_ok paged ARENA s :
  level_ok paged ARENA -> paged = true -> PAGED_CODE s = Ret tt s.
Proof.
  intros H ->. unfold PAGED_CODE. destruct H as [->|[H|[? _]]]; [done| |done].
  destruct (_ && _); [|done]. unfold fre_assert. by rewrite (proj2 (Z.leb_le _ _) H).
Qed.

Lemma kernel_level_ok paged ARENA s :
  KERNEL_MODE the_build = true -> level_ok paged ARENA -> kernel_level ARENA s = Ret tt s.
Proof.
  intros Hk [H|[H|(_ & Hp & H)]]; [congruence|..]; unfold kernel_level.
  - rewrite (proj2 (Z.leb_le irql _)); [done|]. unfold DISPATCH_LEVEL, APC_LEVEL in *. destruct (paged_arena ARENA); lia.
  - rewrite Hp. by rewrite (proj2 (Z.leb_le _ _) H).
Qed.

Lemma pool_alloc_eq paged TAG ARENA cb s :
  level_ok paged ARENA -> ExAllocatePoolUninitialized ARENA cb TAG s = obtained ARENA cb TAG s.
Proof.
  intros H. unfold ExAllocatePoolUninitialized, obtained, request_granted, granted.
  destruct (KERNEL_MODE the_build) eqn:Hk.
  - unfold kernel_alloc. step_bind (kernel_level_ok _ _ s Hk H). by destruct (grants ARENA cb).
  - unfold malloc. by destruct (grants 0 cb).
Qed.

Lemma new_eq paged TAG ARENA cb s :
  level_ok paged ARENA -> op_new (allocator_of paged TAG ARENA) cb s = obtained ARENA cb TAG s.
Proof.
  intros H. rewrite <- (pool_alloc_eq paged) by done. destruct paged; [|done]. cbn. unfold Paged.new.
  by step_bind (paged_code_ok _ _ s H eq_refl).
Qed.

Lemma new_array_eq paged TAG ARENA cb s :
  op_new_array (allocator_of paged TAG ARENA) cb s = op_new (allocator_of paged TAG ARENA) cb s.
Proof. by destruct paged. Qed.

(** The sum of two sizes is less than one of them iff it wrapped. *)
Lemma size_check cb extra :
  is_u 64 cb -> is_u 64 extra ->
  (u64 (cb + extra) <? cb) = (2 ^ 64 <=? cb + extra) /\ (cb + extra < 2 ^ 64 -> u64 (cb + extra) = cb + extra).
Proof. unfold_int. intros. split; [|zdm]. destruct (Z.leb_spec 18446744073709551616 (cb + extra)); zdm. Qed.

Lemma new_extra_eq paged TAG ARENA cb extra s :
  level_ok paged ARENA -> is_u 64 cb -> is_u 64 extra ->
  op_new_extra (allocator_of paged TAG ARENA) cb extra s =
    if 2 ^ 64 <=? cb + extra then Ret 0 s else obtained ARENA (cb + extra) TAG s.
Proof.
  intros H Hc He. destruct (size_check _ _ Hc He) as [Hlt Hsum].
  assert ((if u64 (cb + extra) <? cb then mret 0 else ExAllocatePoolUninitialized ARENA (u64 (cb + extra)) TAG) s =
    if 2 ^ 64 <=? cb + extra then Ret 0 s else obtained ARENA (cb + extra) TAG s) as Heq.
  { rewrite Hlt. destruct (Z.leb_spec (2 ^ 64) (cb + extra)); [done|].
    by rewrite Hsum, (pool_alloc_eq paged) by done. }
  destruct paged; [|done]. cbn. unfold Paged.new_extra. by step_bind (paged_code_ok _ _ s H eq_refl).
Qed.

(** Deleting a block the allocator gave out. *)
Lemma pool_free_eq paged TAG ARENA p cb sig s :
  level_ok paged ARENA -> p <> 0 ->
  live s !! p = Some (mkBlock cb (arena (granted ARENA cb TAG)) (tag (granted ARENA cb TAG)) sig) ->
  ExFreePoolWithTag p TAG s = Ret tt (mkPool (delete p (live s)) (next s)).
Proof.
  intros H Hp Hl. assert (lookup_block p s = Ret (mkBlock cb (arena (granted ARENA cb TAG))
    (tag (granted ARENA cb TAG)) sig) s) as Hb by (unfold lookup_block; by rewrite Hl).
  unfold ExFreePoolWithTag, granted in *. destruct (KERNEL_MODE the_build) eqn:Hk.
  - unfold kernel_free. step_bind Hb. cbn. step_bind (kernel_level_ok _ _ s Hk H).
    rewrite bool_decide_true by done. by destruct checks_tags.
  - unfold ExFreePool, free. rewrite (proj2 (Z.eqb_neq _ _) Hp). by step_bind Hb.
Qed.

Lemma delete_eq paged TAG ARENA p cb sig s :
  level_ok paged ARENA -> p <> 0 ->
  live s !! p = Some (mkBlock cb (arena (granted ARENA cb TAG)) (tag (granted ARENA cb TAG)) sig) ->
  op_delete (allocator_of paged TAG ARENA) p s = Ret tt (mkPool (delete p (live s)) (next s)).
Proof.
  intros H Hp Hl. rewrite <- (pool_free_eq paged TAG ARENA p cb sig s H Hp Hl).
  destruct paged; cbn; unfold Paged.del, NonPaged.del; [step_bind (paged_code_ok _ _ s H eq_refl)|];
    by rewrite (proj2 (Z.eqb_neq _ _) Hp).
Qed.

Lemma delete_array_eq paged TAG ARENA p s :
  op_delete_array (allocator_of paged TAG ARENA) p s = op_delete (allocator_of paged TAG ARENA) p s.
Proof. by destruct paged. Qed.

Lemma delete_null paged TAG ARENA s :
  level_ok paged ARENA -> op_delete (allocator_of paged TAG ARENA) 0 s = Ret tt s.
Proof.
  intros H. destruct paged; [|done]. cbn. unfold Paged.del. by step_bind (paged_code_ok _ _ s H eq_refl).
Qed.

(** ** New and delete *)

(** C21: new with extra bytes.  The count asked of the pool is the sum of both
    counts, or nothing at all is asked and the result is null, when the sum does
    not fit in [size_t]; a block that is returned is new and has that size. *)
Theorem new_extra_bounds paged TAG ARENA cb extra s :
  level_ok paged ARENA -> pool_ok s -> is_u 64 cb -> is_u 64 extra ->
  exists p s', op_new_extra (allocator_of paged TAG ARENA) cb extra s = Ret p s' /\
    (2 ^ 64 <= cb + extra -> p = 0) /\
    (cb + extra < 2 ^ 64 -> request_granted ARENA (cb + extra) = true -> p <> 0) /\
    (p = 0 -> s' = s) /\
    (p <> 0 -> live s !! p = None /\
       exists b, live s' = <[p := b]> (live s) /\ bytes b = cb + extra /\ cb <= bytes b /\ extra <= bytes b).
Proof.
  intros H [Hn Hok] Hc He. rewrite new_extra_eq by done.
  destruct (Z.leb_spec (2 ^ 64) (cb + extra)); [exists 0, s; repeat split; lia || done|].
  unfold obtained. destruct (request_granted ARENA (cb + extra)) eqn:Hg; [|exists 0, s; repeat split; lia || done].
  eexists _, _. split; [done|]. split; [lia|]. split; [lia|]. split; [lia|]. intros _. split.
  - destruct (live s !! next s) as [b|] eqn:Hl; [|done]. apply Hok in Hl. lia.
  - exists (granted ARENA (cb + extra) TAG). split; [done|]. destruct Hc, He.
    unfold granted. destruct (KERNEL_MODE the_build); cbn; lia.
Qed.

Lemma obtained_ok ARENA cb TAG s p s' :
  pool_ok s -> obtained ARENA cb TAG s = Ret p s' ->
  pool_ok s' /\ ((p = 0 /\ s' = s) \/
    (p <> 0 /\ live s !! p = None /\ live s' = <[p := granted ARENA cb TAG]> (live s))).
Proof.
  intros [Hn Hok]. unfold obtained. destruct (request_granted ARENA cb); intros [= <- <-]; [|by split; auto].
  assert (live s !! next s = None) as Hfresh.
  { destruct (live s !! next s) as [b|] eqn:Hl; [|done]. apply Hok in Hl. lia. }
  split; [|right; split_and!; [lia|done|done]]. split; cbn; [lia|].
  intros q b. rewrite lookup_insert_Some. intros [[<- _]|[_ Hl]]; [lia|]. apply Hok in Hl. lia.
Qed.

Lemma granted_block ARENA cb TAG :
  granted ARENA cb TAG = mkBlock cb (arena (granted ARENA cb TAG)) (tag (granted ARENA cb TAG)) None.
Proof. unfold granted. by destruct (KERNEL_MODE the_build). Qed.

Lemma delete_obtained paged TAG ARENA cb s p s' :
  level_ok paged ARENA -> pool_ok s -> obtained ARENA cb TAG s = Ret p s' ->
  exists s'', op_delete (allocator_of paged TAG ARENA) p s' = Ret tt s'' /\ live s'' = live s.
Proof.
  intros H Hok Ho. destruct (obtained_ok _ _ _ _ _ _ Hok Ho) as [_ [[-> ->]|(Hp & Hfresh & Hl)]].
  { exists s. by rewrite delete_null. }
  eexists. split.
  - eapply (delete_eq paged TAG ARENA p cb None); [done|done|].
    rewrite Hl, lookup_insert_eq. by rewrite <- granted_block.
  - cbn. by rewrite Hl, delete_insert_id.
Qed.

Lemma new_delete_at paged TAG ARENA cb extra s :
  level_ok paged ARENA -> pool_ok s -> is_u 64 cb -> is_u 64 extra ->
  let a := allocator_of paged TAG ARENA in
  forall f, f ∈ [op_new a cb; op_new_array a cb; op_new_extra a cb extra] ->
  exists p s', f s = Ret p s' /\ pool_ok s' /\
    (exists s'', op_delete a p s' = Ret tt s'' /\ live s'' = live s) /\
    op_delete_array a p s' = op_delete a p s' /\
    (p <> 0 -> exists n, live s' !! p = Some (granted ARENA n TAG)).
Proof.
  intros H Hok Hc He a f Hf.
  assert (exists n p s', f s = Ret p s' /\ (obtained ARENA n TAG s = Ret p s' \/ (p = 0 /\ s' = s))) as (n & p & s' & Hr & Ho).
  { assert (forall n, exists p s', obtained ARENA n TAG s = Ret p s') as Hex
      by (intros n; unfold obtained; destruct (request_granted ARENA n); eauto).
    rewrite !elem_of_cons, elem_of_nil in Hf. destruct Hf as [->|[->|[->|[]]]].
    - destruct (Hex cb) as (p & s' & Ho). exists cb, p, s'. unfold a. rewrite new_eq by done. auto.
    - destruct (Hex cb) as (p & s' & Ho). exists cb, p, s'. unfold a. rewrite new_array_eq, new_eq by done. auto.
    - destruct (Hex (cb + extra)) as (p & s' & Ho). unfold a. rewrite new_extra_eq by done.
      destruct (2 ^ 64 <=? cb + extra); [exists 0, 0, s; auto|exists (cb + extra), p, s'; auto]. }
  exists p, s'. split; [done|]. destruct Ho as [Ho|[-> ->]].
  - destruct (obtained_ok _ _ _ _ _ _ Hok Ho) as [Hok' Hb]. split; [done|].
    split; [by eapply delete_obtained|]. split; [apply delete_array_eq|].
    intros Hp. exists n. destruct Hb as [[? _]|(_ & _ & ->)]; [done|apply lookup_insert_eq].
  - split; [done|]. split; [exists s; split; [by apply delete_null|done]|]. split; [apply delete_array_eq|done].
Qed.

Lemma delete_wrong_tag paged TAG TAG' ARENA n p s :
  level_ok paged ARENA -> KERNEL_MODE the_build = true -> checks_tags = true -> TAG' <> TAG -> p <> 0 ->
  live s !! p = Some (granted ARENA n TAG) ->
  op_delete (allocator_of paged TAG' ARENA) p s = Stop AssertFailed.
Proof.
  intros H Hk Ht Hne Hp Hb. apply Z.eqb_neq in Hp.
  assert (ExFreePoolWithTag p TAG' s = Stop AssertFailed) as Hf.
  { unfold ExFreePoolWithTag, kernel_free, lookup_block, mbind, M_bind. rewrite Hk, Hb.
    unfold granted. rewrite Hk. cbn. rewrite (kernel_level_ok _ _ s Hk H), Ht.
    rewrite bool_decide_false; [done|]. congruence. }
  destruct paged; cbn; unfold Paged.del, NonPaged.del; [step_bind (paged_code_ok _ _ s H eq_refl)|]; by rewrite Hp.
Qed.

(** C20: what new gives, delete takes back.  In user mode, and in the kernel at
    PASSIVE_LEVEL, where the table of karray.h wants objects allocated and freed:
    every form of new of both allocators, for every pool type, returns, with
    null or with a block, and the matching delete returns and leaves exactly the
    blocks there were, in the kernel also when the pool checks tags.  Deleting
    with another tag stops a kernel that checks tags. *)
Theorem new_delete_roundtrip paged TAG ARENA cb extra s :
  documented_level -> pool_ok s -> is_u 64 cb -> is_u 64 extra ->
  let a := allocator_of paged TAG ARENA in
  forall f, f ∈ [op_new a cb; op_new_array a cb; op_new_extra a cb extra] ->
  exists p s', f s = Ret p s' /\ pool_ok s' /\
    (exists s'', op_delete a p s' = Ret tt s'' /\ live s'' = live s) /\
    op_delete_array a p s' = op_delete a p s' /\
    (p <> 0 -> KERNEL_MODE the_build = true -> checks_tags = true -> forall TAG', TAG' <> TAG ->
       op_delete (allocator_of paged TAG' ARENA) p s' = Stop AssertFailed).
Proof.
  intros H Hok Hc He a f Hf. pose proof (documented_level_ok paged ARENA H) as Hl.
  destruct (new_delete_at paged TAG ARENA cb extra s Hl Hok Hc He f Hf) as (p & s' & Hr & Hok' & Hd & Hda & Hb).
  exists p, s'. split_and!; [done..|]. intros Hp Hk Ht TAG' Hne.
  by destruct (Hb Hp) as (n & Hn); eapply delete_wrong_tag.
Qed.

(** ** Debug blocks *)

Lemma read_signature_eq p b v s :
  live s !! p = Some b -> Signature b = Some v -> read_signature p s = Ret v s.
Proof. intros Hl Hv. unfold read_signature, lookup_block, mbind, M_bind. by rewrite Hl, Hv. Qed.

Lemma assert_valid_eq SIG p b v s :
  DBG the_build = true -> DEBUG the_build = true ->
  live s !! p = Some b -> Signature b = Some v ->
  ASSERT_VALID SIG p s = if v =? SIG then Ret tt s else Stop AssertFailed.
Proof.
  intros Hd He Hl Hv. unfold ASSERT_VALID. rewrite Hd, He. step_bind (read_signature_eq _ _ _ s Hl Hv).
  unfold dbg_assert, fre_assert. rewrite He. by destruct (v =? SIG).
Qed.

(** The destroyed signature is another one iff bit 7 of it was clear. *)
Lemma spoiled_signature SIG : 0 <= SIG -> (Z.lor SIG 0x80 =? SIG) = Z.testbit SIG 7.
Proof.
  intros Hs. destruct (Z.testbit SIG 7) eqn:Hb.
  - apply Z.eqb_eq, Z.bits_inj'. intros n Hn. rewrite Z.lor_spec. change 0x80 with (2 ^ 7).
    rewrite Z.pow2_bits_eqb by lia. destruct (Z.eqb_spec 7 n) as [<-|]; [by rewrite Hb|apply orb_false_r].
  - apply Z.eqb_neq. intros Heq. rewrite <- Heq, Z.lor_spec in Hb. by rewrite orb_true_r in Hb.
Qed.

Lemma assert_valid_same SIG p b s :
  live s !! p = Some b -> Signature b = (if DBG the_build then Some SIG else None) -> ASSERT_VALID SIG p s = Ret tt s.
Proof.
  intros Hl Hv. destruct (DBG the_build) eqn:Hd; [|unfold ASSERT_VALID; by rewrite Hd].
  destruct (DEBUG the_build) eqn:He; [|unfold ASSERT_VALID; by rewrite Hd, He].
  rewrite (assert_valid_eq SIG p b SIG) by done. by rewrite Z.eqb_refl.
Qed.

Lemma destroy_eq SIG p b s :
  DBG the_build = true -> KERNEL_MODE the_build = false \/ irql <= APC_LEVEL ->
  live s !! p = Some b -> Signature b = Some SIG ->
  destroy_DebugBlock SIG p s =
    Ret tt (mkPool (<[p := mkBlock (bytes b) (arena b) (tag b) (Some (Z.lor SIG 0x80))]> (live s)) (next s)).
Proof.
  intros Hd Hi Hl Hv. unfold destroy_DebugBlock. rewrite Hd.
  rewrite (bind_Ret _ _ _ _ _ (paged_code_ok true 0 s ltac:(destruct Hi; [by left|right; by left]) eq_refl)).
  assert (ASSERT_VALID SIG p s = Ret tt s) as Ha by (apply (assert_valid_same SIG p b); [done|by rewrite Hd]).
  step_bind Ha. step_bind (read_signature_eq _ _ _ s Hl Hv). unfold set_signature. by rewrite Hl.
Qed.

(** A debug block detects use after destruction.  In a build with signatures
    and assertions: a new object is valid; once its destructor has run, every
    further check of it and a second destruction stop the program, unless bit 7
    of the tag is set, which the tags of ASCII characters do not have (then
    nothing is detected). *)
Theorem debug_block_detects SIG p b s :
  DBG the_build = true -> DEBUG the_build = true -> KERNEL_MODE the_build = false \/ irql <= APC_LEVEL ->
  0 <= SIG -> live s !! p = Some b ->
  exists s1 s2, DebugBlock SIG p s = Ret tt s1 /\ ASSERT_VALID SIG p s1 = Ret tt s1 /\
    destroy_DebugBlock SIG p s1 = Ret tt s2 /\
    (Z.testbit SIG 7 = false ->
       ASSERT_VALID SIG p s2 = Stop AssertFailed /\ destroy_DebugBlock SIG p s2 = Stop AssertFailed) /\
    (Z.testbit SIG 7 = true -> ASSERT_VALID SIG p s2 = Ret tt s2).
Proof.
  intros Hd He Hi Hs Hl.
  eexists (mkPool (<[p := mkBlock (bytes b) (arena b) (tag b) (Some SIG)]> (live s)) (next s)), _.
  split; [unfold DebugBlock, set_signature; by rewrite Hd, Hl|].
  split; [by erewrite assert_valid_eq, Z.eqb_refl by (done || apply lookup_insert_eq)|].
  split; [by eapply destroy_eq; [..|apply lookup_insert_eq|done]|].
  cbn [live next bytes arena tag].
  assert (forall s2, live s2 !! p = Some (mkBlock (bytes b) (arena b) (tag b) (Some (Z.lor SIG 0x80))) ->
    ASSERT_VALID SIG p s2 = if Z.testbit SIG 7 then Ret tt s2 else Stop AssertFailed) as Ha.
  { intros s2 Hl2. rewrite (assert_valid_eq SIG p _ (Z.lor SIG 0x80) s2 Hd He Hl2) by done. by rewrite spoiled_signature. }
  match goal with |- context [ASSERT_VALID SIG p ?s2 = Stop _] => specialize (Ha s2 (lookup_insert_eq _ _ _)) end.
  split; intros Hb; rewrite Hb in Ha; [|exact Ha].
  split; [exact Ha|]. unfold destroy_DebugBlock. rewrite Hd.
  rewrite (bind_Ret _ _ _ _ _ (paged_code_ok true 0 _ ltac:(destruct Hi; [by left|right; by left]) eq_refl)).
  by rewrite (bind_Stop _ _ _ _ Ha).
Qed.

(** Above [APC_LEVEL] the destructor of a debug block stops a kernel debug build,
    whatever class derives from it. *)
Lemma destroy_above_apc SIG p s :
  KERNEL_MODE the_build = true -> DBG the_build = true -> APC_LEVEL < irql ->
  destroy_DebugBlock SIG p s = Stop AssertFailed.
Proof.
  intros Hk Hd Hi. unfold destroy_DebugBlock, PAGED_CODE, fre_assert. rewrite Hd, Hk. cbn.
  by rewrite (proj2 (Z.leb_gt _ _) Hi).
Qed.

Definition with_signature (b : block) (v : option Z) : block := mkBlock (bytes b) (arena b) (tag b) v.

Lemma construct_eq SIG p b s :
  live s !! p = Some b -> Signature b = None ->
  DebugBlock SIG p s =
    Ret tt (mkPool (<[p := with_signature b (if DBG the_build then Some SIG else None)]> (live s)) (next s)).
Proof.
  intros Hl Hv. unfold DebugBlock, set_signature, with_signature. destruct (DBG the_build); [by rewrite Hl|].
  destruct s as [m n], b as [? ? ? ?]; cbn in *; subst. by rewrite insert_id.
Qed.

Lemma destroy_cases SIG p b s :
  KERNEL_MODE the_build = false \/ irql <= APC_LEVEL ->
  live s !! p = Some b -> Signature b = (if DBG the_build then Some SIG else None) ->
  exists v, destroy_DebugBlock SIG p s = Ret tt (mkPool (<[p := with_signature b v]> (live s)) (next s)).
Proof.
  intros Hi Hl Hv. destruct (DBG the_build) eqn:Hd.
  - exists (Some (Z.lor SIG 0x80)). by apply destroy_eq.
  - exists None. unfold destroy_DebugBlock, with_signature. rewrite Hd.
    destruct s as [m n], b as [? ? ? ?]; cbn in *; subst. by rewrite insert_id.
Qed.

(** An object of a class derived from [PAGED_OBJECT] or [NONPAGED_OBJECT].
    [new] returns null or an object whose block is valid; [delete] of what [new]
    returned does not stop and leaves exactly the memory there was. *)
Theorem object_roundtrip TAG ARENA cb s :
  KERNEL_MODE the_build = false \/ irql <= APC_LEVEL -> pool_ok s ->
  let a := KALLOCATOR TAG ARENA in
  exists p s', new_object a cb s = Ret p s' /\ (p <> 0 -> ASSERT_VALID TAG p s' = Ret tt s') /\
  exists s'', delete_object a p s' = Ret tt s'' /\ live s'' = live s.
Proof.
  intros Hi Hok a. assert (level_ok true ARENA) as Hlev by (destruct Hi; [by left|right; by left]).
  unfold new_object. destruct (obtained ARENA cb TAG s) as [p s1| | |] eqn:Ho;
    [|unfold obtained in Ho; by destruct (request_granted ARENA cb)..].
  assert (op_new a cb s = Ret p s1) as Hnew by (rewrite <- Ho; apply (new_eq true), Hlev). step_bind Hnew.
  destruct (obtained_ok _ _ _ _ _ _ Hok Ho) as [_ [[-> ->]|(Hp & Hfresh & Hl)]]; [exists 0, s; repeat split; [done..|]; by exists s|].
  assert (live s1 !! p = Some (granted ARENA cb TAG)) as Hb by (by rewrite Hl, lookup_insert_eq).
  rewrite (proj2 (Z.eqb_neq _ _) Hp).
  rewrite (bind_Ret _ _ _ _ _ (construct_eq TAG p _ s1 Hb ltac:(by rewrite granted_block))).
  set (s2 := mkPool _ _). exists p, s2. split; [done|].
  set (b2 := with_signature (granted ARENA cb TAG) (if DBG the_build then Some TAG else None)).
  assert (live s2 !! p = Some b2) as Hb2 by apply lookup_insert_eq. split.
  - intros _. by apply (assert_valid_same TAG p b2).
  - destruct (destroy_cases TAG p b2 s2 Hi Hb2 eq_refl) as [v Hd]. unfold delete_object. change (AllocationTag a) with TAG.
    rewrite (proj2 (Z.eqb_neq _ _) Hp). step_bind Hd. eexists. split.
    + apply (delete_eq true TAG ARENA p cb v); [done|done|]. cbn. rewrite lookup_insert_eq.
      unfold b2, with_signature. rewrite granted_block. done.
    + cbn. by rewrite !insert_insert_eq, Hl, insert_insert_eq, delete_insert_id.
Qed.
End Pool.

(** The session types are the plain types, 32 higher: the low bits still say
    whether a type is paged and cache aligned, and every plain type is below
    [MaxPoolType]. *)
Lemma session_types :
  Forall2 (fun t u => u = 32 + t /\ Z.land u 7 = t /\ paged_arena u = paged_arena t /\ t < POOL_TYPE.MaxPoolType)
    POOL_TYPE.plain POOL_TYPE.session.
Proof. repeat constructor. Qed.

(** ** Concrete runs *)

(** A checked kernel at [PASSIVE_LEVEL], and a user-mode debug build. *)
Definition kernel_passive : PoolSystem :=
  {| the_build := mkBuild true true true; irql := PASSIVE_LEVEL; grants := fun _ n => n <? 4096; checks_tags := true |}.
Definition user_debug : PoolSystem :=
  {| the_build := mkBuild false true true; irql := PASSIVE_LEVEL; grants := fun _ n => n <? 4096; checks_tags := false |}.

(** The tag of [KArray], the characters r, r, A and K. *)
Definition rrAK : Z := 0x7272414B.

Definition empty_pool : pool := mkPool ∅ 1.

Lemma empty_pool_ok : pool_ok empty_pool.
Proof. done. Qed.

Lemma new_extra_bounds_witness :
  let a := allocator_of (E := kernel_passive) false rrAK POOL_TYPE.NonPagedPoolNx in
  (exists p s', op_new_extra a 24 8 empty_pool = Ret p s' /\ p <> 0) /\
  (exists s', op_new_extra a (2 ^ 64 - 8) 8 empty_pool = Ret 0 s').
Proof.
  assert (level_ok (E := kernel_passive) false POOL_TYPE.NonPagedPoolNx) as Hl by (right; left; done).
  split.
  - destruct (new_extra_bounds (E := kernel_passive) false rrAK POOL_TYPE.NonPagedPoolNx 24 8 empty_pool
      Hl empty_pool_ok) as (p & s' & Hr & _ & Hp & _); [done..|].
    exists p, s'. split; [exact Hr|]. apply Hp; [lia|reflexivity].
  - destruct (new_extra_bounds (E := kernel_passive) false rrAK POOL_TYPE.NonPagedPoolNx (2 ^ 64 - 8) 8 empty_pool
      Hl empty_pool_ok) as (p & s' & Hr & Hp & _); [done..|].
    exists s'. rewrite <- Hp; [exact Hr|done].
Defined.

Lemma new_delete_roundtrip_witness :
  let a := allocator_of (E := kernel_passive) false rrAK POOL_TYPE.NonPagedPoolNx in
  exists p s', op_new_array a 100 empty_pool = Ret p s' /\
    (exists s'', op_delete a p s' = Ret tt s'' /\ live s'' = live empty_pool) /\
    op_delete (allocator_of (E := kernel_passive) false 1 POOL_TYPE.NonPagedPoolNx) p s' = Stop AssertFailed.
Proof.
  intros a.
  destruct (new_delete_roundtrip (E := kernel_passive) false rrAK POOL_TYPE.NonPagedPoolNx 100 0 empty_pool
    ltac:(right; done) empty_pool_ok ltac:(done) ltac:(done) (op_new_array a 100))
    as (p & s' & Hr & _ & Hd & _ & Ht); [set_solver|].
  exists p, s'. split; [exact Hr|]. split; [exact Hd|].
  apply Ht; [|done|done|done]. vm_compute in Hr. by injection Hr as <- _.
Defined.

Lemma debug_block_detects_witness :
  let s := mkPool {[ 1 := mkBlock 16 None None None ]} 2 in
  exists s1 s2, DebugBlock (H := user_debug) rrAK 1 s = Ret tt s1 /\
    destroy_DebugBlock (H := user_debug) rrAK 1 s1 = Ret tt s2 /\
    ASSERT_VALID (H := user_debug) rrAK 1 s2 = Stop AssertFailed.
Proof.
  intros s.
  destruct (debug_block_detects (E := user_debug) rrAK 1 (mkBlock 16 None None None) s
    eq_refl eq_refl (or_introl eq_refl)) as (s1 & s2 & Hc & _ & Hd & Hs & _); [done|reflexivity|].
  exists s1, s2. split; [exact Hc|]. split; [exact Hd|]. apply Hs. reflexivity.
Defined.

Lemma object_roundtrip_witness :
  exists p s', new_object (H := user_debug) (KALLOCATOR (H := user_debug) rrAK POOL_TYPE.PagedPool) 64 empty_pool = Ret p s' /\
  exists s'', delete_object (H := user_debug) (KALLOCATOR (H := user_debug) rrAK POOL_TYPE.PagedPool) p s' = Ret tt s'' /\
    live s'' = ∅.
Proof.
  destruct (object_roundtrip (E := user_debug) rrAK POOL_TYPE.PagedPool 64 empty_pool
    (or_introl eq_refl) empty_pool_ok) as (p & s' & Hn & _ & Hd).
  by exists p, s'.
Defined.
