(* ===== verification/KArrayObject.v ===== *)
(** * Array objects (inc/karray.h)

    [KArray] derives from [PAGED_OBJECT<'rrAK'>]: an array object is allocated and
    freed with the paged operators of [PoolAlloc], and in checked builds its base
    class [DebugBlock] stamps the object with a signature, which the destructor of
    the base checks and spoils after the destructor of the array has run.  Here
    the array of [KArray] is put on top of these base classes: one state has the
    memory of the elements and the pool the object is in. *)

From S2P Require Import Prelude KArray KArrayLemmas KArraySpec KArrayTheorems PoolAlloc PoolTheorems.

Section Objects.
Context {T : Type} `{!ElemType T} `{!PoolEnv} `{!PoolSystem}.

(** Both halves run in the same build at the same interrupt level. *)
Class OneSystem : Prop := {
  same_check : checked_kernel = KERNEL_MODE the_build && DBG the_build;
  same_level : current_irql = irql
}.

Definition memory : Type := kstate T * pool.

Definition in_heap {A} (m : M (kstate T) A) : M memory A := fun w =>
  match m w.1 with
  | Ret x s => Ret x (s, w.2)
  | Stop r => Stop r
  | Fault f => Fault f
  | NoFuel => NoFuel
  end.

Definition in_pool {A} (m : M pool A) : M memory A := fun w =>
  match m w.2 with
  | Ret x s => Ret x (w.1, s)
  | Stop r => Stop r
  | Fault f => Fault f
  | NoFuel => NoFuel
  end.

(** [new (std::nothrow) KArray<T>(count, value)]: operator new of the base class,
    the constructor of [DebugBlock], the constructor of [KArray]. *)
Definition new_KArray (sizeof_KArray count : Z) (value : loc) : M memory (option (Z * KArray)) :=
  p ← in_pool (op_new (PAGED_OBJECT rrAK) sizeof_KArray);
  if p =? 0 then mret None
  else
    _ ← in_pool (DebugBlock rrAK p);
    a ← in_heap (ctor count value);
    mret (Some (p, a)).

(** [delete p]: the destructor of [KArray], that of [DebugBlock], operator delete. *)
Definition delete_KArray (o : option (Z * KArray)) : M memory unit :=
  match o with
  | None => mret tt
  | Some (p, a) =>
      _ ← in_heap (dtor a);
      _ ← in_pool (destroy_DebugBlock rrAK p);
      in_pool (op_delete (PAGED_OBJECT rrAK) p)
  end.

(** A function that creates an array, uses it through its members and deletes it;
    the results of the members, or [None] when there was no memory for the object. *)
Definition array_life (less : T -> T -> bool) (sizeof_KArray : Z) (value : loc) (cl : client)
    : M memory (option (list bool)) :=
  o ← new_KArray sizeof_KArray 0 value;
  match o with
  | None => mret None
  | Some (p, a) =>
      r ← in_heap (run less cl a);
      _ ← delete_KArray (Some (p, r.1));
      mret (Some r.2)
  end.

Lemma heap_bind {A B} (m : M (kstate T) A) (k : A -> M memory B) s st x s' :
  m s = Ret x s' -> (mbind k (in_heap m)) (s, st) = k x (s', st).
Proof. intros Hm. apply bind_Ret. unfold in_heap. cbn. by rewrite Hm. Qed.

Lemma pool_bind {A B} (m : M pool A) (k : A -> M memory B) s st x st' :
  m st = Ret x st' -> (mbind k (in_pool m)) (s, st) = k x (s, st').
Proof. intros Hm. apply bind_Ret. unfold in_pool. cbn. by rewrite Hm. Qed.

(** The level of the object's operators is one for the members of the array. *)
Lemma members_low `{!OneSystem} : KERNEL_MODE the_build = false \/ irql <= APC_LEVEL -> LowIrql.
Proof.
  intros Hi Hc. rewrite same_check in Hc. apply andb_true_iff in Hc as [Hk _].
  rewrite same_level. destruct Hi as [Hi|Hi]; [congruence|exact Hi].
Qed.

Lemma ctor_empty `{!LowIrql} value s : ctor 0 value s = Ret empty s.
Proof. unfold ctor. by rewrite paged. Qed.

(** The block of an array object: its signature is intact. *)
Definition object_block (cb : Z) : PoolAlloc.block :=
  with_signature (granted POOL_TYPE.PagedPool cb rrAK) (if DBG the_build then Some rrAK else None).

Lemma new_KArray_spec `{!OneSystem} cb value s st :
  KERNEL_MODE the_build = false \/ irql <= APC_LEVEL -> PoolAlloc.pool_ok st ->
  exists o st', new_KArray cb 0 value (s, st) = Ret o (s, st') /\
    match o with
    | None => request_granted POOL_TYPE.PagedPool cb = false /\ st' = st
    | Some (p, a) => request_granted POOL_TYPE.PagedPool cb = true /\ a = empty /\ p <> 0 /\
        live st !! p = None /\ live st' = <[p := object_block cb]> (live st)
    end.
Proof.
  intros Hi Hok. pose proof (members_low Hi) as Hlow.
  assert (level_ok true POOL_TYPE.PagedPool) as Hlev by (destruct Hi; [by left|right; by left]).
  pose proof (new_eq true rrAK POOL_TYPE.PagedPool cb st Hlev) as Hn.
  destruct (obtained POOL_TYPE.PagedPool cb rrAK st) as [p st1| | |] eqn:Ho;
    [|unfold obtained in Ho; by destruct (request_granted _ _)..].
  unfold new_KArray. rewrite (pool_bind _ _ _ _ _ _ Hn).
  destruct (obtained_ok _ _ _ _ _ _ Hok Ho) as [_ [[-> ->]|(Hp & Hf & Hl)]].
  - exists None, st. split; [done|]. split; [|done]. unfold obtained in Ho.
    destruct (request_granted _ _); [|done]. injection Ho as Hz _. destruct Hok. lia.
  - rewrite (proj2 (Z.eqb_neq _ _) Hp).
    assert (live st1 !! p = Some (granted POOL_TYPE.PagedPool cb rrAK)) as Hb by (by rewrite Hl, lookup_insert_eq).
    pose proof (construct_eq rrAK p _ st1 Hb ltac:(by rewrite granted_block)) as Hc.
    rewrite (pool_bind _ _ _ _ _ _ Hc), (heap_bind _ _ _ _ _ _ (ctor_empty value s)).
    eexists _, _. split; [done|]. split_and!; [|done|done|done|cbn; by rewrite Hl, insert_insert_eq].
    unfold obtained in Ho. destruct (request_granted _ _); [done|]. by injection Ho as <- _.
Qed.

Lemma delete_KArray_spec s st a l rest p cb :
  KERNEL_MODE the_build = false \/ irql <= APC_LEVEL -> p <> 0 -> repr s a l rest ->
  live st !! p = Some (object_block cb) ->
  exists s' st', delete_KArray (Some (p, a)) (s, st) = Ret tt (s', st') /\ heap s' = rest /\ live st' = delete p (live st).
Proof.
  intros Hi Hp Hr Hl. cbn [delete_KArray]. destruct (dtor_spec s a l rest Hr) as (s' & Hd & Hh).
  rewrite (heap_bind _ _ _ _ _ _ Hd). destruct (destroy_cases rrAK p _ st Hi Hl eq_refl) as [v Hv].
  rewrite (pool_bind _ _ _ _ _ _ Hv). set (st1 := mkPool _ _).
  assert (level_ok true POOL_TYPE.PagedPool) as Hlev by (destruct Hi; [by left|right; by left]).
  assert (op_delete (PAGED_OBJECT rrAK) p st1 = Ret tt (mkPool (delete p (live st1)) (next st1))) as He.
  { apply (delete_eq true rrAK POOL_TYPE.PagedPool p cb v); [done|done|]. cbn. rewrite lookup_insert_eq.
    unfold object_block, with_signature, granted. by destruct (KERNEL_MODE the_build). }
  exists s', (mkPool (delete p (live st1)) (next st1)). split; [unfold in_pool; cbn [fst snd]; by rewrite He|].
  split; [done|]. apply delete_insert_eq.
Qed.

(** C19: the life of an array object.  At the levels the object's allocator may be
    used at, a function that creates an array with new, calls its members within
    their contract, in any order and branching on their results, and deletes it,
    always returns: without memory for the object nothing happened; otherwise
    the members behaved as on a list, and afterwards the pool has exactly the
    blocks it had, the memory of the elements is gone, and all other memory is
    unchanged. *)
Theorem karray_life `{!OneSystem} less cl cb value s st :
  KERNEL_MODE the_build = false \/ irql <= APC_LEVEL ->
  PoolAlloc.pool_ok st -> (forall b, (next_block s <= b)%nat -> heap s !! b = None) ->
  admissible less (heap s) cl [] ->
  exists r s' st', array_life less cb value cl (s, st) = Ret r (s', st') /\ live st' = live st /\
    match r with
    | None => request_granted POOL_TYPE.PagedPool cb = false /\ s' = s
    | Some oks => request_granted POOL_TYPE.PagedPool cb = true /\
        heap s' = heap s /\ exists l, arun less (heap s) cl oks [] = Some l
    end.
Proof.
  intros Hi Hok Hf Ha. pose proof (members_low Hi) as Hlow. unfold array_life.
  destruct (new_KArray_spec cb value s st Hi Hok) as ([[p a]|] & st1 & Hn & Ho); rewrite (bind_Ret _ _ _ _ _ Hn).
  - destruct Ho as (Hg & -> & Hp & Hfresh & Hl).
    destruct (client_run_spec less cl s empty [] (heap s)) as (a & oks & s1 & l & He & Hs & Hr1); [by apply repr_empty|done|].
    destruct (delete_KArray_spec s1 st1 a l (heap s) p cb Hi Hp Hr1) as (s2 & st2 & Hd & Hh & Hl2);
      [by rewrite Hl, lookup_insert_eq|].
    rewrite (heap_bind _ _ _ _ _ _ He). cbn [fst snd]. rewrite (bind_Ret _ _ _ _ _ Hd).
    exists (Some oks), s2, st2. split; [done|]. rewrite Hl2, Hl, delete_insert_eq, delete_id by done.
    split; [done|]. split; [done|]. split; [done|]. by exists l.
  - destruct Ho as [Hg ->]. by exists None, s, st.
Qed.

(** Above the level of pageable code, in a checked kernel build: the members that
    are marked PAGED and allocate or move elements stop the system before they
    touch the array.  The destructor is marked NONPAGED, and so is what it calls,
    but destroying an array object stops the system as well, in the destructor
    of the base class, after the elements and the buffer are gone. *)
Theorem karray_above_apc `{!OneSystem} less (a : KArray) l rest s st p t n :
  KERNEL_MODE the_build = true -> DBG the_build = true -> APC_LEVEL < irql -> repr s a l rest ->
  (forall c, c ∈ [CReserve n; CResize n; CClear; CPopBack; CAppend false t; CAppend true t;
                  CPushBack false t; CPushBack true t; CEraseAt n] ->
     exec less c a s = Stop AssertFailed) /\
  begin_ a s = Stop AssertFailed /\ end_const a s = Stop AssertFailed /\
  (exists s', dtor a s = Ret tt s' /\ heap s' = rest) /\
  delete_KArray (Some (p, a)) (s, st) = Stop AssertFailed.
Proof.
  intros Hk Hd Hi Hr.
  assert (forall s : kstate T, KArray.PAGED_CODE s = Stop AssertFailed) as Hp.
  { intros s0. unfold KArray.PAGED_CODE. rewrite same_check, same_level, Hk, Hd. cbn [andb].
    by rewrite (proj2 (Z.leb_gt irql 1) Hi). }
  assert (forall B (k : unit -> M (kstate T) B) s, (mbind k KArray.PAGED_CODE) s = Stop AssertFailed) as Hb
    by (intros; by apply bind_Stop, Hp).
  destruct (dtor_spec s a l rest Hr) as (s' & Hds & Hh).
  split_and!; [|apply Hb|apply Hb|by exists s'|].
  - assert (forall n s, reserve a n s = Stop AssertFailed) as Hres by (intros; apply Hb).
    assert (forall n s, resize a n s = Stop AssertFailed) as Hsz by (intros; by apply bind_Stop).
    assert (forall b tk, append_with b tk a t s = Stop AssertFailed) as Happ.
    { intros b tk. destruct b; [apply Hb|]. apply (bind_Stop (grow a _)), Hb. }
    intros c Hc. rewrite !elem_of_cons, elem_of_nil in Hc.
    destruct_or! Hc; subst; try done; first [apply Hres|apply Hsz|apply Happ|apply Hb|idtac];
      repeat apply bind_Stop; first [apply Hsz|apply Hp].
  - cbn [delete_KArray]. rewrite (heap_bind _ _ _ _ _ _ Hds). apply bind_Stop. unfold in_pool. cbn [fst snd].
    by rewrite destroy_above_apc.
Qed.
End Objects.

(** ** Concrete runs *)

Lemma kernel_passive_one : OneSystem (H := roomy) (H0 := kernel_passive).
Proof. by split. Qed.

Lemma karray_life_witness :
  exists r s' st', array_life (H := roomy) (H0 := kernel_passive) owner_less 24 (O, 0) demo_client
      (args (Owner 7) (Owner 5) (Owner 6), empty_pool) = Ret r (s', st') /\ live st' = ∅ /\ r <> None.
Proof.
  destruct (karray_life (H := roomy) (H0 := kernel_passive) (H1 := kernel_passive_one)
    owner_less demo_client 24 (O, 0) (args (Owner 7) (Owner 5) (Owner 6)) empty_pool)
    as (r & s' & st' & He & Hl & Hr).
  - right. unfold APC_LEVEL. cbn. unfold PASSIVE_LEVEL. lia.
  - apply empty_pool_ok.
  - intros b Hb. apply lookup_singleton_ne. cbn in Hb. lia.
  - vm_compute. repeat first [done|intros [|]].
  - exists r, s', st'. split; [done|]. split; [done|]. destruct r; [done|]. by destruct Hr.
Defined.
