(* ===== verification/Assertions.v ===== *)
(** * Assertions (inc/cxplat_posix.h, inc/cxplat_winuser.h, inc/cxplat_winkernel.h)

    [CXPLAT_FRE_ASSERT] and [CXPLAT_DBG_ASSERT] of the three platforms with the
    functions they call, [CxPlatLogAssert] and [cxplat_bugcheck].  The asserted
    expression is a computation: many assertions of the library contain the call
    they check, so it matters how often the macro evaluates it.  The other files
    use [fre_assert]; the theorem relates the macros to it. *)

From S2P Require Import Prelude.

(** A macro is a computation whose value is the value of the macro; on POSIX it
    has none, and [true] stands for it. *)

Section Functions.
Context {S : Type}.

(** The trace macro of src/inc/cxplat_trace.h expands to nothing. *)
Definition CxPlatTraceEvent : M S unit := mret tt.

Definition CxPlatLogAssert : M S unit := CxPlatTraceEvent.

(** [abort]. *)
Definition cxplat_bugcheck : M S bool := stop AssertFailed.

(** [DbgRaiseAssertionFailure]: without a debugger the exception ends the process. *)
Definition DbgRaiseAssertionFailure : M S unit := stop AssertFailed.

(** [CXPLAT_ANALYSIS_ASSUME]: [(void)0] or [__noop], which evaluates nothing. *)
Definition CXPLAT_ANALYSIS_ASSUME (exp : M S bool) : M S unit := mret tt.
End Functions.

Module PosixAssert.
Section Macros.
Context {S : Type}.
Variable DEBUG : bool.

Definition CXPLAT_FRE_ASSERT (exp : M S bool) : M S bool :=
  v ← exp;
  if v : bool then mret true else _ ← CxPlatLogAssert; cxplat_bugcheck.

Definition CXPLAT_DBG_ASSERT (exp : M S bool) : M S bool :=
  if DEBUG then CXPLAT_FRE_ASSERT exp else mret true.
End Macros.
End PosixAssert.

Module UserAssert.
Section Macros.
Context {S : Type}.
Variable DEBUG : bool.

Definition CXPLAT_ASSERT_NOOP (exp : M S bool) : M S bool :=
  _ ← CXPLAT_ANALYSIS_ASSUME exp; mret false.

Definition CXPLAT_ASSERT_CRASH (exp : M S bool) : M S bool :=
  _ ← CXPLAT_ANALYSIS_ASSUME exp;
  v ← exp;
  if negb v then _ ← CxPlatLogAssert; _ ← DbgRaiseAssertionFailure; mret false else mret true.

Definition CXPLAT_FRE_ASSERT (exp : M S bool) : M S bool := CXPLAT_ASSERT_CRASH exp.

Definition CXPLAT_DBG_ASSERT (exp : M S bool) : M S bool :=
  if DEBUG then CXPLAT_ASSERT_CRASH exp else CXPLAT_ASSERT_NOOP exp.
End Macros.
End UserAssert.

Module KernelAssert.
Section Macros.
Context {S : Type}.
Variable DEBUG : bool.

Definition CXPLAT_ASSERT_NOOP (exp : M S bool) : M S bool :=
  _ ← CXPLAT_ANALYSIS_ASSUME exp; mret false.

Definition CXPLAT_ASSERT_CRASH (exp : M S bool) : M S bool :=
  _ ← CXPLAT_ANALYSIS_ASSUME exp;
  v ← exp;
  if negb v then _ ← CxPlatLogAssert; _ ← DbgRaiseAssertionFailure; mret false else mret true.

Definition CXPLAT_FRE_ASSERT (exp : M S bool) : M S bool := CXPLAT_ASSERT_CRASH exp.

Definition CXPLAT_DBG_ASSERT (exp : M S bool) : M S bool :=
  if DEBUG then CXPLAT_ASSERT_CRASH exp else CXPLAT_ASSERT_NOOP exp.
End Macros.
End KernelAssert.

(** ** Theorem *)

Inductive assert_platform := AssertPosix | AssertUser | AssertKernel.

Definition fre {S} (p : assert_platform) (exp : M S bool) : M S bool :=
  match p with
  | AssertPosix => PosixAssert.CXPLAT_FRE_ASSERT exp
  | AssertUser => UserAssert.CXPLAT_FRE_ASSERT exp
  | AssertKernel => KernelAssert.CXPLAT_FRE_ASSERT exp
  end.

Definition dbg {S} (p : assert_platform) (DEBUG : bool) (exp : M S bool) : M S bool :=
  match p with
  | AssertPosix => PosixAssert.CXPLAT_DBG_ASSERT DEBUG exp
  | AssertUser => UserAssert.CXPLAT_DBG_ASSERT DEBUG exp
  | AssertKernel => KernelAssert.CXPLAT_DBG_ASSERT DEBUG exp
  end.

(** An assertion as a statement, its value dropped; and what it should do. *)
Definition statement {S} (a : M S bool) : M S unit := _ ← a; mret tt.
Definition checked {S} (exp : M S bool) : M S unit := v ← exp; fre_assert v.

(** How often an assertion evaluates its expression.  On every platform
    [CXPLAT_FRE_ASSERT] evaluates it exactly once, in every build: it does what
    evaluating the expression and then checking its value does, so that calls
    may stand in it.  [CXPLAT_DBG_ASSERT] does the same in debug builds, and in
    release builds does not evaluate the expression at all, whatever it does. *)
Theorem assertions_evaluate {S} p (exp : M S bool) s :
  statement (fre p exp) s = checked exp s /\
  statement (dbg p true exp) s = checked exp s /\
  statement (dbg p false exp) s = Ret tt s.
Proof.
  assert (statement (fre p exp) s = checked exp s) as Hf.
  { unfold statement, checked, fre, PosixAssert.CXPLAT_FRE_ASSERT, UserAssert.CXPLAT_FRE_ASSERT, UserAssert.CXPLAT_ASSERT_CRASH,
      KernelAssert.CXPLAT_FRE_ASSERT, KernelAssert.CXPLAT_ASSERT_CRASH, CXPLAT_ANALYSIS_ASSUME, mbind, M_bind.
    destruct p; cbn; destruct (exp s) as [[] ?| | |]; done. }
  split; [done|]. split; [by destruct p|by destruct p].
Qed.
