(* ===== verification/TimeConv.v ===== *)
(** * Time measurement and conversion

    The time interfaces of the three platforms: the POSIX clock functions
    (src/lib/cxplat_posix.c and inc/cxplat_posix.h), the performance counter of
    Windows user and kernel mode (inc/cxplat_winuser.h, inc/cxplat_winkernel.h),
    the 32-bit time arithmetic all three share, and the timer values the kernel
    sleep and the kernel event wait are given.  A reading of an operating system
    clock is an argument of the function that reads it. *)

From S2P Require Import Prelude.

(** ** Unit conversion (inc/cxplat.h)

    The macros at type [uint64_t], where the code applies them. *)

Definition NS100_TO_US (x : Z) : Z := x / 10.
Definition NS100_TO_MS (x : Z) : Z := Z.quot x 10000.
Definition US_TO_MS (x : Z) : Z := x / 1000.
Definition S_TO_MS (x : Z) : option Z := checked_s 64 (x * 1000).

(** ** POSIX *)

Definition CXPLAT_NANOSEC_PER_MS : Z := 1000000.
Definition CXPLAT_NANOSEC_PER_MICROSEC : Z := 1000.
Definition CXPLAT_NANOSEC_PER_SEC : Z := 1000000000.
Definition CXPLAT_MICROSEC_PER_MS : Z := 1000.
Definition CXPLAT_MICROSEC_PER_SEC : Z := 1000000.
Definition CXPLAT_MS_PER_SECOND : Z := 1000.

Record timespec := mkTimespec { tv_sec : Z; tv_nsec : Z }.

(** [tv_sec] and [tv_nsec] are [long]: the sum is a signed computation, [None]
    when it overflows; the result is converted to [uint64_t]. *)
Definition CxPlatTimespecToUs (Time : timespec) : option Z :=
  s ← checked_s 64 (tv_sec Time * CXPLAT_MICROSEC_PER_SEC);
  t ← checked_s 64 (s + Z.quot (tv_nsec Time) CXPLAT_NANOSEC_PER_MICROSEC);
  Some (u64 t).

(** [Res] is what [clock_getres], [CurrTime] what [clock_gettime] stored. *)
Definition CxPlatGetTimerResolution_posix (Res : timespec) : option Z := CxPlatTimespecToUs Res.
Definition CxPlatTimeUs64_posix (CurrTime : timespec) : option Z := CxPlatTimespecToUs CurrTime.

Definition CxPlatTimeUs32_posix (CurrTime : timespec) : option Z :=
  t ← CxPlatTimeUs64_posix CurrTime; Some (u32 t).
Definition CxPlatTimeMs64_posix (CurrTime : timespec) : option Z :=
  t ← CxPlatTimeUs64_posix CurrTime; Some (t / CXPLAT_MICROSEC_PER_MS).
Definition CxPlatTimeMs32_posix (CurrTime : timespec) : option Z :=
  t ← CxPlatTimeMs64_posix CurrTime; Some (u32 t).

(** [DeltaMs] is an [unsigned long], so the two additions are unsigned and
    converted back to [long]. *)
Definition CxPlatGetAbsoluteTime (DeltaMs : Z) (now : timespec) : option timespec :=
  let sec := i64 (u64 (u64 (tv_sec now) + DeltaMs / CXPLAT_MS_PER_SECOND)) in
  let nsec := i64 (u64 (u64 (tv_nsec now) +
                        u64 (DeltaMs mod CXPLAT_MS_PER_SECOND * CXPLAT_NANOSEC_PER_MS))) in
  if CXPLAT_NANOSEC_PER_SEC <=? nsec then
    sec' ← checked_s 64 (sec + 1);
    nsec' ← checked_s 64 (nsec - CXPLAT_NANOSEC_PER_SEC);
    Some (mkTimespec sec' nsec')
  else Some (mkTimespec sec nsec).

(** The [timespec] that [CxPlatSleep] passes to [nanosleep]: the product is one
    of [uint32_t]. *)
Definition CxPlatSleep_posix (DurationMs : Z) : timespec :=
  mkTimespec (DurationMs / CXPLAT_MS_PER_SECOND)
             (u32 (CXPLAT_NANOSEC_PER_MS * (DurationMs mod CXPLAT_MS_PER_SECOND))).

(** [sec] and [usec] are what [gettimeofday] stored. *)
Definition CxPlatTimeEpochMs64_posix (sec usec : Z) : option Z :=
  s ← S_TO_MS sec; checked_s 64 (s + Z.quot usec 1000).

(** ** Shared by the platforms *)

Definition CxPlatTimeDiff64 (T1 T2 : Z) : Z := u64 (T2 - T1).

Definition CxPlatTimeDiff32 (T1 T2 : Z) : Z :=
  if T1 <? T2 then u32 (T2 - T1)
  else u32 (u32 (T2 + u32 (4294967295 - T1)) + 1).

Definition CxPlatTimeAtOrBefore64 (T1 T2 : Z) : bool := T1 <=? T2.

Definition CxPlatTimeAtOrBefore32 (T1 T2 : Z) : bool := i32 (u32 (T1 - T2)) <=? 0.

(** ** Windows *)

(** What the code uses of the SDK's integer macros: the product of two 32-bit
    values at 64 bits, signed or unsigned. *)
Class WinSdk := {
  Int32x32To64 : Z -> Z -> Z;
  UInt32x32To64 : Z -> Z -> Z;
  Int32x32To64_spec a b : Int32x32To64 a b = i32 a * i32 b;
  UInt32x32To64_spec a b : UInt32x32To64 a b = u32 a * u32 b
}.

Section Windows.
Context `{!WinSdk}.

(** [CxPlatPerfFreq], a global that initialization sets. *)
Variable CxPlatPerfFreq : Z.

Definition CxPlatTimePlatToUs64 (Count : Z) : Z :=
  let High := u64 (Z.shiftr Count 32 * 1000000) in
  let Low := u64 (Z.land Count 4294967295 * 1000000) in
  u64 (u64 (Z.shiftl (High / CxPlatPerfFreq) 32) +
       u64 (Low + u64 (Z.shiftl (High mod CxPlatPerfFreq) 32)) / CxPlatPerfFreq).

(** Kernel mode. *)
Definition CxPlatTimeUs64ToPlat_kernel (TimeUs : Z) : Z :=
  let High := u64 (Z.shiftr TimeUs 32 * CxPlatPerfFreq) in
  let Low := u64 (Z.land TimeUs 4294967295 * CxPlatPerfFreq) in
  u64 (u64 (Z.shiftl (High / 1000000) 32) +
       u64 (Low + u64 (Z.shiftl (High mod 1000000) 32)) / 1000000).

(** User mode: the last division is by the frequency. *)
Definition CxPlatTimeUs64ToPlat_user (TimeUs : Z) : Z :=
  let High := u64 (Z.shiftr TimeUs 32 * CxPlatPerfFreq) in
  let Low := u64 (Z.land TimeUs 4294967295 * CxPlatPerfFreq) in
  u64 (u64 (Z.shiftl (High / 1000000) 32) +
       u64 (Low + u64 (Z.shiftl (High mod 1000000) 32)) / CxPlatPerfFreq).

(** [Count] is what the performance counter read. *)
Definition CxPlatTimeUs64_win (Count : Z) : Z := CxPlatTimePlatToUs64 Count.
Definition CxPlatTimeMs64_win (Count : Z) : Z := US_TO_MS (CxPlatTimeUs64_win Count).

Definition UNIX_EPOCH_AS_FILE_TIME : Z := 116444736000000000.

(** [Time] is the system time in 100 ns units since 1601. *)
Definition CxPlatTimeEpochMs64_win (Time : Z) : option Z :=
  t ← checked_s 64 (Time - UNIX_EPOCH_AS_FILE_TIME); Some (NS100_TO_MS t).

Definition CxPlatGetTimerResolution_win (Increment : Z) : Z := NS100_TO_US Increment.

(** The due time given to [KeSetTimer]: negative is relative to now, positive an
    absolute system time. *)
Definition CxPlatSleep_kernel (DurationMs : Z) : Z := i64 (Int32x32To64 DurationMs (-10000)).

(** The timeout given to [KeWaitForSingleObject] by the event and thread waits;
    the same convention. *)
Definition Timeout100Ns (TimeoutMs : Z) : Z := i64 (u64 (u64 (-1) * UInt32x32To64 TimeoutMs 10000)).

End Windows.

#[export] Instance sdk : WinSdk := {|
  Int32x32To64 a b := i32 a * i32 b;
  UInt32x32To64 a b := u32 a * u32 b;
  Int32x32To64_spec a b := eq_refl;
  UInt32x32To64_spec a b := eq_refl
|}.

(** ** Lemmas *)

Lemma shiftr32 n : Z.shiftr n 32 = n / 2 ^ 32.
Proof. by rewrite Z.shiftr_div_pow2. Qed.

Lemma land32 n : Z.land n 4294967295 = n mod 2 ^ 32.
Proof. change 4294967295 with (Z.ones 32). by rewrite Z.land_ones. Qed.

Lemma shiftl32 n : Z.shiftl n 32 = n * 2 ^ 32.
Proof. by rewrite Z.shiftl_mul_pow2. Qed.

(** The split multiplication and division of the two conversions: with [num]
    times the halves and the carry of the high division at 64 bits, the result
    is the exact quotient. *)
Lemma split_muldiv n num den :
  is_u 64 n -> 0 < num -> 0 < den -> num + den <= 2 ^ 32 + 1 ->
  u64 (u64 (Z.shiftl (u64 (Z.shiftr n 32 * num) / den) 32) +
       u64 (u64 (Z.land n 4294967295 * num) +
            u64 (Z.shiftl (u64 (Z.shiftr n 32 * num) mod den) 32)) / den) =
  u64 (n * num / den).
Proof.
  intros [Hn0 Hn1] Hnum Hden Hs. rewrite !shiftr32, land32, !shiftl32.
  pose proof (Z.div_mod n (2 ^ 32) ltac:(lia)) as Hdm.
  pose proof (Z.mod_pos_bound n (2 ^ 32) ltac:(lia)) as Hlo.
  assert (0 <= n / 2 ^ 32 < 2 ^ 32) as Hhi
    by (split; [apply Z.div_pos; lia|apply Z.div_lt_upper_bound; lia]).
  set (h := n / 2 ^ 32) in *. set (l := n mod 2 ^ 32) in *.
  assert (0 <= h * num < 2 ^ 64) by nia. assert (0 <= l * num <= (2 ^ 32 - 1) * num) by nia.
  rewrite (wrap_small 64 (h * num)) by done.
  pose proof (Z.div_mod (h * num) den ltac:(lia)) as Hdm2.
  pose proof (Z.mod_pos_bound (h * num) den ltac:(lia)) as Hr.
  set (q := h * num / den) in *. set (r := (h * num) mod den) in *.
  rewrite (wrap_small 64 (l * num)), (wrap_small 64 (r * 2 ^ 32)) by (unfold is_u; nia).
  rewrite (wrap_small 64 (l * num + r * 2 ^ 32)) by (unfold is_u; nia).
  rewrite wrap_add_l. f_equal.
  replace (n * num) with (q * 2 ^ 32 * den + (l * num + r * 2 ^ 32)) by nia.
  rewrite Z.div_add_l by lia. done.
Qed.

(** The largest frequency for which the carries fit. *)
Definition max_freq : Z := 2 ^ 32 - 999999.

Lemma plat_to_us F n :
  0 < F <= max_freq -> is_u 64 n -> CxPlatTimePlatToUs64 F n = u64 (n * 1000000 / F).
Proof. intros ??. unfold max_freq in *. by apply split_muldiv; try lia. Qed.

Lemma us_to_plat_kernel F n :
  0 < F <= max_freq -> is_u 64 n -> CxPlatTimeUs64ToPlat_kernel F n = u64 (n * F / 1000000).
Proof. intros ??. unfold max_freq in *. by apply split_muldiv; try lia. Qed.

Lemma timediff32_mod T1 T2 :
  is_u 32 T1 -> is_u 32 T2 -> CxPlatTimeDiff32 T1 T2 = u32 (T2 - T1).
Proof.
  intros H1 H2. unfold CxPlatTimeDiff32. destruct (Z.ltb_spec T1 T2); [done|].
  rewrite (wrap_add_l 32). unfold_int.
  replace (T2 + (4294967295 - T1) mod 4294967296 + 1) with (T2 - T1 + 1 * 4294967296)
    by (rewrite (Z.mod_small (4294967295 - T1)); lia).
  by rewrite Z_mod_plus_full.
Qed.

Lemma at_or_before32_sgn T1 T2 : CxPlatTimeAtOrBefore32 T1 T2 = (i32 (T1 - T2) <=? 0).
Proof. unfold CxPlatTimeAtOrBefore32. by rewrite sgn_wrap. Qed.

Lemma sgn_wrap_sub w a b : sgn w (wrap w a - wrap w b) = sgn w (a - b).
Proof. rewrite <- (sgn_wrap w (wrap w a - _)), wrap_sub_l, wrap_sub_r. apply sgn_wrap. Qed.

(** A [timespec] as clocks return it, and its value in nanoseconds. *)
Definition normalised (t : timespec) : Prop :=
  0 <= tv_sec t < 2 ^ 42 /\ 0 <= tv_nsec t < CXPLAT_NANOSEC_PER_SEC.
Definition nanoseconds (t : timespec) : Z := tv_sec t * CXPLAT_NANOSEC_PER_SEC + tv_nsec t.

Lemma timespec_to_us t :
  normalised t -> CxPlatTimespecToUs t = Some (nanoseconds t / 1000).
Proof.
  intros [Hs Hn]. unfold CxPlatTimespecToUs, nanoseconds.
  unfold CXPLAT_NANOSEC_PER_SEC, CXPLAT_MICROSEC_PER_SEC, CXPLAT_NANOSEC_PER_MICROSEC in *.
  assert (0 <= tv_nsec t / 1000 < 1000000) by zdm.
  rewrite Z.quot_div_nonneg by lia.
  rewrite checked_s_Some by (unfold is_s; lia). cbn.
  rewrite checked_s_Some by (unfold is_s; lia). cbn. rewrite wrap_small by (unfold is_u; lia).
  f_equal. replace (tv_sec t * 1000000000) with (tv_sec t * 1000000 * 1000) by lia.
  by rewrite Z.div_add_l by lia.
Qed.

(** ** Theorems *)

(** The 32-bit time arithmetic is right across wrap-around.  For two 64-bit
    times less than 2^31 apart, comparing their low 32 bits with
    [CxPlatTimeAtOrBefore32] gives the 64-bit order; and for a second time less
    than 2^32 after the first, [CxPlatTimeDiff32] of the low 32 bits is the
    64-bit difference. *)
Theorem time32_agrees T1 T2 :
  is_u 64 T1 -> is_u 64 T2 ->
  (Z.abs (T1 - T2) < 2 ^ 31 ->
     CxPlatTimeAtOrBefore32 (u32 T1) (u32 T2) = CxPlatTimeAtOrBefore64 T1 T2) /\
  (0 <= T2 - T1 < 2 ^ 32 ->
     CxPlatTimeDiff32 (u32 T1) (u32 T2) = CxPlatTimeDiff64 T1 T2).
Proof.
  intros H1 H2. split.
  - intros Hd. rewrite at_or_before32_sgn, sgn_wrap_sub, sgn_small by (unfold is_s; lia).
    unfold CxPlatTimeAtOrBefore64.
    destruct (Z.leb_spec (T1 - T2) 0), (Z.leb_spec T1 T2); lia.
  - intros Hd. rewrite timediff32_mod by apply (wrap_range 32 _ ltac:(lia)).
    rewrite wrap_sub_l, wrap_sub_r. unfold CxPlatTimeDiff64. unfold is_u in *. by wrap_norm.
Qed.

Lemma time32_agrees_witness :
  CxPlatTimeAtOrBefore32 (u32 4294967290) (u32 4294967300) = true /\
  CxPlatTimeDiff32 (u32 4294967290) (u32 4294967300) = 10.
Proof.
  destruct (time32_agrees 4294967290 4294967300) as [Ha Hd]; [done|done|].
  split; [exact (Ha eq_refl)|]. apply Hd. done.
Defined.

(** C25: [CxPlatTimePlatToUs64] computes floor(Count * 1000000 / CxPlatPerfFreq)
    modulo 2^64, for every count and every frequency up to 2^32 - 999999 Hz:
    splitting the count into halves neither overflows nor loses precision. *)
Theorem plat_to_us_exact F Count :
  0 < F <= max_freq -> is_u 64 Count ->
  CxPlatTimePlatToUs64 F Count = u64 (Count * 1000000 / F).
Proof. apply plat_to_us. Qed.

Lemma plat_to_us_exact_witness :
  CxPlatTimePlatToUs64 10000000 123456789012345678 = 12345678901234567.
Proof. rewrite plat_to_us_exact; done. Defined.

(** C37: in kernel mode, converting microseconds to counter units and back loses
    at most one microsecond, for a counter frequency from 1 MHz to 2^32 - 999999 Hz
    and times whose count fits in 64 bits. *)
Theorem kernel_time_roundtrip F TimeUs :
  1000000 <= F <= max_freq -> is_u 64 TimeUs -> TimeUs * F / 1000000 < 2 ^ 64 ->
  TimeUs - 1 <= CxPlatTimePlatToUs64 F (CxPlatTimeUs64ToPlat_kernel F TimeUs) <= TimeUs.
Proof.
  intros HF Hu Hfit. rewrite us_to_plat_kernel by (done || lia).
  assert (0 <= TimeUs * F / 1000000) by (apply Z.div_pos; unfold is_u in *; nia).
  rewrite (wrap_small 64 (TimeUs * F / 1000000)) by done.
  rewrite plat_to_us by (done || lia).
  pose proof (Z.div_mod (TimeUs * F) 1000000 ltac:(lia)).
  pose proof (Z.mod_pos_bound (TimeUs * F) 1000000 ltac:(lia)).
  set (p := TimeUs * F / 1000000) in *.
  assert (TimeUs - 1 <= p * 1000000 / F <= TimeUs) as Hb.
  { assert (F * (TimeUs - 1) = TimeUs * F - F) by ring.
    assert (F * Z.succ TimeUs = TimeUs * F + F) by ring.
    split; [apply Z.div_le_lower_bound; lia|]. apply Z.lt_succ_r, Z.div_lt_upper_bound; lia. }
  assert (0 <= p * 1000000 / F) by (apply Z.div_pos; lia).
  rewrite wrap_small; [done|unfold is_u in *; lia].
Qed.

Lemma kernel_time_roundtrip_witness :
  1234566 <= CxPlatTimePlatToUs64 3579545 (CxPlatTimeUs64ToPlat_kernel 3579545 1234567) <= 1234567.
Proof. apply (kernel_time_roundtrip 3579545 1234567); done. Defined.

(** In user mode [CxPlatTimeUs64ToPlat] does not convert: for every time
    below 2^32 microseconds it returns its argument whatever the frequency,
    where the kernel version of the function returns floor(TimeUs *
    CxPlatPerfFreq / 1000000). *)
Theorem user_us_to_plat_identity F TimeUs :
  0 < F <= max_freq -> is_u 32 TimeUs ->
  CxPlatTimeUs64ToPlat_user F TimeUs = TimeUs /\
  CxPlatTimeUs64ToPlat_kernel F TimeUs = TimeUs * F / 1000000.
Proof.
  intros HF Hu. unfold max_freq, is_u in *. assert (0 <= TimeUs * F < 2 ^ 64) by nia. split.
  - unfold CxPlatTimeUs64ToPlat_user. rewrite shiftr32, land32, !shiftl32.
    rewrite (Z.div_small TimeUs), (Z.mod_small TimeUs) by lia. rewrite Z.add_0_r.
    rewrite (wrap_small 64 (TimeUs * F)), (wrap_small 64 (TimeUs * F)) by done.
    rewrite Z.div_mul by lia. rewrite Z.mul_0_l, wrap_add_l. cbn [Z.add]. by rewrite wrap_small by (unfold is_u; lia).
  - rewrite us_to_plat_kernel; [|unfold max_freq; lia|unfold is_u; lia].
    assert (0 <= TimeUs * F / 1000000 < 2 ^ 64)
      by (split; [apply Z.div_pos; lia|apply Z.div_lt_upper_bound; lia]).
    by rewrite wrap_small by done.
Qed.

Lemma user_us_to_plat_identity_witness :
  CxPlatTimeUs64ToPlat_user 10000000 1000 = 1000 /\
  CxPlatTimeUs64ToPlat_kernel 10000000 1000 = 10000.
Proof. apply (user_us_to_plat_identity 10000000 1000); done. Defined.

(** [CxPlatGetAbsoluteTime] returns a deadline exactly [DeltaMs]
    milliseconds after the clock reading and normalised as [pthread]'s timed
    waits require, for every timeout of an event wait: no overflow, and the
    debug assertions at its end hold. *)
Theorem absolute_time_exact DeltaMs now :
  is_u 32 DeltaMs -> normalised now ->
  exists Time, CxPlatGetAbsoluteTime DeltaMs now = Some Time /\
    nanoseconds Time = nanoseconds now + DeltaMs * CXPLAT_NANOSEC_PER_MS /\
    0 <= tv_sec Time /\ 0 <= tv_nsec Time < CXPLAT_NANOSEC_PER_SEC.
Proof.
  intros Hd [Hs Hn]. unfold CxPlatGetAbsoluteTime, nanoseconds.
  unfold CXPLAT_NANOSEC_PER_SEC, CXPLAT_NANOSEC_PER_MS, CXPLAT_MS_PER_SECOND, is_u in *.
  assert (0 <= DeltaMs / 1000 <= DeltaMs) by zdm.
  pose proof (Z.mod_pos_bound DeltaMs 1000 ltac:(lia)).
  pose proof (Z.div_mod DeltaMs 1000 ltac:(lia)).
  wrap_norm. rewrite !sgn_small by (unfold is_s; lia).
  destruct (Z.leb_spec 1000000000 (tv_nsec now + DeltaMs mod 1000 * 1000000)).
  - rewrite checked_s_Some by (unfold is_s; lia). cbn.
    rewrite checked_s_Some by (unfold is_s; lia). cbn.
    eexists. split; [done|]. cbn. lia.
  - eexists. split; [done|]. cbn. lia.
Qed.

Lemma absolute_time_exact_witness :
  exists Time, CxPlatGetAbsoluteTime 1500 (mkTimespec 7 600000000) = Some Time /\
    nanoseconds Time = 9100000000 /\ 0 <= tv_sec Time /\ 0 <= tv_nsec Time < 1000000000.
Proof. apply (absolute_time_exact 1500 (mkTimespec 7 600000000)); done. Defined.

(** The POSIX clock is monotone down to every unit.  Two readings of the
    monotonic clock in order give microseconds and milliseconds in order, the
    microseconds are the nanoseconds rounded down, nothing overflows; and
    [CxPlatSleep] asks [nanosleep] for exactly the requested duration. *)
Theorem posix_clock_monotone t1 t2 DurationMs :
  normalised t1 -> normalised t2 -> nanoseconds t1 <= nanoseconds t2 -> is_u 32 DurationMs ->
  exists us1 us2 ms1 ms2,
    CxPlatTimeUs64_posix t1 = Some us1 /\ CxPlatTimeUs64_posix t2 = Some us2 /\
    CxPlatTimeMs64_posix t1 = Some ms1 /\ CxPlatTimeMs64_posix t2 = Some ms2 /\
    us1 <= us2 /\ ms1 <= ms2 /\ us1 = nanoseconds t1 / 1000 /\ ms1 = nanoseconds t1 / 1000000 /\
    nanoseconds (CxPlatSleep_posix DurationMs) = DurationMs * 1000000 /\
    0 <= tv_nsec (CxPlatSleep_posix DurationMs) < CXPLAT_NANOSEC_PER_SEC.
Proof.
  intros H1 H2 Hle Hd. unfold CxPlatTimeMs64_posix, CxPlatTimeUs64_posix.
  rewrite !timespec_to_us by done. cbn. eexists _, _, _, _. repeat (split; [reflexivity|]).
  unfold CXPLAT_MICROSEC_PER_MS. rewrite !Z.div_div by lia.
  split; [by apply Z.div_le_mono|]. split; [by apply Z.div_le_mono|]. repeat (split; [done|]).
  unfold CxPlatSleep_posix, nanoseconds, is_u in *. cbn [tv_sec tv_nsec].
  unfold CXPLAT_NANOSEC_PER_SEC, CXPLAT_NANOSEC_PER_MS, CXPLAT_MS_PER_SECOND in *.
  pose proof (Z.mod_pos_bound DurationMs 1000 ltac:(lia)).
  pose proof (Z.div_mod DurationMs 1000 ltac:(lia)). wrap_norm. lia.
Qed.

Lemma posix_clock_monotone_witness :
  exists us1 us2 ms1 ms2,
    CxPlatTimeUs64_posix (mkTimespec 1 999999999) = Some us1 /\
    CxPlatTimeUs64_posix (mkTimespec 2 0) = Some us2 /\
    CxPlatTimeMs64_posix (mkTimespec 1 999999999) = Some ms1 /\
    CxPlatTimeMs64_posix (mkTimespec 2 0) = Some ms2 /\
    us1 <= us2 /\ ms1 <= ms2 /\ us1 = 1999999 /\ ms1 = 1999 /\
    nanoseconds (CxPlatSleep_posix 4294967295) = 4294967295 * 1000000 /\
    0 <= tv_nsec (CxPlatSleep_posix 4294967295) < CXPLAT_NANOSEC_PER_SEC.
Proof. apply (posix_clock_monotone (mkTimespec 1 999999999) (mkTimespec 2 0) 4294967295); done. Defined.

(** The timer values of kernel mode.  The event and thread waits always ask
    for a relative timeout of [TimeoutMs] milliseconds.  [CxPlatSleep] does so
    only below 2^31 ms: from there on the duration is read as a negative number
    and the due time is positive, an absolute time in the distant past, so the
    sleep returns at once. *)
Theorem kernel_timer_values {S : WinSdk} Ms :
  is_u 32 Ms ->
  Timeout100Ns Ms = - (Ms * 10000) /\
  CxPlatSleep_kernel Ms =
    if Ms <? 2 ^ 31 then - (Ms * 10000) else (2 ^ 32 - Ms) * 10000.
Proof.
  intros Hm. unfold Timeout100Ns, CxPlatSleep_kernel. rewrite UInt32x32To64_spec, Int32x32To64_spec.
  rewrite (sgn_small 32 (-10000)) by (done || lia). split.
  - unfold is_u in *. rewrite (wrap_small 32 Ms), (wrap_small 32 10000) by (unfold is_u; lia).
    rewrite sgn_wrap. change (u64 (-1)) with (2 ^ 64 - 1).
    replace ((2 ^ 64 - 1) * (Ms * 10000)) with (- (Ms * 10000) + Ms * 10000 * 2 ^ 64) by lia.
    rewrite <- sgn_wrap. unfold wrap. rewrite Z_mod_plus_full.
    fold (u64 (- (Ms * 10000))). rewrite sgn_wrap. apply sgn_small; [lia|unfold is_s; lia].
  - unfold is_u in *. destruct (Z.ltb_spec Ms (2 ^ 31)).
    + rewrite (sgn_small 32 Ms) by (unfold is_s; lia). rewrite sgn_small by (unfold is_s; lia). lia.
    + replace (i32 Ms) with (Ms - 2 ^ 32); [rewrite sgn_small by (unfold is_s; lia); lia|].
      unfold sgn. rewrite Z.mod_small by lia. cbv zeta.
      by rewrite (proj2 (Z.ltb_ge _ _)) by done.
Qed.

Lemma kernel_timer_values_witness :
  Timeout100Ns 3000000000 = -30000000000000 /\ CxPlatSleep_kernel 3000000000 = 12949672960000.
Proof. apply (kernel_timer_values 3000000000). done. Defined.
