(* ===== verification/TimePlatforms.v ===== *)
(** * The time interface of the three platforms

    Windows user and kernel mode have their own copies of the clock and time
    arithmetic functions (inc/cxplat_winuser.h, inc/cxplat_winkernel.h); the
    POSIX versions are in the file TimeConv.  [time_api] is what a caller sees of
    a platform, [TimeLaws] what it may rely on; the theorems hold for every
    implementation of the laws, and the three platforms are instances. *)

From S2P Require Import Prelude TimeConv.

(** ** The copies of Windows user mode *)

Module UserTime.
Section Functions.
Variable CxPlatPerfFreq : Z.

(** [Count] is what [QueryPerformanceCounter] stored through the cast pointer. *)
Definition CxPlatTimePlat (Count : Z) : Z := u64 Count.
Definition CxPlatTimeUs64 (Count : Z) : Z := CxPlatTimePlatToUs64 CxPlatPerfFreq (CxPlatTimePlat Count).
Definition CxPlatTimeUs32 (Count : Z) : Z := u32 (CxPlatTimeUs64 Count).
Definition CxPlatTimeMs64 (Count : Z) : Z := US_TO_MS (CxPlatTimeUs64 Count).
Definition CxPlatTimeMs32 (Count : Z) : Z := u32 (CxPlatTimeMs64 Count).
End Functions.

Definition CxPlatTimeDiff64 (T1 T2 : Z) : Z := u64 (T2 - T1).

Definition CxPlatTimeDiff32 (T1 T2 : Z) : Z :=
  if T1 <? T2 then u32 (T2 - T1) else u32 (u32 (T2 + u32 (0xFFFFFFFF - T1)) + 1).

Definition CxPlatTimeAtOrBefore64 (T1 T2 : Z) : bool := T1 <=? T2.

Definition CxPlatTimeAtOrBefore32 (T1 T2 : Z) : bool := i32 (u32 (T1 - T2)) <=? 0.
End UserTime.

(** ** The copies of Windows kernel mode *)

Module KernelTime.
(** [MaximumTime] is what [ExQueryTimerResolution] stored. *)
Definition CxPlatGetTimerResolution (MaximumTime : Z) : Z := NS100_TO_US MaximumTime.

Section Functions.
Variable CxPlatPerfFreq : Z.

(** [QuadPart] of what [KeQueryPerformanceCounter] returned. *)
Definition CxPlatTimePlat (QuadPart : Z) : Z := u64 QuadPart.

Definition CxPlatTimePlatToUs64 (Count : Z) : Z :=
  let High := u64 (Z.shiftr Count 32 * 1000000) in
  let Low := u64 (Z.land Count 0xFFFFFFFF * 1000000) in
  u64 (u64 (Z.shiftl (High / CxPlatPerfFreq) 32) +
       u64 (Low + u64 (Z.shiftl (High mod CxPlatPerfFreq) 32)) / CxPlatPerfFreq).

Definition CxPlatTimeUs64 (QuadPart : Z) : Z := CxPlatTimePlatToUs64 (CxPlatTimePlat QuadPart).
Definition CxPlatTimeUs32 (QuadPart : Z) : Z := u32 (CxPlatTimeUs64 QuadPart).
Definition CxPlatTimeMs64 (QuadPart : Z) : Z := US_TO_MS (CxPlatTimeUs64 QuadPart).
Definition CxPlatTimeMs32 (QuadPart : Z) : Z := u32 (CxPlatTimeMs64 QuadPart).
End Functions.

(** [SystemTime] is what [KeQuerySystemTime] stored. *)
Definition UNIX_EPOCH_AS_FILE_TIME : Z := 0x19db1ded53e8000.
Definition CxPlatTimeEpochMs64 (SystemTime : Z) : option Z :=
  t ← checked_s 64 (SystemTime - UNIX_EPOCH_AS_FILE_TIME); Some (NS100_TO_MS t).

Definition CxPlatTimeDiff64 (T1 T2 : Z) : Z := u64 (T2 - T1).

Definition CxPlatTimeDiff32 (T1 T2 : Z) : Z :=
  if T1 <? T2 then u32 (T2 - T1) else u32 (u32 (T2 + u32 (0xFFFFFFFF - T1)) + 1).

Definition CxPlatTimeAtOrBefore64 (T1 T2 : Z) : bool := T1 <=? T2.

Definition CxPlatTimeAtOrBefore32 (T1 T2 : Z) : bool := i32 (u32 (T1 - T2)) <=? 0.
End KernelTime.

(** ** The interface *)

(** The clock functions take a reading of the platform's clock; [None] is a
    signed overflow. *)
Record time_api := mkTimeApi {
  reading : Type;
  TimeUs64 : reading -> option Z;
  TimeUs32 : reading -> option Z;
  TimeMs64 : reading -> option Z;
  TimeMs32 : reading -> option Z;
  TimeDiff64 : Z -> Z -> Z;
  TimeDiff32 : Z -> Z -> Z;
  TimeAtOrBefore64 : Z -> Z -> bool;
  TimeAtOrBefore32 : Z -> Z -> bool
}.

Definition PosixTime : time_api :=
  mkTimeApi timespec CxPlatTimeUs64_posix CxPlatTimeUs32_posix CxPlatTimeMs64_posix CxPlatTimeMs32_posix
    CxPlatTimeDiff64 CxPlatTimeDiff32 CxPlatTimeAtOrBefore64 CxPlatTimeAtOrBefore32.

Definition UserTime_api (F : Z) : time_api :=
  mkTimeApi Z (fun c => Some (UserTime.CxPlatTimeUs64 F c)) (fun c => Some (UserTime.CxPlatTimeUs32 F c))
    (fun c => Some (UserTime.CxPlatTimeMs64 F c)) (fun c => Some (UserTime.CxPlatTimeMs32 F c))
    UserTime.CxPlatTimeDiff64 UserTime.CxPlatTimeDiff32
    UserTime.CxPlatTimeAtOrBefore64 UserTime.CxPlatTimeAtOrBefore32.

Definition KernelTime_api (F : Z) : time_api :=
  mkTimeApi Z (fun c => Some (KernelTime.CxPlatTimeUs64 F c)) (fun c => Some (KernelTime.CxPlatTimeUs32 F c))
    (fun c => Some (KernelTime.CxPlatTimeMs64 F c)) (fun c => Some (KernelTime.CxPlatTimeMs32 F c))
    KernelTime.CxPlatTimeDiff64 KernelTime.CxPlatTimeDiff32
    KernelTime.CxPlatTimeAtOrBefore64 KernelTime.CxPlatTimeAtOrBefore32.

(** What a caller relies on: a reading that can occur ([ok]) is [us] whole
    microseconds, the other clocks are derived from it, and the arithmetic is
    that of the type. *)
Class TimeLaws (api : time_api) (ok : reading api -> Prop) (us : reading api -> Z) : Prop := {
  law_range r : ok r -> is_u 64 (us r);
  law_us64 r : ok r -> TimeUs64 api r = Some (us r);
  law_us32 r : ok r -> TimeUs32 api r = Some (u32 (us r));
  law_ms64 r : ok r -> TimeMs64 api r = Some (us r / 1000);
  law_ms32 r : ok r -> TimeMs32 api r = Some (u32 (us r / 1000));
  law_diff64 a b : TimeDiff64 api a b = u64 (b - a);
  law_diff32 a b : is_u 32 a -> is_u 32 b -> TimeDiff32 api a b = u32 (b - a);
  law_before64 a b : TimeAtOrBefore64 api a b = (a <=? b);
  law_before32 a b : TimeAtOrBefore32 api a b = (i32 (a - b) <=? 0)
}.

(** ** The platforms obey the laws *)

Definition posix_ok (r : timespec) : Prop := normalised r.
Definition posix_us (r : timespec) : Z := nanoseconds r / 1000.

#[export] Instance posix_laws : TimeLaws PosixTime posix_ok posix_us.
Proof.
  assert (forall r, posix_ok r -> is_u 64 (posix_us r)) as Hrange.
  { intros r [Hs Hn]. unfold posix_us, nanoseconds. unfold CXPLAT_NANOSEC_PER_SEC in *. unfold_int. zdm. }
  split; intros; cbn; unfold CxPlatTimeUs32_posix, CxPlatTimeMs32_posix, CxPlatTimeMs64_posix, CxPlatTimeUs64_posix;
    rewrite ?timespec_to_us by done; auto using timediff32_mod, at_or_before32_sgn.
Qed.

(** A counter reading: positive, and with the frequency in the range for which
    the conversion is exact and fits in 64 bits. *)
Definition counter_ok (F : Z) (c : Z) : Prop := 0 < F <= max_freq /\ is_u 63 c /\ c * 1000000 / F < 2 ^ 64.
Definition counter_us (F : Z) (c : Z) : Z := c * 1000000 / F.

Lemma counter_us64 F c :
  counter_ok F c -> is_u 64 (counter_us F c) /\ CxPlatTimePlatToUs64 F (u64 c) = counter_us F c.
Proof.
  intros (HF & Hc & Hfit). assert (is_u 64 (counter_us F c)) as Hu.
  { split; [|done]. apply Z.div_pos; unfold is_u in *; lia. }
  split; [done|]. rewrite wrap_small by (unfold is_u in *; lia).
  rewrite plat_to_us by (done || (unfold is_u in *; lia)). by apply wrap_small.
Qed.

#[export] Instance user_laws F : TimeLaws (UserTime_api F) (counter_ok F) (counter_us F).
Proof.
  split; [by intros r [? _]%counter_us64|..]; intros; cbn; unfold UserTime.CxPlatTimeMs32, UserTime.CxPlatTimeUs32, UserTime.CxPlatTimeMs64,
    UserTime.CxPlatTimeUs64, UserTime.CxPlatTimePlat, US_TO_MS; try (destruct (counter_us64 F r H) as [? ->]);
    auto; [by apply (timediff32_mod a b)|apply (at_or_before32_sgn a b)].
Qed.

#[export] Instance kernel_laws F : TimeLaws (KernelTime_api F) (counter_ok F) (counter_us F).
Proof.
  split; [by intros r [? _]%counter_us64|..]; intros; cbn; unfold KernelTime.CxPlatTimeMs32, KernelTime.CxPlatTimeUs32, KernelTime.CxPlatTimeMs64,
    KernelTime.CxPlatTimeUs64, KernelTime.CxPlatTimePlat, US_TO_MS;
    change (KernelTime.CxPlatTimePlatToUs64 F) with (CxPlatTimePlatToUs64 F);
    try (destruct (counter_us64 F r H) as [? ->]);
    auto; [by apply (timediff32_mod a b)|apply (at_or_before32_sgn a b)].
Qed.

(** ** The platforms together *)

(** A platform; on Windows with the frequency of its counter. *)
Inductive time_platform := OnPosix | OnUser (CxPlatPerfFreq : Z) | OnKernel (CxPlatPerfFreq : Z).

Definition platform_time (p : time_platform) : time_api :=
  match p with OnPosix => PosixTime | OnUser F => UserTime_api F | OnKernel F => KernelTime_api F end.

Definition platform_ok (p : time_platform) : reading (platform_time p) -> Prop :=
  match p with OnPosix => posix_ok | OnUser F => counter_ok F | OnKernel F => counter_ok F end.

Definition platform_us (p : time_platform) : reading (platform_time p) -> Z :=
  match p with OnPosix => posix_us | OnUser F => counter_us F | OnKernel F => counter_us F end.

#[export] Instance platform_time_laws p : TimeLaws (platform_time p) (platform_ok p) (platform_us p).
Proof. destruct p; apply _. Qed.

(** What the laws give for a pair of readings. *)
Section Elapsed.
Context `{L : TimeLaws api ok us}.

Lemma diff32_small T1 T2 : 0 <= T2 - T1 < 2 ^ 32 -> TimeDiff32 api (u32 T1) (u32 T2) = T2 - T1.
Proof.
  intros Hd. rewrite law_diff32 by apply (wrap_range 32 _ ltac:(lia)).
  rewrite wrap_sub_l, wrap_sub_r. by apply wrap_small.
Qed.

Lemma before32_small T1 T2 :
  Z.abs (T1 - T2) < 2 ^ 31 -> TimeAtOrBefore32 api (u32 T1) (u32 T2) = (T1 <=? T2).
Proof.
  intros Hd. rewrite law_before32, sgn_wrap_sub, sgn_small by (unfold is_s; lia).
  destruct (Z.leb_spec (T1 - T2) 0), (Z.leb_spec T1 T2); lia.
Qed.

Lemma diff64_order T1 T2 : is_u 64 T1 -> is_u 64 T2 -> T1 <= T2 -> TimeDiff64 api T1 T2 = T2 - T1.
Proof. intros H1 H2 Hle. rewrite law_diff64. apply wrap_small. unfold is_u in *. lia. Qed.
End Elapsed.

(** C17: measuring time works on every platform.  Of two readings of the
    platform's clock, the second not before the first, all clock functions
    return, the differences of the 64-bit times and, below 2^32 units, of the
    32-bit times are the elapsed microseconds and milliseconds, and the
    comparisons tell which reading was first, the 32-bit ones for times less
    than 2^31 units apart. *)
Theorem elapsed_time p r1 r2 :
  platform_ok p r1 -> platform_ok p r2 -> platform_us p r1 <= platform_us p r2 ->
  let api := platform_time p in
  let d := platform_us p r2 - platform_us p r1 in
  let dms := platform_us p r2 / 1000 - platform_us p r1 / 1000 in
  exists a1 a2 b1 b2 c1 c2,
    (TimeUs64 api r1 = Some a1 /\ TimeUs64 api r2 = Some a2) /\
    (TimeUs32 api r1 = Some b1 /\ TimeUs32 api r2 = Some b2) /\
    (TimeMs32 api r1 = Some c1 /\ TimeMs32 api r2 = Some c2) /\
    TimeDiff64 api a1 a2 = d /\ TimeAtOrBefore64 api a1 a2 = true /\
    (d < 2 ^ 32 -> TimeDiff32 api b1 b2 = d) /\
    (dms < 2 ^ 32 -> TimeDiff32 api c1 c2 = dms) /\
    (d < 2 ^ 31 -> TimeAtOrBefore32 api b1 b2 = true /\ (TimeAtOrBefore32 api b2 b1 = true <-> d = 0)).
Proof.
  intros H1 H2 Hle api d dms. pose proof (law_range _ H1) as R1. pose proof (law_range _ H2) as R2.
  assert (platform_us p r1 / 1000 <= platform_us p r2 / 1000) by (apply Z.div_le_mono; lia).
  eexists _, _, _, _, _, _. unfold api. repeat (rewrite ?law_us64, ?law_us32, ?law_ms32 by done).
  split; [done|]. split; [done|]. split; [done|]. unfold d, dms.
  split; [by apply diff64_order|]. split; [rewrite law_before64; apply Z.leb_le; lia|].
  split; [intros; apply diff32_small; lia|]. split; [intros; apply diff32_small; lia|].
  intros Hd. rewrite !before32_small by lia. rewrite !Z.leb_le. lia.
Qed.

Lemma elapsed_time_witness :
  TimeDiff32 (platform_time (OnUser 10000000)) (u32 4294967290) (u32 (4294967290 + 600)) = 600.
Proof.
  destruct (elapsed_time (OnUser 10000000) 42949672900 42949678900)
    as (a1 & a2 & b1 & b2 & c1 & c2 & _ & [Hb1 Hb2] & _ & _ & _ & Hd & _); [done..|].
  cbn in Hb1, Hb2. injection Hb1 as <-. injection Hb2 as <-. apply Hd. reflexivity.
Defined.

Lemma div_range w x n : is_u w x -> 0 < n -> is_u w (x / n).
Proof. unfold is_u. intros ??. split; [apply Z.div_pos; lia|]. apply Z.div_lt_upper_bound; nia. Qed.

(** The platforms agree on the time of day.  For an instant since 1970, as
    seconds and microseconds on POSIX and in units of 100 ns since 1601 on
    Windows, [CxPlatTimeEpochMs64] returns the same milliseconds on all three. *)
Theorem epoch_agrees sec usec hundreds :
  0 <= sec < 2 ^ 36 -> 0 <= usec < 1000000 -> 0 <= hundreds < 10 ->
  let t := (11644473600 + sec) * 10000000 + usec * 10 + hundreds in
  CxPlatTimeEpochMs64_posix sec usec = Some (sec * 1000 + usec / 1000) /\
  CxPlatTimeEpochMs64_win t = Some (sec * 1000 + usec / 1000) /\
  KernelTime.CxPlatTimeEpochMs64 t = Some (sec * 1000 + usec / 1000).
Proof.
  intros Hs Hu Hh t.
  assert (CxPlatTimeEpochMs64_win t = Some (sec * 1000 + usec / 1000)) as Hwin.
  { unfold CxPlatTimeEpochMs64_win, UNIX_EPOCH_AS_FILE_TIME, t, NS100_TO_MS.
    rewrite checked_s_Some by (unfold is_s; lia). cbn. f_equal. rewrite Z.quot_div_nonneg by lia. zdm. }
  split; [|by split]. unfold CxPlatTimeEpochMs64_posix, S_TO_MS.
  rewrite Z.quot_div_nonneg by lia. rewrite checked_s_Some by (unfold is_s; lia). cbn.
  apply checked_s_Some. unfold is_s. zdm.
Qed.

Lemma epoch_agrees_witness :
  CxPlatTimeEpochMs64_posix 1700000000 123456 = Some 1700000000123 /\
  KernelTime.CxPlatTimeEpochMs64 133444736001234567 = Some 1700000000123.
Proof. destruct (epoch_agrees 1700000000 123456 7) as (Hp & _ & Hk); [done..|]. split; [exact Hp|exact Hk]. Defined.
