(* ===== verification/Interlocked.v ===== *)
(** * Interlocked operations (inc/cxplat_posix_shim.h)

    The POSIX shims of the Windows interlocked functions.  Each is one atomic
    read-modify-write: a function from the word's value to its new value and the
    value the call returns.  [short] has 16 bits, [long] and [int64_t] 64
    (LP64), pointers 64 and [BOOLEAN] 8.  Interleavings of calls by any number
    of threads are sequences of such steps. *)

From S2P Require Import Prelude.

(** An atomic operation on a word: new value and result. *)
Definition atomic : Type := Z -> Z * Z.

(** ** The compiler's atomic builtins at a signed width [w] *)

Definition sync_add_and_fetch (w d : Z) : atomic := fun v => (sgn w (v + d), sgn w (v + d)).
Definition sync_sub_and_fetch (w d : Z) : atomic := fun v => (sgn w (v - d), sgn w (v - d)).
Definition sync_fetch_and_add (w d : Z) : atomic := fun v => (sgn w (v + d), v).
Definition sync_and_and_fetch (d : Z) : atomic := fun v => (Z.land v d, Z.land v d).
Definition sync_or_and_fetch (d : Z) : atomic := fun v => (Z.lor v d, Z.lor v d).
Definition sync_fetch_and_and (d : Z) : atomic := fun v => (Z.land v d, v).
Definition sync_fetch_and_or (d : Z) : atomic := fun v => (Z.lor v d, v).
Definition sync_val_compare_and_swap (Comperand ExChange : Z) : atomic :=
  fun v => (if v =? Comperand then ExChange else v, v).
Definition sync_lock_test_and_set (Value : Z) : atomic := fun v => (Value, v).

(** The result converted to the function's return type. *)
Definition returning (conv : Z -> Z) (op : atomic) : atomic :=
  fun v => let '(v', r) := op v in (v', conv r).

(** ** The functions *)

Definition InterlockedIncrement16 : atomic := returning (sgn 16) (sync_add_and_fetch 16 1).
Definition InterlockedDecrement16 : atomic := returning (sgn 16) (sync_sub_and_fetch 16 1).
Definition InterlockedIncrement : atomic := returning (sgn 64) (sync_add_and_fetch 64 1).
Definition InterlockedDecrement : atomic := returning (sgn 64) (sync_sub_and_fetch 64 1).
Definition InterlockedIncrement64 : atomic := returning (sgn 64) (sync_add_and_fetch 64 1).
Definition InterlockedDecrement64 : atomic := returning (sgn 64) (sync_sub_and_fetch 64 1).
Definition InterlockedAnd (Value : Z) : atomic := returning (sgn 64) (sync_and_and_fetch Value).
Definition InterlockedOr (Value : Z) : atomic := returning (sgn 64) (sync_or_and_fetch Value).
Definition InterlockedCompareExchange16 (ExChange Comperand : Z) : atomic :=
  returning (sgn 16) (sync_val_compare_and_swap Comperand ExChange).
(** Declared [short]: the old [long] value is converted to 16 bits. *)
Definition InterlockedCompareExchange (ExChange Comperand : Z) : atomic :=
  returning (sgn 16) (sync_val_compare_and_swap Comperand ExChange).
Definition InterlockedCompareExchange64 (ExChange Comperand : Z) : atomic :=
  returning (sgn 64) (sync_val_compare_and_swap Comperand ExChange).
Definition InterlockedExchangeAdd64 (Value : Z) : atomic :=
  returning (sgn 64) (sync_fetch_and_add 64 Value).
Definition InterlockedExchangePointer (Value : Z) : atomic :=
  returning (wrap 64) (sync_lock_test_and_set Value).
Definition InterlockedFetchAndClearPointer : atomic := returning (wrap 64) (sync_fetch_and_and 0).
Definition InterlockedFetchAndClearBoolean : atomic := returning (wrap 8) (sync_fetch_and_and 0).
Definition InterlockedFetchAndSetBoolean : atomic := returning (wrap 8) (sync_fetch_and_or 1).

(** ** Interleavings

    The calls of all threads in the order in which they took effect: the final
    value and the results. *)
Fixpoint run_atomic (ops : list atomic) (v : Z) : Z * list Z :=
  match ops with
  | [] => (v, [])
  | op :: ops => let '(v1, r) := op v in
                 let '(v2, rs) := run_atomic ops v1 in (v2, r :: rs)
  end.

(** A flag taken with [InterlockedFetchAndSetBoolean] is won once.  Of any
    number of callers on a clear flag, in any order, the first gets FALSE and
    all others TRUE, the flag ends TRUE; and clearing it with
    [InterlockedFetchAndClearBoolean] returns TRUE and makes it winnable again. *)
Theorem set_flag_won_once n :
  run_atomic (replicate (S n) InterlockedFetchAndSetBoolean) 0 = (1, 0 :: replicate n 1) /\
  InterlockedFetchAndClearBoolean 1 = (0, 1).
Proof.
  split; [|done]. cbn [replicate run_atomic].
  replace (InterlockedFetchAndSetBoolean 0) with (1, 0) by done.
  enough (run_atomic (replicate n InterlockedFetchAndSetBoolean) 1 = (1, replicate n 1)) as ->
    by done.
  induction n as [|n IH]; [done|]. cbn [replicate run_atomic].
  replace (InterlockedFetchAndSetBoolean 1) with (1, 1) by done. by rewrite IH.
Qed.

(** [InterlockedCompareExchange] returns the old value through a [short].
    The exchange itself is right, but the result is the old value only when
    that fits in 16 bits; so for a comparand outside the 16-bit range, a caller
    that compares the result with the comparand concludes that the exchange
    failed, also when it took place.  The 64-bit variant has no such limit. *)
Theorem compare_exchange_truncates ExChange Comperand v :
  is_s 64 v ->
  (InterlockedCompareExchange ExChange Comperand v).1 = (if v =? Comperand then ExChange else v) /\
  ((InterlockedCompareExchange ExChange Comperand v).2 = v <-> is_s 16 v) /\
  (~ is_s 16 Comperand -> (InterlockedCompareExchange ExChange Comperand v).2 <> Comperand) /\
  InterlockedCompareExchange64 ExChange Comperand v =
    (if v =? Comperand then ExChange else v, v).
Proof.
  intros Hv. cbn. split; [done|]. split; [|split].
  - split; [intros <-; by apply sgn_range|by apply sgn_small].
  - intros Hc He. apply Hc. rewrite <- He. by apply sgn_range.
  - unfold InterlockedCompareExchange64, returning, sync_val_compare_and_swap.
    by rewrite sgn_small by (done || lia).
Qed.

Lemma compare_exchange_truncates_witness :
  (InterlockedCompareExchange 7 65536 65536).1 = 7 /\
  (InterlockedCompareExchange 7 65536 65536).2 <> 65536.
Proof.
  destruct (compare_exchange_truncates 7 65536 65536) as (H1 & _ & H3 & _); [done|].
  split; [exact H1|]. apply H3. intros [_ H]. done.
Defined.
