(* ===== verification/Event.v ===== *)
(** * The POSIX event (inc/cxplat_posix.h)

    [CXPLAT_EVENT] is built from a mutex, a condition variable and two flags.
    The model runs any number of threads, each inside one of the four
    operations, one C statement at a time: every [pthread] call and every access
    to a flag is a step of its own, so all interleavings of the code are covered.
    The mutex and the condition variable behave as POSIX says: lock blocks while
    another thread owns the mutex, a wait releases the mutex and blocks in one
    step, a blocked thread is woken by a broadcast, spuriously, or (timed wait)
    by its deadline, and takes the mutex again before it returns. *)

From S2P Require Import Prelude.

(** ** State *)

Record CXPLAT_EVENT := mkEvent {
  Mutex : option nat;       (** the thread that owns it *)
  Signaled : bool;
  AutoReset : bool
}.

Inductive op := OpSet | OpReset | OpWaitForever | OpWaitWithTimeout.

(** Where a thread is.  [timed] tells the two waits apart. *)
Inductive pc :=
  | Idle
  | Set_lock | Set_store | Set_broadcast | Set_unlock
  | Reset_lock | Reset_store | Reset_unlock
  | Wait_lock (timed : bool)
  | Wait_check (timed : bool)
  | Wait_cond (timed : bool)
  | Wait_blocked (timed : bool)
  | Wait_wake (timed TimedOut : bool)
  | Wait_take (timed : bool)
  | Wait_unlock (timed WaitSatisfied : bool).

(** What happened, in order: calls, their effects, their returns. *)
Inductive effect := ESet | EReset | EWait (WaitSatisfied : bool).

Inductive entry :=
  | Call (t : nat) (o : op)
  | Effect (t : nat) (e : effect)
  | Return (t : nat) (r : bool).

#[export] Instance op_eq_dec : EqDecision op.
Proof. solve_decision. Defined.
#[export] Instance effect_eq_dec : EqDecision effect.
Proof. solve_decision. Defined.
#[export] Instance entry_eq_dec : EqDecision entry.
Proof. solve_decision. Defined.

Record world := mkWorld {
  ev : CXPLAT_EVENT;
  threads : list pc;
  log : list entry
}.

(** ** The event's operations, statement by statement

    A step gives the event it leaves, whether it broadcast the condition, the
    thread's next position and what it adds to the log; [None] when the
    statement cannot be executed now. *)

Definition stepped : Type := option (CXPLAT_EVENT * bool * pc * list entry).

Definition pthread_mutex_lock (me : nat) (e : CXPLAT_EVENT) : option CXPLAT_EVENT :=
  match Mutex e with
  | None => Some (mkEvent (Some me) (Signaled e) (AutoReset e))
  | Some _ => None
  end.

Definition pthread_mutex_unlock (me : nat) (e : CXPLAT_EVENT) : option CXPLAT_EVENT :=
  match Mutex e with
  | Some t => if Nat.eqb t me then Some (mkEvent None (Signaled e) (AutoReset e)) else None
  | None => None
  end.

Definition set_Signaled (b : bool) (e : CXPLAT_EVENT) : CXPLAT_EVENT :=
  mkEvent (Mutex e) b (AutoReset e).

Definition CxPlatEventInitialize (ManualReset InitialState : bool) : CXPLAT_EVENT :=
  mkEvent None InitialState (negb ManualReset).

Definition CxPlatInternalEventSet (me : nat) (p : pc) (e : CXPLAT_EVENT) : stepped :=
  match p with
  | Set_lock => e' ← pthread_mutex_lock me e; Some (e', false, Set_store, [])
  | Set_store => Some (set_Signaled true e, false, Set_broadcast, [Effect me ESet])
  | Set_broadcast => Some (e, true, Set_unlock, [])
  | Set_unlock => e' ← pthread_mutex_unlock me e; Some (e', false, Idle, [Return me true])
  | _ => None
  end.

Definition CxPlatInternalEventReset (me : nat) (p : pc) (e : CXPLAT_EVENT) : stepped :=
  match p with
  | Reset_lock => e' ← pthread_mutex_lock me e; Some (e', false, Reset_store, [])
  | Reset_store => Some (set_Signaled false e, false, Reset_unlock, [Effect me EReset])
  | Reset_unlock => e' ← pthread_mutex_unlock me e; Some (e', false, Idle, [Return me true])
  | _ => None
  end.

Definition CxPlatInternalEventWaitForever (me : nat) (p : pc) (e : CXPLAT_EVENT) : stepped :=
  match p with
  | Wait_lock false => e' ← pthread_mutex_lock me e; Some (e', false, Wait_check false, [])
  | Wait_check false =>
      Some (e, false, if negb (Signaled e) then Wait_cond false else Wait_take false, [])
  | Wait_cond false => e' ← pthread_mutex_unlock me e; Some (e', false, Wait_blocked false, [])
  | Wait_wake false _ => e' ← pthread_mutex_lock me e; Some (e', false, Wait_check false, [])
  | Wait_take false =>
      Some (if AutoReset e then set_Signaled false e else e, false,
            Wait_unlock false true, [Effect me (EWait true)])
  | Wait_unlock false r =>
      e' ← pthread_mutex_unlock me e; Some (e', false, Idle, [Return me r])
  | _ => None
  end.

Definition CxPlatInternalEventWaitWithTimeout (me : nat) (p : pc) (e : CXPLAT_EVENT) : stepped :=
  match p with
  | Wait_lock true => e' ← pthread_mutex_lock me e; Some (e', false, Wait_check true, [])
  | Wait_check true =>
      Some (e, false, if negb (Signaled e) then Wait_cond true else Wait_take true, [])
  | Wait_cond true => e' ← pthread_mutex_unlock me e; Some (e', false, Wait_blocked true, [])
  | Wait_wake true TimedOut =>
      e' ← pthread_mutex_lock me e;
      if TimedOut : bool
      then Some (e', false, Wait_unlock true false, [Effect me (EWait false)])
      else Some (e', false, Wait_check true, [])
  | Wait_take true =>
      Some (if AutoReset e then set_Signaled false e else e, false,
            Wait_unlock true true, [Effect me (EWait true)])
  | Wait_unlock true WaitSatisfied =>
      e' ← pthread_mutex_unlock me e; Some (e', false, Idle, [Return me WaitSatisfied])
  | _ => None
  end.

(** ** Runs *)

(** The next statement of a thread inside an operation. *)
Definition thread_step (me : nat) (p : pc) (e : CXPLAT_EVENT) : stepped :=
  match p with
  | Idle | Wait_blocked _ => None
  | Set_lock | Set_store | Set_broadcast | Set_unlock => CxPlatInternalEventSet me p e
  | Reset_lock | Reset_store | Reset_unlock => CxPlatInternalEventReset me p e
  | Wait_lock false | Wait_check false | Wait_cond false | Wait_wake false _ | Wait_take false
  | Wait_unlock false _ => CxPlatInternalEventWaitForever me p e
  | _ => CxPlatInternalEventWaitWithTimeout me p e
  end.

Definition wake (p : pc) : pc :=
  match p with Wait_blocked timed => Wait_wake timed false | _ => p end.

Definition start_pc (o : op) : pc :=
  match o with
  | OpSet => Set_lock | OpReset => Reset_lock
  | OpWaitForever => Wait_lock false | OpWaitWithTimeout => Wait_lock true
  end.

Inductive label :=
  | Start (t : nat) (o : op)      (** an idle thread calls an operation *)
  | Run (t : nat)                 (** a thread executes its next statement *)
  | Spurious (t : nat)            (** a blocked thread wakes for no reason *)
  | Deadline (t : nat).           (** the deadline of a blocked timed wait passes *)

Definition step (w : world) (l : label) : option world :=
  match l with
  | Start t o =>
      match threads w !! t with
      | Some Idle => Some (mkWorld (ev w) (<[t := start_pc o]> (threads w)) (log w ++ [Call t o]))
      | _ => None
      end
  | Run t =>
      p ← threads w !! t;
      '(e, broadcast, p', es) ← thread_step t p (ev w);
      let others := if broadcast : bool then map wake (threads w) else threads w in
      Some (mkWorld e (<[t := p']> others) (log w ++ es))
  | Spurious t =>
      match threads w !! t with
      | Some (Wait_blocked timed) =>
          Some (mkWorld (ev w) (<[t := Wait_wake timed false]> (threads w)) (log w))
      | _ => None
      end
  | Deadline t =>
      match threads w !! t with
      | Some (Wait_blocked true) =>
          Some (mkWorld (ev w) (<[t := Wait_wake true true]> (threads w)) (log w))
      | _ => None
      end
  end.

Fixpoint run (w : world) (ls : list label) : option world :=
  match ls with
  | [] => Some w
  | l :: ls => w' ← step w l; run w' ls
  end.

(** [n] idle threads and a new event. *)
Definition initial (n : nat) (ManualReset InitialState : bool) : world :=
  mkWorld (CxPlatEventInitialize ManualReset InitialState) (replicate n Idle) [].

(** ** The specification: an atomic event *)

Definition spec_step (auto b : bool) (e : effect) : option bool :=
  match e with
  | ESet => Some true
  | EReset => Some false
  | EWait true => if b then Some (negb auto) else None
  | EWait false => Some b
  end.

Definition spec_entry (auto : bool) (b : option bool) (x : entry) : option bool :=
  match x with Effect _ e => b ← b; spec_step auto b e | _ => b end.

(** The state of the atomic event after the effects of the log, [None] if one of
    them is not allowed. *)
Definition spec_run (auto b : bool) (xs : list entry) : option bool :=
  foldl (spec_entry auto) (Some b) xs.

(** What one thread does: call, one effect that fits the call, return of that
    effect's result. *)
Inductive phase := Free | Called (o : op) | Done (r : bool).

Definition fits (o : op) (e : effect) : option bool :=
  match o, e with
  | OpSet, ESet | OpReset, EReset | OpWaitForever, EWait true => Some true
  | OpWaitWithTimeout, EWait r => Some r
  | _, _ => None
  end.

Definition phase_entry (t : nat) (ph : option phase) (x : entry) : option phase :=
  ph ← ph;
  match x with
  | Call t' o => if Nat.eqb t' t then match ph with Free => Some (Called o) | _ => None end
                 else Some ph
  | Effect t' e => if Nat.eqb t' t
                   then match ph with Called o => r ← fits o e; Some (Done r) | _ => None end
                   else Some ph
  | Return t' r => if Nat.eqb t' t
                   then match ph with Done r' => if eqb r r' then Some Free else None | _ => None end
                   else Some ph
  end.

Definition phase_run (t : nat) (xs : list entry) : option phase :=
  foldl (phase_entry t) (Some Free) xs.
