(* ===== verification/EventTheorems.v ===== *)
(** * Theorems about the POSIX event

    An invariant of all reachable states, and from it: the event is
    linearizable with respect to an atomic event, its mutex excludes, an
    auto-reset event releases no more waits than it was set, no wake-up is
    lost, and every call that can finish does. *)

From S2P Require Import Prelude Event.

(** ** The invariant *)

Definition holding (p : pc) : bool :=
  match p with
  | Set_store | Set_broadcast | Set_unlock | Reset_store | Reset_unlock
  | Wait_check _ | Wait_cond _ | Wait_take _ | Wait_unlock _ _ => true
  | _ => false
  end.

Definition wait_op (timed : bool) : op := if timed then OpWaitWithTimeout else OpWaitForever.

Definition phase_of (p : pc) : phase :=
  match p with
  | Idle => Free
  | Set_lock | Set_store => Called OpSet
  | Set_broadcast | Set_unlock => Done true
  | Reset_lock | Reset_store => Called OpReset
  | Reset_unlock => Done true
  | Wait_lock timed | Wait_check timed | Wait_cond timed | Wait_blocked timed
  | Wait_wake timed _ | Wait_take timed => Called (wait_op timed)
  | Wait_unlock _ r => Done r
  end.

(** What a thread knows of the flag while it holds the mutex. *)
Definition flag_ok (b : bool) (p : pc) : Prop :=
  match p with
  | Wait_cond _ => b = false
  | Wait_take _ | Set_broadcast => b = true
  | _ => True
  end.

Record Inv (auto b0 : bool) (w : world) : Prop := {
  inv_auto : AutoReset (ev w) = auto;
  inv_mutex t p : threads w !! t = Some p -> holding p = true <-> Mutex (ev w) = Some t;
  inv_owner t : Mutex (ev w) = Some t -> (t < length (threads w))%nat;
  inv_flag t p : threads w !! t = Some p -> flag_ok (Signaled (ev w)) p;
  inv_blocked t timed :
    Signaled (ev w) = true -> threads w !! t = Some (Wait_blocked timed) ->
    exists t', threads w !! t' = Some Set_broadcast;
  inv_spec : spec_run auto b0 (log w) = Some (Signaled (ev w));
  inv_phase t p : threads w !! t = Some p -> phase_run t (log w) = Some (phase_of p)
}.

(** Everything the invariant needs to know of one statement. *)
Record step_facts (t : nat) p e e' (bc : bool) p' es : Prop := {
  sf_auto : AutoReset e' = AutoReset e;
  sf_me : holding p' = true <-> Mutex e' = Some t;
  sf_others t2 : t2 <> t -> Mutex e' = Some t2 <-> Mutex e = Some t2;
  sf_signal : Signaled e' = Signaled e \/ holding p = true;
  sf_flag : flag_ok (Signaled e') p';
  sf_bc : bc = true <-> p = Set_broadcast;
  sf_raise : Signaled e' = true -> Signaled e = false -> p' = Set_broadcast;
  sf_block timed : p' = Wait_blocked timed -> Signaled e' = false;
  sf_spec : foldl (spec_entry (AutoReset e)) (Some (Signaled e)) es = Some (Signaled e');
  sf_phase : foldl (phase_entry t) (Some (phase_of p)) es = Some (phase_of p');
  sf_phase_others t2 ph : t2 <> t -> foldl (phase_entry t2) (Some ph) es = Some ph
}.

Ltac crush_step :=
  repeat match goal with
         | H : context [pthread_mutex_lock ?t ?e] |- _ =>
             unfold pthread_mutex_lock in H; destruct (Mutex e) eqn:?; cbn in H
         | H : context [pthread_mutex_unlock ?t ?e] |- _ =>
             unfold pthread_mutex_unlock in H; destruct (Mutex e) eqn:?; cbn in H
         | H : context [Nat.eqb ?a ?b] |- _ => destruct (Nat.eqb_spec a b); cbn in H
         | H : Some _ = Some _ |- _ => injection H as H; subst
         | H : None = Some _ |- _ => discriminate H
         | H : context [if Signaled ?e then _ else _] |- _ => destruct (Signaled e) eqn:?
         | H : context [if AutoReset ?e then _ else _] |- _ => destruct (AutoReset e) eqn:?
         | |- context [if AutoReset ?e then _ else _] => destruct (AutoReset e) eqn:?
         | |- context [if negb (Signaled ?e) then _ else _] => destruct (Signaled e) eqn:?; cbn
         end.

Ltac crush_facts :=
  intros; cbn in *; rewrite ?Nat.eqb_refl in *; cbn in *;
  repeat match goal with
         | H : ?a <> ?b |- context [Nat.eqb ?b ?a] =>
             rewrite (proj2 (Nat.eqb_neq b a)) by congruence; cbn
         | H : Signaled ?e = _ |- context [Signaled ?e] => rewrite H; cbn
         | H : AutoReset ?e = _ |- context [AutoReset ?e] => rewrite H; cbn
         end; intuition congruence.

Lemma thread_step_facts t p e e' bc p' es :
  thread_step t p e = Some (e', bc, p', es) -> flag_ok (Signaled e) p ->
  (holding p = true <-> Mutex e = Some t) -> step_facts t p e e' bc p' es.
Proof.
  intros Hs Hf Hm.
  destruct p as [| | | | | | | |[]|[]|[]|[]|[] []|[]|[] []]; cbn in Hs, Hf, Hm; crush_step;
    split; crush_facts.
Qed.

Lemma wake_holding p : holding (wake p) = holding p.
Proof. by destruct p. Qed.

Lemma wake_phase p : phase_of (wake p) = phase_of p.
Proof. by destruct p. Qed.

Lemma wake_flag b p : flag_ok b (wake p) <-> flag_ok b p.
Proof. by destruct p. Qed.

Lemma wake_not_blocked p timed : wake p <> Wait_blocked timed.
Proof. by destruct p. Qed.

(** A thread other than the one that moved: as it was, or woken. *)
Lemma lookup_moved (ts : list pc) (bc : bool) t p' t2 p2 :
  <[t := p']> (if bc then map wake ts else ts) !! t2 = Some p2 ->
  (t2 = t /\ p2 = p' /\ (t < length ts)%nat) \/
  (t2 <> t /\ exists p1, ts !! t2 = Some p1 /\ p2 = if bc then wake p1 else p1).
Proof.
  intros H. apply list_lookup_insert_Some in H as [(-> & -> & Hl)|(Hne & H)].
  - left. destruct bc; rewrite ?length_map in Hl; done.
  - right. split; [done|]. destruct bc; [|by exists p2].
    rewrite list_lookup_fmap in H. destruct (ts !! t2) as [p1|]; [|done].
    injection H as <-. by exists p1.
Qed.

Lemma length_moved (ts : list pc) (bc : bool) t p' :
  length (<[t := p']> (if bc then map wake ts else ts)) = length ts.
Proof. rewrite length_insert. destruct bc; by rewrite ?length_map. Qed.

Lemma phase_run_app t xs ys : phase_run t (xs ++ ys) = foldl (phase_entry t) (phase_run t xs) ys.
Proof. apply foldl_app. Qed.

Lemma spec_run_app auto b xs ys :
  spec_run auto b (xs ++ ys) = foldl (spec_entry auto) (spec_run auto b xs) ys.
Proof. apply foldl_app. Qed.

Lemma run_inv auto b0 w t p e' bc p' es :
  Inv auto b0 w -> threads w !! t = Some p -> thread_step t p (ev w) = Some (e', bc, p', es) ->
  Inv auto b0 (mkWorld e' (<[t := p']> (if bc then map wake (threads w) else threads w)) (log w ++ es)).
Proof.
  intros HI Hp Hs.
  pose proof (thread_step_facts _ _ _ _ _ _ _ Hs (inv_flag _ _ _ HI _ _ Hp) (inv_mutex _ _ _ HI _ _ Hp))
    as [Fa Fm Fo Fs Ff Fb Fr Fk Fspec Fph Fpo].
  destruct HI as [Ia Im Iw If Ib Is Ip]. split; cbn [ev threads log].
  - congruence.
  - intros t2 p2 [(-> & -> & _)|(Hne & p1 & H1 & ->)]%lookup_moved; [done|].
    rewrite Fo, <- (Im _ _ H1) by done. destruct bc; by rewrite ?wake_holding.
  - intros t2 Ht2. rewrite length_moved. destruct (decide (t2 = t)) as [->|];
      [by eapply lookup_lt_Some|]. apply Iw. by apply Fo.
  - intros t2 p2 [(-> & -> & _)|(Hne & p1 & H1 & ->)]%lookup_moved; [done|].
    assert (flag_ok (Signaled e') p1) as Hf1.
    { destruct Fs as [->|Hh]; [by eapply If|]. apply (Im _ _ Hp) in Hh.
      destruct (holding p1) eqn:Hh1; [|by destruct p1].
      apply (Im _ _ H1) in Hh1. congruence. }
    destruct bc; [by apply wake_flag|done].
  - intros t2 timed Hsig [(-> & <- & _)|(Hne & p1 & H1 & Heq)]%lookup_moved.
    { rewrite (Fk timed eq_refl) in Hsig. done. }
    destruct bc; [by edestruct wake_not_blocked|]. subst p1.
    destruct (Signaled (ev w)) eqn:Hold.
    + destruct (Ib t2 timed eq_refl H1) as (t' & Ht'). exists t'.
      rewrite list_lookup_insert_ne; [done|]. intros <-. rewrite Hp in Ht'.
      assert (false = true) by (apply Fb; congruence). done.
    + exists t. rewrite (Fr Hsig eq_refl). by apply list_lookup_insert_eq, (lookup_lt_Some _ _ _ Hp).
  - rewrite spec_run_app, Is, <- Ia. done.
  - intros t2 p2 [(-> & -> & _)|(Hne & p1 & H1 & ->)]%lookup_moved; rewrite phase_run_app.
    + by rewrite (Ip _ _ Hp).
    + rewrite (Ip _ _ H1), Fpo by done. destruct bc; by rewrite ?wake_phase.
Qed.

(** Moving one thread without touching the event. *)
Lemma move_inv auto b0 w t p p' es :
  Inv auto b0 w -> threads w !! t = Some p -> holding p = false -> holding p' = false ->
  (forall timed, p' <> Wait_blocked timed) ->
  foldl (spec_entry auto) (Some (Signaled (ev w))) es = Some (Signaled (ev w)) ->
  foldl (phase_entry t) (Some (phase_of p)) es = Some (phase_of p') ->
  (forall t2 ph, t2 <> t -> foldl (phase_entry t2) (Some ph) es = Some ph) ->
  Inv auto b0 (mkWorld (ev w) (<[t := p']> (threads w)) (log w ++ es)).
Proof.
  intros [Ia Im Iw If Ib Is Ip] Hp Hh Hh' Hnb Hsp Hph Hpo. split; cbn [ev threads log].
  - done.
  - intros t2 p2 [(-> & -> & _)|(Hne & H1)]%list_lookup_insert_Some; [|by apply Im].
    rewrite Hh', <- (Im _ _ Hp), Hh. done.
  - intros t2. rewrite length_insert. apply Iw.
  - intros t2 p2 [(-> & -> & _)|(Hne & H1)]%list_lookup_insert_Some; [by destruct p2|by eapply If].
  - intros t2 timed Hs [(-> & Heq & _)|(Hne & H1)]%list_lookup_insert_Some; [by destruct (Hnb timed)|].
    destruct (Ib t2 timed Hs H1) as (t' & Ht'). exists t'.
    rewrite list_lookup_insert_ne; [done|]. intros <-. rewrite Hp in Ht'. by simplify_eq.
  - by rewrite spec_run_app, Is.
  - intros t2 p2 [(-> & -> & _)|(Hne & H1)]%list_lookup_insert_Some; rewrite phase_run_app.
    + by rewrite (Ip _ _ Hp).
    + rewrite (Ip _ _ H1). by apply Hpo.
Qed.

Lemma step_inv auto b0 w l w' : Inv auto b0 w -> step w l = Some w' -> Inv auto b0 w'.
Proof.
  intros HI. destruct l as [t o|t|t|t]; cbn [step].
  - destruct (threads w !! t) as [[]|] eqn:Hp; try done. intros [= <-].
    eapply move_inv; try done; try (by destruct o); cbn.
    + rewrite Nat.eqb_refl. by destruct o.
    + intros t2 ph Hne. by rewrite (proj2 (Nat.eqb_neq t t2)) by congruence.
  - destruct (threads w !! t) as [p|] eqn:Hp; [|done]. cbn.
    destruct (thread_step t p (ev w)) as [[[[e' bc] p'] es]|] eqn:Hs; [|done]. cbn.
    intros [= <-]. by eapply run_inv.
  - destruct (threads w !! t) as [[]|] eqn:Hp; try done. intros [= <-].
    rewrite <- (app_nil_r (log w)). by eapply move_inv.
  - destruct (threads w !! t) as [[]|] eqn:Hp; try done. destruct timed; [|done]. intros [= <-].
    rewrite <- (app_nil_r (log w)). by eapply move_inv.
Qed.

Lemma initial_inv n mr b0 : Inv (negb mr) b0 (initial n mr b0).
Proof.
  split; cbn; try done.
  - intros t p [-> _]%lookup_replicate. done.
  - intros t p [-> _]%lookup_replicate. done.
  - intros t timed _ [? _]%lookup_replicate. done.
  - intros t p [-> _]%lookup_replicate. done.
Qed.

Lemma run_from_inv auto b0 ls w w' : Inv auto b0 w -> run w ls = Some w' -> Inv auto b0 w'.
Proof.
  revert w. induction ls as [|l ls IH]; intros w HI; cbn [run]; [by intros [= <-]|].
  destruct (step w l) as [w1|] eqn:Hs; [|done]. cbn. apply IH. by eapply step_inv.
Qed.

Lemma reachable_inv n mr b0 ls w :
  run (initial n mr b0) ls = Some w -> Inv (negb mr) b0 w.
Proof. apply run_from_inv, initial_inv. Qed.

(** ** Safety *)

(** C2: the event is linearizable.  In every run of any number of threads, with
    spurious wake-ups and expiring deadlines, the effects of the calls in the
    order in which they took place are a legal history of an atomic event (a
    satisfied wait finds it set, and clears it if it is an auto-reset event),
    the flag is the state of that event; and in each thread every call has
    exactly one effect, of the kind it asked for, between call and return, and
    returns that effect's result. *)
Theorem event_linearizable n ManualReset InitialState ls w :
  run (initial n ManualReset InitialState) ls = Some w ->
  spec_run (negb ManualReset) InitialState (log w) = Some (Signaled (ev w)) /\
  forall t p, threads w !! t = Some p -> phase_run t (log w) = Some (phase_of p).
Proof. intros HI%reachable_inv. split; [by apply HI|]. intros t p. apply HI. Qed.

(** Thread 0 waits, thread 1 sets the event, thread 0 is woken and returns. *)
Definition handshake : list label :=
  [Start 0 OpWaitForever; Run 0; Run 0; Run 0; Start 1 OpSet; Run 1; Run 1; Run 1; Run 1;
   Run 0; Run 0; Run 0; Run 0]%nat.

Definition handshake_end : world :=
  mkWorld (mkEvent None false true) [Idle; Idle]
    [Call 0 OpWaitForever; Call 1 OpSet; Effect 1 ESet; Return 1 true;
     Effect 0 (EWait true); Return 0 true].

Lemma event_linearizable_witness :
  spec_run true false (log handshake_end) = Some false /\
  forall t p, threads handshake_end !! t = Some p ->
    phase_run t (log handshake_end) = Some (phase_of p).
Proof. exact (event_linearizable 2 false false handshake handshake_end eq_refl). Defined.

(** A thread that holds the mutex can always execute its next statement. *)
Lemma holder_runs auto b0 w t p :
  Inv auto b0 w -> threads w !! t = Some p -> holding p = true ->
  exists w', step w (Run t) = Some w'.
Proof.
  intros HI Hp Hh. pose proof (proj1 (inv_mutex _ _ _ HI _ _ Hp) Hh) as Hm.
  cbn [step]. rewrite Hp. cbn.
  destruct p as [| | | | | | | |[]|[]|[]|[]|[] []|[]|[] []]; try done; cbn;
    unfold pthread_mutex_unlock; rewrite ?Hm, ?Nat.eqb_refl; cbn; eauto.
Qed.

(** The mutex of the event excludes, and its owner is never stuck: in every
    reachable state at most one thread is between its lock and its unlock, and
    that thread can execute its next statement; in particular the unlocks and
    waits are done by the owner, so the assertions on their results hold. *)
Theorem event_mutual_exclusion n ManualReset InitialState ls w t1 t2 p1 p2 :
  run (initial n ManualReset InitialState) ls = Some w ->
  threads w !! t1 = Some p1 -> holding p1 = true ->
  (threads w !! t2 = Some p2 -> holding p2 = true -> t1 = t2) /\
  exists w', step w (Run t1) = Some w'.
Proof.
  intros HI%reachable_inv H1 Hh1. split; [|by eapply holder_runs].
  intros H2 Hh2. apply (inv_mutex _ _ _ HI _ _ H1) in Hh1.
  apply (inv_mutex _ _ _ HI _ _ H2) in Hh2. congruence.
Qed.

Lemma event_mutual_exclusion_witness :
  let w := mkWorld (mkEvent (Some O) false true) [Set_store; Reset_lock]
             [Call 0 OpSet; Call 1 OpReset] in
  exists w', step w (Run 0) = Some w'.
Proof.
  exact (proj2 (event_mutual_exclusion 2 false false
    [Start 0 OpSet; Start 1 OpReset; Run 0]%nat _ 0 1 Set_store Reset_lock eq_refl eq_refl eq_refl)).
Defined.

(** Effects counted in a log. *)
Definition is_set (x : entry) : bool := match x with Effect _ ESet => true | _ => false end.
Definition is_wait (x : entry) : bool :=
  match x with Effect _ (EWait true) => true | _ => false end.
Definition count_entries (f : entry -> bool) (xs : list entry) : nat := length (List.filter f xs).

Lemma spec_run_None auto xs : foldl (spec_entry auto) None xs = None.
Proof. induction xs as [|[] xs IH]; done. Qed.

Lemma auto_reset_budget xs b b' :
  foldl (spec_entry true) (Some b) xs = Some b' ->
  (count_entries is_wait xs + Nat.b2n b' <= count_entries is_set xs + Nat.b2n b)%nat.
Proof.
  unfold count_entries. revert b. induction xs as [|x xs IH]; intros b; cbn [foldl].
  { intros [= ->]. cbn. lia. }
  destruct x as [t o|t [| |[]]|t r]; cbn; try apply IH.
  - intros H%IH. destruct b; cbn in *; lia.
  - intros H%IH. destruct b; cbn in *; lia.
  - destruct b; cbn; [|by rewrite spec_run_None]. intros H%IH. cbn in *. lia.
Qed.

(** An auto-reset event releases at most one wait per set: in every run the
    satisfied waits number at most the sets, plus one if the event was created
    signaled; and if the event is signaled now, one less. *)
Theorem auto_reset_one_per_set n InitialState ls w :
  run (initial n false InitialState) ls = Some w ->
  (count_entries is_wait (log w) + Nat.b2n (Signaled (ev w)) <=
   count_entries is_set (log w) + Nat.b2n InitialState)%nat.
Proof. intros HI%reachable_inv. apply auto_reset_budget. exact (inv_spec _ _ _ HI). Qed.

Lemma auto_reset_one_per_set_witness :
  (count_entries is_wait (log handshake_end) + Nat.b2n false <=
   count_entries is_set (log handshake_end) + Nat.b2n false)%nat.
Proof. exact (auto_reset_one_per_set 2 false handshake handshake_end eq_refl). Defined.

(** C3: no wake-up is lost.  Whenever the event is signaled and some thread is
    still blocked on the condition, a setter is about to broadcast, it can, and
    its broadcast wakes that thread. *)
Theorem no_lost_wakeup n ManualReset InitialState ls w t timed :
  run (initial n ManualReset InitialState) ls = Some w ->
  Signaled (ev w) = true -> threads w !! t = Some (Wait_blocked timed) ->
  exists t' w', threads w !! t' = Some Set_broadcast /\ step w (Run t') = Some w' /\
    threads w' !! t = Some (Wait_wake timed false).
Proof.
  intros HI%reachable_inv Hs Hb. destruct (inv_blocked _ _ _ HI t timed Hs Hb) as (t' & Ht').
  exists t'. cbn [step]. rewrite Ht'. cbn. eexists. split; [done|]. split; [done|]. cbn.
  rewrite list_lookup_insert_ne; [|intros ->; congruence].
  by rewrite list_lookup_fmap, Hb.
Qed.

(** Thread 0 is blocked and thread 1 has stored the flag. *)
Definition about_to_wake : world :=
  mkWorld (mkEvent (Some 1%nat) true true) [Wait_blocked false; Set_broadcast]
    [Call 0 OpWaitForever; Call 1 OpSet; Effect 1 ESet].

Lemma no_lost_wakeup_witness :
  exists t' w', threads about_to_wake !! t' = Some Set_broadcast /\
    step about_to_wake (Run t') = Some w' /\ threads w' !! O = Some (Wait_wake false false).
Proof.
  exact (no_lost_wakeup 2 false false (take 7 handshake) about_to_wake 0 false
    eq_refl eq_refl eq_refl).
Defined.

(** ** Progress

    Without new calls, spurious wake-ups and deadlines the threads run out of
    statements: each one lowers the following weight, where a broadcast pays
    for the waits it restarts. *)

Definition weight (n : nat) (p : pc) : nat :=
  match p with
  | Idle | Wait_blocked _ => 0
  | Set_lock => 5 * n + 4 | Set_store => 5 * n + 3 | Set_broadcast => 5 * n + 2
  | Set_unlock | Reset_unlock | Wait_cond _ | Wait_unlock _ _ => 1
  | Reset_lock => 3 | Reset_store | Wait_take _ => 2
  | Wait_check _ => 4
  | Wait_lock _ | Wait_wake _ _ => 5
  end.

Definition total (w : world) : nat :=
  sum_list_with (weight (length (threads w))) (threads w).

Lemma sum_wake n l : (sum_list_with (weight n) (map wake l) <= sum_list_with (weight n) l + 5 * length l)%nat.
Proof.
  induction l as [|p l IH]; cbn [map sum_list_with length]; [lia|].
  destruct p; cbn [wake weight]; lia.
Qed.

Lemma thread_step_weight t p e e' bc p' es n :
  thread_step t p e = Some (e', bc, p', es) ->
  (weight n p' + (if bc then 5 * n + 1 else 1) <= weight n p)%nat.
Proof.
  intros Hs. destruct p as [| | | | | | | |[]|[]|[]|[]|[] []|[]|[] []]; cbn in Hs; crush_step;
    cbn [weight]; try lia.
Qed.

Lemma run_weight w t w' :
  step w (Run t) = Some w' -> (total w' < total w)%nat /\ length (threads w') = length (threads w).
Proof.
  cbn [step]. destruct (threads w !! t) as [p|] eqn:Hp; [|done]. cbn.
  destruct (thread_step t p (ev w)) as [[[[e' bc] p'] es]|] eqn:Hs; [|done]. cbn.
  intros [= <-]. unfold total; cbn [threads]. rewrite length_moved. split; [|done].
  pose proof (thread_step_weight _ _ _ _ _ _ _ (length (threads w)) Hs) as Hw.
  set (f := weight (length (threads w))) in *. destruct bc.
  - assert (map wake (threads w) !! t = Some (wake p)) as Hp' by (by rewrite list_lookup_fmap, Hp).
    pose proof (sum_insert f _ _ _ p' Hp'). pose proof (sum_wake (length (threads w)) (threads w)).
    assert (f (wake p) = f p) by (by destruct p). unfold f in *. lia.
  - pose proof (sum_insert f _ _ _ p' Hp). lia.
Qed.

Definition quiet (w : world) : Prop := forall t, step w (Run t) = None.

(** A thread that can neither run nor hold the mutex is idle, blocked, or needs
    the mutex. *)
Lemma quiet_pcs auto b0 w t p :
  Inv auto b0 w -> quiet w -> threads w !! t = Some p -> p = Idle \/ exists timed, p = Wait_blocked timed.
Proof.
  intros HI Hq Hp.
  assert (Mutex (ev w) = None) as Hm.
  { destruct (Mutex (ev w)) as [t'|] eqn:Hm; [|done].
    destruct (lookup_lt_is_Some_2 (threads w) t') as [p' Hp']; [by eapply inv_owner|].
    destruct (holder_runs _ _ w t' p' HI Hp') as [w' Hw'];
      [by eapply inv_mutex|by rewrite Hq in Hw']. }
  destruct (holding p) eqn:Hh.
  { apply (inv_mutex _ _ _ HI _ _ Hp) in Hh. congruence. }
  specialize (Hq t). cbn [step] in Hq. rewrite Hp in Hq. cbn in Hq.
  destruct p as [| | | | | | | |[]|[]|[]|[]|[] []|[]|[] []]; try done; eauto; cbn in Hq;
    unfold pthread_mutex_lock in Hq; rewrite Hm in Hq; done.
Qed.

Lemma quiet_signaled auto b0 w t p :
  Inv auto b0 w -> quiet w -> Signaled (ev w) = true -> threads w !! t = Some p -> p = Idle.
Proof.
  intros HI Hq Hs Hp. destruct (quiet_pcs _ _ _ _ _ HI Hq Hp) as [|[timed ->]]; [done|].
  destruct (inv_blocked _ _ _ HI _ _ Hs Hp) as (t' & Ht').
  destruct (quiet_pcs _ _ _ _ _ HI Hq Ht') as [|[? ?]]; done.
Qed.

Lemma run_bound ts w w' : run w (map Run ts) = Some w' -> (length ts + total w' <= total w)%nat.
Proof.
  revert w. induction ts as [|t ts IH]; intros w; cbn [map run]; [intros [= <-]; cbn; lia|].
  destruct (step w (Run t)) as [w1|] eqn:Hs; [|done]. intros H%IH.
  apply run_weight in Hs as [? _]. cbn. lia.
Qed.

(** C4: calls finish.  From every reachable state, if the threads are only left
    to run (no new calls, and no spurious or timed wake-ups to help them), every
    schedule stops after a bounded number of statements; when it does, each
    thread has returned from its call or is blocked in a wait on an event that
    is not signaled. *)
Theorem event_calls_finish n ManualReset InitialState ls w ts w' :
  run (initial n ManualReset InitialState) ls = Some w -> run w (map Run ts) = Some w' ->
  (length ts <= total w)%nat /\
  (quiet w' -> forall t p, threads w' !! t = Some p ->
     p = Idle \/ (Signaled (ev w') = false /\ exists timed, p = Wait_blocked timed)).
Proof.
  intros HI%reachable_inv Hr. split; [apply run_bound in Hr; lia|].
  intros Hq t p Hp. pose proof (run_from_inv _ _ _ _ _ HI Hr) as HI'.
  destruct (Signaled (ev w')) eqn:Hs; [left; by eapply quiet_signaled|].
  destruct (quiet_pcs _ _ _ _ _ HI' Hq Hp); [by left|by right].
Qed.

Lemma event_calls_finish_witness :
  (length [1; 1; 0; 0; 0; 0] <= total about_to_wake)%nat /\
  (quiet handshake_end -> forall t p, threads handshake_end !! t = Some p ->
     p = Idle \/ (Signaled (ev handshake_end) = false /\ exists timed, p = Wait_blocked timed)).
Proof.
  exact (event_calls_finish 2 false false (take 7 handshake) about_to_wake
    [1; 1; 0; 0; 0; 0]%nat handshake_end eq_refl eq_refl).
Defined.

(** No thread is about to clear the flag with a reset. *)
Definition no_reset (w : world) : Prop :=
  forall t p, threads w !! t = Some p -> p <> Reset_lock /\ p <> Reset_store.

Lemma manual_stays_set w t w' :
  AutoReset (ev w) = false -> Signaled (ev w) = true -> no_reset w -> step w (Run t) = Some w' ->
  AutoReset (ev w') = false /\ Signaled (ev w') = true /\ no_reset w'.
Proof.
  intros Ha Hs Hn. cbn [step]. destruct (threads w !! t) as [p|] eqn:Hp; [|done]. cbn.
  destruct (thread_step t p (ev w)) as [[[[e' bc] p'] es]|] eqn:Ht; [|done]. cbn. intros [= <-].
  destruct (Hn t p Hp) as [Hn1 Hn2].
  assert (AutoReset e' = false /\ Signaled e' = true /\ p' <> Reset_lock /\ p' <> Reset_store)
    as (? & ? & ? & ?).
  { destruct p as [| | | | | | | |[]|[]|[]|[]|[] []|[]|[] []]; cbn in Ht; crush_step; done. }
  split; [done|]. split; [done|]. cbn [threads].
  intros t2 p2 [(-> & -> & _)|(_ & p1 & Hp1 & ->)]%lookup_moved; [done|].
  specialize (Hn t2 p1 Hp1). destruct bc; [by destruct p1|done].
Qed.

Lemma manual_stays_set_run ts w w' :
  AutoReset (ev w) = false -> Signaled (ev w) = true -> no_reset w ->
  run w (map Run ts) = Some w' -> Signaled (ev w') = true.
Proof.
  revert w. induction ts as [|t ts IH]; intros w Ha Hs Hn; cbn [map run]; [by intros [= <-]|].
  destruct (step w (Run t)) as [w1|] eqn:Hst; [|done]. cbn.
  destruct (manual_stays_set w t w1 Ha Hs Hn Hst) as (? & ? & ?). by apply IH.
Qed.

(** C5: a set manual-reset event releases every waiter.  From a reachable state
    in which it is signaled and no thread is about to reset it, every schedule
    of the threads that are in a call comes to an end, and then every one of
    them, whether it was blocked or not, has returned. *)
Theorem manual_reset_releases_all n InitialState ls w ts w' :
  run (initial n true InitialState) ls = Some w ->
  Signaled (ev w) = true -> no_reset w -> run w (map Run ts) = Some w' -> quiet w' ->
  forall t p, threads w' !! t = Some p -> p = Idle.
Proof.
  intros HI%reachable_inv Hs Hn Hr Hq t p. eapply quiet_signaled; [|done|].
  - by eapply run_from_inv.
  - eapply manual_stays_set_run; [apply HI|done|done|done].
Qed.

(** Two threads wait on a manual-reset event; a third sets it. *)
Definition two_waiters : list label :=
  [Start 0 OpWaitForever; Run 0; Run 0; Run 0; Start 1 OpWaitWithTimeout; Run 1; Run 1; Run 1;
   Start 2 OpSet; Run 2; Run 2]%nat.

Definition two_blocked : world :=
  mkWorld (mkEvent (Some 2%nat) true false) [Wait_blocked false; Wait_blocked true; Set_broadcast]
    [Call 0 OpWaitForever; Call 1 OpWaitWithTimeout; Call 2 OpSet; Effect 2 ESet].

Definition two_released : world :=
  mkWorld (mkEvent None true false) [Idle; Idle; Idle]
    (log two_blocked ++ [Return 2 true; Effect 0 (EWait true); Return 0 true;
                         Effect 1 (EWait true); Return 1 true]).

Lemma manual_reset_releases_all_witness :
  exists p q, threads two_released !! O = Some p /\ threads two_released !! 1%nat = Some q /\
    p = Idle /\ q = Idle.
Proof.
  assert (forall t p, threads two_released !! t = Some p -> p = Idle) as H.
  { apply (manual_reset_releases_all 3 false two_waiters two_blocked
             [2; 2; 0; 0; 0; 0; 1; 1; 1; 1]%nat two_released); try reflexivity.
    - intros [|[|[|t]]] p H; cbn in H; simplify_eq; done.
    - intros [|[|[|t]]]; done. }
  eexists _, _. split; [reflexivity|]. split; [reflexivity|].
  split; [apply (H O) | apply (H 1%nat)]; reflexivity.
Defined.
