(* ===== verification/EventDestroy.v ===== *)
(** * Destroying a POSIX event

    [CxPlatInternalEventUninitialize] and the claim of the comment in
    [CxPlatInternalEventSet]: because the condition is signaled while the mutex
    is held, a thread whose wait was satisfied may destroy the event although
    the thread that set it may only just have left the call. *)

From S2P Require Import Prelude Event EventTheorems.

(** ** Destruction *)

(** A condition variable somebody waits on and a mutex somebody owns are busy
    (EBUSY). *)
Definition waits_on_cond (q : pc) : bool :=
  match q with Wait_blocked _ | Wait_wake _ _ => true | _ => false end.

Definition pthread_cond_destroy (w : world) : Z := if existsb waits_on_cond (threads w) then 16 else 0.

Definition pthread_mutex_destroy (w : world) : Z := match Mutex (ev w) with Some _ => 16 | None => 0 end.

Definition CxPlatInternalEventUninitialize : M world unit :=
  w ← get;
  _ ← fre_assert (pthread_cond_destroy w =? 0);
  w ← get;
  fre_assert (pthread_mutex_destroy w =? 0).

(** ** Effects and returns do not interleave *)

Lemma event_run_app w ls ls' : run w (ls ++ ls') = run w ls ≫= fun w' => run w' ls'.
Proof.
  induction ls as [|l ls IH] in w |- *; [done|]. cbn [app run].
  destruct (step w l) as [w1|]; [|done]. apply IH.
Qed.

(** A step appends nothing or one entry; an effect comes from a thread that
    holds the mutex. *)
Lemma step_log w l w' :
  step w l = Some w' -> length (threads w') = length (threads w) /\ exists es, log w' = log w ++ es /\
    (length es <= 1)%nat /\
    (forall t e, es = [Effect t e] -> exists q q', threads w !! t = Some q /\ threads w' !! t = Some q' /\
       (holding q = true \/ Mutex (ev w) = None)).
Proof.
  destruct l as [t o|t|t|t]; cbn [step].
  - destruct (threads w !! t) as [[]|] eqn:Hp; try done. intros [= <-]. cbn. rewrite length_insert.
    split; [done|]. exists [Call t o]. split; [done|]. split; [cbn; lia|]. by intros.
  - destruct (threads w !! t) as [q|] eqn:Hp; [|done]. cbn.
    destruct (thread_step t q (ev w)) as [[[[e' bc] q'] es]|] eqn:Hs; [|done]. cbn. intros [= <-].
    assert ((length es <= 1)%nat /\ forall u e, es = [Effect u e] -> u = t /\ (holding q = true \/ Mutex (ev w) = None)) as [Hlen Heff].
    { destruct q as [| | | | | | | |[]|[]|[]|[]|[] []|[]|[] []]; cbn in Hs; crush_step; cbn;
        (split; [lia|]); intros u e [=]; subst; auto. }
    cbn [threads log]. rewrite length_moved. split; [done|]. exists es. split; [done|]. split; [done|].
    intros u e He. destruct (Heff u e He) as [-> Hh]. exists q, q'. split; [done|]. split; [|done].
    apply list_lookup_insert_eq. apply lookup_lt_Some in Hp. by destruct bc; rewrite ?length_map.
  - destruct (threads w !! t) as [[]|] eqn:Hp; try done. intros [= <-]. cbn. rewrite length_insert.
    split; [done|]. exists []. rewrite app_nil_r. split; [done|]. split; [cbn; lia|]. by intros.
  - destruct (threads w !! t) as [[]|] eqn:Hp; try done. destruct timed; [|done]. intros [= <-]. cbn.
    rewrite length_insert. split; [done|]. exists []. rewrite app_nil_r. split; [done|]. split; [cbn; lia|]. by intros.
Qed.

Lemma run_threads_length n mr b0 ls w :
  run (initial n mr b0) ls = Some w -> length (threads w) = n.
Proof.
  induction ls as [|l ls IH] using rev_ind in w |- *; [intros [= <-]; apply length_replicate|].
  rewrite event_run_app. destruct (run _ ls) as [w1|]; [|done]. cbn.
  destruct (step w1 l) as [w2|] eqn:Hs; [|done]. intros [= <-].
  destruct (step_log _ _ _ Hs) as [-> _]. by apply IH.
Qed.

(** When a call takes effect, no other thread is between effect and return. *)
Lemma effect_alone n mr b0 ls w xs t e ys :
  run (initial n mr b0) ls = Some w -> log w = xs ++ Effect t e :: ys ->
  (t < n)%nat /\ forall u r, u <> t -> (u < n)%nat -> phase_run u xs <> Some (Done r).
Proof.
  induction ls as [|l ls IH] using rev_ind in w, ys |- *; [intros [= <-] Hl; by destruct xs|].
  rewrite event_run_app. destruct (run _ ls) as [w1|] eqn:Hr; [|done]. cbn.
  destruct (step w1 l) as [w2|] eqn:Hs; [|done]. intros [= <-].
  destruct (step_log _ _ _ Hs) as (Hlen & es & -> & Hone & Heff).
  assert (xs = log w1 -> es = Effect t e :: ys ->
    (t < n)%nat /\ forall u r, u <> t -> (u < n)%nat -> phase_run u xs <> Some (Done r)) as Hnew.
  { intros -> ->. destruct ys; [|cbn in Hone; lia]. destruct (Heff t e eq_refl) as (q & q' & Hq & Hq' & Hh).
    pose proof (reachable_inv _ _ _ _ _ Hr) as I. pose proof (run_threads_length _ _ _ _ _ Hr) as Hn.
    split; [rewrite <- Hn; by eapply lookup_lt_Some|]. intros u r Hne Hu.
    destruct (lookup_lt_is_Some_2 (threads w1) u ltac:(lia)) as [qu Hqu].
    rewrite (inv_phase _ _ _ I _ _ Hqu). intros [= Hd].
    assert (holding qu = true) as Hhu by (by destruct qu).
    apply (inv_mutex _ _ _ I _ _ Hqu) in Hhu. destruct Hh as [Hh|Hh]; [|congruence].
    apply (inv_mutex _ _ _ I _ _ Hq) in Hh. congruence. }
  intros [(k & Hx & Hk)|(k & Hx & Hk)]%app_eq_inv.
  - destruct k as [|x k]; [rewrite app_nil_r in Hx; auto|]. injection Hk as <- ->. by eapply IH.
  - destruct k as [|x k]; [rewrite app_nil_r in Hx; auto|]. rewrite Hk in Hone. cbn in Hone.
    rewrite length_app in Hone. cbn in Hone. lia.
Qed.

(** A thread that is between effect and return stays there until it returns. *)
Lemma done_until_return u xs ys r ph :
  phase_run u xs = Some (Done r) -> phase_run u (xs ++ ys) = Some ph -> Return u r ∉ ys -> ph = Done r.
Proof.
  rewrite phase_run_app. intros -> Hr Hn. revert Hr. induction ys as [|y ys IH]; [by intros [= <-]|]. cbn [foldl].
  assert (phase_entry u (Some (Done r)) y = Some (Done r) \/ phase_entry u (Some (Done r)) y = None) as [->|Hnone].
  { destruct y as [t o|t e|t r']; cbn; destruct (Nat.eqb_spec t u) as [->|]; auto.
    destruct (eqb r' r) eqn:He; [|auto]. apply eqb_prop in He as ->. destruct Hn. set_solver. }
  - apply IH. set_solver.
  - rewrite Hnone. clear. by induction ys.
Qed.

Lemma phase_prefix u xs ys ph : phase_run u (xs ++ ys) = Some ph -> is_Some (phase_run u xs).
Proof.
  rewrite phase_run_app. destruct (phase_run u xs); [done|]. intros H. exfalso. induction ys; done.
Qed.

(** The call whose effect came first returns before the next effect. *)
Lemma returns_before_next n mr b0 ls w xs u e ys t e' zs :
  run (initial n mr b0) ls = Some w -> log w = xs ++ Effect u e :: ys ++ Effect t e' :: zs -> t <> u ->
  exists r, Return u r ∈ ys.
Proof.
  intros Hr Hl Hne.
  destruct (effect_alone _ _ _ _ _ _ _ _ _ Hr Hl) as [Hu _].
  assert (log w = (xs ++ Effect u e :: ys) ++ Effect t e' :: zs) as Hl2 by (by rewrite Hl, <- (assoc_L (++))).
  destruct (effect_alone _ _ _ _ _ _ _ _ _ Hr Hl2) as [_ Hno].
  pose proof (reachable_inv _ _ _ _ _ Hr) as I. pose proof (run_threads_length _ _ _ _ _ Hr) as Hn.
  destruct (lookup_lt_is_Some_2 (threads w) u ltac:(lia)) as [q Hq].
  pose proof (inv_phase _ _ _ I _ _ Hq) as Hph. rewrite Hl2 in Hph. apply phase_prefix in Hph as [ph Hph].
  assert (exists r, phase_run u (xs ++ [Effect u e]) = Some (Done r)) as [r Hd].
  { replace (xs ++ Effect u e :: ys) with ((xs ++ [Effect u e]) ++ ys) in Hph by (by rewrite <- (assoc_L (++))).
    apply phase_prefix in Hph as [ph' Hph']. revert Hph'. rewrite phase_run_app.
    destruct (phase_run u xs) as [[|o|]|]; cbn; rewrite ?Nat.eqb_refl; try done.
    destruct (fits o e) as [r|]; [|done]. cbn. by exists r. }
  exists r. destruct (decide (Return u r ∈ ys)) as [|Hnot]; [done|].
  assert (ph = Done r) as ->; [|by apply Hno in Hph].
  eapply done_until_return; [exact Hd| |exact Hnot]. by rewrite <- (assoc_L (++)).
Qed.

(** ** Handing an event over *)

Definition is_call (t : nat) (x : entry) : bool := match x with Call t' _ => Nat.eqb t' t | _ => false end.
Definition is_return (t : nat) (x : entry) : bool := match x with Return t' _ => Nat.eqb t' t | _ => false end.

Lemma count_snoc f xs x : count_entries f (xs ++ [x]) = (count_entries f xs + if f x then 1 else 0)%nat.
Proof. unfold count_entries. rewrite List.filter_app, length_app. cbn. by destruct (f x). Qed.

Lemma count_in f xs x : x ∈ xs -> f x = true -> (1 <= count_entries f xs)%nat.
Proof.
  unfold count_entries. intros Hx Hf. induction xs as [|y xs IH]; [by apply elem_of_nil in Hx|]. cbn.
  apply elem_of_cons in Hx as [<-|Hx]; [rewrite Hf; cbn; lia|]. specialize (IH Hx). destruct (f y); cbn; lia.
Qed.

Lemma count_none f xs : (forall x, x ∈ xs -> f x = false) -> count_entries f xs = O.
Proof.
  unfold count_entries. intros H. induction xs as [|y xs IH]; [done|]. cbn. rewrite H by apply list_elem_of_here.
  apply IH. intros x Hx. apply H. by apply list_elem_of_further.
Qed.

(** The log has a call of [t] and an effect of it that gives the result [r]. *)
Definition explained (t : nat) (xs : list entry) (r : bool) : Prop :=
  exists o e, Call t o ∈ xs /\ Effect t e ∈ xs /\ fits o e = Some r.

Definition called (t : nat) (xs : list entry) (e : effect) : Prop :=
  exists o r, Call t o ∈ xs /\ fits o e = Some r.

Lemma explained_app t xs ys r : explained t xs r -> explained t (xs ++ ys) r.
Proof. intros (o & e & ? & ? & ?). exists o, e. rewrite !elem_of_app. auto. Qed.

Lemma called_app t xs ys e : called t xs e -> called t (xs ++ ys) e.
Proof. intros (o & r & ? & ?). exists o, r. rewrite !elem_of_app. auto. Qed.

Lemma elem_of_snoc {A} (y x : A) xs : y ∈ xs ++ [x] <-> y ∈ xs \/ y = x.
Proof. by rewrite elem_of_app, list_elem_of_singleton. Qed.

(** What the log of one thread contains. *)
Record story (t : nat) (xs : list entry) (ph : phase) : Prop := {
  story_effect e : Effect t e ∈ xs -> called t xs e;
  story_return r : Return t r ∈ xs -> explained t xs r;
  story_count : count_entries (is_call t) xs =
    (count_entries (is_return t) xs + match ph with Free => 0 | _ => 1 end)%nat;
  story_phase : match ph with Free => True | Called o => Call t o ∈ xs | Done r => explained t xs r end
}.

Lemma story_snoc t xs x ph ph' :
  story t xs ph ->
  (forall e, x = Effect t e -> called t (xs ++ [x]) e) ->
  (forall r, x = Return t r -> explained t (xs ++ [x]) r) ->
  count_entries (is_call t) (xs ++ [x]) =
    (count_entries (is_return t) (xs ++ [x]) + match ph' with Free => 0 | _ => 1 end)%nat ->
  match ph' with Free => True | Called o => Call t o ∈ xs ++ [x] | Done r => explained t (xs ++ [x]) r end ->
  story t (xs ++ [x]) ph'.
Proof.
  intros [He Hr _ _] Hxe Hxr Hc Hp. split; [| |done|done].
  - intros e [Hin|Hx]%elem_of_snoc; [apply called_app; auto|auto].
  - intros r [Hin|Hx]%elem_of_snoc; [apply explained_app; auto|auto].
Qed.

Lemma phase_story t xs ph : phase_run t xs = Some ph -> story t xs ph.
Proof.
  induction xs as [|x xs IH] using rev_ind in ph |- *.
  { intros [= <-]. split; [by intros e ?%elem_of_nil|by intros r ?%elem_of_nil|done|done]. }
  rewrite phase_run_app. cbn [foldl]. destruct (phase_run t xs) as [ph0|]; [|done].
  specialize (IH ph0 eq_refl). pose proof (story_count _ _ _ IH) as Hc. pose proof (story_phase _ _ _ IH) as Hp.
  destruct x as [v o|v e|v r]; cbn; destruct (Nat.eqb_spec v t) as [->|Hne].
  2,4,6: intros [= <-]; eapply story_snoc; [done|congruence..| |];
    [rewrite !count_snoc, Hc; cbn; rewrite ?(proj2 (Nat.eqb_neq _ _) Hne); lia|
     destruct ph0; [done|by apply elem_of_snoc; left|by apply explained_app]].
  all: destruct ph0 as [|o0|r0]; try done.
  - intros [= <-]. eapply story_snoc; [done|congruence..| |by apply elem_of_snoc; right].
    rewrite !count_snoc, Hc. cbn. rewrite Nat.eqb_refl. lia.
  - destruct (fits o0 e) as [r|] eqn:Hf; [|done]. intros [= <-]. eapply story_snoc; [done| |congruence| |].
    + intros e' [= <-]. exists o0, r. rewrite elem_of_snoc. auto.
    + rewrite !count_snoc, Hc. cbn. lia.
    + exists o0, e. rewrite !elem_of_snoc. auto.
  - destruct (eqb r r0) eqn:Hb; [|done]. apply eqb_prop in Hb as ->. intros [= <-].
    eapply story_snoc; [done|congruence| | |done].
    + intros r [= <-]. by apply explained_app.
    + rewrite !count_snoc, Hc. cbn. rewrite Nat.eqb_refl. lia.
Qed.

Lemma spec_prefix auto b xs ys b' : spec_run auto b (xs ++ ys) = Some b' -> is_Some (spec_run auto b xs).
Proof.
  rewrite spec_run_app. destruct (spec_run auto b xs); [done|]. by rewrite spec_run_None.
Qed.

(** An event that is set and was not at first has been set by somebody. *)
Lemma set_before auto xs : spec_run auto false xs = Some true -> exists u, Effect u ESet ∈ xs.
Proof.
  induction xs as [|x xs IH] using rev_ind; [done|]. rewrite spec_run_app. cbn [foldl].
  destruct (spec_run auto false xs) as [b|] eqn:Hb; [|by destruct x].
  assert (b = true -> exists u, Effect u ESet ∈ xs ++ [x]) as Hold.
  { intros ->. destruct (IH eq_refl) as [u Hu]. exists u. by apply elem_of_snoc; left. }
  destruct x as [v o|v e|v r]; cbn; try (intros [= ->]; auto).
  destruct e as [| |[]]; cbn; try done.
  - intros _. exists v. by apply elem_of_snoc; right.
  - destruct b; [auto|done].
  - intros [= ->]. auto.
Qed.

(** A thread that has returned from all its calls is outside the event's code. *)
Lemma returned_idle auto b0 w v q :
  Inv auto b0 w -> threads w !! v = Some q ->
  (count_entries (is_call v) (log w) <= 1)%nat ->
  (count_entries (is_call v) (log w) = O \/ exists r, Return v r ∈ log w) -> q = Idle.
Proof.
  intros I Hq Hone Hret. pose proof (phase_story _ _ _ (inv_phase _ _ _ I _ _ Hq)) as St.
  pose proof (story_count _ _ _ St) as Hc.
  assert (phase_of q = Free) as Hf; [|by destruct q].
  destruct (phase_of q) eqn:Hph; [done|..];
    (destruct Hret as [H0|[r' Hr]]; [lia|]);
    pose proof (count_in (is_return v) _ _ Hr (Nat.eqb_refl v)); lia.
Qed.

Lemma idle_destroy auto b0 w :
  Inv auto b0 w -> (forall v q, threads w !! v = Some q -> q = Idle) ->
  CxPlatInternalEventUninitialize w = Ret tt w.
Proof.
  intros I Hidle. unfold CxPlatInternalEventUninitialize, mbind, M_bind, get, pthread_cond_destroy, pthread_mutex_destroy.
  assert (existsb waits_on_cond (threads w) = false) as ->.
  { apply not_true_iff_false. intros (q & Hin & Hw)%existsb_exists.
    apply list_elem_of_In, list_elem_of_lookup in Hin as [v Hv]. by rewrite (Hidle _ _ Hv) in Hw. }
  cbn. destruct (Mutex (ev w)) as [v|] eqn:Hm; [|done]. exfalso.
  destruct (lookup_lt_is_Some_2 (threads w) v (inv_owner _ _ _ I _ Hm)) as [q Hq].
  apply (inv_mutex _ _ _ I _ _ Hq) in Hm. by rewrite (Hidle _ _ Hq) in Hm.
Qed.

(** C14: a satisfied waiter may destroy the event.  One thread waits on an event
    that is not set, with or without timeout, another sets it once, in any
    interleaving.  When the wait has returned TRUE, the setting thread has left
    its call, too: no thread will touch the mutex or the condition again, and
    destroying the event succeeds. *)
Theorem event_destroy_safe n ManualReset ls w t u :
  run (initial n ManualReset false) ls = Some w ->
  (t < n)%nat -> (u < n)%nat -> t <> u ->
  (forall v o, Call v o ∈ log w ->
     (v = t /\ (o = OpWaitForever \/ o = OpWaitWithTimeout)) \/ (v = u /\ o = OpSet)) ->
  (forall v, (count_entries (is_call v) (log w) <= 1)%nat) ->
  Return t true ∈ log w ->
  (forall v q, threads w !! v = Some q -> q = Idle) /\ CxPlatInternalEventUninitialize w = Ret tt w.
Proof.
  intros Hr Ht Hu Hne Hcalls Hone Hret.
  pose proof (reachable_inv _ _ _ _ _ Hr) as I. pose proof (run_threads_length _ _ _ _ _ Hr) as Hn.
  assert (forall v, (v < n)%nat -> exists ph, story v (log w) ph) as Hstory.
  { intros v Hv. destruct (lookup_lt_is_Some_2 (threads w) v ltac:(lia)) as [q Hq].
    eexists. eapply phase_story, (inv_phase _ _ _ I _ _ Hq). }
  assert (Effect t (EWait true) ∈ log w) as Hwait.
  { destruct (Hstory t Ht) as [ph St]. destruct (story_return _ _ _ St _ Hret) as (o & e & Hc & He & Hf).
    destruct (Hcalls _ _ Hc) as [[_ [->| ->]]|[? _]]; [..|congruence]; destruct e as [| |[]]; cbn in Hf; done. }
  assert (exists r, Return u r ∈ log w) as Hreturn.
  { apply list_elem_of_split in Hwait as (a & c & Hlog).
    pose proof (inv_spec _ _ _ I) as Hs. rewrite Hlog in Hs.
    replace (a ++ Effect t (EWait true) :: c) with ((a ++ [Effect t (EWait true)]) ++ c) in Hs
      by (by rewrite <- (assoc_L (++))).
    apply spec_prefix in Hs as [b Hs]. rewrite spec_run_app in Hs.
    destruct (spec_run (negb ManualReset) false a) as [[]|] eqn:Ha; try done.
    destruct (set_before _ _ Ha) as [v Hv]. apply list_elem_of_split in Hv as (xs & ys & ->).
    rewrite <- (assoc_L (++)) in Hlog. cbn in Hlog.
    destruct (effect_alone _ _ _ _ _ _ _ _ _ Hr Hlog) as [Hvn _]. destruct (Hstory v Hvn) as [ph St].
    assert (Effect v ESet ∈ log w) as Hin by (rewrite Hlog; set_solver).
    destruct (story_effect _ _ _ St _ Hin) as (o & r & Hc & Hf).
    destruct (Hcalls _ _ Hc) as [[_ [->| ->]]|[-> _]]; [done..|].
    destruct (returns_before_next _ _ _ _ _ _ _ _ _ _ _ _ Hr Hlog Hne) as [r' Hr']. exists r'.
    rewrite Hlog. set_solver. }
  assert (forall v q, threads w !! v = Some q -> q = Idle) as Hidle; [|split; [done|by eapply idle_destroy]].
  intros v q Hq. eapply returned_idle; [done..|apply Hone|].
  destruct (decide (v = t)) as [->|]; [right; by exists true|]. destruct (decide (v = u)) as [->|]; [by right|].
  left. apply count_none. intros [v' o|v' e|v' r] Hin; cbn; try done.
  apply Nat.eqb_neq. destruct (Hcalls _ _ Hin) as [[-> _]|[-> _]]; congruence.
Qed.

(** The handshake of two threads; then the event is destroyed. *)
Lemma event_destroy_safe_witness :
  CxPlatInternalEventUninitialize handshake_end = Ret tt handshake_end.
Proof.
  apply (event_destroy_safe 2 false handshake handshake_end 0 1); try done; try lia.
  - intros v o. cbn. rewrite !elem_of_cons, elem_of_nil.
    intros [H|[H|[H|[H|[H|[H|[]]]]]]]; inversion H; subst; auto.
  - intros v. unfold count_entries. cbn. destruct v as [|[|v]]; cbn; lia.
  - cbn. rewrite !elem_of_cons. auto 10.
Defined.
