(* ===== verification/EventTiming.v ===== *)
(** * Timed waits on POSIX events (inc/cxplat_posix.h, src/lib/cxplat_posix.c)

    [Event] lets the deadline of a timed wait pass at any time.  This file adds
    the clocks: [CxPlatEventInitialize] with all its pthread calls, which choose
    the clock the condition variable is waited on with, and the beginning of
    [CxPlatInternalEventWaitWithTimeout], which computes the deadline with
    [CxPlatGetAbsoluteTime].  On Linux both use the monotonic clock; elsewhere
    the condition has its default clock and the deadline is computed from UTC,
    which are the same clock, but one that can be set. *)

From S2P Require Import Prelude TimeConv Event EventTheorems.

Inductive clockid := CLOCK_MONOTONIC | CLOCK_REALTIME.

(** ** Initialization *)

Inductive pthread_call := MutexInit | CondattrInit | CondattrSetclock | CondInit | CondattrDestroy.

(** What the calls return: 0, or an error. *)
Class Pthread := { result : pthread_call -> Z }.

(** The parts of the event and the attributes: whether they are initialized, and
    with which clock. *)
Record event_objects := mkObjects {
  mutex_ready : bool; cond_attr : option clockid; cond_clock : option clockid
}.

Definition no_objects : event_objects := mkObjects false None None.

Section Initialize.
Context `{!Pthread}.
Variable linux : bool.

(** A call that fails changes nothing. *)
Definition pthread (c : pthread_call) (f : event_objects -> event_objects) : M event_objects Z := fun s =>
  Ret (result c) (if result c =? 0 then f s else s).

Definition pthread_mutex_init := pthread MutexInit (fun s => mkObjects true (cond_attr s) (cond_clock s)).
(** The default clock of a condition variable is the realtime clock. *)
Definition pthread_condattr_init :=
  pthread CondattrInit (fun s => mkObjects (mutex_ready s) (Some CLOCK_REALTIME) (cond_clock s)).
Definition pthread_condattr_setclock (c : clockid) :=
  pthread CondattrSetclock (fun s => mkObjects (mutex_ready s) (Some c) (cond_clock s)).
Definition pthread_cond_init :=
  pthread CondInit (fun s => mkObjects (mutex_ready s) (cond_attr s) (cond_attr s)).
Definition pthread_condattr_destroy :=
  pthread CondattrDestroy (fun s => mkObjects (mutex_ready s) None (cond_clock s)).

(** [CxPlatEventInitialize]: the flags are those of [Event.CxPlatEventInitialize]. *)
Definition EventInitialize (ManualReset InitialState : bool) : M event_objects CXPLAT_EVENT :=
  let Event := CxPlatEventInitialize ManualReset InitialState in
  Result ← pthread_mutex_init;
  _ ← fre_assert (Result =? 0);
  Result ← pthread_condattr_init;
  _ ← fre_assert (Result =? 0);
  _ ← (if linux then
         Result ← pthread_condattr_setclock CLOCK_MONOTONIC;
         fre_assert (Result =? 0)
       else mret tt);
  Result ← pthread_cond_init;
  _ ← fre_assert (Result =? 0);
  Result ← pthread_condattr_destroy;
  _ ← fre_assert (Result =? 0);
  mret Event.

(** The clock of the deadlines: [clock_gettime(CLOCK_MONOTONIC)] on Linux, otherwise
    [timespec_get(TIME_UTC)]. *)
Definition deadline_clock : clockid := if linux then CLOCK_MONOTONIC else CLOCK_REALTIME.

(** The calls it makes. *)
Definition init_calls : list pthread_call :=
  [MutexInit; CondattrInit] ++ (if linux then [CondattrSetclock] else []) ++ [CondInit; CondattrDestroy].

(** Initialization returns exactly when all its calls succeed; mutex and condition
    are then initialized, the attributes are released, and the condition waits
    on the clock the deadlines are computed from. *)
Theorem event_initialize ManualReset InitialState :
  EventInitialize ManualReset InitialState no_objects =
    if forallb (fun c => result c =? 0) init_calls
    then Ret (CxPlatEventInitialize ManualReset InitialState) (mkObjects true None (Some deadline_clock))
    else Stop AssertFailed.
Proof.
  unfold EventInitialize, init_calls, deadline_clock, pthread_mutex_init, pthread_condattr_init,
    pthread_condattr_setclock, pthread_cond_init, pthread_condattr_destroy, pthread, mbind, M_bind.
  destruct linux; cbn;
    repeat match goal with
           | |- context [result ?c =? 0] => destruct (result c =? 0); cbn; try reflexivity
           end.
Qed.
End Initialize.

(** ** Waits with clocks *)

(** Readings in nanoseconds; they stay below 2^42 seconds. *)
Record clocks := mkClocks { mono : Z; real : Z }.

Definition reading (c : clockid) (cs : clocks) : Z :=
  match c with CLOCK_MONOTONIC => mono cs | CLOCK_REALTIME => real cs end.

Definition clock_ok (z : Z) : bool := (0 <=? z) && (z <? 2 ^ 42 * CXPLAT_NANOSEC_PER_SEC).

Definition timespec_of (z : Z) : timespec :=
  mkTimespec (z / CXPLAT_NANOSEC_PER_SEC) (z mod CXPLAT_NANOSEC_PER_SEC).

(** What a thread inside a timed wait remembers: it was called when the clock read
    [called]; then it read [now] and computed its deadline [Ts]. *)
Inductive timing :=
  | Entering (called TimeoutMs : Z)
  | Armed (called TimeoutMs now : Z) (Ts : timespec).

Record tworld := mkTimed {
  base : world;
  cond : clockid;                 (** the clock of the condition variable *)
  time : clocks;
  waits : gmap nat timing
}.

Inductive tlabel :=
  | TCall (t : nat) (TimeoutMs : Z)   (** an idle thread calls the timed wait *)
  | TClock (t : nat)                  (** it computes its deadline *)
  | TBase (l : label)                 (** any other step of [Event] *)
  | TPass (d : Z)                     (** [d] nanoseconds pass *)
  | TSet (z : Z).                     (** the realtime clock is set *)

Section Timed.
Variable linux debug : bool.

(** The steps of [Event] a thread may take: it computes its deadline first, and
    [pthread_cond_timedwait] gives up when the clock of the condition has
    reached it. *)
Definition allowed (w : tworld) (l : label) : bool :=
  match l with
  | Start _ OpWaitWithTimeout => false
  | Start _ _ | Spurious _ => true
  | Run t => match waits w !! t with Some (Entering _ _) => false | _ => true end
  | Deadline t =>
      match waits w !! t with
      | Some (Armed _ _ _ Ts) => nanoseconds Ts <=? reading (cond w) (time w)
      | _ => false
      end
  end.

Definition tstep (w : tworld) (l : tlabel) : option tworld :=
  match l with
  | TCall t TimeoutMs =>
      if debug && (TimeoutMs =? 2 ^ 32 - 1) then None       (** the assertion stops the process *)
      else if (0 <=? TimeoutMs) && (TimeoutMs <? 2 ^ 32) then
        b ← step (base w) (Start t OpWaitWithTimeout);
        Some (mkTimed b (cond w) (time w)
                (<[t := Entering (reading (deadline_clock linux) (time w)) TimeoutMs]> (waits w)))
      else None
  | TClock t =>
      match waits w !! t with
      | Some (Entering called TimeoutMs) =>
          let now := reading (deadline_clock linux) (time w) in
          Ts ← CxPlatGetAbsoluteTime TimeoutMs (timespec_of now);
          Some (mkTimed (base w) (cond w) (time w) (<[t := Armed called TimeoutMs now Ts]> (waits w)))
      | _ => None
      end
  | TBase l =>
      if allowed w l then b ← step (base w) l; Some (mkTimed b (cond w) (time w) (waits w)) else None
  | TPass d =>
      if (0 <? d) && clock_ok (mono (time w) + d) && clock_ok (real (time w) + d)
      then Some (mkTimed (base w) (cond w) (mkClocks (mono (time w) + d) (real (time w) + d)) (waits w))
      else None
  | TSet z =>
      if clock_ok z then Some (mkTimed (base w) (cond w) (mkClocks (mono (time w)) z) (waits w)) else None
  end.

Fixpoint trun (w : tworld) (ls : list tlabel) : option tworld :=
  match ls with
  | [] => Some w
  | l :: ls => w' ← tstep w l; trun w' ls
  end.

(** [n] idle threads and a new event. *)
Definition tinitial (n : nat) (e : CXPLAT_EVENT) (c : clockid) (cs : clocks) : tworld :=
  mkTimed (mkWorld e (replicate n Idle) []) c cs ∅.

(** ** The invariant *)

Definition in_timed (p : pc) : bool :=
  match p with
  | Wait_lock true | Wait_check true | Wait_cond true | Wait_blocked true | Wait_wake true _
  | Wait_take true | Wait_unlock true _ => true
  | _ => false
  end.

(** The wait has given up: it returns FALSE. *)
Definition given_up (p : pc) : bool :=
  match p with Wait_wake true true | Wait_unlock true false => true | _ => false end.

(** What is known of a thread at [p]; the monotonic clock of Linux also tells
    how long it has been there. *)
Definition timing_ok (m : Z) (p : pc) (x : option timing) : Prop :=
  match x with
  | Some (Entering called ms) =>
      p = Wait_lock true /\ is_u 32 ms /\ (linux = true -> called <= m)
  | Some (Armed called ms now Ts) =>
      nanoseconds Ts = now + ms * CXPLAT_NANOSEC_PER_MS /\
      (linux = true -> called <= now <= m /\ (given_up p = true -> nanoseconds Ts <= m))
  | None => False
  end.

Record TInv (w : tworld) : Prop := {
  ti_cond : cond w = deadline_clock linux;
  ti_mono : clock_ok (mono (time w)) = true;
  ti_real : clock_ok (real (time w)) = true;
  ti_threads t p : threads (base w) !! t = Some p -> in_timed p = true -> timing_ok (mono (time w)) p (waits w !! t);
  ti_forever t : threads (base w) !! t <> Some (Wait_unlock false false)
}.

Lemma timespec_of_ok z : clock_ok z = true -> normalised (timespec_of z) /\ nanoseconds (timespec_of z) = z.
Proof.
  unfold clock_ok, normalised, nanoseconds, timespec_of. cbn [tv_sec tv_nsec].
  unfold CXPLAT_NANOSEC_PER_SEC. intros [H1%Z.leb_le H2%Z.ltb_lt]%andb_true_iff.
  pose proof (Z.mod_pos_bound z 1000000000 ltac:(lia)). pose proof (Z.div_mod z 1000000000 ltac:(lia)).
  assert (0 <= z / 1000000000) by (apply Z.div_pos; lia). lia.
Qed.

(** A statement neither enters a timed wait nor makes one give up. *)
Lemma thread_step_timed t p e e' bc p' es :
  thread_step t p e = Some (e', bc, p', es) ->
  (in_timed p' = true -> in_timed p = true) /\ (given_up p' = true -> given_up p = true) /\
  (p' = Wait_unlock false false -> False) /\
  (es = [Return t false] -> p = Wait_unlock true false \/ p = Wait_unlock false false).
Proof.
  intros Hs. destruct p as [| | | | | | | |[]|[]|[]|[]|[] []|[]|[] []]; cbn in Hs;
    repeat first [ match type of Hs with context [match ?x with _ => _ end] => destruct x end
                 | progress simplify_option_eq ]; try done;
    split_and!; intros; try done; try (by left); try (by right); simplify_eq.
Qed.

Lemma wake_timed p : in_timed (wake p) = in_timed p.
Proof. by destruct p as [| | | | | | | |[]|[]|[]|[]|[] []|[]|[] []]. Qed.

Lemma wake_given_up p : given_up (wake p) = given_up p.
Proof. by destruct p as [| | | | | | | |[]|[]|[]|[]|[] []|[]|[] []]. Qed.

Lemma wake_unlock p b r : wake p = Wait_unlock b r -> p = Wait_unlock b r.
Proof. by destruct p. Qed.

(** Time passes and the thread moves on, but not to giving up. *)
Lemma timing_ok_later m m' p p' x :
  timing_ok m p x -> m <= m' -> (given_up p' = true -> given_up p = true) ->
  (p = Wait_lock true -> p' = Wait_lock true \/ forall c ms, x <> Some (Entering c ms)) ->
  timing_ok m' p' x.
Proof.
  intros Hok Hle Hg Hp. destruct x as [[c ms|c ms now Ts]|]; [| |done]; cbn in *.
  - destruct Hok as (-> & Hms & Hc). destruct (Hp eq_refl) as [->|Hx]; [|by edestruct Hx].
    split_and!; [done|done|]. intros Hl. specialize (Hc Hl). lia.
  - destruct Hok as [Ht Hc]. split; [done|]. intros Hl. destruct (Hc Hl) as [Hn Hu]. split; [lia|].
    intros Hp'. specialize (Hu (Hg Hp')). lia.
Qed.

(** What a step of the event does to one thread. *)
Inductive moved (w : world) (l : label) (t : nat) (p : pc) : pc -> Prop :=
  | moved_not : moved w l t p p
  | moved_woken : moved w l t p (wake p)
  | moved_started o : l = Start t o -> p = Idle -> moved w l t p (start_pc o)
  | moved_ran e' bc p' es : l = Run t -> thread_step t p (ev w) = Some (e', bc, p', es) -> moved w l t p p'
  | moved_late : l = Deadline t -> p = Wait_blocked true -> moved w l t p (Wait_wake true true).

Lemma base_moved w l b t p' :
  step w l = Some b -> threads b !! t = Some p' -> exists p, threads w !! t = Some p /\ moved w l t p p'.
Proof.
  intros Hs Hp. destruct l as [u o|u|u|u]; cbn [step] in Hs;
    destruct (threads w !! u) as [q|] eqn:Eq; cbn in Hs; try done.
  2:{ destruct (thread_step u q (ev w)) as [[[[e' bc] q'] es]|] eqn:Es; cbn in Hs; [|done]. injection Hs as <-.
      apply lookup_moved in Hp as [(-> & -> & _)|(Hne & p1 & E1 & ->)]; [exists q; split; [done|by eapply moved_ran]|].
      exists p1. split; [done|]. destruct bc; constructor. }
  all: destruct q; try done; try (destruct timed; [|try done]); injection Hs as <-; cbn in Hp;
    apply list_lookup_insert_Some in Hp as [(-> & <- & _)|(Hne & Hp)];
    try (exists p'; split; [done|constructor]); (eexists; split; [done|]).
  - by apply moved_started.
  - apply (moved_woken w _ _ (Wait_blocked true)).
  - apply (moved_woken w _ _ (Wait_blocked false)).
  - by apply moved_late.
Qed.

Lemma base_inv w l b :
  TInv w -> allowed w l = true -> step (base w) l = Some b -> TInv (mkTimed b (cond w) (time w) (waits w)).
Proof.
  intros [Hcd Hm Hr Ht Hf] Ha Hs. split; cbn [cond time base waits]; [done..| |].
  - intros t p' Hp' Hin. destruct (base_moved _ _ _ _ _ Hs Hp') as (p & Hp & Hmv).
    revert Hin Hp'. destruct Hmv as [| |o -> ->|e' bc q es -> Es| -> ->]; intros Hin Hp'.
    + by apply Ht.
    + rewrite wake_timed in Hin. apply (timing_ok_later (mono (time w)) _ p); [by apply Ht|lia|by rewrite wake_given_up|].
      intros ->. by left.
    + by destruct o.
    + destruct (thread_step_timed _ _ _ _ _ _ _ Es) as (H1 & Hg & _ & _).
      apply (timing_ok_later (mono (time w)) _ p); [by apply Ht, H1|lia|done|]. intros ->. right. intros c ms Hx.
      cbn in Ha. by rewrite Hx in Ha.
    + specialize (Ht t _ Hp eq_refl). cbn in Ha. destruct (waits w !! t) as [[]|]; [done| |done].
      destruct Ht as [Ht Hc]. split; [done|]. intros Hl. split; [by apply Hc|]. intros _.
      apply Z.leb_le in Ha. rewrite Hcd in Ha. unfold deadline_clock in Ha. by rewrite Hl in Ha.
  - intros t Hp'. destruct (base_moved _ _ _ _ _ Hs Hp') as (p & Hp & Hmv).
    inversion Hmv as [E|E|o _ -> E|e' bc q es -> Es E|]; subst; try done.
    + by eapply Hf.
    + apply (Hf t). by rewrite Hp, (wake_unlock _ _ _ E).
    + by destruct o.
    + by destruct (thread_step_timed _ _ _ _ _ _ _ Es) as (_ & _ & H3 & _).
Qed.

Lemma tstep_inv w l w' : TInv w -> tstep w l = Some w' -> TInv w'.
Proof.
  intros HI Hs. pose proof HI as [Hcd Hm Hr Ht Hf]. destruct l as [t ms|t|l|d|z]; cbn [tstep] in Hs.
  - destruct (debug && _); [done|]. destruct ((0 <=? ms) && (ms <? 2 ^ 32)) eqn:Hms; [|done].
    apply andb_true_iff in Hms as [H1%Z.leb_le H2%Z.ltb_lt].
    destruct (step (base w) (Start t OpWaitWithTimeout)) as [b|] eqn:Es; cbn in Hs; [|done]. injection Hs as <-.
    split; cbn [cond time base waits]; [done..| |].
    + intros u p' Hp' Hin. destruct (base_moved _ _ _ _ _ Es Hp') as (p & Hp & Hmv). destruct (decide (u = t)) as [->|Hne].
      * rewrite lookup_insert_eq. cbn in Es. rewrite Hp in Es. destruct p; try done.
        injection Es as <-. cbn in Hp'. rewrite list_lookup_insert_eq in Hp' by (by eapply lookup_lt_Some).
        injection Hp' as <-. split; [done|]. split; [done|]. intros Hl. unfold deadline_clock. rewrite Hl. cbn. lia.
      * rewrite lookup_insert_ne by done. inversion Hmv; simplify_eq; try done; [by apply Ht|].
        rewrite wake_timed in Hin. apply (timing_ok_later (mono (time w)) _ p); [by apply Ht|lia|by rewrite wake_given_up|].
        intros ->. by left.
    + intros u Hp'. destruct (base_moved _ _ _ _ _ Es Hp') as (p & Hp & Hmv).
      inversion Hmv as [E|E|o El _ E|e' bc q es El _ E|]; simplify_eq; [by eapply Hf|].
      apply (Hf u). by rewrite Hp, (wake_unlock _ _ _ E).
  - destruct (waits w !! t) as [[c ms|]|] eqn:Hw; [|done..].
    destruct (CxPlatGetAbsoluteTime ms _) as [Ts|] eqn:Ets; cbn in Hs; [|done]. injection Hs as <-.
    split; cbn [cond time base waits]; [done..| |done]. intros u p Hp Hin. specialize (Ht u p Hp Hin).
    destruct (decide (u = t)) as [->|Hne]; [|by rewrite lookup_insert_ne].
    rewrite lookup_insert_eq. rewrite Hw in Ht. destruct Ht as (-> & Hms & Hc).
    assert (clock_ok (reading (deadline_clock linux) (time w)) = true) as Hck by (by destruct linux).
    destruct (timespec_of_ok _ Hck) as [Hnorm Hval].
    destruct (absolute_time_exact ms _ Hms Hnorm) as (Ts' & ETs & Hns & _). rewrite Ets in ETs. injection ETs as <-.
    split; [by rewrite Hns, Hval|]. intros Hl. specialize (Hc Hl). unfold deadline_clock. rewrite Hl. cbn. split; [lia|done].
  - destruct (allowed w l) eqn:Ha; [|done]. destruct (step (base w) l) as [b|] eqn:Es; cbn in Hs; [|done].
    injection Hs as <-. by apply (base_inv w l).
  - destruct ((0 <? d) && _ && _) eqn:Hd; [|done]. injection Hs as <-. rewrite !andb_true_iff, Z.ltb_lt in Hd.
    destruct Hd as [[Hd H1] H2]. split; cbn [cond time base waits mono real]; [done..| |done].
    intros u p Hp Hin. apply (timing_ok_later (mono (time w)) _ p); [by apply Ht|cbn; lia|done|]. intros ->. by left.
  - destruct (clock_ok z) eqn:Hz; [|done]. injection Hs as <-. split; cbn [cond time base waits mono real]; [done..| |done].
    intros u p Hp Hin. apply (timing_ok_later (mono (time w)) _ p); [by apply Ht|cbn; lia|done|]. intros ->. by left.
Qed.
Lemma trun_inv w ls w' :
  TInv w -> trun w ls = Some w' -> TInv w' /\ cond w' = cond w /\ exists ls', run (base w) ls' = Some (base w').
Proof.
  induction ls as [|l ls IH] in w |- *; cbn [trun]; intros HI Hr.
  - injection Hr as <-. split_and!; [done|done|by exists []].
  - destruct (tstep w l) as [w1|] eqn:E; cbn in Hr; [|done].
    destruct (IH w1 (tstep_inv _ _ _ HI E) Hr) as (HI' & Hc' & ls' & Hls'). split; [done|].
    assert (cond w1 = cond w /\ exists k, run (base w) k = Some (base w1)) as [Hc1 [k Hk]].
    { destruct l as [t ms|t|l|d|z]; cbn [tstep] in E; repeat case_match; try done.
      - destruct (step (base w) (Start t OpWaitWithTimeout)) as [b|] eqn:Es; cbn in E; [|done]. injection E as <-.
        split; [done|]. exists [Start t OpWaitWithTimeout]. cbn [run]. by rewrite Es.
      - destruct (CxPlatGetAbsoluteTime _ _); cbn in E; [|done]. injection E as <-. split; [done|by exists []].
      - destruct (step (base w) l) as [b|] eqn:Es; cbn in E; [|done]. injection E as <-.
        split; [done|]. exists [l]. cbn [run]. by rewrite Es.
      - injection E as <-. split; [done|by exists []].
      - injection E as <-. split; [done|by exists []]. }
    split; [congruence|]. exists (k ++ ls'). clear -Hk Hls'. revert Hk. generalize (base w).
    induction k as [|x k IHk]; intros b Hb; cbn [run app] in *; [congruence|].
    destruct (step b x); cbn in *; [by apply IHk|done].
Qed.

Lemma tinitial_inv n e c cs :
  c = deadline_clock linux -> clock_ok (mono cs) = true -> clock_ok (real cs) = true -> TInv (tinitial n e c cs).
Proof.
  intros -> Hm Hr. split; cbn; [done..| |].
  - intros t p [-> _]%lookup_replicate. done.
  - intros t [E _]%lookup_replicate. done.
Qed.
End Timed.

(** C18: how long timed waits on a POSIX event take.  An event is initialized and used
    by any number of threads, in any interleaving, while time passes and the
    realtime clock may be set.  Every run is one of the event without clocks, so
    what [EventTheorems] shows holds of it.  A blocked timed wait can give up
    exactly when the clock has advanced by its timeout since the reading it took
    when it was called.  On Linux a wait that returns FALSE was called at least
    its timeout ago, whatever happens to the realtime clock. *)
Theorem posix_wait_timing `{!Pthread} linux debug n ManualReset InitialState e objs c cs ls w :
  EventInitialize linux ManualReset InitialState no_objects = Ret e objs -> cond_clock objs = Some c ->
  clock_ok (mono cs) = true -> clock_ok (real cs) = true ->
  trun linux debug (tinitial n e c cs) ls = Some w ->
  (exists ls', run (initial n ManualReset InitialState) ls' = Some (base w)) /\
  (forall t, threads (base w) !! t = Some (Wait_blocked true) ->
     exists called ms now Ts, waits w !! t = Some (Armed called ms now Ts) /\
       (linux = true -> called <= now <= mono (time w)) /\
       (tstep linux debug w (TBase (Deadline t)) <> None <->
          now + ms * CXPLAT_NANOSEC_PER_MS <= reading (deadline_clock linux) (time w))) /\
  (linux = true -> forall t b, step (base w) (Run t) = Some b -> log b = log (base w) ++ [Return t false] ->
     exists called ms now Ts, waits w !! t = Some (Armed called ms now Ts) /\
       called + ms * CXPLAT_NANOSEC_PER_MS <= mono (time w)).
Proof.
  intros Hi Hc Hm Hr Hrun. rewrite event_initialize in Hi. destruct (forallb _ _); [|done].
  injection Hi as <- <-. injection Hc as <-.
  destruct (trun_inv linux debug _ _ _ (tinitial_inv linux n _ _ cs eq_refl Hm Hr) Hrun) as (HI & Hcd & Href).
  destruct HI as [Hcond _ _ Ht Hf]. split_and!.
  - exact Href.
  - intros t Hp. pose proof (Ht t _ Hp eq_refl) as Hok. cbn [tstep allowed].
    destruct (waits w !! t) as [[|called ms now Ts]|]; [by destruct Hok| |done].
    destruct Hok as [Hns Hl]. exists called, ms, now, Ts. split; [done|]. split; [intros Hx; by apply Hl|].
    rewrite Hns, Hcond. destruct (Z.leb_spec (now + ms * CXPLAT_NANOSEC_PER_MS) (reading (deadline_clock linux) (time w))).
    + cbn [step]. rewrite Hp. by split.
    + split; [done|lia].
  - intros Hl t b Hs Hlog. cbn [step] in Hs. destruct (threads (base w) !! t) as [p|] eqn:Hp; cbn in Hs; [|done].
    destruct (thread_step t p (ev (base w))) as [[[[e' bc] p'] es]|] eqn:Es; cbn in Hs; [|done]. injection Hs as <-.
    cbn [log] in Hlog. apply app_inv_head in Hlog.
    destruct (thread_step_timed _ _ _ _ _ _ _ Es) as (_ & _ & _ & Hret).
    destruct (Hret Hlog) as [-> | ->]; [|by edestruct Hf].
    pose proof (Ht t _ Hp eq_refl) as Hok. destruct (waits w !! t) as [[|called ms now Ts]|]; [by destruct Hok| |done].
    destruct Hok as [Hns Hx]. destruct (Hx Hl) as [Hle Hg]. specialize (Hg eq_refl).
    exists called, ms, now, Ts. split; [done|]. lia.
Qed.

(** ** Concrete runs *)

(** All pthread calls succeed. *)
Definition working : Pthread := {| result := fun _ => 0 |}.

(** A wait of 20 ms on an event nobody sets, up to the statement that returns. *)
Definition lonely_wait (d : Z) : list tlabel :=
  [TCall 0 20; TClock 0; TBase (Run 0); TBase (Run 0); TBase (Run 0); TPass d; TBase (Deadline 0); TBase (Run 0)].

Definition noon : clocks := mkClocks 5000000000 1700000000000000000.

Lemma posix_wait_timing_witness :
  exists w b, trun true true (tinitial 1 (CxPlatEventInitialize false false) CLOCK_MONOTONIC noon) (lonely_wait 20000000) = Some w /\
    step (base w) (Run 0) = Some b /\ log b = log (base w) ++ [Return 0 false] /\
    exists called ms now Ts, waits w !! 0%nat = Some (Armed called ms now Ts) /\
      called + ms * CXPLAT_NANOSEC_PER_MS <= mono (time w).
Proof.
  pose proof (posix_wait_timing (H := working) true true 1 false false (CxPlatEventInitialize false false)
    (mkObjects true None (Some CLOCK_MONOTONIC)) CLOCK_MONOTONIC noon (lonely_wait 20000000)) as Hw.
  destruct (trun _ _ _ _) as [w|] eqn:E in Hw |- *; [|exfalso; vm_compute in E; discriminate E].
  destruct (Hw w) as (_ & _ & Hret); [vm_compute; reflexivity|reflexivity|vm_compute; reflexivity..|].
  destruct (step (base w) (Run 0)) as [b|] eqn:Es; [|exfalso; vm_compute in E; injection E as <-; vm_compute in Es; discriminate Es].
  assert (log b = log (base w) ++ [Return 0 false]) as Hlog
    by (vm_compute in E; injection E as <-; vm_compute in Es; injection Es as <-; reflexivity).
  exists w, b. split; [reflexivity|]. split; [exact Es|]. split; [exact Hlog|].
  exact (Hret eq_refl 0%nat b Es Hlog).
Defined.

(** On Linux a wait does not end before its time. *)
Example wait_too_early :
  trun true true (tinitial 1 (CxPlatEventInitialize false false) CLOCK_MONOTONIC noon) (lonely_wait 19999999) = None.
Proof. vm_compute. reflexivity. Qed.

(** Elsewhere it follows the realtime clock: if that is set forward, a wait returns
    FALSE although no time has passed; if it is set back, the wait is prolonged. *)
Theorem wall_clock_waits :
  (exists w b, trun false true (tinitial 1 (CxPlatEventInitialize false false) CLOCK_REALTIME noon)
       [TCall 0 20; TClock 0; TBase (Run 0); TBase (Run 0); TBase (Run 0);
        TSet (real noon + 20000000); TBase (Deadline 0); TBase (Run 0)] = Some w /\
     mono (time w) = mono noon /\ step (base w) (Run 0) = Some b /\ log b = log (base w) ++ [Return 0 false]) /\
  (exists w, trun false true (tinitial 1 (CxPlatEventInitialize false false) CLOCK_REALTIME noon)
       [TCall 0 20; TClock 0; TBase (Run 0); TBase (Run 0); TBase (Run 0); TSet 0; TPass 20000000] = Some w /\
     mono (time w) = mono noon + 20000000 /\ tstep false true w (TBase (Deadline 0)) = None).
Proof.
  split.
  - eexists _, _. split; [vm_compute; reflexivity|]. split; [reflexivity|]. split; [vm_compute; reflexivity|reflexivity].
  - eexists. split; [vm_compute; reflexivity|]. split; [reflexivity|vm_compute; reflexivity].
Qed.
