(* ===== verification/WinEvent.v ===== *)
(** * Events and thread waits on Windows (inc/cxplat_winuser.h, cxplat_winkernel.h)

    In user mode [CXPLAT_EVENT] is a handle of an event object, in the kernel it
    is the event object itself; both are served by the same dispatcher, and so
    are the waits for threads.  The wrappers are translated to the system call
    they make, with its timeout in 100 ns units, and to what they make of its
    result.  Threads call the wrappers in any order; a call is served when the
    dispatcher gets to it, and a clock tells when a timeout has passed. *)

From S2P Require Import Prelude TimeConv Event.

(** ** The dispatcher *)

(** [NotificationEvent] stays signaled, [SynchronizationEvent] lets one wait through. *)
Inductive EVENT_TYPE := NotificationEvent | SynchronizationEvent.

#[export] Instance EVENT_TYPE_eq_dec : EqDecision EVENT_TYPE.
Proof. solve_decision. Defined.

Record KEVENT := mkKEvent { Type_ : EVENT_TYPE; State : bool }.

#[export] Instance KEVENT_eq_dec : EqDecision KEVENT.
Proof. solve_decision. Defined.

Definition STATUS_SUCCESS : Z := 0.
Definition STATUS_TIMEOUT : Z := 0x102.
Definition WAIT_OBJECT_0 : Z := 0.
Definition WAIT_TIMEOUT : Z := 0x102.
Definition WAIT_FAILED : Z := 0xFFFFFFFF.
Definition INFINITE : Z := 0xFFFFFFFF.
Definition UINT32_MAX : Z := 0xFFFFFFFF.

(** A system call; a wait has a limit in 100 ns, or none. *)
Inductive syscall := SysSet | SysReset | SysWait (limit : option Z).

(** What a call that can be served now does: the event after it and the result. *)
Definition serve (c : syscall) (e : KEVENT) : option (KEVENT * Z) :=
  match c with
  | SysSet => Some (mkKEvent (Type_ e) true, 0)
  | SysReset => Some (mkKEvent (Type_ e) false, 0)
  | SysWait _ =>
      if State e
      then Some (match Type_ e with NotificationEvent => e | SynchronizationEvent => mkKEvent (Type_ e) false end,
                 STATUS_SUCCESS)
      else None
  end.

(** The calls the wrappers make.  [KeWaitForSingleObject] takes an optional
    due time: negative is relative, positive an absolute time, which [now] turns
    into what is left of it; [WaitForSingleObject] takes milliseconds. *)
Definition KeWaitForSingleObject (now : Z) (Timeout : option Z) : syscall :=
  SysWait (t ← Timeout; Some (if t <=? 0 then - t else Z.max 0 (t - now))).

Definition WaitForSingleObject (dwMilliseconds : Z) : syscall :=
  SysWait (if dwMilliseconds =? INFINITE then None else Some (dwMilliseconds * 10000)).

(** ** The wrappers *)

(** A wrapper makes a system call and computes its result from the call's, or
    stops at a debug assertion ([None]).  Results are booleans; those of the
    operations that return nothing are true. *)
Definition wrapped : Type := option (syscall * (Z -> bool)).

Definition dbg_guard (debug ok : bool) (w : syscall * (Z -> bool)) : wrapped :=
  if debug && negb ok then None else Some w.

Inductive call := CSet | CReset | CWaitForever | CWaitWithTimeout (TimeoutMs : Z).

Module User.
Definition CxPlatEventInitialize (debug ManualReset InitialState created : bool) : option (option KEVENT) :=
  let Event := if created
               then Some (mkKEvent (if ManualReset then NotificationEvent else SynchronizationEvent) InitialState)
               else None in
  if debug && bool_decide (Event = None) then None else Some Event.

Definition CxPlatEventSet : wrapped := Some (SysSet, fun _ => true).
Definition CxPlatEventReset : wrapped := Some (SysReset, fun _ => true).
Definition CxPlatEventWaitForever : wrapped := Some (WaitForSingleObject INFINITE, fun _ => true).
Definition CxPlatEventWaitWithTimeout (debug : bool) (TimeoutMs : Z) : wrapped :=
  dbg_guard debug (negb (TimeoutMs =? UINT32_MAX))
    (WaitForSingleObject TimeoutMs, fun rc => WAIT_OBJECT_0 =? rc).

Definition CxPlatThreadWaitForever : wrapped := Some (WaitForSingleObject INFINITE, fun _ => true).
Definition CxPlatThreadWaitWithTimeout (debug : bool) (TimeoutMs : Z) : wrapped :=
  dbg_guard debug (negb (TimeoutMs =? UINT32_MAX))
    (WaitForSingleObject TimeoutMs, fun rc => WAIT_OBJECT_0 =? rc).
End User.

Module Kernel.
Section Wrappers.
Context `{!WinSdk}.

Definition CxPlatEventInitialize (ManualReset InitialState : bool) : KEVENT :=
  mkKEvent (if ManualReset then NotificationEvent else SynchronizationEvent) InitialState.

Definition CxPlatEventSet : wrapped := Some (SysSet, fun _ => true).
Definition CxPlatEventReset : wrapped := Some (SysReset, fun _ => true).
Definition CxPlatEventWaitForever (now : Z) : wrapped := Some (KeWaitForSingleObject now None, fun _ => true).

Definition CxPlatInternalEventWaitWithTimeout (debug : bool) (now TimeoutMs : Z) : option syscall :=
  if debug && (TimeoutMs =? UINT32_MAX) then None
  else Some (KeWaitForSingleObject now (Some (Timeout100Ns TimeoutMs))).

Definition CxPlatEventWaitWithTimeout (debug : bool) (now TimeoutMs : Z) : wrapped :=
  c ← CxPlatInternalEventWaitWithTimeout debug now TimeoutMs;
  Some (c, fun rc => STATUS_SUCCESS =? rc).

Definition CxPlatThreadWaitForever (now : Z) : wrapped := Some (KeWaitForSingleObject now None, fun _ => true).

Definition CxPlatInternalThreadWaitWithTimeout (debug : bool) (now TimeoutMs : Z) : option syscall :=
  if debug && (TimeoutMs =? UINT32_MAX) then None
  else Some (KeWaitForSingleObject now (Some (Timeout100Ns TimeoutMs))).

Definition CxPlatThreadWaitWithTimeout (debug : bool) (now TimeoutMs : Z) : wrapped :=
  c ← CxPlatInternalThreadWaitWithTimeout debug now TimeoutMs;
  Some (c, fun rc => STATUS_SUCCESS =? rc).
End Wrappers.
End Kernel.

(** ** Runs *)

(** The platform: kernel or user mode, a debug build or not. *)
Record target := mkTarget { kernel_mode : bool; debug_build : bool }.

(** The event after initialization; [None] in the result: the program stopped;
    a null handle: [CreateEvent] failed. *)
Definition initialize (p : target) (ManualReset InitialState created : bool) : option (option KEVENT) :=
  if kernel_mode p then Some (Some (Kernel.CxPlatEventInitialize ManualReset InitialState))
  else User.CxPlatEventInitialize (debug_build p) ManualReset InitialState created.

Section Runs.
Context `{!WinSdk}.
Variable p : target.

Definition wrapper (now : Z) (c : call) : wrapped :=
  match c with
  | CSet => if kernel_mode p then Kernel.CxPlatEventSet else User.CxPlatEventSet
  | CReset => if kernel_mode p then Kernel.CxPlatEventReset else User.CxPlatEventReset
  | CWaitForever =>
      if kernel_mode p then Kernel.CxPlatEventWaitForever now else User.CxPlatEventWaitForever
  | CWaitWithTimeout ms =>
      if kernel_mode p then Kernel.CxPlatEventWaitWithTimeout (debug_build p) now ms
      else User.CxPlatEventWaitWithTimeout (debug_build p) ms
  end.

(** A thread is idle, or in a call since a time; [finish] is the rest of the wrapper. *)
Inductive wpc := WIdle | Pending (c : call) (s : syscall) (finish : Z -> bool) (since : Z).

Record wworld := mkWWorld {
  obj : option KEVENT; wthreads : list wpc; clock : Z; wlog : list entry
}.

Definition op_of (c : call) : op :=
  match c with
  | CSet => OpSet | CReset => OpReset
  | CWaitForever => OpWaitForever | CWaitWithTimeout _ => OpWaitWithTimeout
  end.

Definition effect_of (s : syscall) (rc : Z) : effect :=
  match s with SysSet => ESet | SysReset => EReset | SysWait _ => EWait (rc =? STATUS_SUCCESS) end.

(** What a null handle answers: the wait fails, the others return FALSE. *)
Definition null_result (s : syscall) : Z := match s with SysWait _ => WAIT_FAILED | _ => 0 end.

Inductive wlabel := WStart (t : nat) (c : call) | Serve (t : nat) | Expire (t : nat) | Tick (d : Z).

Definition wstep (w : wworld) (l : wlabel) : option wworld :=
  match l with
  | WStart t c =>
      match wthreads w !! t with
      | Some WIdle =>
          '(s, k) ← wrapper (clock w) c;
          Some (mkWWorld (obj w) (<[t := Pending c s k (clock w)]> (wthreads w)) (clock w)
                  (wlog w ++ [Call t (op_of c)]))
      | _ => None
      end
  | Serve t =>
      match wthreads w !! t with
      | Some (Pending c s k _) =>
          match obj w with
          | None =>
              Some (mkWWorld None (<[t := WIdle]> (wthreads w)) (clock w)
                      (wlog w ++ [Return t (k (null_result s))]))
          | Some e =>
              '(e', rc) ← serve s e;
              Some (mkWWorld (Some e') (<[t := WIdle]> (wthreads w)) (clock w)
                      (wlog w ++ [Effect t (effect_of s rc); Return t (k rc)]))
          end
      | _ => None
      end
  | Expire t =>
      match wthreads w !! t, obj w with
      | Some (Pending c (SysWait (Some limit) as s) k since), Some _ =>
          if since + limit <=? clock w
          then Some (mkWWorld (obj w) (<[t := WIdle]> (wthreads w)) (clock w)
                       (wlog w ++ [Effect t (effect_of s STATUS_TIMEOUT); Return t (k STATUS_TIMEOUT)]))
          else None
      | _, _ => None
      end
  | Tick d => if 0 <? d then Some (mkWWorld (obj w) (wthreads w) (clock w + d) (wlog w)) else None
  end.

Fixpoint wrun (w : wworld) (ls : list wlabel) : option wworld :=
  match ls with
  | [] => Some w
  | l :: ls => w' ← wstep w l; wrun w' ls
  end.

Definition winitial (n : nat) (e : option KEVENT) : wworld :=
  mkWWorld e (replicate n WIdle) 0 [].
End Runs.

(** ** [CxPlatEvent] (inc/cxplat.hpp) *)

(** The constructors: without argument the event is reset by each wait; it is
    never signaled at first. *)
Definition CxPlatEvent (p : target) (ManualReset : option bool) (created : bool) : option (option KEVENT) :=
  initialize p (default false ManualReset) false created.

Inductive method := Set_ | Reset_ | WaitForever_ | WaitTimeout_ (TimeoutMs : Z).

Definition CxPlatEvent_method (m : method) : call :=
  match m with
  | Set_ => CSet | Reset_ => CReset | WaitForever_ => CWaitForever
  | WaitTimeout_ ms => CWaitWithTimeout ms
  end.
