(* ===== verification/WinEventTheorems.v ===== *)
(** * Theorems about the Windows events

    The wrappers of both Windows platforms implement the same atomic event as
    the POSIX code; a timed wait gives up exactly when its timeout has passed;
    and what happens after a failed [CreateEvent]. *)

From S2P Require Import Prelude TimeConv Event EventTheorems WinEvent.

Section WinEvents.
Context `{S : !WinSdk}.
Variable p : target.

(** ** The wrappers *)

(** The call a wrapper makes and what it makes of the result. *)
Definition wrapper_ok (c : call) (s : syscall) (k : Z -> bool) : Prop :=
  match c with
  | CSet => s = SysSet /\ forall rc, k rc = true
  | CReset => s = SysReset /\ forall rc, k rc = true
  | CWaitForever => s = SysWait None /\ forall rc, k rc = true
  | CWaitWithTimeout ms =>
      k STATUS_SUCCESS = true /\ k STATUS_TIMEOUT = false /\ k WAIT_FAILED = false /\
      exists limit, s = SysWait limit /\
        (is_u 32 ms -> limit = if negb (kernel_mode p) && (ms =? UINT32_MAX) then None else Some (ms * 10000))
  end.

Lemma kernel_limit now ms :
  is_u 32 ms -> KeWaitForSingleObject now (Some (Timeout100Ns ms)) = SysWait (Some (ms * 10000)).
Proof.
  intros Hm. destruct (kernel_timer_values ms Hm) as [-> _]. unfold KeWaitForSingleObject. cbn [mbind option_bind].
  unfold is_u in Hm. rewrite (proj2 (Z.leb_le _ _)) by lia. by rewrite Z.opp_involutive.
Qed.

Lemma wrapper_facts now c s k : wrapper p now c = Some (s, k) -> wrapper_ok c s k.
Proof.
  destruct c as [| | |ms]; unfold wrapper; destruct (kernel_mode p) eqn:Hkm; cbn;
    try (by intros [= <- <-]).
  - unfold Kernel.CxPlatEventWaitWithTimeout, Kernel.CxPlatInternalEventWaitWithTimeout.
    destruct (_ && _); [done|]. intros [= <- <-]. split_and!; try done. rewrite Hkm. eexists. split; [done|].
    intros Hm. apply (f_equal (fun s => match s with SysWait l => l | _ => None end) (kernel_limit now ms Hm)).
  - unfold User.CxPlatEventWaitWithTimeout, dbg_guard, WaitForSingleObject.
    destruct (_ && _); [done|]. intros [= <- <-]. split_and!; try done. rewrite Hkm. by eexists.
Qed.

(** ** Refinement *)

Definition wphase (q : wpc) : phase := match q with WIdle => Free | Pending c _ _ _ => Called (op_of c) end.

Definition pending_ok (now : Z) (q : wpc) : Prop :=
  match q with WIdle => True | Pending c s k since => wrapper_ok c s k /\ since <= now end.

Record WInv (ty : EVENT_TYPE) (b0 : bool) (w : wworld) : Prop := {
  winv_obj : exists e, obj w = Some e /\ Type_ e = ty /\
    spec_run (bool_decide (ty = SynchronizationEvent)) b0 (wlog w) = Some (State e);
  winv_thread t q : wthreads w !! t = Some q -> phase_run t (wlog w) = Some (wphase q) /\ pending_ok (clock w) q
}.

(** Entries of one thread do not change the phase of another. *)
Definition entry_thread (x : entry) : nat := match x with Call t _ | Effect t _ | Return t _ => t end.

Lemma phase_other t xs ys :
  Forall (fun y => entry_thread y <> t) ys -> phase_run t (xs ++ ys) = phase_run t xs.
Proof.
  rewrite phase_run_app. intros H. induction H as [|y ys Hy _ IH] in xs |- *; [done|]. cbn.
  assert (phase_entry t (phase_run t xs) y = phase_run t xs) as ->; [|apply IH].
  destruct (phase_run t xs); [|done]. destruct y; cbn in *; by rewrite (proj2 (Nat.eqb_neq _ _) Hy).
Qed.

Lemma phase_finish t xs o e r :
  phase_run t xs = Some (Called o) -> fits o e = Some r ->
  phase_run t (xs ++ [Effect t e; Return t r]) = Some Free.
Proof.
  intros Hx Hf. rewrite phase_run_app, Hx. cbn. rewrite Nat.eqb_refl. cbn. rewrite Hf. cbn.
  by rewrite eqb_reflx.
Qed.

(** A call that completes: the event takes the effect, the thread returns its
    result. *)
Lemma complete_inv ty b0 w t c s k since e' ef r :
  WInv ty b0 w -> wthreads w !! t = Some (Pending c s k since) ->
  fits (op_of c) ef = Some r -> Type_ e' = ty ->
  (forall b, spec_run (bool_decide (ty = SynchronizationEvent)) b0 (wlog w) = Some b ->
     obj w = Some (mkKEvent ty b) ->
     spec_step (bool_decide (ty = SynchronizationEvent)) b ef = Some (State e')) ->
  WInv ty b0 (mkWWorld (Some e') (<[t := WIdle]> (wthreads w)) (clock w) (wlog w ++ [Effect t ef; Return t r])).
Proof.
  intros [(e & Ho & Ht & Hs) Hth] Hl Hf Hty Hspec. split.
  - exists e'. split; [done|]. split; [done|]. cbn [wlog]. rewrite spec_run_app, Hs. cbn.
    apply Hspec; [done|]. rewrite Ho. destruct e; cbn in *; by subst.
  - intros u q. cbn [wthreads wlog clock]. rewrite list_lookup_insert_Some. intros [(<- & <- & _)|[Hne Hu]].
    + split; [|done]. apply (phase_finish _ _ (op_of c)); [|done]. by apply Hth in Hl as [? _].
    + rewrite phase_other; [by apply Hth|]. repeat constructor; cbn; congruence.
Qed.

(** A served call: its effect fits the call and the atomic event. *)
Lemma serve_fits c s k e e' rc :
  wrapper_ok c s k -> serve s e = Some (e', rc) ->
  fits (op_of c) (effect_of s rc) = Some (k rc) /\ Type_ e' = Type_ e /\
  spec_step (bool_decide (Type_ e = SynchronizationEvent)) (State e) (effect_of s rc) = Some (State e').
Proof.
  destruct c as [| | |ms]; cbn [wrapper_ok].
  1-2: intros [-> ->]; intros [= <- <-]; done.
  - intros [-> Hk]. cbn. destruct (State e) eqn:He; [|done]. intros [= <- <-]. rewrite Hk.
    by destruct e as [[] b]; cbn in *; subst.
  - intros (Hk & _ & _ & limit & -> & _). cbn. destruct (State e) eqn:He; [|done]. intros [= <- <-]. rewrite Hk.
    by destruct e as [[] b]; cbn in *; subst.
Qed.

Lemma wstep_inv ty b0 w l w' : WInv ty b0 w -> wstep p w l = Some w' -> WInv ty b0 w'.
Proof.
  intros I. destruct l as [t c|t|t|d]; cbn.
  - destruct (wthreads w !! t) as [[|]|] eqn:Hl; try done.
    destruct (wrapper p (clock w) c) as [[s k]|] eqn:Hw; [|done]. intros [= <-].
    destruct I as [(e & Ho & Ht & Hs) Hth]. split.
    + exists e. split; [done|]. split; [done|]. cbn [wlog]. by rewrite spec_run_app, Hs.
    + intros u q. cbn [wthreads wlog clock]. rewrite list_lookup_insert_Some. intros [(<- & <- & _)|[Hne Hu]].
      * split; [|split; [by eapply wrapper_facts|lia]]. rewrite phase_run_app.
        apply Hth in Hl as [-> _]. cbn. by rewrite Nat.eqb_refl.
      * rewrite phase_other; [by apply Hth|]. repeat constructor; cbn; congruence.
  - destruct (wthreads w !! t) as [[|c s k since]|] eqn:Hl; try done.
    destruct (winv_obj _ _ _ I) as (e & Ho & Ht & Hs). rewrite Ho.
    destruct (serve s e) as [[e' rc]|] eqn:Hsv; [|done]. intros [= <-].
    destruct (winv_thread _ _ _ I _ _ Hl) as [_ [Hok _]].
    destruct (serve_fits _ _ _ _ _ _ Hok Hsv) as (Hf & Hty & Hsp).
    eapply complete_inv; [done|done|done|congruence|]. intros b Hb Hob. rewrite Ho in Hob.
    injection Hob as ->. cbn in *. congruence.
  - destruct (wthreads w !! t) as [[|c [| |[limit|]] k since]|] eqn:Hl; try done.
    destruct (winv_obj _ _ _ I) as (e & Ho & Ht & Hs). rewrite Ho.
    destruct (_ <=? _); [|done]. intros [= <-]. destruct (winv_thread _ _ _ I _ _ Hl) as [_ [Hok _]].
    eapply complete_inv; [done|done| |done|].
    + destruct c as [| | |ms]; cbn in Hok; try (by destruct Hok). destruct Hok as (_ & -> & _). done.
    + intros b Hb Hob. rewrite Ho in Hob. by injection Hob as ->.
  - destruct (0 <? d) eqn:Hd; [|done]. intros [= <-]. destruct I as [Ho Hth]. split; [done|].
    intros t q Hl. apply Hth in Hl as [? Hp]. split; [done|]. cbn. destruct q; [done|]. cbn in *.
    split; [apply Hp|]. apply Z.ltb_lt in Hd. lia.
Qed.

Lemma wrun_inv ty b0 ls w w' : WInv ty b0 w -> wrun p w ls = Some w' -> WInv ty b0 w'.
Proof.
  induction ls as [|l ls IH] in w |- *; cbn; [by intros I [= <-]|].
  destruct (wstep p w l) as [w1|] eqn:Hs; [|done]. intros I. apply IH. by eapply wstep_inv.
Qed.

Definition type_of (ManualReset : bool) : EVENT_TYPE :=
  if ManualReset then NotificationEvent else SynchronizationEvent.

Lemma win_reachable_inv n ManualReset InitialState o ls w :
  initialize p ManualReset InitialState true = Some o -> wrun p (winitial n o) ls = Some w ->
  WInv (type_of ManualReset) InitialState w.
Proof.
  intros Hi. assert (o = Some (mkKEvent (type_of ManualReset) InitialState)) as ->.
  { revert Hi. unfold initialize, User.CxPlatEventInitialize. destruct (kernel_mode p); [by intros [= <-]|].
    rewrite bool_decide_false by done. rewrite andb_false_r. by intros [= <-]. }
  apply wrun_inv. split; [by eexists|]. intros t q Hl. apply lookup_replicate in Hl as [-> _]. done.
Qed.

(** ** Theorems *)

(** C6: the events of Windows refine the same specification as the POSIX event.
    In user and in kernel mode, in debug and in release builds, the effects of
    the calls are a legal history of an atomic event, whose state is that of the
    event object; and each call has exactly one effect, of the kind it asked
    for, and returns what that effect says (for a timed wait, whether it was
    satisfied). *)
Theorem win_event_refines n ManualReset InitialState o ls w :
  initialize p ManualReset InitialState true = Some o -> wrun p (winitial n o) ls = Some w ->
  (exists e, obj w = Some e /\ spec_run (negb ManualReset) InitialState (wlog w) = Some (State e)) /\
  forall t q, wthreads w !! t = Some q -> phase_run t (wlog w) = Some (wphase q).
Proof.
  intros Hi Hr. destruct (win_reachable_inv _ _ _ _ _ _ Hi Hr) as [(e & Ho & _ & Hs) Hth].
  split; [|intros t q Hl; by apply Hth]. exists e. split; [done|]. rewrite <- Hs. by destruct ManualReset.
Qed.

(** C38: a timed wait on a Windows event fails exactly when its timeout is over.
    A waiting thread can give up if and only if [TimeoutMs] milliseconds have
    passed since its call, and then returns FALSE; the one exception is
    UINT32_MAX in user-mode release builds, which never gives up, where the
    kernel does after 49.7 days.  A wait without timeout never gives up. *)
Theorem win_wait_timing n ManualReset InitialState o ls w t c s k since :
  initialize p ManualReset InitialState true = Some o -> wrun p (winitial n o) ls = Some w ->
  wthreads w !! t = Some (Pending c s k since) ->
  (forall ms, c = CWaitWithTimeout ms -> is_u 32 ms ->
     (is_Some (wstep p w (Expire t)) <->
        (kernel_mode p = true \/ ms <> UINT32_MAX) /\ since + ms * 10000 <= clock w) /\
     forall w', wstep p w (Expire t) = Some w' -> wlog w' = wlog w ++ [Effect t (EWait false); Return t false]) /\
  (c = CWaitForever -> wstep p w (Expire t) = None).
Proof.
  intros Hi Hr Hl. pose proof (win_reachable_inv _ _ _ _ _ _ Hi Hr) as I.
  destruct (winv_obj _ _ _ I) as (e & Ho & _). destruct (winv_thread _ _ _ I _ _ Hl) as [_ [Hok _]].
  split.
  - intros ms -> Hm. destruct Hok as (_ & Hk & _ & limit & -> & Hlim). specialize (Hlim Hm). unfold wstep. rewrite Hl, Ho.
    destruct (negb (kernel_mode p) && (ms =? UINT32_MAX)) eqn:Hb; rewrite Hlim.
    + apply andb_true_iff in Hb as [Hb1%negb_true_iff Hb2%Z.eqb_eq]. split; [|done].
      split; [by intros [? ?]|]. intros [[?|?] _]; congruence.
    + destruct (Z.leb_spec (since + ms * 10000) (clock w)); rewrite ?Hk.
      * split; [|by intros w' [= <-]]. split; [|by eexists]. intros _. split; [|done].
        apply andb_false_iff in Hb as [Hb%negb_false_iff|Hb%Z.eqb_neq]; auto.
      * split; [|done]. split; [by intros [? ?]|lia].
  - intros ->. destruct Hok as [-> _]. cbn. by rewrite Hl.
Qed.
End WinEvents.

(** A failed [CreateEvent].  A debug build stops; a release build continues
    with a null handle, on which every call returns at once and without effect:
    a timed wait reports a timeout, and a wait without timeout returns as if the
    event had been set. *)
Theorem win_null_event `{!WinSdk} ManualReset InitialState n t c s k now rest :
  initialize (mkTarget false true) ManualReset InitialState false = None /\
  initialize (mkTarget false false) ManualReset InitialState false = Some None /\
  (wrapper (mkTarget false false) now c = Some (s, k) ->
     (t < n)%nat ->
     wstep (mkTarget false false) (mkWWorld None (<[t := Pending c s k now]> (replicate n WIdle)) now rest) (Serve t) =
       Some (mkWWorld None (<[t := WIdle]> (replicate n WIdle)) now
               (rest ++ [Return t (match c with CWaitWithTimeout _ => false | _ => true end)]))).
Proof.
  split; [done|]. split; [done|]. intros Hw Hn. pose proof (wrapper_facts _ _ _ _ _ Hw) as Hok.
  cbn. rewrite list_lookup_insert_eq by (by rewrite length_replicate). rewrite list_insert_insert_eq.
  repeat f_equal. destruct c as [| | |ms]; cbn in Hok; [by destruct Hok as [-> ->]..|].
  by destruct Hok as (_ & _ & Hk & limit & -> & _).
Qed.

(** A default-constructed [CxPlatEvent] hands over at most one wait per [Set]. *)
Theorem cpp_event_one_per_set `{!WinSdk} p n o ls w :
  CxPlatEvent p None true = Some o -> wrun p (winitial n o) ls = Some w ->
  (count_entries is_wait (wlog w) <= count_entries is_set (wlog w))%nat.
Proof.
  intros Hi Hr. destruct (win_reachable_inv _ _ _ _ _ _ _ Hi Hr) as [(e & _ & _ & Hs) _].
  pose proof (auto_reset_budget _ _ _ Hs). cbn in *. lia.
Qed.

(** ** Concrete runs *)

(** A thread waits with a timeout of 5 ms on an auto-reset event; another sets
    it and waits itself, until its timeout is over. *)
Definition win_handshake : list wlabel :=
  [WStart 0 (CWaitWithTimeout 5); Tick 20000; WStart 1 CSet; Serve 1; Serve 0;
   WStart 1 (CWaitWithTimeout 5); Tick 50000; Expire 1]%nat.

Definition win_release : target := mkTarget false false.

Lemma win_event_refines_witness :
  exists w, wrun win_release (winitial 2 (Some (mkKEvent SynchronizationEvent false))) win_handshake = Some w /\
    spec_run true false (wlog w) = Some false /\ phase_run 1 (wlog w) = Some Free.
Proof.
  assert (exists w, wrun win_release (winitial 2 (Some (mkKEvent SynchronizationEvent false))) win_handshake = Some w)
    as [w Hw] by (eexists; vm_compute; reflexivity).
  exists w. split; [exact Hw|].
  destruct (win_event_refines win_release 2 false false (Some (mkKEvent SynchronizationEvent false)) win_handshake
    w eq_refl Hw) as [(e & He & Hs) Hp].
  vm_compute in Hw. injection Hw as <-. injection He as <-. split; [exact Hs|]. exact (Hp 1%nat WIdle eq_refl).
Defined.

Lemma win_wait_timing_witness :
  let ls := [WStart 0 (CWaitWithTimeout 5); Tick 49999]%nat in
  exists w, wrun win_release (winitial 1 (Some (mkKEvent NotificationEvent false))) ls = Some w /\
    ~ is_Some (wstep win_release w (Expire 0)).
Proof.
  intros ls. assert (exists w, wrun win_release (winitial 1 (Some (mkKEvent NotificationEvent false))) ls = Some w)
    as [w Hw] by (eexists; vm_compute; reflexivity).
  exists w. split; [exact Hw|].
  edestruct (win_wait_timing win_release 1 true false (Some (mkKEvent NotificationEvent false)) ls w 0%nat
    (CWaitWithTimeout 5)) as [Ht _]; [reflexivity|exact Hw|vm_compute in Hw; injection Hw as <-; reflexivity|].
  destruct (Ht 5 eq_refl ltac:(done)) as [Hiff _]. rewrite Hiff. vm_compute in Hw. injection Hw as <-.
  intros [_ H]. by apply H.
Defined.
