(* ===== verification/WinUser.v ===== *)
(** * The Windows user-mode platform (src/lib/cxplat_winuser.c)

    Initialization, the private heap with its debug header and failure
    injection, and the processor tables, over a state that has the globals of
    the file and the blocks of [CxPlatform.Heap].  A pointer is a block and an
    offset in it: debug builds move it past the header and back, and an access
    outside the block, a tag read where none was written and a release of
    anything but the start of a block are faults.  [DEBUG] selects the build.
    The operating system is a class: what its calls answer, with the documented
    facts the code relies on. *)

From S2P Require Import Prelude.

(** ** Data *)

Record PROCESSOR_GROUP_INFO := mkGroup {
  ActiveProcessorCount : Z;
  MaximumProcessorCount : Z;
  ActiveProcessorMask : Z
}.

Record GROUP_RELATIONSHIP := mkRelationship {
  MaximumGroupCount : Z;
  ActiveGroupCount : Z;
  GroupInfo : list PROCESSOR_GROUP_INFO
}.

Record CXPLAT_PROCESSOR_INFO := mkProc { Index : Z; Group : Z }.

Record CXPLAT_PROCESSOR_GROUP_INFO := mkGroupInfo { Mask : Z; Count : Z; Offset : Z }.

(** A pointer into the heap: a block, and an offset in bytes. *)
Abbreviation ptr := (nat * Z)%type.
Definition offset_by (p : ptr) (n : Z) : ptr := (p.1, p.2 + n).

(** What memory is used as; array entries are [None] until written. *)
Inductive view :=
  | VInfo (g : option GROUP_RELATIONSHIP)
  | VProcs (l : list (option CXPLAT_PROCESSOR_INFO))
  | VGroups (l : list (option CXPLAT_PROCESSOR_GROUP_INFO)).

(** A heap block: its size, the tag in its first four bytes where one was
    written and has not been overwritten, and what the program keeps in it, with
    the offset at which it does. *)
Record block := mkBlock { b_bytes : Z; b_tag : option Z; b_view : option (Z * view) }.

Record win := mkWin {
  Heap : bool;
  AllocFailDenominator : Z;
  AllocCounter : Z;
  CxPlatPerfFreq : Z;
  CxPlatProcessorInfo : option ptr;
  CxPlatProcessorGroupInfo : option ptr;
  CxPlatProcessorCount : Z;
  blocks : gmap nat block;
  allocs : nat;                  (** calls of [HeapAlloc] so far *)
  draws : nat                    (** random numbers drawn so far *)
}.

Definition set_Heap (b : bool) (s : win) : win :=
  mkWin b (AllocFailDenominator s) (AllocCounter s) (CxPlatPerfFreq s) (CxPlatProcessorInfo s)
    (CxPlatProcessorGroupInfo s) (CxPlatProcessorCount s) (blocks s) (allocs s) (draws s).
Definition set_inject (den counter : Z) (s : win) : win :=
  mkWin (Heap s) den counter (CxPlatPerfFreq s) (CxPlatProcessorInfo s)
    (CxPlatProcessorGroupInfo s) (CxPlatProcessorCount s) (blocks s) (allocs s) (draws s).
Definition set_freq (f : Z) (s : win) : win :=
  mkWin (Heap s) (AllocFailDenominator s) (AllocCounter s) f (CxPlatProcessorInfo s)
    (CxPlatProcessorGroupInfo s) (CxPlatProcessorCount s) (blocks s) (allocs s) (draws s).
Definition set_procs (p : option ptr) (s : win) : win :=
  mkWin (Heap s) (AllocFailDenominator s) (AllocCounter s) (CxPlatPerfFreq s) p
    (CxPlatProcessorGroupInfo s) (CxPlatProcessorCount s) (blocks s) (allocs s) (draws s).
Definition set_groups (p : option ptr) (s : win) : win :=
  mkWin (Heap s) (AllocFailDenominator s) (AllocCounter s) (CxPlatPerfFreq s)
    (CxPlatProcessorInfo s) p (CxPlatProcessorCount s) (blocks s) (allocs s) (draws s).
Definition set_count (n : Z) (s : win) : win :=
  mkWin (Heap s) (AllocFailDenominator s) (AllocCounter s) (CxPlatPerfFreq s)
    (CxPlatProcessorInfo s) (CxPlatProcessorGroupInfo s) n (blocks s) (allocs s) (draws s).
Definition set_blocks (m : gmap nat block) (s : win) : win :=
  mkWin (Heap s) (AllocFailDenominator s) (AllocCounter s) (CxPlatPerfFreq s)
    (CxPlatProcessorInfo s) (CxPlatProcessorGroupInfo s) (CxPlatProcessorCount s) m
    (allocs s) (draws s).
Definition set_allocs (n : nat) (s : win) : win :=
  mkWin (Heap s) (AllocFailDenominator s) (AllocCounter s) (CxPlatPerfFreq s)
    (CxPlatProcessorInfo s) (CxPlatProcessorGroupInfo s) (CxPlatProcessorCount s) (blocks s)
    n (draws s).
Definition set_draws (n : nat) (s : win) : win :=
  mkWin (Heap s) (AllocFailDenominator s) (AllocCounter s) (CxPlatPerfFreq s)
    (CxPlatProcessorInfo s) (CxPlatProcessorGroupInfo s) (CxPlatProcessorCount s) (blocks s)
    (allocs s) n.

Definition RelationGroup : Z := 4.

(** The operating system.  [info_length] is what the sizing call of
    [GetLogicalProcessorInformationEx] stores, [info] what the second call
    answers ([None]: it fails), a record of the relationship asked for;
    [HeapAlloc_ok k n] whether the [k]-th allocation,
    of [n] bytes, succeeds; [Rand k] the [k]-th random number. *)
Class WinOs := {
  HeapCreate_ok : bool;
  HeapAlloc_ok : nat -> Z -> bool;
  PerformanceFrequency : Z;
  info_length : Z;
  info : option GROUP_RELATIONSHIP;
  Relationship : Z;
  GetLastError : Z;
  HRESULT_FROM_WIN32 : Z -> Z;
  Rand : nat -> Z;
  info_length_range : is_u 32 info_length;
  info_relationship : Relationship = RelationGroup;
  GetLastError_pos : 0 < GetLastError;
  HRESULT_FROM_WIN32_failed e : 0 < e -> HRESULT_FROM_WIN32 e < 0
}.

(** [HRESULT]s: negative values are failures. *)
Definition S_OK : Z := 0.
Definition E_OUTOFMEMORY : Z := -2147024882.
Definition E_NOINTERFACE : Z := -2147467262.
Definition CXPLAT_FAILED (s : Z) : bool := s <? 0.

Definition CXPLAT_POOL_PROC : Z := 825260099.
Definition CXPLAT_POOL_TMP_ALLOC : Z := 842037315.
Definition AllocOffset : Z := 16.
Definition sizeof_PROCESSOR_INFO : Z := 8.
Definition sizeof_PROCESSOR_GROUP_INFO : Z := 16.
Definition UINT16_MAX : Z := 65535.

(** The failure injection of [CxPlatAlloc] (all platforms, debug builds):
    the counter it leaves and whether the allocation is to fail.  [w] is the
    width of [long]. *)
Definition inject_failure (w Denominator Counter Random : Z) : Z * bool :=
  if 0 <? Denominator then (Counter, Random mod Denominator =? 1)
  else if Denominator <? 0 then
    let c := sgn w (Counter + 1) in (c, Z.rem c Denominator =? 0)
  else (Counter, false).

Section WinUser.
Context `{!WinOs}.
Variable DEBUG : bool.

#[local] Abbreviation M := (M win).

Definition gets {A} (f : win -> A) : M A := fun s => Ret (f s) s.
Definition modify (f : win -> win) : M unit := fun s => Ret tt (f s).

Definition CXPLAT_DBG_ASSERT (b : bool) : M unit :=
  if DEBUG then fre_assert b else mret tt.

(** ** The heap *)

(** The block at [p], for an access to [n] bytes. *)
Definition access (p : ptr) (n : Z) : M block :=
  fun s => match blocks s !! p.1 with
           | Some blk => if (0 <=? p.2) && (p.2 + n <=? b_bytes blk) then Ret blk s else Fault BadAccess
           | None => Fault BadAccess
           end.

(** The tag of a block once bytes from [off] on have been written. *)
Definition overwritten (off : Z) (tag : option Z) : option Z := if off <? 4 then None else tag.

(** The program writes [n] bytes at [p]. *)
Definition write_range (p : ptr) (n : Z) : M unit :=
  blk ← access p n;
  modify (fun s => set_blocks (<[p.1 := mkBlock (b_bytes blk) (overwritten p.2 (b_tag blk)) (b_view blk)]>
                                 (blocks s)) s).

(** [*((uint32_t* )p) = Tag] and [*((uint32_t* )p)], at the start of a block. *)
Definition write_tag (p : ptr) (Tag : Z) : M unit :=
  blk ← access p 4;
  if p.2 =? 0
  then modify (fun s => set_blocks (<[p.1 := mkBlock (b_bytes blk) (Some Tag) (b_view blk)]> (blocks s)) s)
  else fail_with BadAccess.

Definition read_tag (p : ptr) : M Z :=
  blk ← access p 4;
  match b_tag blk with
  | Some t => if p.2 =? 0 then mret t else fail_with UninitRead
  | None => fail_with UninitRead
  end.

Definition HeapAlloc (ByteCount : Z) : M (option ptr) :=
  fun s =>
    if Heap s then
      let k := allocs s in
      let s := set_allocs (S k) s in
      if HeapAlloc_ok k ByteCount
      then Ret (Some (k, 0)) (set_blocks (<[k := mkBlock ByteCount None None]> (blocks s)) s)
      else Ret None s
    else Fault NullDeref.

Definition HeapFree (p : option ptr) : M unit :=
  fun s =>
    if Heap s then
      match p with
      | None => Ret tt s
      | Some p => match blocks s !! p.1 with
                  | Some _ => if p.2 =? 0 then Ret tt (set_blocks (delete p.1 (blocks s)) s)
                              else Fault BadAccess
                  | None => Fault DoubleFree
                  end
      end
    else Fault NullDeref.

Definition HeapDestroy : M unit :=
  fun s => if Heap s then Ret tt (set_blocks ∅ s) else Fault NullDeref.

Definition CxPlatSetAllocFailDenominator (Value : Z) : M unit := modify (set_inject Value 0).
Definition CxPlatGetAllocFailDenominator : M Z := gets AllocFailDenominator.

(** The end of [CxPlatAlloc] in debug builds: the block with its header. *)
Definition alloc_tagged (ByteCount Tag : Z) : M (option ptr) :=
  Alloc ← HeapAlloc (u64 (ByteCount + AllocOffset));
  match Alloc with
  | None => mret None
  | Some Alloc => _ ← write_tag Alloc Tag; mret (Some (offset_by Alloc AllocOffset))
  end.

Definition CxPlatAlloc (ByteCount Tag : Z) : M (option ptr) :=
  if DEBUG then
    h ← gets Heap; _ ← CXPLAT_DBG_ASSERT h;
    _ ← CXPLAT_DBG_ASSERT (negb (ByteCount =? 0));
    s ← get;
    let '(counter, fail) :=
      inject_failure 32 (AllocFailDenominator s) (AllocCounter s) (Rand (draws s)) in
    _ ← modify (set_inject (AllocFailDenominator s) counter);
    _ ← (if 0 <? AllocFailDenominator s then modify (set_draws (S (draws s))) else mret tt);
    if fail : bool then mret None
    else alloc_tagged ByteCount Tag
  else HeapAlloc ByteCount.

Definition CxPlatFree (Mem : option ptr) (Tag : Z) : M unit :=
  if DEBUG then
    match Mem with
    | Some Mem =>
        let ActualAlloc := offset_by Mem (- AllocOffset) in
        TagToCheck ← read_tag ActualAlloc;
        _ ← CXPLAT_DBG_ASSERT (TagToCheck =? Tag);
        HeapFree (Some ActualAlloc)
    | None => HeapFree None
    end
  else HeapFree Mem.

(** ** The processor tables *)

Definition deref (p : option ptr) : M ptr :=
  match p with Some p => mret p | None => fail_with NullDeref end.

(** [n] bytes at [p] are used as [v] from now on: they have to be there. *)
Definition use_as (p : ptr) (n : Z) (v : view) : M unit :=
  blk ← access p n;
  modify (fun s => set_blocks (<[p.1 := mkBlock (b_bytes blk) (b_tag blk) (Some (p.2, v))]> (blocks s)) s).

(** An allocation that the caller assigns to a pointer to [v]. *)
Definition alloc_as (ByteCount Tag : Z) (v : view) : M (option ptr) :=
  p ← CxPlatAlloc ByteCount Tag;
  match p with
  | Some p => _ ← use_as p ByteCount v; mret (Some p)
  | None => mret None
  end.

(** What is at [p], and a write to it. *)
Definition read_view (p : ptr) : M view :=
  blk ← access p 0;
  match b_view blk with
  | Some (off, v) => if off =? p.2 then mret v else fail_with BadAccess
  | None => fail_with BadAccess
  end.

Definition write_view (p : ptr) (v : view) : M unit :=
  blk ← access p 0;
  modify (fun s => set_blocks (<[p.1 := mkBlock (b_bytes blk) (overwritten p.2 (b_tag blk)) (Some (p.2, v))]>
                                 (blocks s)) s).

(** [CxPlatGetProcessorGroupInfo]: the status, and [*Buffer] afterwards. *)
Definition CxPlatGetProcessorGroupInfo (Buffer : option ptr) : M (Z * option ptr) :=
  if info_length =? 0 then mret (HRESULT_FROM_WIN32 GetLastError, Buffer)
  else
    p ← alloc_as info_length CXPLAT_POOL_TMP_ALLOC (VInfo None);
    match p with
    | None => mret (E_OUTOFMEMORY, None)
    | Some b =>
        match info with
        | None =>
            _ ← CxPlatFree (Some b) CXPLAT_POOL_TMP_ALLOC;
            mret (HRESULT_FROM_WIN32 GetLastError, Some b)
        | Some g => _ ← write_view b (VInfo (Some g)); mret (S_OK, Some b)
        end
    end.

(** [Info->Group]. *)
Definition read_info (b : ptr) : M GROUP_RELATIONSHIP :=
  v ← read_view b;
  match v with VInfo (Some g) => mret g | _ => fail_with UninitRead end.

(** [Info->Group.GroupInfo[i]] for [i] below [ActiveGroupCount]. *)
Definition active_groups (g : GROUP_RELATIONSHIP) : M (list PROCESSOR_GROUP_INFO) :=
  if ActiveGroupCount g <=? Z.of_nat (length (GroupInfo g))
  then mret (take (Z.to_nat (ActiveGroupCount g)) (GroupInfo g))
  else fail_with BadAccess.

Definition count_processors (gs : list PROCESSOR_GROUP_INFO) : Z :=
  foldl (fun n g => u32 (n + ActiveProcessorCount g)) 0 gs.

Definition write_group (i : nat) (x : CXPLAT_PROCESSOR_GROUP_INFO) : M unit :=
  p ← gets CxPlatProcessorGroupInfo;
  b ← deref p;
  v ← read_view b;
  match v with
  | VGroups l => if (i <? length l)%nat then write_view b (VGroups (<[i := Some x]> l))
                 else fail_with BadAccess
  | _ => fail_with BadAccess
  end.

Definition read_group (i : nat) : M CXPLAT_PROCESSOR_GROUP_INFO :=
  p ← gets CxPlatProcessorGroupInfo;
  b ← deref p;
  v ← read_view b;
  match v with
  | VGroups l => match l !! i with
                 | Some (Some x) => mret x
                 | Some None => fail_with UninitRead
                 | None => fail_with BadAccess
                 end
  | _ => fail_with BadAccess
  end.

Definition write_proc (i : nat) (x : CXPLAT_PROCESSOR_INFO) : M unit :=
  p ← gets CxPlatProcessorInfo;
  b ← deref p;
  v ← read_view b;
  match v with
  | VProcs l => if (i <? length l)%nat then write_view b (VProcs (<[i := Some x]> l))
                else fail_with BadAccess
  | _ => fail_with BadAccess
  end.

(** The loop that fills [CxPlatProcessorGroupInfo] from entry [i] on. *)
Fixpoint fill_groups (i : nat) (gs : list PROCESSOR_GROUP_INFO) : M unit :=
  match gs with
  | [] => mret tt
  | g :: gs =>
      n ← gets CxPlatProcessorCount;
      _ ← write_group i (mkGroupInfo (ActiveProcessorMask g) (ActiveProcessorCount g) n);
      _ ← modify (set_count (u32 (n + ActiveProcessorCount g)));
      fill_groups (S i) gs
  end.

(** The inner loop of the processor table, from group [i] on: the first group
    whose range has [Proc]. *)
Fixpoint find_group (Proc : Z) (i : nat) (gs : list PROCESSOR_GROUP_INFO)
    : M (option CXPLAT_PROCESSOR_INFO) :=
  match gs with
  | [] => mret None
  | g :: gs =>
      x ← read_group i;
      if (Offset x <=? Proc) && (Proc <? u32 (Offset x + ActiveProcessorCount g))
      then mret (Some (mkProc (u32 (Proc - Offset x)) (u16 (Z.of_nat i))))
      else find_group Proc (S i) gs
  end.

(** The outer loop, [n] processors from [Proc] on. *)
Fixpoint fill_procs (gs : list PROCESSOR_GROUP_INFO) (Proc n : nat) : M unit :=
  match n with
  | O => mret tt
  | S n =>
      r ← find_group (Z.of_nat Proc) 0 gs;
      _ ← match r with Some x => write_proc Proc x | None => mret tt end;
      fill_procs gs (S Proc) n
  end.

(** The second half of [CxPlatProcessorInfoInit], from the assertion that there
    is no table yet to the [Error] label: allocation and filling of the tables. *)
Definition build_tables (g : GROUP_RELATIONSHIP) (gs : list PROCESSOR_GROUP_INFO) (active : Z)
    (Info : option ptr) : M (Z * option ptr) :=
  procs ← gets CxPlatProcessorInfo;
  _ ← fre_assert (bool_decide (procs = None));
  p ← alloc_as (active * sizeof_PROCESSOR_INFO) CXPLAT_POOL_PROC
        (VProcs (replicate (Z.to_nat active) None));
  _ ← modify (set_procs p);
  match p with
  | None => mret (E_OUTOFMEMORY, Info)
  | Some _ =>
      groups ← gets CxPlatProcessorGroupInfo;
      _ ← CXPLAT_DBG_ASSERT (bool_decide (groups = None));
      q ← alloc_as (ActiveGroupCount g * sizeof_PROCESSOR_GROUP_INFO) CXPLAT_POOL_PROC
            (VGroups (replicate (Z.to_nat (ActiveGroupCount g)) None));
      _ ← modify (set_groups q);
      match q with
      | None => mret (E_OUTOFMEMORY, Info)
      | Some _ =>
          _ ← modify (set_count 0);
          _ ← fill_groups 0 gs;
          _ ← fill_procs gs 0 (Z.to_nat active);
          mret (S_OK, Info)
      end
  end.

(** [CxPlatProcessorInfoInit] up to its [Error] label: the status it gets there
    with, and [Info]. *)
Definition ProcessorInfoInit_body : M (Z * option ptr) :=
  r ← CxPlatGetProcessorGroupInfo None;
  let '(Status, Info) := r in
  if CXPLAT_FAILED Status then mret (Status, Info)
  else
    _ ← CXPLAT_DBG_ASSERT (negb (info_length =? 0));
    b ← deref Info;
    g ← read_info b;
    _ ← CXPLAT_DBG_ASSERT (Relationship =? RelationGroup);
    _ ← CXPLAT_DBG_ASSERT (negb (ActiveGroupCount g =? 0));
    _ ← CXPLAT_DBG_ASSERT (ActiveGroupCount g <=? MaximumGroupCount g);
    if ActiveGroupCount g =? 0 then mret (E_NOINTERFACE, Info)
    else
      gs ← active_groups g;
      let active := count_processors gs in
      _ ← CXPLAT_DBG_ASSERT (0 <? active);
      _ ← CXPLAT_DBG_ASSERT (active <=? UINT16_MAX);
      if (active =? 0) || (UINT16_MAX <? active) then mret (E_NOINTERFACE, Info)
      else
        build_tables g gs active Info.

(** The code after the [Error] label. *)
Definition ProcessorInfoInit_exit (Status : Z) (Info : option ptr) : M Z :=
  _ ← match Info with
      | Some _ => CxPlatFree Info CXPLAT_POOL_TMP_ALLOC
      | None => mret tt
      end;
  _ ← (if CXPLAT_FAILED Status then
         groups ← gets CxPlatProcessorGroupInfo;
         _ ← match groups with
             | Some _ => _ ← CxPlatFree groups CXPLAT_POOL_PROC; modify (set_groups None)
             | None => mret tt
             end;
         procs ← gets CxPlatProcessorInfo;
         match procs with
         | Some _ => _ ← CxPlatFree procs CXPLAT_POOL_PROC; modify (set_procs None)
         | None => mret tt
         end
       else mret tt);
  mret Status.

Definition CxPlatProcessorInfoInit : M Z :=
  r ← ProcessorInfoInit_body; ProcessorInfoInit_exit r.1 r.2.

Definition CxPlatProcessorInfoUnInit : M unit :=
  groups ← gets CxPlatProcessorGroupInfo;
  _ ← CxPlatFree groups CXPLAT_POOL_PROC;
  _ ← modify (set_groups None);
  procs ← gets CxPlatProcessorInfo;
  _ ← CxPlatFree procs CXPLAT_POOL_PROC;
  modify (set_procs None).

(** ** Initialization *)

Definition CxPlatInitialize : M Z :=
  _ ← modify (set_freq PerformanceFrequency);
  _ ← modify (set_Heap HeapCreate_ok);
  if negb HeapCreate_ok then mret E_OUTOFMEMORY
  else
    _ ← (if DEBUG then modify (set_inject 0 0) else mret tt);
    Status ← CxPlatProcessorInfoInit;
    if CXPLAT_FAILED Status then
      h ← gets Heap;
      _ ← (if h : bool then _ ← HeapDestroy; modify (set_Heap false) else mret tt);
      mret Status
    else mret S_OK.

Definition CxPlatUninitialize : M unit :=
  _ ← CxPlatProcessorInfoUnInit;
  _ ← HeapDestroy;
  modify (set_Heap false).

(** [CxPlatProcCurrentNumber], given what [GetCurrentProcessorNumberEx] stored. *)
Definition CxPlatProcCurrentNumber (CurGroup Number : Z) : M Z :=
  g ← read_group (Z.to_nat CurGroup);
  if Count g =? 0 then fail_with DivByZero
  else mret (u32 (Offset g + Number mod Count g)).

End WinUser.
