(* ===== verification/WinUserTheorems.v ===== *)
(** * Theorems about the Windows user-mode platform

    The heap with its debug header, the failure injection, the processor
    tables, and initialization with its cleanup. *)

From S2P Require Import Prelude WinUser.

Ltac stp := unfold mbind, M_bind; cbn -[insert delete lookup Z.mul Z.add Z.to_nat Nat.ltb].

Lemma win_ext s s' :
  Heap s = Heap s' -> AllocFailDenominator s = AllocFailDenominator s' ->
  AllocCounter s = AllocCounter s' -> CxPlatPerfFreq s = CxPlatPerfFreq s' ->
  CxPlatProcessorInfo s = CxPlatProcessorInfo s' ->
  CxPlatProcessorGroupInfo s = CxPlatProcessorGroupInfo s' ->
  CxPlatProcessorCount s = CxPlatProcessorCount s' -> blocks s = blocks s' ->
  allocs s = allocs s' -> draws s = draws s' -> s = s'.
Proof. destruct s, s'; cbn; congruence. Qed.

(** ** The processor tables, as pure functions of the groups *)

Fixpoint total (gs : list PROCESSOR_GROUP_INFO) : Z :=
  match gs with [] => 0 | g :: gs => ActiveProcessorCount g + total gs end.

Fixpoint table (off : Z) (gs : list PROCESSOR_GROUP_INFO) : list CXPLAT_PROCESSOR_GROUP_INFO :=
  match gs with
  | [] => []
  | g :: gs => mkGroupInfo (ActiveProcessorMask g) (ActiveProcessorCount g) off
               :: table (off + ActiveProcessorCount g) gs
  end.

Fixpoint locate (Proc : Z) (i : nat) (off : Z) (gs : list PROCESSOR_GROUP_INFO)
    : option CXPLAT_PROCESSOR_INFO :=
  match gs with
  | [] => None
  | g :: gs =>
      if (off <=? Proc) && (Proc <? off + ActiveProcessorCount g)
      then Some (mkProc (Proc - off) (Z.of_nat i))
      else locate Proc (S i) (off + ActiveProcessorCount g) gs
  end.

Definition counts_ok (gs : list PROCESSOR_GROUP_INFO) : Prop :=
  Forall (fun g => 0 <= ActiveProcessorCount g) gs.

Lemma total_nonneg gs : counts_ok gs -> 0 <= total gs.
Proof. induction 1; cbn; lia. Qed.

Lemma length_table off gs : length (table off gs) = length gs.
Proof. revert off. induction gs; intros; cbn; auto. Qed.

Lemma total_app gs gs' : total (gs ++ gs') = total gs + total gs'.
Proof. induction gs; cbn; lia. Qed.

Lemma table_lookup gs off j g :
  gs !! j = Some g ->
  table off gs !! j = Some (mkGroupInfo (ActiveProcessorMask g) (ActiveProcessorCount g)
                              (off + total (take j gs))).
Proof.
  revert off j. induction gs as [|x gs IH]; intros off [|j] H; cbn in *; try done.
  - injection H as ->. by rewrite Z.add_0_r.
  - rewrite (IH _ _ H). do 2 f_equal. lia.
Qed.

(** The search finds the one group whose range has the processor. *)
Lemma locate_found gs off i p j g :
  counts_ok gs -> gs !! j = Some g ->
  off + total (take j gs) <= p < off + total (take j gs) + ActiveProcessorCount g ->
  locate p i off gs = Some (mkProc (p - (off + total (take j gs))) (Z.of_nat (i + j))).
Proof.
  revert off i j. induction gs as [|x gs IH]; intros off i [|j] Hc H Hp; try done;
    inversion_clear Hc as [|?? Hx Hgs]; cbn in *.
  - injection H as ->. rewrite Z.add_0_r in *.
    rewrite (proj2 (Z.leb_le _ _)), (proj2 (Z.ltb_lt _ _)) by lia. cbn. by rewrite Nat.add_0_r.
  - assert (0 <= total (take j gs)) by (apply total_nonneg; by apply Forall_take).
    rewrite (proj2 (Z.ltb_ge p _)) by lia. rewrite andb_false_r.
    rewrite (IH _ (S i) j Hgs H) by lia. do 2 f_equal; lia.
Qed.

(** Every processor below the total is in the range of some group. *)
Lemma in_some_group gs off p :
  counts_ok gs -> off <= p < off + total gs ->
  exists j g, gs !! j = Some g /\
    off + total (take j gs) <= p < off + total (take j gs) + ActiveProcessorCount g.
Proof.
  revert off. induction gs as [|x gs IH]; intros off Hc Hp; cbn in Hp; [lia|].
  inversion_clear Hc as [|?? Hx Hgs].
  destruct (decide (p < off + ActiveProcessorCount x)).
  - exists O, x. cbn. split; [done|lia].
  - destruct (IH (off + ActiveProcessorCount x) Hgs) as (j & g & Hj & Hr); [lia|].
    exists (S j), g. cbn. split; [done|lia].
Qed.

Lemma count_processors_total gs :
  counts_ok gs -> total gs < 2 ^ 32 -> count_processors gs = total gs.
Proof.
  unfold count_processors. intros Hc Ht.
  enough (forall n, 0 <= n -> n + total gs < 2 ^ 32 ->
    foldl (fun n g => u32 (n + ActiveProcessorCount g)) n gs = n + total gs) as H.
  { rewrite H by lia. lia. }
  clear Ht. induction Hc as [|g gs Hg Hgs IH]; intros n Hn Ht; cbn in *; [lia|].
  pose proof (total_nonneg gs Hgs).
  rewrite (wrap_small 32) by (unfold is_u; lia). rewrite IH by lia. lia.
Qed.

(** ** The loops *)

Section Loops.
Context `{!WinOs}.

(** An offset inside a block of [n] bytes and beside the tag [t]. *)
Definition inside (o n : Z) (t : option Z) : Prop := 0 <= o <= n /\ overwritten o t = t.

Lemma access_ok s b o n m t v :
  blocks s !! b = Some (mkBlock m t v) -> 0 <= o -> o + n <= m ->
  access (b, o) n s = Ret (mkBlock m t v) s.
Proof.
  intros Hb Ho Hn. unfold access. cbn [fst snd]. rewrite Hb. cbn [b_bytes].
  by rewrite (proj2 (Z.leb_le _ _)), (proj2 (Z.leb_le (o + n) _)) by lia.
Qed.

Lemma read_view_ok s b o n t v :
  blocks s !! b = Some (mkBlock n t (Some (o, v))) -> inside o n t -> read_view (b, o) s = Ret v s.
Proof.
  intros Hb [Ho _]. unfold read_view. erewrite bind_Ret by (eapply access_ok; [done|lia|lia]).
  cbn. by rewrite Z.eqb_refl.
Qed.

Lemma write_view_ok s b o n t v v' :
  blocks s !! b = Some (mkBlock n t v) -> inside o n t ->
  write_view (b, o) v' s = Ret tt (set_blocks (<[b := mkBlock n t (Some (o, v'))]> (blocks s)) s).
Proof.
  intros Hb [Ho Ht]. unfold write_view. erewrite bind_Ret by (eapply access_ok; [done|lia|lia]).
  cbn. by rewrite Ht.
Qed.

Lemma write_group_ok s b o i n t l x :
  CxPlatProcessorGroupInfo s = Some (b, o) -> blocks s !! b = Some (mkBlock n t (Some (o, VGroups l))) ->
  inside o n t -> (i < length l)%nat ->
  write_group i x s = Ret tt (set_blocks (<[b := mkBlock n t (Some (o, VGroups (<[i := Some x]> l)))]> (blocks s)) s).
Proof.
  intros Hp Hb Ho Hi. unfold write_group, deref. rewrite (bind_Ret _ _ s (Some (b, o)) s) by (by rewrite <- Hp).
  rewrite (bind_Ret _ _ _ _ _ (ret_app _ _)), (bind_Ret _ _ _ _ _ (read_view_ok _ _ _ _ _ _ Hb Ho)).
  rewrite (proj2 (Nat.ltb_lt _ _)) by done. by eapply write_view_ok.
Qed.

Lemma write_proc_ok s b o i n t l x :
  CxPlatProcessorInfo s = Some (b, o) -> blocks s !! b = Some (mkBlock n t (Some (o, VProcs l))) ->
  inside o n t -> (i < length l)%nat ->
  write_proc i x s = Ret tt (set_blocks (<[b := mkBlock n t (Some (o, VProcs (<[i := Some x]> l)))]> (blocks s)) s).
Proof.
  intros Hp Hb Ho Hi. unfold write_proc, deref. rewrite (bind_Ret _ _ s (Some (b, o)) s) by (by rewrite <- Hp).
  rewrite (bind_Ret _ _ _ _ _ (ret_app _ _)), (bind_Ret _ _ _ _ _ (read_view_ok _ _ _ _ _ _ Hb Ho)).
  rewrite (proj2 (Nat.ltb_lt _ _)) by done. by eapply write_view_ok.
Qed.

Lemma read_group_ok s b o i n t l x :
  CxPlatProcessorGroupInfo s = Some (b, o) -> blocks s !! b = Some (mkBlock n t (Some (o, VGroups l))) ->
  inside o n t -> l !! i = Some (Some x) -> read_group i s = Ret x s.
Proof.
  intros Hp Hb Ho Hi. unfold read_group, deref. rewrite (bind_Ret _ _ s (Some (b, o)) s) by (by rewrite <- Hp).
  rewrite (bind_Ret _ _ _ _ _ (ret_app _ _)), (bind_Ret _ _ _ _ _ (read_view_ok _ _ _ _ _ _ Hb Ho)).
  by rewrite Hi.
Qed.

Lemma fill_groups_ok gs s b o i n t l :
  CxPlatProcessorGroupInfo s = Some (b, o) -> inside o n t -> length l = i ->
  blocks s !! b = Some (mkBlock n t (Some (o, VGroups (l ++ replicate (length gs) None)))) ->
  counts_ok gs -> 0 <= CxPlatProcessorCount s -> CxPlatProcessorCount s + total gs < 2 ^ 32 ->
  fill_groups i gs s =
    Ret tt (set_count (CxPlatProcessorCount s + total gs)
      (set_blocks (<[b := mkBlock n t (Some (o, VGroups (l ++ map Some (table (CxPlatProcessorCount s) gs))))]>
                     (blocks s)) s)).
Proof.
  intros Hp Ho Hi Hb Hc. revert s i l Hp Hi Hb.
  induction Hc as [|g gs Hg Hgs IH]; intros s i l Hp Hi Hb H0 Ht; cbn [fill_groups total table map].
  { rewrite Z.add_0_r. cbn in Hb. rewrite insert_id by done. by destruct s. }
  pose proof (total_nonneg gs Hgs). cbn [total] in Ht.
  rewrite (bind_Ret _ _ s (CxPlatProcessorCount s) s) by done.
  erewrite bind_Ret by (eapply write_group_ok; [done|done|done|len]).
  cbn [length replicate]. rewrite insert_mid by done.
  erewrite bind_Ret by done.
  erewrite (IH _ (S i) (l ++ [Some (mkGroupInfo (ActiveProcessorMask g) (ActiveProcessorCount g)
    (CxPlatProcessorCount s))])); cycle 1.
  - done.
  - rewrite length_app; cbn; lia.
  - cbn. rewrite lookup_insert_eq. by rewrite <- app_assoc.
  - cbn. apply wrap_range. lia.
  - cbn. rewrite wrap_small by (unfold is_u; lia). lia.
  - cbn. rewrite wrap_small by (unfold is_u; lia). rewrite insert_insert_eq, <- app_assoc.
    f_equal. unfold set_count, set_blocks. cbn. f_equal. lia.
Qed.

Lemma find_group_ok p s b o n t l i off gs :
  CxPlatProcessorGroupInfo s = Some (b, o) -> inside o n t ->
  blocks s !! b = Some (mkBlock n t (Some (o, VGroups (l ++ map Some (table off gs))))) ->
  length l = i -> counts_ok gs -> 0 <= off -> off + total gs < 2 ^ 32 ->
  0 <= p < 2 ^ 32 -> Z.of_nat (i + length gs) <= 2 ^ 16 ->
  find_group p i gs s = Ret (locate p i off gs) s.
Proof.
  intros Hp Ho Hb Hi Hc. revert i l off Hi Hb.
  induction Hc as [|g gs Hg Hgs IH]; intros i l off Hi Hb H0 Ht Hpr Hn; [done|].
  cbn [find_group locate total length table map] in *. pose proof (total_nonneg gs Hgs).
  erewrite bind_Ret by (eapply read_group_ok; [done|done|done|by apply lookup_mid]).
  cbn [Offset]. rewrite (wrap_small 32) by (unfold is_u; lia).
  destruct ((off <=? p) && (p <? off + ActiveProcessorCount g)) eqn:Hin.
  - apply andb_prop in Hin as [Hl%Z.leb_le Hu%Z.ltb_lt].
    rewrite !wrap_small by (unfold is_u; lia). done.
  - eapply (IH (S i) (l ++ [Some _])); [rewrite length_app; cbn; lia
      |rewrite <- app_assoc; exact Hb|lia|lia|done|lia].
Qed.

Lemma fill_procs_ok gs s gb pb o n t l k m u lg :
  CxPlatProcessorGroupInfo s = Some (gb, o) -> CxPlatProcessorInfo s = Some (pb, o) -> gb <> pb ->
  inside o n t -> inside o m u ->
  blocks s !! gb = Some (mkBlock n t (Some (o, VGroups lg))) -> lg = map Some (table 0 gs) ->
  blocks s !! pb = Some (mkBlock m u (Some (o, VProcs (l ++ replicate k None)))) ->
  counts_ok gs -> total gs < 2 ^ 32 -> Z.of_nat (length gs) <= 2 ^ 16 ->
  Z.of_nat (length l + k) < 2 ^ 32 ->
  fill_procs gs (length l) k s =
    Ret tt (set_blocks (<[pb := mkBlock m u (Some (o, VProcs (l ++
      map (fun p => locate (Z.of_nat p) 0 0 gs) (seq (length l) k))))]> (blocks s)) s).
Proof.
  intros Hg Hp Hne Ho Ho' Hgb Hlg Hpb Hc Ht Hn. revert s l Hg Hp Hgb Hpb.
  induction k as [|k IH]; intros s l Hg Hp Hgb Hpb Hk; cbn [fill_procs seq map replicate] in *.
  { rewrite insert_id by done. by destruct s. }
  erewrite bind_Ret by (eapply (find_group_ok _ s gb o n t [] 0 0); try done; cbn; try lia; by rewrite <- Hlg).
  set (r := locate (Z.of_nat (length l)) 0 0 gs).
  rewrite (bind_Ret _ _ s tt (set_blocks (<[pb := mkBlock m u (Some (o, VProcs ((l ++ [r]) ++ replicate k None)))]>
    (blocks s)) s)).
  2:{ destruct r as [x|].
      - erewrite write_proc_ok; [|done|done|done|len]. rewrite insert_mid by done. by rewrite <- app_assoc.
      - rewrite <- app_assoc. cbn [app]. rewrite insert_id by done. by destruct s. }
  pose proof (length_app l [r]) as Hlen. cbn in Hlen. rewrite Nat.add_1_r in Hlen. rewrite <- Hlen.
  rewrite IH; [| done | done | | |lia]; cbn.
  - rewrite insert_insert_eq, <- app_assoc, Hlen. done.
  - by rewrite lookup_insert_ne.
  - by rewrite lookup_insert_eq.
Qed.

End Loops.

(** ** The heap *)

Section HeapFacts.
Context `{!WinOs}.
Variable DEBUG : bool.

(** What [CxPlatAlloc] asks the heap for, the header it writes, the offset of the
    pointer it returns, and the state it leaves. *)
Definition request (n : Z) : Z := if DEBUG then u64 (n + AllocOffset) else n.
Definition header (Tag : Z) : option Z := if DEBUG then Some Tag else None.
Definition base : Z := if DEBUG then AllocOffset else 0.

Definition granted (s : win) (n Tag : Z) (v : option (Z * view)) : win :=
  set_blocks (<[allocs s := mkBlock (request n) (header Tag) v]> (blocks s))
    (set_allocs (S (allocs s)) s).

(** Byte counts for which the addition of the header does not wrap. *)
Definition fits (n : Z) : Prop := 0 < n < 2 ^ 64 - AllocOffset.

Lemma request_fits n : fits n -> request n = base + n.
Proof.
  unfold fits, request, base, AllocOffset. intros Hn. destruct DEBUG; [|lia].
  rewrite wrap_small by (unfold is_u; lia). lia.
Qed.

Lemma inside_base n Tag : fits n -> inside base (request n) (header Tag).
Proof.
  intros Hn. rewrite request_fits by done. unfold fits in Hn. split.
  - unfold base, AllocOffset in *. destruct DEBUG; lia.
  - unfold base, header. by destruct DEBUG.
Qed.

Lemma base_le n : fits n -> base <= request n.
Proof. intros Hn. by apply (inside_base n 0). Qed.

Lemma alloc_tagged_ok s n Tag :
  Heap s = true -> 4 <= u64 (n + AllocOffset) -> HeapAlloc_ok (allocs s) (u64 (n + AllocOffset)) = true ->
  alloc_tagged n Tag s =
    Ret (Some (allocs s, AllocOffset))
      (set_blocks (<[allocs s := mkBlock (u64 (n + AllocOffset)) (Some Tag) None]> (blocks s))
         (set_allocs (S (allocs s)) s)).
Proof.
  intros Hh Hn Hok. unfold alloc_tagged, HeapAlloc, write_tag.
  erewrite bind_Ret by (rewrite Hh; cbv zeta; by rewrite Hok).
  cbv beta iota. erewrite bind_Ret; [done|].
  erewrite bind_Ret by (eapply access_ok; [apply lookup_insert_eq|lia|lia]).
  unfold modify, set_blocks. cbn. by rewrite insert_insert_eq.
Qed.

(** [CxPlatAlloc] once failure injection has let the request through. *)
Lemma alloc_passed s n Tag :
  Heap s = true -> fits n ->
  (if DEBUG then alloc_tagged n Tag else HeapAlloc n) s =
    if HeapAlloc_ok (allocs s) (request n) then Ret (Some (allocs s, base)) (granted s n Tag None)
    else Ret None (set_allocs (S (allocs s)) s).
Proof.
  intros Hh Hn. pose proof (request_fits n Hn) as Hr. unfold granted, request, base, header, fits, AllocOffset in *.
  destruct DEBUG.
  - destruct (HeapAlloc_ok _ _) eqn:Hok.
    + rewrite alloc_tagged_ok; unfold AllocOffset; [done|done|lia|exact Hok].
    + unfold alloc_tagged, HeapAlloc, AllocOffset. erewrite bind_Ret by (rewrite Hh; cbv zeta; by rewrite Hok). done.
  - unfold HeapAlloc. rewrite Hh. done.
Qed.

Lemma alloc_plain s n Tag :
  Heap s = true -> AllocFailDenominator s = 0 -> fits n ->
  CxPlatAlloc DEBUG n Tag s =
    if HeapAlloc_ok (allocs s) (request n) then Ret (Some (allocs s, base)) (granted s n Tag None)
    else Ret None (set_allocs (S (allocs s)) s).
Proof.
  intros Hh Hd Hn. rewrite <- alloc_passed by done. unfold fits in Hn.
  unfold CxPlatAlloc, CXPLAT_DBG_ASSERT. destruct DEBUG; [|done].
  destruct s; cbn in Hh, Hd; subst. rewrite (proj2 (Z.eqb_neq n 0)) by lia. done.
Qed.

Lemma alloc_refused s n Tag v :
  Heap s = true -> AllocFailDenominator s = 0 -> fits n ->
  HeapAlloc_ok (allocs s) (request n) = false ->
  alloc_as DEBUG n Tag v s = Ret None (set_allocs (S (allocs s)) s).
Proof. intros ??? Hok. unfold alloc_as. by erewrite bind_Ret by (by rewrite alloc_plain, Hok). Qed.

Lemma alloc_granted s n Tag v :
  Heap s = true -> AllocFailDenominator s = 0 -> fits n ->
  HeapAlloc_ok (allocs s) (request n) = true ->
  alloc_as DEBUG n Tag v s = Ret (Some (allocs s, base)) (granted s n Tag (Some (base, v))).
Proof.
  intros ?? Hn Hok. unfold alloc_as. erewrite bind_Ret by (by rewrite alloc_plain, Hok).
  pose proof (request_fits n Hn) as Hr. destruct (inside_base n Tag Hn) as [Hb _].
  unfold use_as. erewrite bind_Ret; [done|].
  erewrite bind_Ret by (eapply access_ok; [apply lookup_insert_eq|lia|lia]).
  unfold modify, granted, set_blocks. cbn. by rewrite insert_insert_eq.
Qed.

Lemma free_plain s b n Tag v :
  Heap s = true -> blocks s !! b = Some (mkBlock n (header Tag) v) -> base <= n ->
  CxPlatFree DEBUG (Some (b, base)) Tag s = Ret tt (set_blocks (delete b (blocks s)) s).
Proof.
  intros Hh Hb Hn. unfold CxPlatFree, header, base, HeapFree, AllocOffset, CXPLAT_DBG_ASSERT in *. destruct DEBUG.
  - unfold read_tag, offset_by. cbn [fst snd]. rewrite Z.add_opp_diag_r.
    erewrite bind_Ret by (erewrite bind_Ret by (eapply access_ok; [exact Hb|lia|lia]); done).
    rewrite (Z.eqb_refl Tag). stp. by rewrite Hh, Hb.
  - rewrite Hh. cbn [fst snd]. by rewrite Hb.
Qed.

Lemma free_wrong_tag s b n Tag Tag' v :
  DEBUG = true -> blocks s !! b = Some (mkBlock n (header Tag) v) -> base <= n -> Tag' <> Tag ->
  CxPlatFree DEBUG (Some (b, base)) Tag' s = Stop AssertFailed.
Proof.
  unfold CxPlatFree, header, base, AllocOffset, CXPLAT_DBG_ASSERT. intros -> Hb Hn Ht.
  unfold read_tag, offset_by. cbn [fst snd]. rewrite Z.add_opp_diag_r.
  erewrite bind_Ret by (erewrite bind_Ret by (eapply access_ok; [exact Hb|lia|lia]); done).
  by rewrite (proj2 (Z.eqb_neq _ _)) by congruence.
Qed.

(** The caller writes ranges of bytes, each given by its offset from the pointer
    and its length. *)
Fixpoint caller_writes (p : ptr) (ws : list (Z * Z)) : M win unit :=
  match ws with
  | [] => mret tt
  | w :: ws => _ ← write_range (offset_by p w.1) w.2; caller_writes p ws
  end.

Definition within (n : Z) (w : Z * Z) : Prop := 0 <= w.1 /\ 0 <= w.2 /\ w.1 + w.2 <= n.

(** A write inside the bytes of the caller keeps the header. *)
Lemma write_range_ok s b n Tag v o k :
  blocks s !! b = Some (mkBlock (base + n) (header Tag) v) -> 0 <= o -> o + k <= n ->
  write_range (offset_by (b, base) o) k s = Ret tt s.
Proof.
  intros Hb Ho Hk. unfold write_range, offset_by. cbn [fst snd].
  assert (0 <= base) by (unfold base, AllocOffset; destruct DEBUG; lia).
  erewrite bind_Ret by (eapply access_ok; [exact Hb|lia|lia]). unfold modify. cbn.
  assert (overwritten (base + o) (header Tag) = header Tag) as ->.
  { unfold overwritten, base, header, AllocOffset in *. destruct DEBUG; [|by destruct (_ <? _)].
    by rewrite (proj2 (Z.ltb_ge _ _)) by lia. }
  rewrite insert_id by done. by destruct s.
Qed.

Lemma write_range_outside s b m t v o k :
  blocks s !! b = Some (mkBlock m t v) -> m < o + k -> write_range (b, o) k s = Fault BadAccess.
Proof.
  intros Hb Hk. unfold write_range. apply bind_Fault. unfold access. cbn [fst snd]. rewrite Hb. cbn [b_bytes].
  by rewrite (proj2 (Z.leb_gt (o + k) m)), andb_false_r by lia.
Qed.

Lemma caller_writes_ok s b n Tag v ws :
  blocks s !! b = Some (mkBlock (base + n) (header Tag) v) -> Forall (within n) ws ->
  caller_writes (b, base) ws s = Ret tt s.
Proof.
  intros Hb. induction 1 as [|w ws (Ho & _ & Hk) _ IH]; [done|]. cbn [caller_writes].
  by rewrite (bind_Ret _ _ _ _ _ (write_range_ok s b n Tag v w.1 w.2 Hb Ho Hk)).
Qed.

(** C35: allocation and free, without failure injection.  A request of up to
    2^64 - 17 bytes that the heap grants returns a pointer, aligned as the heap's
    own, at which exactly the requested bytes can be written: a write reaching
    further is outside the block.  Whatever the caller writes inside them, no
    other block changes, freeing the pointer with the same tag gives back the
    heap as it was, and freeing it with another tag stops a debug build. *)
Theorem alloc_free_roundtrip s n Tag Tag' :
  Heap s = true -> AllocFailDenominator s = 0 -> 0 < n < 2 ^ 64 - AllocOffset ->
  blocks s !! allocs s = None -> HeapAlloc_ok (allocs s) (request n) = true ->
  exists p s1, CxPlatAlloc DEBUG n Tag s = Ret (Some p) s1 /\ (AllocOffset | p.2) /\
    (forall o k, 0 <= o -> n < o + k -> write_range (offset_by p o) k s1 = Fault BadAccess) /\
    forall ws, Forall (within n) ws ->
      exists s2, caller_writes p ws s1 = Ret tt s2 /\
        (forall b, b <> p.1 -> blocks s2 !! b = blocks s !! b) /\
        (exists s3, CxPlatFree DEBUG (Some p) Tag s2 = Ret tt s3 /\ blocks s3 = blocks s) /\
        (DEBUG = true -> Tag' <> Tag -> CxPlatFree DEBUG (Some p) Tag' s2 = Stop AssertFailed).
Proof.
  intros Hh Hd Hn Hb Hok. rewrite alloc_plain, Hok by done.
  exists (allocs s, base), (granted s n Tag None). split; [done|]. split.
  { cbn. unfold base. destruct DEBUG; [apply Z.divide_refl|apply Z.divide_0_r]. }
  assert (blocks (granted s n Tag None) !! allocs s = Some (mkBlock (base + n) (header Tag) None)) as Hg
    by (rewrite <- request_fits by done; apply lookup_insert_eq).
  split.
  { intros o k Ho Hk. unfold offset_by. eapply write_range_outside; [exact Hg|cbn; lia]. }
  intros ws Hws. exists (granted s n Tag None). split; [by eapply caller_writes_ok|]. split; [|split].
  - intros b Hne. cbn in *. by apply lookup_insert_ne.
  - eexists. split; [eapply free_plain; [done|exact Hg|lia]|]. cbn. by rewrite delete_insert_id.
  - intros HD Ht. eapply free_wrong_tag; [done|exact Hg|lia|done].
Qed.

End HeapFacts.

(** In debug builds the request is the byte count plus the header size,
    without an overflow check: for a byte count of 2^64 - 16 or more the sum
    wraps and the heap is asked for fewer than 16 bytes.  Below four of them the
    tag is written outside the block; otherwise a pointer is returned at which not
    one byte can be written. *)
Theorem debug_alloc_overflow `{!WinOs} s n Tag :
  Heap s = true -> AllocFailDenominator s = 0 -> 2 ^ 64 - AllocOffset <= n < 2 ^ 64 ->
  HeapAlloc_ok (allocs s) (n + AllocOffset - 2 ^ 64) = true ->
  if n <? 2 ^ 64 - AllocOffset + 4 then CxPlatAlloc true n Tag s = Fault BadAccess
  else exists p s1, CxPlatAlloc true n Tag s = Ret (Some p) s1 /\
    forall o k, 0 <= o -> 0 < k -> write_range (offset_by p o) k s1 = Fault BadAccess.
Proof.
  intros Hh Hd Hn Hok.
  assert (CxPlatAlloc true n Tag s = alloc_tagged n Tag s) as ->.
  { unfold CxPlatAlloc, CXPLAT_DBG_ASSERT, AllocOffset in *. destruct s; cbn in Hh, Hd; subst.
    rewrite (proj2 (Z.eqb_neq n 0)) by lia. done. }
  assert (u64 (n + AllocOffset) = n + AllocOffset - 2 ^ 64) as Hr.
  { unfold AllocOffset, wrap in *. rewrite <- (Z_mod_plus_full _ (-1)). rewrite Z.mod_small; lia. }
  unfold AllocOffset in *. destruct (Z.ltb_spec n (2 ^ 64 - 16 + 4)).
  - unfold alloc_tagged, HeapAlloc, write_tag, AllocOffset.
    erewrite bind_Ret by (rewrite Hh; cbv zeta; by rewrite Hr, Hok).
    cbv beta iota. apply bind_Fault, bind_Fault. unfold access. cbn [fst snd blocks set_blocks].
    rewrite lookup_insert_eq. cbn [b_bytes]. by rewrite (proj2 (Z.leb_gt (0 + 4) _)), andb_false_r by lia.
  - eexists _, _. split; [apply alloc_tagged_ok; unfold AllocOffset; [done|lia|by rewrite Hr]|].
    intros o k Ho Hk. eapply write_range_outside; [apply lookup_insert_eq|]. unfold AllocOffset. cbn [snd]. lia.
Qed.

(** Failure injection of debug builds.  After a negative denominator -N is
    set, the k-th allocation fails without reaching the heap exactly when N
    divides k.  With a positive denominator D an allocation fails exactly when
    the random number leaves remainder 1, so with D = 1 none is made to fail
    and not all of them, as one in one. *)
Theorem failure_injection_pattern `{!WinOs} s n Tag N k D :
  Heap s = true -> n <> 0 -> 0 < N < 2 ^ 31 -> 0 < k < 2 ^ 31 -> 0 < D < 2 ^ 31 ->
  (Z.divide N k ->
     CxPlatAlloc true n Tag (set_inject (- N) (k - 1) s) = Ret None (set_inject (- N) k s)) /\
  (~ Z.divide N k ->
     CxPlatAlloc true n Tag (set_inject (- N) (k - 1) s) = alloc_tagged n Tag (set_inject (- N) k s)) /\
  (CxPlatAlloc true n Tag (set_inject D 0 s) =
     if Rand (draws s) mod D =? 1 then Ret None (set_draws (S (draws s)) (set_inject D 0 s))
     else alloc_tagged n Tag (set_draws (S (draws s)) (set_inject D 0 s))) /\
  (D = 1 -> (Rand (draws s) mod D =? 1) = false).
Proof.
  intros Hh Hn HN Hk HD.
  assert (inject_failure 32 (- N) (k - 1) (Rand (draws s)) = (k, Z.rem k (- N) =? 0)) as Hi.
  { unfold inject_failure. rewrite (proj2 (Z.ltb_ge 0 (- N))), (proj2 (Z.ltb_lt (- N) 0)) by lia.
    replace (k - 1 + 1) with k by lia. by rewrite sgn_small by (unfold is_s; lia). }
  assert ((Z.rem k (- N) =? 0) = true <-> Z.divide N k) as Hdiv.
  { rewrite Z.eqb_eq, Z.rem_opp_r', Z.rem_divide by lia. done. }
  assert (CxPlatAlloc true n Tag (set_inject (- N) (k - 1) s) =
    if Z.rem k (- N) =? 0 then Ret None (set_inject (- N) k s)
    else alloc_tagged n Tag (set_inject (- N) k s)) as Ha.
  { unfold CxPlatAlloc, gets, get, modify, CXPLAT_DBG_ASSERT. destruct s; cbn in Hh, Hi; subst. stp.
    rewrite (proj2 (Z.eqb_neq n 0)) by done. stp. rewrite Hi. stp.
    rewrite (proj2 (Z.ltb_ge 0 (- N))) by lia. stp. by destruct (Z.rem k (- N) =? 0). }
  repeat split.
  - intros Hd. rewrite Ha. by rewrite (proj2 Hdiv Hd).
  - intros Hd. rewrite Ha. destruct (Z.rem k (- N) =? 0) eqn:E; [|done]. by destruct Hd; apply Hdiv.
  - unfold CxPlatAlloc, gets, get, modify, CXPLAT_DBG_ASSERT. destruct s; cbn in Hh; subst. stp.
    rewrite (proj2 (Z.eqb_neq n 0)) by done. stp. unfold inject_failure.
    rewrite (proj2 (Z.ltb_lt 0 D)) by lia. stp. by destruct (_ =? 1).
  - intros ->. by rewrite Z.mod_1_r.
Qed.

(** ** Processor information *)

Section ProcInfo.
Context `{!WinOs}.
Variable DEBUG : bool.

(** The tables in memory. *)
Definition group_entry (s : win) (i : nat) : option CXPLAT_PROCESSOR_GROUP_INFO :=
  match CxPlatProcessorGroupInfo s with
  | Some p => match blocks s !! p.1 with
              | Some (mkBlock _ _ (Some (_, VGroups l))) => mjoin (l !! i)
              | _ => None
              end
  | None => None
  end.

Definition proc_entry (s : win) (p : nat) : option CXPLAT_PROCESSOR_INFO :=
  match CxPlatProcessorInfo s with
  | Some q => match blocks s !! q.1 with
              | Some (mkBlock _ _ (Some (_, VProcs l))) => mjoin (l !! p)
              | _ => None
              end
  | None => None
  end.

(** The state before the tables are built: a heap, no injection, no tables. *)
Record ready (s : win) : Prop := {
  rd_heap : Heap s = true;
  rd_inject : AllocFailDenominator s = 0;
  rd_procs : CxPlatProcessorInfo s = None;
  rd_groups : CxPlatProcessorGroupInfo s = None;
  rd_fresh k : (allocs s <= k)%nat -> blocks s !! k = None
}.

(** An answer of [GetLogicalProcessorInformationEx] the code accepts. *)
Record plausible (g : GROUP_RELATIONSHIP) (gs : list PROCESSOR_GROUP_INFO) : Prop := {
  pl_active : ActiveGroupCount g = Z.of_nat (length gs);
  pl_max : ActiveGroupCount g <= MaximumGroupCount g < 2 ^ 16;
  pl_list : exists tl, GroupInfo g = gs ++ tl;
  pl_counts : counts_ok gs;
  pl_total : 0 < total gs <= UINT16_MAX
}.

Lemma active_groups_ok g gs s : plausible g gs -> active_groups g s = Ret gs s.
Proof.
  intros [Ha _ [tl Hl] _ _]. unfold active_groups. rewrite Ha, Hl, length_app.
  rewrite (proj2 (Z.leb_le _ _)) by lia. by rewrite Nat2Z.id, take_app_length.
Qed.

Lemma plausible_nonempty g gs : plausible g gs -> gs <> [].
Proof. intros [_ _ _ _ Ht] ->. cbn in Ht. lia. Qed.

Lemma dbg_assert_true s b : b = true -> CXPLAT_DBG_ASSERT DEBUG b s = Ret tt s.
Proof. intros ->. by unfold CXPLAT_DBG_ASSERT; destruct DEBUG. Qed.

(** The state the body of the initialization leaves: the three blocks. *)
Definition built (s : win) (g : GROUP_RELATIONSHIP) (gs : list PROCESSOR_GROUP_INFO) : win :=
  mkWin (Heap s) (AllocFailDenominator s) (AllocCounter s) (CxPlatPerfFreq s)
    (Some (S (allocs s), base DEBUG)) (Some (S (S (allocs s)), base DEBUG)) (total gs)
    (<[S (allocs s) := mkBlock (request DEBUG (total gs * 8)) (header DEBUG CXPLAT_POOL_PROC)
         (Some (base DEBUG, VProcs (map (fun p => locate (Z.of_nat p) 0 0 gs) (seq 0 (Z.to_nat (total gs))))))]>
     (<[S (S (allocs s)) := mkBlock (request DEBUG (ActiveGroupCount g * 16))
          (header DEBUG CXPLAT_POOL_PROC) (Some (base DEBUG, VGroups (map Some (table 0 gs))))]>
      (<[allocs s := mkBlock (request DEBUG info_length) (header DEBUG CXPLAT_POOL_TMP_ALLOC)
           (Some (base DEBUG, VInfo (Some g)))]> (blocks s))))
    (S (S (S (allocs s)))) (draws s).

(** The temporary block, once it is filled. *)
Definition informed (s : win) (g : GROUP_RELATIONSHIP) : win :=
  set_blocks (<[allocs s := mkBlock (request DEBUG info_length)
      (header DEBUG CXPLAT_POOL_TMP_ALLOC) (Some (base DEBUG, VInfo (Some g)))]> (blocks s))
    (set_allocs (S (allocs s)) s).

Lemma fits_info : info_length <> 0 -> fits info_length.
Proof. intros Hl. pose proof info_length_range as Hr. unfold is_u, fits, AllocOffset in *. lia. Qed.

Lemma fits_groups g gs : plausible g gs -> fits (ActiveGroupCount g * 16).
Proof.
  intros Hg. pose proof (pl_active _ _ Hg) as Ha. pose proof (pl_max _ _ Hg).
  assert (gs <> []) by (intros ->; pose proof (pl_total _ _ Hg) as Ht; cbn in Ht; lia).
  unfold fits, AllocOffset. destruct gs; [done|]. cbn in Ha. lia.
Qed.

Lemma fits_procs g gs : plausible g gs -> fits (total gs * 8).
Proof. intros Hg. pose proof (pl_total _ _ Hg). unfold fits, AllocOffset, UINT16_MAX in *. lia. Qed.

Lemma get_group_info_ok s g :
  ready s -> info = Some g -> info_length <> 0 ->
  HeapAlloc_ok (allocs s) (request DEBUG info_length) = true ->
  CxPlatGetProcessorGroupInfo DEBUG None s = Ret (S_OK, Some (allocs s, base DEBUG)) (informed s g).
Proof.
  intros Hr Hi Hl Hok. unfold CxPlatGetProcessorGroupInfo.
  rewrite (proj2 (Z.eqb_neq _ 0)) by done.
  erewrite bind_Ret by (apply (alloc_granted DEBUG); [apply Hr|apply Hr|by apply fits_info|done]).
  rewrite Hi. erewrite bind_Ret by (eapply write_view_ok; [apply lookup_insert_eq|by apply inside_base, fits_info]).
  unfold informed, granted, set_blocks, set_allocs. cbn. by rewrite insert_insert_eq.
Qed.

(** The first half: the group information is read and accepted. *)
Lemma body_first_half s g gs :
  ready s -> info = Some g -> info_length <> 0 ->
  HeapAlloc_ok (allocs s) (request DEBUG info_length) = true -> plausible g gs ->
  ProcessorInfoInit_body DEBUG s =
    build_tables DEBUG g gs (total gs) (Some (allocs s, base DEBUG)) (informed s g).
Proof.
  intros Hr Hi Hl Hok Hg. unfold ProcessorInfoInit_body.
  rewrite (bind_Ret _ _ _ _ _ (get_group_info_ok s g Hr Hi Hl Hok)).
  destruct (pl_total _ _ Hg) as [Ht0 Ht1]. unfold UINT16_MAX in Ht1.
  pose proof (pl_active _ _ Hg) as Ha. pose proof (pl_max _ _ Hg) as Hmax.
  pose proof (plausible_nonempty _ _ Hg) as Hne.
  assert (0 < ActiveGroupCount g) as Hpos by (destruct gs; [done|]; rewrite Ha; cbn; lia).
  change (CXPLAT_FAILED S_OK) with false. cbv iota.
  erewrite bind_Ret by (apply dbg_assert_true; by apply negb_true_iff, Z.eqb_neq).
  unfold deref. rewrite (bind_Ret _ _ _ _ _ (ret_app _ _)).
  erewrite (bind_Ret (read_info _)).
  2:{ unfold read_info. erewrite bind_Ret
        by (eapply read_view_ok; [apply lookup_insert_eq|by apply inside_base, fits_info]). done. }
  erewrite bind_Ret by (apply dbg_assert_true; by rewrite info_relationship).
  erewrite bind_Ret by (apply dbg_assert_true; apply negb_true_iff, Z.eqb_neq; lia).
  erewrite bind_Ret by (apply dbg_assert_true, Z.leb_le; lia).
  rewrite (proj2 (Z.eqb_neq _ 0)) by lia.
  erewrite bind_Ret by (by apply active_groups_ok).
  rewrite count_processors_total by (apply Hg || lia).
  erewrite bind_Ret by (apply dbg_assert_true, Z.ltb_lt; lia).
  erewrite bind_Ret by (apply dbg_assert_true, Z.leb_le; done).
  by rewrite (proj2 (Z.eqb_neq _ 0)), (proj2 (Z.ltb_ge UINT16_MAX _)) by (unfold UINT16_MAX; lia).
Qed.

(** The second half: allocation of the tables, and the two loops. *)
Lemma build_tables_ok s g gs :
  ready s -> plausible g gs ->
  HeapAlloc_ok (S (allocs s)) (request DEBUG (total gs * 8)) = true ->
  HeapAlloc_ok (S (S (allocs s))) (request DEBUG (ActiveGroupCount g * 16)) = true ->
  build_tables DEBUG g gs (total gs) (Some (allocs s, base DEBUG)) (informed s g) =
    Ret (S_OK, Some (allocs s, base DEBUG)) (built s g gs).
Proof.
  intros Hr Hg Hok1 Hok2. destruct (pl_total _ _ Hg) as [Ht0 Ht1]. unfold UINT16_MAX in Ht1.
  pose proof (pl_active _ _ Hg) as Ha. pose proof (pl_max _ _ Hg) as Hmax.
  pose proof (plausible_nonempty _ _ Hg) as Hne.
  assert (0 < ActiveGroupCount g) as Hpos by (destruct gs; [done|]; rewrite Ha; cbn; lia).
  unfold build_tables, sizeof_PROCESSOR_INFO, sizeof_PROCESSOR_GROUP_INFO.
  erewrite (bind_Ret (gets CxPlatProcessorInfo)) by done.
  erewrite bind_Ret by (cbn; rewrite (rd_procs _ Hr); by rewrite bool_decide_eq_true_2).
  erewrite bind_Ret by (apply (alloc_granted DEBUG); [apply Hr|apply Hr|by eapply fits_procs|exact Hok1]).
  erewrite (bind_Ret (modify _)) by done.
  erewrite (bind_Ret (gets CxPlatProcessorGroupInfo)) by done.
  erewrite bind_Ret
    by (apply dbg_assert_true; cbn; rewrite (rd_groups _ Hr); by rewrite bool_decide_eq_true_2).
  erewrite bind_Ret by (apply (alloc_granted DEBUG); [apply Hr|apply Hr|by eapply fits_groups|exact Hok2]).
  erewrite (bind_Ret (modify _)) by done.
  erewrite (bind_Ret (modify (set_count 0))) by done.
  erewrite bind_Ret.
  2:{ eapply (fill_groups_ok gs _ _ _ 0 _ _ []); [done|by eapply inside_base, fits_groups|done| |apply Hg|cbn; lia|cbn; lia].
      cbn. rewrite lookup_insert_eq, Ha, Nat2Z.id. done. }
  erewrite bind_Ret.
  2:{ eapply (fill_procs_ok gs _ (S (S (allocs s))) (S (allocs s)) _ _ _ []); try done.
      - by eapply inside_base, fits_groups.
      - by eapply inside_base, fits_procs.
      - cbn. by rewrite lookup_insert_eq.
      - cbn. rewrite lookup_insert_ne, lookup_insert_ne, lookup_insert_eq by lia. done.
      - apply Hg.
      - lia.
      - lia.
      - cbn. lia. }
  rewrite ret_app. f_equal. apply win_ext; try reflexivity.
  cbn [blocks built set_blocks set_count set_groups set_procs set_allocs granted allocs informed].
  change (CxPlatProcessorCount _) with 0.
  rewrite insert_insert_eq, (insert_insert_ne _ (S (allocs s)) (S (S (allocs s)))) by lia.
  rewrite insert_insert_eq, Ha. by apply insert_insert_ne.
Qed.

(** The state after the initialization: the temporary block is gone. *)
Definition initialized (s : win) (g : GROUP_RELATIONSHIP) (gs : list PROCESSOR_GROUP_INFO) : win :=
  set_blocks (delete (allocs s) (blocks (built s g gs))) (built s g gs).

Lemma init_ok s g gs :
  ready s -> info = Some g -> info_length <> 0 -> plausible g gs ->
  HeapAlloc_ok (allocs s) (request DEBUG info_length) = true ->
  HeapAlloc_ok (S (allocs s)) (request DEBUG (total gs * 8)) = true ->
  HeapAlloc_ok (S (S (allocs s))) (request DEBUG (ActiveGroupCount g * 16)) = true ->
  CxPlatProcessorInfoInit DEBUG s = Ret S_OK (initialized s g gs).
Proof.
  intros Hr Hi Hl Hg Hok0 Hok1 Hok2. unfold CxPlatProcessorInfoInit.
  erewrite bind_Ret by (by rewrite (body_first_half s g gs), build_tables_ok). cbn [fst snd].
  unfold ProcessorInfoInit_exit. erewrite bind_Ret.
  2:{ eapply free_plain; [apply Hr| |by apply base_le, fits_info]. cbn.
      rewrite lookup_insert_ne, lookup_insert_ne by lia. apply lookup_insert_eq. }
  done.
Qed.

(** The three ways in which memory can run out. *)
Definition no_tables (s s' : win) : Prop :=
  CxPlatProcessorInfo s' = None /\ CxPlatProcessorGroupInfo s' = None /\ blocks s' = blocks s /\
  Heap s' = Heap s.

Lemma init_no_info s :
  ready s -> info_length = 0 \/ HeapAlloc_ok (allocs s) (request DEBUG info_length) = false ->
  exists Status s', CxPlatProcessorInfoInit DEBUG s = Ret Status s' /\ Status < 0 /\ no_tables s s'.
Proof.
  intros Hr Hc.
  assert (exists Status s', ProcessorInfoInit_body DEBUG s = Ret (Status, None) s' /\ Status < 0 /\
    no_tables s s') as (Status & s' & Hb & Hneg & Hnt & Hnt' & Hrest).
  { unfold ProcessorInfoInit_body, CxPlatGetProcessorGroupInfo.
    destruct (Z.eqb_spec info_length 0) as [Hz|Hz].
    - pose proof (HRESULT_FROM_WIN32_failed GetLastError GetLastError_pos).
      exists (HRESULT_FROM_WIN32 GetLastError), s.
      rewrite (bind_Ret _ _ _ _ _ (ret_app _ _)). unfold CXPLAT_FAILED.
      rewrite (proj2 (Z.ltb_lt _ _)) by done. destruct Hr. done.
    - destruct Hc as [?|Hf]; [done|].
      exists E_OUTOFMEMORY, (set_allocs (S (allocs s)) s). split; [|destruct Hr; done].
      rewrite (bind_Ret _ _ s (E_OUTOFMEMORY, None) (set_allocs (S (allocs s)) s)); [done|].
      by erewrite bind_Ret by (apply (alloc_refused DEBUG); [apply Hr|apply Hr|by apply fits_info|exact Hf]). }
  exists Status, s'. split; [|done]. unfold CxPlatProcessorInfoInit.
  rewrite (bind_Ret _ _ _ _ _ Hb). cbn [fst snd]. unfold ProcessorInfoInit_exit, CXPLAT_FAILED.
  rewrite (proj2 (Z.ltb_lt _ _)) by done. unfold gets. stp. rewrite Hnt'. stp.
  by rewrite Hnt.
Qed.

Lemma init_no_procs s g gs :
  ready s -> info = Some g -> info_length <> 0 -> plausible g gs ->
  HeapAlloc_ok (allocs s) (request DEBUG info_length) = true ->
  HeapAlloc_ok (S (allocs s)) (request DEBUG (total gs * 8)) = false ->
  exists Status s', CxPlatProcessorInfoInit DEBUG s = Ret Status s' /\ Status < 0 /\ no_tables s s'.
Proof.
  intros Hr Hi Hl Hg Hok0 Hok1. destruct (pl_total _ _ Hg) as [Ht0 Ht1].
  exists E_OUTOFMEMORY. unfold CxPlatProcessorInfoInit. eexists. split; [|split; [done|]].
  - erewrite bind_Ret.
    2:{ rewrite (body_first_half s g gs) by done. unfold build_tables, sizeof_PROCESSOR_INFO.
        erewrite (bind_Ret (gets CxPlatProcessorInfo)) by done.
        erewrite bind_Ret by (cbn; rewrite (rd_procs _ Hr); by rewrite bool_decide_eq_true_2).
        erewrite bind_Ret by (apply (alloc_refused DEBUG); [apply Hr|apply Hr|by eapply fits_procs|exact Hok1]).
        by erewrite (bind_Ret (modify _)) by done. }
    cbn [fst snd]. unfold ProcessorInfoInit_exit.
    erewrite bind_Ret by (eapply free_plain; [apply Hr|apply lookup_insert_eq|by apply base_le, fits_info]).
    change (CXPLAT_FAILED E_OUTOFMEMORY) with true. unfold gets. stp.
    rewrite (rd_groups _ Hr). stp. done.
  - split; [done|]. split; [exact (rd_groups _ Hr)|]. split; [|done]. cbn.
    rewrite delete_insert_id; [done|]. by apply (rd_fresh _ Hr).
Qed.

Lemma init_no_groups s g gs :
  ready s -> info = Some g -> info_length <> 0 -> plausible g gs ->
  HeapAlloc_ok (allocs s) (request DEBUG info_length) = true ->
  HeapAlloc_ok (S (allocs s)) (request DEBUG (total gs * 8)) = true ->
  HeapAlloc_ok (S (S (allocs s))) (request DEBUG (ActiveGroupCount g * 16)) = false ->
  exists Status s', CxPlatProcessorInfoInit DEBUG s = Ret Status s' /\ Status < 0 /\ no_tables s s'.
Proof.
  intros Hr Hi Hl Hg Hok0 Hok1 Hok2. destruct (pl_total _ _ Hg) as [Ht0 Ht1].
  pose proof (pl_active _ _ Hg) as Ha. pose proof (plausible_nonempty _ _ Hg) as Hne.
  assert (0 < ActiveGroupCount g) as Hpos by (destruct gs; [done|]; rewrite Ha; cbn; lia).
  exists E_OUTOFMEMORY. unfold CxPlatProcessorInfoInit. eexists. split; [|split; [done|]].
  - erewrite bind_Ret.
    2:{ rewrite (body_first_half s g gs) by done.
        unfold build_tables, sizeof_PROCESSOR_INFO, sizeof_PROCESSOR_GROUP_INFO.
        erewrite (bind_Ret (gets CxPlatProcessorInfo)) by done.
        erewrite bind_Ret by (cbn; rewrite (rd_procs _ Hr); by rewrite bool_decide_eq_true_2).
        erewrite bind_Ret by (apply (alloc_granted DEBUG); [apply Hr|apply Hr|by eapply fits_procs|exact Hok1]).
        erewrite (bind_Ret (modify _)) by done.
        erewrite (bind_Ret (gets CxPlatProcessorGroupInfo)) by done.
        erewrite bind_Ret
          by (apply dbg_assert_true; cbn; rewrite (rd_groups _ Hr); by rewrite bool_decide_eq_true_2).
        erewrite bind_Ret by (apply (alloc_refused DEBUG); [apply Hr|apply Hr|by eapply fits_groups|exact Hok2]).
        by erewrite (bind_Ret (modify _)) by done. }
    cbn [fst snd]. unfold ProcessorInfoInit_exit.
    erewrite bind_Ret.
    2:{ eapply free_plain; [apply Hr| |by apply base_le, fits_info]. cbn. rewrite lookup_insert_ne by lia. apply lookup_insert_eq. }
    change (CXPLAT_FAILED E_OUTOFMEMORY) with true.
    erewrite bind_Ret; [done|].
    erewrite (bind_Ret (gets CxPlatProcessorGroupInfo)) by done.
    erewrite bind_Ret by done.
    erewrite (bind_Ret (gets CxPlatProcessorInfo)) by done.
    change (CxPlatProcessorInfo (set_blocks _ _)) with (Some (S (allocs s), base DEBUG)). cbv iota.
    erewrite bind_Ret.
    2:{ eapply free_plain; [apply Hr| |by eapply base_le, fits_procs]. cbn. rewrite lookup_delete_ne by lia. apply lookup_insert_eq. }
    done.
  - split; [done|]. split; [done|]. split; [|done]. cbn.
    assert (blocks s !! allocs s = None /\ blocks s !! S (allocs s) = None) as [Hf0 Hf1]
      by (split; apply (rd_fresh _ Hr); lia).
    rewrite delete_insert_ne by lia. rewrite (delete_insert_id (blocks s)) by done.
    by apply delete_insert_id.
Qed.

(** The entries of the tables in the initialized state. *)
Lemma group_entry_init s g gs j : group_entry (initialized s g gs) j = table 0 gs !! j.
Proof.
  unfold group_entry. cbn. rewrite lookup_delete_ne, lookup_insert_ne, lookup_insert_eq by lia.
  rewrite list_lookup_fmap. by destruct (table 0 gs !! j).
Qed.

Lemma proc_entry_init s g gs p :
  (p < Z.to_nat (total gs))%nat ->
  proc_entry (initialized s g gs) p = locate (Z.of_nat p) 0 0 gs.
Proof.
  intros Hp. unfold proc_entry. cbn. rewrite lookup_delete_ne, lookup_insert_eq by lia.
  rewrite list_lookup_fmap, lookup_seq_lt by lia. done.
Qed.

Lemma total_take_le gs j g :
  counts_ok gs -> gs !! j = Some g ->
  0 <= total (take j gs) /\ total (take j gs) + ActiveProcessorCount g <= total gs.
Proof.
  intros Hc Hj. split; [apply total_nonneg; by apply Forall_take|].
  rewrite <- (take_drop j gs) at 2. rewrite total_app, (drop_S gs g j Hj). cbn.
  assert (0 <= total (drop (S j) gs)) by (apply total_nonneg; by apply Forall_drop). lia.
Qed.

(** A processor of a group has its entry at the group's offset. *)
Lemma proc_of_group s g gs j ge i :
  plausible g gs -> table 0 gs !! j = Some ge -> 0 <= i < Count ge ->
  0 <= Offset ge + i < total gs /\
  proc_entry (initialized s g gs) (Z.to_nat (Offset ge + i)) = Some (mkProc i (Z.of_nat j)).
Proof.
  intros Hg Hj Hi. pose proof (pl_counts _ _ Hg) as Hc.
  destruct (gs !! j) as [x|] eqn:Hx.
  2:{ apply lookup_ge_None in Hx. apply lookup_lt_Some in Hj. rewrite length_table in Hj. lia. }
  rewrite (table_lookup gs 0 j x Hx) in Hj. injection Hj as <-. cbn [Count Offset] in *.
  destruct (total_take_le gs j x Hc Hx). split; [lia|].
  rewrite proc_entry_init by lia. rewrite Z2Nat.id by lia.
  rewrite (locate_found gs 0 0 _ j x Hc Hx) by lia. do 2 f_equal; lia.
Qed.

End ProcInfo.

(** C7: the processor tables.  When the three allocations succeed, the
    initialization returns success with [CxPlatProcessorCount] the number of
    active processors; every processor number below it has an entry whose group
    offset plus index is that number, with the index below the group's count;
    every index of every group is the entry of exactly that number; and the
    temporary buffer has been freed: no block differs but the two tables. *)
Theorem proc_tables_bijective `{!WinOs} DEBUG s g gs :
  ready s -> info = Some g -> info_length <> 0 -> plausible g gs ->
  HeapAlloc_ok (allocs s) (request DEBUG info_length) = true ->
  HeapAlloc_ok (S (allocs s)) (request DEBUG (total gs * 8)) = true ->
  HeapAlloc_ok (S (S (allocs s))) (request DEBUG (ActiveGroupCount g * 16)) = true ->
  exists s', CxPlatProcessorInfoInit DEBUG s = Ret S_OK s' /\ CxPlatProcessorCount s' = total gs /\
    (forall p, 0 <= p < total gs -> exists x ge,
       proc_entry s' (Z.to_nat p) = Some x /\ group_entry s' (Z.to_nat (Group x)) = Some ge /\
       0 <= Index x < Count ge /\ Offset ge + Index x = p) /\
    (forall j ge i, group_entry s' j = Some ge -> 0 <= i < Count ge ->
       proc_entry s' (Z.to_nat (Offset ge + i)) = Some (mkProc i (Z.of_nat j))) /\
    (forall b, Some b <> fst <$> CxPlatProcessorInfo s' -> Some b <> fst <$> CxPlatProcessorGroupInfo s' ->
       blocks s' !! b = blocks s !! b).
Proof.
  intros Hr Hi Hl Hg Hok0 Hok1 Hok2. exists (initialized DEBUG s g gs).
  pose proof (pl_counts _ _ Hg) as Hc.
  split; [by apply init_ok|]. split; [done|]. split; [|split].
  - intros p Hp. destruct (in_some_group gs 0 p Hc) as (j & x & Hj & Hx); [lia|].
    exists (mkProc (p - (0 + total (take j gs))) (Z.of_nat (0 + j))). eexists.
    rewrite proc_entry_init, Z2Nat.id by lia. split; [by apply (locate_found gs 0 0 p j x)|].
    rewrite group_entry_init. cbn [Group Index Nat.add]. rewrite Nat2Z.id.
    rewrite (table_lookup gs 0 j x Hj). split; [done|]. cbn. lia.
  - intros j ge i Hj Hi'. rewrite group_entry_init in Hj. by eapply proc_of_group.
  - intros b Hb1 Hb2. cbn in *. destruct (decide (b = allocs s)) as [->|].
    + rewrite lookup_delete_eq. symmetry. by apply (rd_fresh _ Hr).
    + rewrite lookup_delete_ne, !lookup_insert_ne; congruence.
Qed.

(** What [CxPlatProcCurrentNumber] computes from the tables. *)
Lemma current_number_eq `{!WinOs} DEBUG s g gs j ge Number :
  plausible g gs -> group_entry (initialized DEBUG s g gs) j = Some ge -> 0 < Count ge -> 0 <= Number ->
  0 <= Offset ge + Number mod Count ge < total gs /\
  CxPlatProcCurrentNumber (Z.of_nat j) Number (initialized DEBUG s g gs) =
    Ret (Offset ge + Number mod Count ge) (initialized DEBUG s g gs).
Proof.
  intros Hg Hj Hc Hn. pose proof (Z.mod_pos_bound Number (Count ge) Hc) as Hm.
  rewrite group_entry_init in Hj.
  destruct (proc_of_group DEBUG s g gs j ge (Number mod Count ge) Hg Hj Hm) as [Hr1 _]. split; [exact Hr1|].
  unfold CxPlatProcCurrentNumber. rewrite Nat2Z.id. erewrite bind_Ret.
  2:{ eapply (read_group_ok _ _ _ j _ _ (map Some (table 0 gs)) ge); [done| | |].
      - cbn. by rewrite lookup_delete_ne, lookup_insert_ne, lookup_insert_eq by lia.
      - by eapply inside_base, fits_groups.
      - by rewrite list_lookup_fmap, Hj. }
  rewrite (proj2 (Z.eqb_neq _ 0)) by lia. pose proof (pl_total _ _ Hg). unfold UINT16_MAX in *.
  by rewrite wrap_small by (unfold is_u; lia).
Qed.

(** [CxPlatProcCurrentNumber] is in range.  After initialization, for a
    thread running in any group that has processors, whatever number the system
    reports within the group, the result is below [CxPlatProcessorCount] and is
    the processor whose table entry is that group and that number modulo the
    group's count. *)
Theorem current_number_in_range `{!WinOs} DEBUG s g gs j ge Number :
  ready s -> plausible g gs ->
  group_entry (initialized DEBUG s g gs) j = Some ge -> 0 < Count ge -> 0 <= Number ->
  exists n, CxPlatProcCurrentNumber (Z.of_nat j) Number (initialized DEBUG s g gs) =
      Ret n (initialized DEBUG s g gs) /\
    0 <= n < CxPlatProcessorCount (initialized DEBUG s g gs) /\
    proc_entry (initialized DEBUG s g gs) (Z.to_nat n) = Some (mkProc (Number mod Count ge) (Z.of_nat j)).
Proof.
  intros Hr Hg Hj Hc Hn. pose proof (Z.mod_pos_bound Number (Count ge) Hc) as Hm.
  destruct (current_number_eq DEBUG s g gs j ge Number Hg Hj Hc Hn) as [Hr1 Hcur].
  exists (Offset ge + Number mod Count ge). split; [exact Hcur|]. split; [exact Hr1|].
  rewrite group_entry_init in Hj. by apply (proc_of_group DEBUG s g gs j ge (Number mod Count ge) Hg Hj Hm).
Qed.

(** [CxPlatProcessorInfoInit] frees its buffer twice when the second call of
    [GetLogicalProcessorInformationEx] fails: [CxPlatGetProcessorGroupInfo]
    frees it but leaves the pointer set, and the exit code frees it again. *)
Theorem info_freed_twice `{!WinOs} DEBUG s :
  ready s -> info = None -> info_length <> 0 ->
  HeapAlloc_ok (allocs s) (request DEBUG info_length) = true ->
  CxPlatProcessorInfoInit DEBUG s = Fault (if DEBUG then BadAccess else DoubleFree).
Proof.
  intros Hr Hi Hl Hok. unfold CxPlatProcessorInfoInit, ProcessorInfoInit_body.
  pose proof (HRESULT_FROM_WIN32_failed GetLastError GetLastError_pos).
  erewrite bind_Ret.
  2:{ erewrite bind_Ret.
      2:{ unfold CxPlatGetProcessorGroupInfo. rewrite (proj2 (Z.eqb_neq _ 0)) by done.
          erewrite bind_Ret by (apply (alloc_granted DEBUG); [apply Hr|apply Hr|by apply fits_info|done]).
          rewrite Hi.
          by erewrite bind_Ret by (eapply free_plain; [apply Hr|apply lookup_insert_eq|by apply base_le, fits_info]). }
      unfold CXPLAT_FAILED. by rewrite (proj2 (Z.ltb_lt _ _)). }
  unfold ProcessorInfoInit_exit. cbn [fst snd]. apply bind_Fault.
  unfold CxPlatFree, HeapFree, read_tag, access. destruct DEBUG; stp; rewrite lookup_delete_eq; [done|].
  by rewrite (rd_heap _ Hr).
Qed.

(** The state of the globals before the first initialization, and after every
    uninitialization. *)
Record pristine (s : win) : Prop := {
  pr_heap : Heap s = false;
  pr_procs : CxPlatProcessorInfo s = None;
  pr_groups : CxPlatProcessorGroupInfo s = None;
  pr_blocks : blocks s = ∅
}.

Lemma pristine_ready s (f : Z) (c : Z) :
  pristine s -> ready (set_inject 0 c (set_Heap true (set_freq f s))).
Proof. intros [Hh Hp Hq Hb]. split; cbn; try done. intros k _. by rewrite Hb. Qed.

Lemma uninit_ok `{!WinOs} DEBUG s g gs :
  ready s -> plausible g gs -> blocks s = ∅ ->
  exists s', CxPlatUninitialize DEBUG (initialized DEBUG s g gs) = Ret tt s' /\ pristine s'.
Proof.
  intros Hr Hg Hb. unfold CxPlatUninitialize, CxPlatProcessorInfoUnInit. eexists. split.
  - erewrite bind_Ret.
    2:{ erewrite (bind_Ret (gets CxPlatProcessorGroupInfo)) by done.
        erewrite bind_Ret.
        2:{ eapply free_plain; [apply Hr| |by eapply base_le, fits_groups]. cbn.
            rewrite lookup_delete_ne, lookup_insert_ne, lookup_insert_eq by lia. done. }
        erewrite (bind_Ret (modify _)) by done.
        erewrite (bind_Ret (gets CxPlatProcessorInfo)) by done.
        erewrite bind_Ret.
        2:{ eapply free_plain; [apply Hr| |by eapply base_le, fits_procs]. cbn.
            rewrite !lookup_delete_ne, lookup_insert_eq by lia. done. }
        done. }
    unfold HeapDestroy. erewrite bind_Ret; [done|]. cbn. by rewrite (rd_heap _ Hr).
  - done.
Qed.

(** What the documentation says of an answer of [GetLogicalProcessorInformationEx]:
    an entry for every active group, no more of them than the maximum; the counts
    have the widths of the structure. *)
Record well_formed (g : GROUP_RELATIONSHIP) : Prop := {
  wf_active : 0 <= ActiveGroupCount g <= Z.of_nat (length (GroupInfo g));
  wf_max : ActiveGroupCount g <= MaximumGroupCount g < 2 ^ 16;
  wf_counts : Forall (fun x => is_u 8 (ActiveProcessorCount x)) (GroupInfo g)
}.

Definition active_list (g : GROUP_RELATIONSHIP) : list PROCESSOR_GROUP_INFO :=
  take (Z.to_nat (ActiveGroupCount g)) (GroupInfo g).

(** The code supports from 1 to 65535 processors. *)
Definition supported (g : GROUP_RELATIONSHIP) : Prop := 0 < total (active_list g) <= UINT16_MAX.

#[export] Instance supported_dec g : Decision (supported g).
Proof. unfold supported. apply _. Defined.

Lemma well_formed_plausible g : well_formed g -> supported g -> plausible g (active_list g).
Proof.
  intros Hg Hs. destruct Hg as [Ha Hm Hc]. split; try done.
  - unfold active_list. rewrite length_take. lia.
  - exists (drop (Z.to_nat (ActiveGroupCount g)) (GroupInfo g)). symmetry. apply take_drop.
  - apply Forall_take. eapply Forall_impl; [|exact Hc]. unfold is_u. cbn. lia.
Qed.

Lemma total_bound gs : Forall (fun x => is_u 8 (ActiveProcessorCount x)) gs ->
  0 <= total gs <= 255 * Z.of_nat (length gs).
Proof. induction 1 as [|x gs Hx _ IH]; cbn in *; [done|]. unfold is_u in Hx. lia. Qed.

(** A count of processors that is not supported stops a debug build, and is a
    failure with everything released in a release build. *)
Lemma init_unsupported `{!WinOs} DEBUG s g :
  ready s -> info = Some g -> info_length <> 0 -> well_formed g -> ~ supported g ->
  HeapAlloc_ok (allocs s) (request DEBUG info_length) = true ->
  if DEBUG then CxPlatProcessorInfoInit DEBUG s = Stop AssertFailed
  else exists Status s', CxPlatProcessorInfoInit DEBUG s = Ret Status s' /\ Status < 0 /\ no_tables s s'.
Proof.
  intros Hr Hi Hl [Ha Hm Hc] Hs Hok.
  assert (ProcessorInfoInit_body DEBUG s =
    if DEBUG then Stop AssertFailed else Ret (E_NOINTERFACE, Some (allocs s, base DEBUG)) (informed DEBUG s g)) as Hb.
  { unfold ProcessorInfoInit_body.
    rewrite (bind_Ret _ _ _ _ _ (get_group_info_ok DEBUG s g Hr Hi Hl Hok)).
    change (CXPLAT_FAILED S_OK) with false. cbv iota.
    erewrite bind_Ret by (apply dbg_assert_true; by apply negb_true_iff, Z.eqb_neq).
    unfold deref. rewrite (bind_Ret _ _ _ _ _ (ret_app _ _)).
    erewrite (bind_Ret (read_info _)).
    2:{ unfold read_info. erewrite bind_Ret
          by (eapply read_view_ok; [apply lookup_insert_eq|by apply inside_base, fits_info]). done. }
    erewrite bind_Ret by (apply dbg_assert_true; by rewrite info_relationship).
    destruct (Z.eqb_spec (ActiveGroupCount g) 0) as [Hz|Hz]; cbn [negb].
    { unfold CXPLAT_DBG_ASSERT. destruct DEBUG; [done|].
      rewrite !(bind_Ret (mret tt) _ _ _ _ (ret_app _ _)). done. }
    rewrite (bind_Ret _ _ _ _ _ (dbg_assert_true DEBUG _ _ eq_refl)).
    erewrite bind_Ret by (apply dbg_assert_true, Z.leb_le; lia).
    unfold active_groups. rewrite (proj2 (Z.leb_le _ _)) by lia.
    rewrite (bind_Ret _ _ _ _ _ (ret_app _ _)). fold (active_list g).
    assert (Forall (fun x => is_u 8 (ActiveProcessorCount x)) (active_list g)) as Hc' by by apply Forall_take.
    pose proof (total_bound _ Hc') as Ht.
    assert (length (active_list g) = Z.to_nat (ActiveGroupCount g)) as Hlen
      by (unfold active_list; rewrite length_take; lia).
    rewrite count_processors_total; [|eapply Forall_impl; [|exact Hc']; unfold is_u; cbn; lia|lia].
    unfold supported in Hs. unfold CXPLAT_DBG_ASSERT. destruct DEBUG.
    - destruct (Z.ltb_spec 0 (total (active_list g))); [|done].
      rewrite (bind_Ret (fre_assert true) _ _ tt _ eq_refl). by rewrite (proj2 (Z.leb_gt _ _)) by lia.
    - rewrite !(bind_Ret (mret tt) _ _ _ _ (ret_app _ _)).
      destruct (Z.eqb_spec (total (active_list g)) 0); [done|].
      by rewrite (proj2 (Z.ltb_lt _ _)) by lia. }
  unfold CxPlatProcessorInfoInit. destruct DEBUG; [by apply bind_Stop|].
  rewrite (bind_Ret _ _ _ _ _ Hb). cbn [fst snd]. unfold ProcessorInfoInit_exit.
  erewrite bind_Ret by (eapply free_plain; [apply Hr|apply lookup_insert_eq|by apply base_le, fits_info]).
  exists E_NOINTERFACE. eexists. split; [|split; [done|]].
  - change (CXPLAT_FAILED E_NOINTERFACE) with true. unfold gets. stp.
    rewrite (rd_groups _ Hr). stp. rewrite (rd_procs _ Hr). done.
  - destruct Hr as [_ _ Hp Hq Hf]. split; [done|]. split; [done|]. split; [|done]. cbn.
    by rewrite delete_insert_id by (by apply Hf).
Qed.

(** The heap is created and the buffer allocated, but the second call of
    [GetLogicalProcessorInformationEx] fails. *)
Definition second_query_fails `{!WinOs} (DEBUG : bool) (s : win) : Prop :=
  HeapCreate_ok = true /\ info_length <> 0 /\
  HeapAlloc_ok (allocs s) (request DEBUG info_length) = true /\ info = None.

(** What can come of the processor tables, whatever the system answers. *)
Lemma init_cases `{!WinOs} DEBUG s :
  ready s -> (forall g, info = Some g -> well_formed g) ->
  (exists Status s1, CxPlatProcessorInfoInit DEBUG s = Ret Status s1 /\ Status < 0 /\ no_tables s s1 /\
     (info = None -> info_length = 0 \/ HeapAlloc_ok (allocs s) (request DEBUG info_length) = false)) \/
  (exists g, CxPlatProcessorInfoInit DEBUG s = Ret S_OK (initialized DEBUG s g (active_list g)) /\
     plausible g (active_list g) /\ info = Some g) \/
  (CxPlatProcessorInfoInit DEBUG s = Stop AssertFailed /\ DEBUG = true /\
     exists g, info = Some g /\ ~ supported g) \/
  ((exists f, CxPlatProcessorInfoInit DEBUG s = Fault f) /\ info_length <> 0 /\
     HeapAlloc_ok (allocs s) (request DEBUG info_length) = true /\ info = None).
Proof.
  intros Hr Hwf.
  assert (forall P : Prop, P ->
    (exists Status s1, CxPlatProcessorInfoInit DEBUG s = Ret Status s1 /\ Status < 0 /\ no_tables s s1) ->
    exists Status s1, CxPlatProcessorInfoInit DEBUG s = Ret Status s1 /\ Status < 0 /\ no_tables s s1 /\ P) as Hadd
    by (intros P HP (Status & s1 & H1 & H2 & H3); by exists Status, s1).
  destruct (decide (info_length = 0)) as [Hl|Hl]; [left; apply Hadd; auto; apply init_no_info; auto|].
  destruct (HeapAlloc_ok (allocs s) (request DEBUG info_length)) eqn:Hok0;
    [|left; apply Hadd; auto; apply init_no_info; auto].
  destruct info as [g|] eqn:Hi.
  2:{ do 3 right. split; [|done]. eexists. by apply info_freed_twice. }
  specialize (Hwf g eq_refl). destruct (decide (supported g)) as [Hs|Hs].
  2:{ pose proof (init_unsupported DEBUG s g Hr Hi Hl Hwf Hs Hok0) as Hu. destruct DEBUG.
      - right. right. left. split; [done|]. split; [done|]. by exists g.
      - left. by apply Hadd. }
  pose proof (well_formed_plausible g Hwf Hs) as Hg.
  destruct (HeapAlloc_ok (S (allocs s)) (request DEBUG (total (active_list g) * 8))) eqn:Hok1;
    [|left; apply Hadd; [done|by eapply init_no_procs]].
  destruct (HeapAlloc_ok (S (S (allocs s))) (request DEBUG (ActiveGroupCount g * 16))) eqn:Hok2;
    [|left; apply Hadd; [done|by eapply init_no_groups]].
  right. left. exists g. split; [by apply init_ok|done].
Qed.

(** C23: initialization, whatever the system answers to the heap creation, the
    two queries and the allocations.  If it returns a failure the heap has been
    destroyed and no table is left; if it returns success [CxPlatUninitialize]
    releases everything; either way the globals are as before the call, so the
    library can be initialized again.  A debug build stops at an assertion only
    if the system reports no processor or more than 65535.  The one other case,
    and always when it occurs, is a failure of the second query after the buffer
    was allocated: the buffer is freed twice. *)
Theorem initialize_all_or_nothing `{!WinOs} DEBUG s :
  pristine s -> (DEBUG = false -> AllocFailDenominator s = 0) ->
  (forall g, info = Some g -> well_formed g) ->
  match CxPlatInitialize DEBUG s with
  | Ret Status s1 =>
      ~ second_query_fails DEBUG s /\
      if CXPLAT_FAILED Status then pristine s1
      else exists s2, CxPlatUninitialize DEBUG s1 = Ret tt s2 /\ pristine s2
  | Stop _ => DEBUG = true /\ exists g, info = Some g /\ ~ supported g
  | Fault _ => second_query_fails DEBUG s
  | NoFuel => False
  end.
Proof.
  intros Hs Hd Hwf. unfold CxPlatInitialize. rewrite !(bind_Ret (modify _) _ _ tt _ eq_refl).
  unfold second_query_fails. destruct HeapCreate_ok; cbn [negb].
  2:{ rewrite ret_app. split; [by intros [? _]|]. cbn. destruct Hs. by split. }
  set (s0 := set_inject 0 (if DEBUG then 0 else AllocCounter s) (set_Heap true (set_freq PerformanceFrequency s))).
  rewrite (bind_Ret _ _ _ tt s0).
  2:{ unfold s0. destruct DEBUG; [done|]. rewrite <- Hd by done. by destruct s. }
  assert (ready s0) as Hr by (apply pristine_ready, Hs).
  assert (blocks s0 = ∅) as Hb by apply (pr_blocks _ Hs).
  destruct (init_cases DEBUG s0 Hr Hwf) as [Hf|[Hok|[Hstop|Hfault]]].
  - destruct Hf as (Status & s1 & He & Hneg & (Hp & Hq & Hbl & Hh) & Hno). rewrite (bind_Ret _ _ _ _ _ He).
    unfold CXPLAT_FAILED. rewrite (proj2 (Z.ltb_lt _ _)) by done.
    unfold gets, HeapDestroy, modify. stp. rewrite Hh. stp. rewrite Hh. stp. rewrite (proj2 (Z.ltb_lt _ _)) by done. split; [|done].
    intros (_ & Hl & Ha & Hn). destruct (Hno Hn) as [?|Hna]; [done|]. cbn in Hna. congruence.
  - destruct Hok as (g & He & Hg & Hi). rewrite (bind_Ret _ _ _ _ _ He).
    change (CXPLAT_FAILED S_OK) with false. cbv iota. rewrite ret_app.
    split; [intros (_ & _ & _ & ?); congruence|]. by apply uninit_ok.
  - destruct Hstop as (He & HD & Hg). by rewrite (bind_Stop _ _ _ _ He).
  - destruct Hfault as ([f He] & Hrest). rewrite (bind_Fault _ _ _ _ He). done.
Qed.

(** ** Concrete systems, for the witnesses *)

Definition hresult_from_win32 (e : Z) : Z := if e <=? 0 then e else i32 (2147942400 + e mod 65536).

Lemma hresult_failed e : 0 < e -> hresult_from_win32 e < 0.
Proof.
  intros He. unfold hresult_from_win32. rewrite (proj2 (Z.leb_gt _ _)) by done.
  pose proof (Z.mod_pos_bound e 65536 ltac:(lia)). unfold sgn. cbv zeta.
  rewrite Z.mod_small by lia. rewrite (proj2 (Z.ltb_ge _ _)) by (cbn; lia). lia.
Qed.

Lemma u32_64 : is_u 32 64.
Proof. done. Qed.

Lemma error_pos : 0 < 122.
Proof. done. Qed.

(** A system with the given allocation answers and group information. *)
Definition os (ok : nat -> Z -> bool) (i : option GROUP_RELATIONSHIP) : WinOs := {|
  HeapCreate_ok := true; HeapAlloc_ok := ok; PerformanceFrequency := 10000000;
  info_length := 64; info := i; Relationship := RelationGroup; GetLastError := 122;
  HRESULT_FROM_WIN32 := hresult_from_win32; Rand := fun k => Z.of_nat k;
  info_length_range := u32_64; info_relationship := eq_refl; GetLastError_pos := error_pos;
  HRESULT_FROM_WIN32_failed := hresult_failed
|}.

(** Two groups, of two and of three processors. *)
Definition groups23 : list PROCESSOR_GROUP_INFO := [mkGroup 2 2 3; mkGroup 3 4 7].
Definition relation23 : GROUP_RELATIONSHIP := mkRelationship 2 2 groups23.

Lemma plausible23 : plausible relation23 groups23.
Proof.
  split; cbn; try done; try lia.
  - by exists [].
  - repeat constructor; cbn; lia.
Qed.

Definition ready_state : win := mkWin true 0 0 10000000 None None 0 ∅ 0 0.

Lemma ready_state_ready : ready ready_state.
Proof. split; try done. Qed.

Definition pristine_state : win := mkWin false 0 0 0 None None 0 ∅ 0 0.

Lemma alloc_free_roundtrip_witness :
  exists p s1,
    CxPlatAlloc (H := os (fun _ _ => true) None) true 100 CXPLAT_POOL_PROC ready_state = Ret (Some p) s1 /\
    write_range (offset_by p 90) 11 s1 = Fault BadAccess /\
    exists s2, caller_writes p [(0, 50); (50, 50)] s1 = Ret tt s2 /\
      (exists s3, CxPlatFree true (Some p) CXPLAT_POOL_PROC s2 = Ret tt s3 /\ blocks s3 = ∅) /\
      CxPlatFree true (Some p) CXPLAT_POOL_TMP_ALLOC s2 = Stop AssertFailed.
Proof.
  destruct (alloc_free_roundtrip (H := os (fun _ _ => true) None) true ready_state 100
    CXPLAT_POOL_PROC CXPLAT_POOL_TMP_ALLOC eq_refl eq_refl ltac:(done) eq_refl eq_refl)
    as (p & s1 & E & _ & Hout & Hw).
  exists p, s1. split; [exact E|]. split; [apply Hout; lia|].
  destruct (Hw [(0, 50); (50, 50)]) as (s2 & E2 & _ & Hf & Ht); [repeat constructor; cbn; lia|].
  exists s2. split; [exact E2|]. split; [exact Hf|]. by apply Ht.
Defined.

Lemma debug_alloc_overflow_witness :
  exists p s1, CxPlatAlloc (H := os (fun _ _ => true) None) true (2 ^ 64 - 8) 1 ready_state = Ret (Some p) s1 /\
    forall o k, 0 <= o -> 0 < k -> write_range (offset_by p o) k s1 = Fault BadAccess.
Proof.
  exact (debug_alloc_overflow (H := os (fun _ _ => true) None) ready_state (2 ^ 64 - 8) 1
    eq_refl eq_refl ltac:(done) eq_refl).
Defined.

(** The sixth allocation after [CxPlatSetAllocFailDenominator(-6)]. *)
Lemma failure_injection_pattern_witness :
  CxPlatAlloc (H := os (fun _ _ => true) None) true 2 1 (set_inject (-6) 5 ready_state) =
    Ret None (set_inject (-6) 6 ready_state) /\
  (1 = 1 -> (Rand (WinOs := os (fun _ _ => true) None) 0 mod 1 =? 1) = false).
Proof.
  destruct (failure_injection_pattern (H := os (fun _ _ => true) None) ready_state 2 1 6 6 1
    eq_refl ltac:(lia) ltac:(lia) ltac:(lia) ltac:(lia)) as (Hn & _ & _ & Hd).
  split; [apply Hn; by exists 1|exact Hd].
Defined.

Lemma proc_tables_bijective_witness :
  exists s', CxPlatProcessorInfoInit (H := os (fun _ _ => true) (Some relation23)) true ready_state = Ret S_OK s' /\
    CxPlatProcessorCount s' = 5 /\ exists x ge,
       proc_entry s' 3 = Some x /\ group_entry s' (Z.to_nat (Group x)) = Some ge /\
       0 <= Index x < Count ge /\ Offset ge + Index x = 3.
Proof.
  destruct (proc_tables_bijective (H := os (fun _ _ => true) (Some relation23)) true ready_state
    relation23 groups23 ready_state_ready eq_refl ltac:(done) plausible23 eq_refl eq_refl eq_refl)
    as (s' & He & Hc & Hp & _).
  exists s'. split; [exact He|]. split; [exact Hc|]. apply (Hp 3). cbn. lia.
Defined.

Lemma current_number_in_range_witness :
  exists n, CxPlatProcCurrentNumber 1 4
      (initialized (H := os (fun _ _ => true) (Some relation23)) true ready_state relation23 groups23) =
      Ret n (initialized (H := os (fun _ _ => true) (Some relation23)) true ready_state relation23 groups23) /\
    0 <= n < 5.
Proof.
  assert (group_entry (initialized (H := os (fun _ _ => true) (Some relation23)) true ready_state
    relation23 groups23) 1 = Some (mkGroupInfo 7 3 2)) as Hj by (rewrite group_entry_init; reflexivity).
  destruct (current_number_in_range (H := os (fun _ _ => true) (Some relation23)) true ready_state
    relation23 groups23 1 (mkGroupInfo 7 3 2) 4 ready_state_ready plausible23 Hj eq_refl ltac:(lia))
    as (n & He & Hr & _).
  exists n. split; [exact He|exact Hr].
Defined.

Lemma info_freed_twice_witness :
  CxPlatProcessorInfoInit (H := os (fun _ _ => true) None) false ready_state = Fault DoubleFree.
Proof.
  apply (info_freed_twice (H := os (fun _ _ => true) None) false ready_state ready_state_ready); done.
Defined.

Lemma well_formed23 : well_formed relation23.
Proof. split; cbn; try lia. repeat constructor; cbn; lia. Qed.

(** The third allocation fails. *)
Lemma initialize_all_or_nothing_witness :
  exists s1, CxPlatInitialize (H := os (fun k _ => negb (Nat.eqb k 2)) (Some relation23)) true pristine_state =
      Ret E_OUTOFMEMORY s1 /\ pristine s1.
Proof.
  pose proof (initialize_all_or_nothing (H := os (fun k _ => negb (Nat.eqb k 2)) (Some relation23)) true
    pristine_state) as H.
  destruct (CxPlatInitialize _ _) as [Status s1| | |] eqn:E; vm_compute in E; try discriminate E.
  destruct H as [_ H]; [by split|done|by intros g [= <-]; apply well_formed23|].
  exists s1. injection E as <- _. split; [done|exact H].
Defined.
