(* ===== verification/Platform.v ===== *)
(** * The POSIX and kernel platforms (src/lib/cxplat_posix.c, src/lib/cxplat_winkernel.c)

    Initialization, allocation, random numbers and the current processor on
    POSIX, and initialization and random numbers in the Windows kernel.  The
    operating system's answers are a class per platform; the state has the
    globals of the file, the open descriptors or handles, and the heap. *)

From S2P Require Import Prelude WinUser.

(** ** POSIX *)

(** [nprocs] is what [sysconf] answers, [open_fd] what [open] does (-1: it
    fails), [malloc_ok] whether the [k]-th [malloc] succeeds, [random k] the
    bytes the [k]-th [read] gets from the device, at most as many as were asked
    for ([None]: it fails), [nodes] the NUMA nodes ([None]: not available) and
    [node_to_cpus_ok] whether their masks can be read. *)
Class PosixOs := {
  nprocs : Z;
  open_fd : Z;
  posix_errno : Z;
  malloc_ok : nat -> Z -> bool;
  random : nat -> nat -> option (list Z);
  sched_getcpu : Z;
  nodes : option Z;
  node_to_cpus_ok : bool;
  random_len k n l : random k n = Some l -> (length l <= n)%nat;
  open_fd_range : -1 <= open_fd;
  posix_errno_range : 0 < posix_errno < 2 ^ 31
}.

Record posix_plat := mkPlat {
  P_AllocFailDenominator : Z;
  P_AllocCounter : Z;
  P_ProcessorCount : Z;
  NumaNodeCount : Z;
  NumaNodeMasks : option nat;
  RandomFd : Z;
  open_fds : list Z;
  mem : gmap nat Z;              (** live blocks and their sizes *)
  mallocs : nat;
  reads : nat
}.

Definition p_inject (d c : Z) (s : posix_plat) : posix_plat :=
  mkPlat d c (P_ProcessorCount s) (NumaNodeCount s) (NumaNodeMasks s) (RandomFd s) (open_fds s)
    (mem s) (mallocs s) (reads s).
Definition p_procs (n : Z) (s : posix_plat) : posix_plat :=
  mkPlat (P_AllocFailDenominator s) (P_AllocCounter s) n (NumaNodeCount s) (NumaNodeMasks s)
    (RandomFd s) (open_fds s) (mem s) (mallocs s) (reads s).
Definition p_numa (n : Z) (m : option nat) (s : posix_plat) : posix_plat :=
  mkPlat (P_AllocFailDenominator s) (P_AllocCounter s) (P_ProcessorCount s) n m
    (RandomFd s) (open_fds s) (mem s) (mallocs s) (reads s).
Definition p_fd (fd : Z) (fds : list Z) (s : posix_plat) : posix_plat :=
  mkPlat (P_AllocFailDenominator s) (P_AllocCounter s) (P_ProcessorCount s) (NumaNodeCount s)
    (NumaNodeMasks s) fd fds (mem s) (mallocs s) (reads s).
Definition p_mem (m : gmap nat Z) (k : nat) (s : posix_plat) : posix_plat :=
  mkPlat (P_AllocFailDenominator s) (P_AllocCounter s) (P_ProcessorCount s) (NumaNodeCount s)
    (NumaNodeMasks s) (RandomFd s) (open_fds s) m k (reads s).
Definition p_reads (n : nat) (s : posix_plat) : posix_plat :=
  mkPlat (P_AllocFailDenominator s) (P_AllocCounter s) (P_ProcessorCount s) (NumaNodeCount s)
    (NumaNodeMasks s) (RandomFd s) (open_fds s) (mem s) (mallocs s) n.

Section PosixPlatform.
Context `{!PosixOs}.
(** Build options: debug, Linux, NUMA. *)
Variables DEBUG Linux Numa : bool.

#[local] Abbreviation M := (M posix_plat).

Definition pmod (f : posix_plat -> posix_plat) : M unit := fun s => Ret tt (f s).

(** [read(RandomFd, Buffer, BufferLen)]: the bytes stored, [None] for -1 (also
    when the descriptor is not open). *)
Definition read_random (BufferLen : nat) : M (option (list Z)) :=
  fun s => if bool_decide (RandomFd s ∈ open_fds s)
           then Ret (random (reads s) BufferLen) (p_reads (S (reads s)) s)
           else Ret None s.

(** The status, and the buffer afterwards. *)
Definition CxPlatRandom (BufferLen : nat) (Buffer : list Z) : M (Z * list Z) :=
  r ← read_random BufferLen;
  match r with
  | None => mret (posix_errno, Buffer)
  | Some l => mret (0, l ++ drop (length l) Buffer)
  end.

(** A [uint32_t] from the bytes of the buffer, least significant first. *)
Fixpoint le_value (l : list Z) : Z :=
  match l with [] => 0 | b :: l => b mod 256 + 256 * le_value l end.

Definition malloc (ByteCount : Z) : M (option nat) :=
  fun s => if malloc_ok (mallocs s) ByteCount
           then Ret (Some (mallocs s)) (p_mem (<[mallocs s := ByteCount]> (mem s)) (S (mallocs s)) s)
           else Ret None (p_mem (mem s) (S (mallocs s)) s).

(** [garbage] is the indeterminate value of the local [Rand] before it is read. *)
Definition CxPlatAlloc_posix (garbage : list Z) (ByteCount Tag : Z) : M (option nat) :=
  if DEBUG then
    _ ← fre_assert (negb (ByteCount =? 0));
    s ← get;
    Rand ← (if 0 <? P_AllocFailDenominator s
            then r ← CxPlatRandom 4 garbage; mret (le_value r.2) else mret 0);
    let '(c, fail) := inject_failure 64 (P_AllocFailDenominator s) (P_AllocCounter s) Rand in
    _ ← pmod (p_inject (P_AllocFailDenominator s) c);
    if fail : bool then mret None else malloc ByteCount
  else malloc ByteCount.

Definition CxPlatFree_posix (Mem : option nat) (Tag : Z) : M unit :=
  match Mem with
  | None => mret tt
  | Some b => fun s => match mem s !! b with
                       | Some _ => Ret tt (p_mem (delete b (mem s)) (mallocs s) s)
                       | None => Fault DoubleFree
                       end
  end.

Definition CxPlatSetAllocFailDenominator_posix (Value : Z) : M unit := pmod (p_inject Value 0).

(** [sizeof(cpu_set_t)] is 128. *)
Definition CxPlatInitialize_posix : M Z :=
  _ ← (if DEBUG then pmod (p_inject 0 0) else mret tt);
  _ ← pmod (p_procs (if Linux then u32 nprocs else 1));
  _ ← (if Numa then
         match nodes with
         | Some n =>
             m ← CxPlatAlloc_posix [] (u64 (128 * u32 n)) CXPLAT_POOL_PROC;
             _ ← pmod (p_numa (u32 n) m);
             _ ← fre_assert (bool_decide (m <> None));
             fre_assert ((u32 n =? 0) || node_to_cpus_ok)
         | None => fun s => Ret tt (p_numa 0 (NumaNodeMasks s) s)
         end
       else mret tt);
  s ← get;
  _ ← pmod (p_fd open_fd (if open_fd =? -1 then open_fds s else open_fd :: open_fds s));
  if open_fd =? -1 then mret (u32 posix_errno) else mret 0.

(** [close], then the masks; neither global is reset. *)
Definition CxPlatUninitialize_posix : M unit :=
  s ← get;
  _ ← pmod (p_fd (RandomFd s) (List.remove Z.eq_dec (RandomFd s) (open_fds s)));
  if Numa then CxPlatFree_posix (NumaNodeMasks s) CXPLAT_POOL_PROC else mret tt.

Definition CxPlatProcCurrentNumber_posix : M Z :=
  if Linux then
    s ← get;
    if P_ProcessorCount s =? 0 then fail_with DivByZero
    else mret (u32 sched_getcpu mod P_ProcessorCount s)
  else mret 0.

End PosixPlatform.

(** ** Windows kernel mode *)

(** [open_provider]: the status of [BCryptOpenAlgorithmProvider] and whether it
    stored a handle. *)
Class KernelOs := {
  active_processors : Z;
  counter_frequency : Z;
  open_provider : Z * bool;
  current_processor : Z;
  provider_stored : 0 <= open_provider.1 -> open_provider.2 = true
}.

Record kernel_plat := mkKPlat {
  RngAlgorithm : bool;           (** not NULL *)
  K_ProcessorCount : Z;
  K_PerfFreq : Z;
  providers : nat                (** algorithm providers open *)
}.

Section KernelPlatform.
Context `{!KernelOs}.
Variable DEBUG : bool.

#[local] Abbreviation M := (M kernel_plat).

Definition CxPlatInitialize_kernel : M Z :=
  s ← get;
  let '(Status, stored) := open_provider in
  let s1 := mkKPlat (stored || RngAlgorithm s) (u32 active_processors) counter_frequency
              (if stored then S (providers s) else providers s) in
  _ ← put s1;
  if Status <? 0 then
    _ ← (if RngAlgorithm s1
         then put (mkKPlat false (K_ProcessorCount s1) (K_PerfFreq s1) (Nat.pred (providers s1)))
         else mret tt);
    mret Status
  else
    _ ← (if DEBUG then fre_assert (RngAlgorithm s1) else mret tt);
    mret Status.

Definition CxPlatUninitialize_kernel : M unit :=
  s ← get;
  put (mkKPlat false (K_ProcessorCount s) (K_PerfFreq s) (Nat.pred (providers s))).

Definition CxPlatProcCurrentNumber_kernel : M Z :=
  s ← get;
  if K_ProcessorCount s =? 0 then fail_with DivByZero
  else mret (current_processor mod K_ProcessorCount s).

End KernelPlatform.

(** ** Facts *)

(** [CxPlatRandom] writes a prefix of its buffer and reports success when the
    read did not fail, also when fewer bytes were read than were asked for. *)
Lemma random_short_read `{!PosixOs} s n Buffer l :
  RandomFd s ∈ open_fds s -> random (reads s) n = Some l ->
  CxPlatRandom n Buffer s = Ret (0, l ++ drop (length l) Buffer) (p_reads (S (reads s)) s).
Proof.
  intros Hf Hr. unfold CxPlatRandom, read_random, mbind, M_bind.
  by rewrite bool_decide_eq_true_2, Hr by done.
Qed.

(** POSIX initialization.  With a system that reports at least one
    processor, a successful [CxPlatInitialize] has opened the random device and
    the current processor is always below the processor count;
    [CxPlatUninitialize] closes the device again.  A failed one reports a
    positive error and leaves no descriptor open. *)
Theorem posix_init `{!PosixOs} DEBUG Linux s :
  0 < nprocs < 2 ^ 32 -> open_fd ∉ open_fds s ->
  exists Status s1, CxPlatInitialize_posix DEBUG Linux false s = Ret Status s1 /\
    (Status = 0 ->
       open_fds s1 = open_fd :: open_fds s /\ RandomFd s1 = open_fd /\
       (exists n, CxPlatProcCurrentNumber_posix Linux s1 = Ret n s1 /\ 0 <= n < P_ProcessorCount s1) /\
       exists s2, CxPlatUninitialize_posix false s1 = Ret tt s2 /\ open_fds s2 = open_fds s) /\
    (Status <> 0 -> 0 < Status /\ open_fds s1 = open_fds s).
Proof.
  intros Hn Hf. pose proof posix_errno_range as He.
  assert (u32 nprocs = nprocs) as Hu by (apply wrap_small; unfold is_u; lia).
  assert (u32 posix_errno = posix_errno) as Hue by (apply wrap_small; unfold is_u; lia).
  unfold CxPlatInitialize_posix, pmod, get, mbind, M_bind.
  destruct DEBUG; destruct (Z.eqb_spec open_fd (-1)) as [Ho|Ho]; cbn;
    eexists _, _; (split; [done|]); rewrite ?Hue;
    try (split; [lia|]; intros _; split; [lia|done]); (split; [|done]); intros _; cbn.
  all: split; [done|]; split; [done|]; split.
  1, 3: unfold CxPlatProcCurrentNumber_posix, get, mbind, M_bind; destruct Linux; cbn; rewrite ?Hu.
  1, 3: rewrite (proj2 (Z.eqb_neq _ 0)) by lia; eexists; split; [done|apply Z.mod_pos_bound; lia].
  1, 2: eexists; split; [done|lia].
  all: eexists; split; [done|]; cbn; destruct (Z.eq_dec open_fd open_fd) as [_|]; [|done];
    apply notin_remove; by rewrite <- list_elem_of_In.
Qed.

Lemma fd3_range : -1 <= 3.
Proof. done. Qed.

Lemma enoent_range : 0 < 2 < 2 ^ 31.
Proof. done. Qed.

Lemma zeros_len (k n : nat) (l : list Z) : Some (replicate n 0) = Some l -> (length l <= n)%nat.
Proof. intros [= <-]. by rewrite length_replicate. Qed.

Definition four_processors : PosixOs := {|
  nprocs := 4; open_fd := 3; posix_errno := 2; malloc_ok := fun _ _ => true;
  random := fun k n => Some (replicate n 0); sched_getcpu := 6; nodes := None;
  node_to_cpus_ok := true;
  random_len := zeros_len; open_fd_range := fd3_range; posix_errno_range := enoent_range
|}.

Definition fresh_plat : posix_plat := mkPlat 0 0 0 0 None (-1) [0; 1; 2] ∅ 0 0.

Lemma posix_init_witness :
  exists s1, CxPlatInitialize_posix (H := four_processors) true true false fresh_plat = Ret 0 s1 /\
    exists s2, CxPlatUninitialize_posix false s1 = Ret tt s2 /\ open_fds s2 = [0; 1; 2].
Proof.
  assert (open_fd (PosixOs := four_processors) ∉ open_fds fresh_plat) as Hf
    by (cbn; rewrite !not_elem_of_cons; repeat split; try done; apply not_elem_of_nil).
  destruct (posix_init (H := four_processors) true true fresh_plat ltac:(done) Hf)
    as (Status & s1 & He & Hok & _).
  assert (Status = 0) as -> by (vm_compute in He; congruence).
  exists s1. split; [exact He|]. by apply Hok.
Defined.

(** Kernel initialization balances its random number provider: on success
    one more provider is open and [CxPlatUninitialize] closes it, on failure
    none is left open; and the current processor is below the count. *)
Theorem kernel_init `{!KernelOs} DEBUG s :
  RngAlgorithm s = false -> 0 < active_processors < 2 ^ 32 -> 0 <= current_processor ->
  exists Status s1, CxPlatInitialize_kernel DEBUG s = Ret Status s1 /\
    (Status < 0 -> RngAlgorithm s1 = false /\ providers s1 = providers s) /\
    (0 <= Status -> RngAlgorithm s1 = true /\ providers s1 = S (providers s) /\
       (exists n, CxPlatProcCurrentNumber_kernel s1 = Ret n s1 /\ 0 <= n < active_processors) /\
       exists s2, CxPlatUninitialize_kernel s1 = Ret tt s2 /\
         RngAlgorithm s2 = false /\ providers s2 = providers s).
Proof.
  intros Hr Ha Hc. assert (u32 active_processors = active_processors) as Hu
    by (apply wrap_small; unfold is_u; lia).
  pose proof provider_stored as Hst.
  unfold CxPlatInitialize_kernel, get, put, mbind, M_bind. rewrite Hr, Hu.
  destruct open_provider as [st stored]; cbn in *. destruct (Z.ltb_spec st 0).
  - destruct stored; cbn; eexists _, _; (split; [done|]); (split; [done|lia]).
  - rewrite Hst by lia. cbn. exists st. eexists. split; [by destruct DEBUG|]. split; [lia|].
    intros _. cbn. split; [done|]. split; [done|]. split; [|by eexists].
    unfold CxPlatProcCurrentNumber_kernel, get, mbind, M_bind. cbn.
    rewrite (proj2 (Z.eqb_neq _ 0)) by lia. eexists. split; [done|]. apply Z.mod_pos_bound. lia.
Qed.
