(* ===== verification/SystemServices.v ===== *)
(** * Small services of the platforms

    Status codes and closing handles on Windows, random numbers in user and
    kernel mode, the failure injection settings and allocation macros of the
    kernel, thread identifiers on POSIX, the flag operators of the POSIX shim,
    and the unit conversions of inc/cxplat.h.  What the operating system answers
    is an argument or a class. *)

From S2P Require Import Prelude TimeConv Platform.

(** ** Status codes (inc/cxplat_winuser.h, inc/cxplat_winkernel.h) *)

(** [HRESULT] and [NTSTATUS] are signed 32-bit values, failures negative. *)
Definition FAILED (Status : Z) : bool := i32 Status <? 0.
Definition SUCCEEDED (Status : Z) : bool := negb (FAILED Status).
Definition NT_SUCCESS (Status : Z) : bool := 0 <=? i32 Status.

(** The SDK's inline function: facility 7 and the severity bit. *)
Definition HRESULT_FROM_WIN32 (x : Z) : Z :=
  if i32 x <=? 0 then i32 x else i32 (Z.lor (Z.lor (Z.land x 0xFFFF) (Z.shiftl 7 16)) 0x80000000).

Definition CxPlatGetLastErrorAsStatus (LastError : Z) : Z := HRESULT_FROM_WIN32 LastError.

(** The handles a process has open; closing another one fails with
    ERROR_INVALID_HANDLE (6), STATUS_INVALID_HANDLE in the kernel. *)
Definition handles : Type := gset Z.

Definition CloseHandle (Handle : Z) : M handles (bool * Z) := fun s =>
  if decide (Handle ∈ s) then Ret (true, 0) (s ∖ {[Handle]}) else Ret (false, 6) s.

Definition CxPlatCloseHandle_user (Handle : Z) : M handles Z :=
  r ← CloseHandle Handle;
  mret (if r.1 : bool then 0 else CxPlatGetLastErrorAsStatus r.2).

Definition ZwClose (Handle : Z) : M handles Z := fun s =>
  if decide (Handle ∈ s) then Ret 0 (s ∖ {[Handle]}) else Ret (i32 0xC0000008) s.

Definition CxPlatCloseHandle_kernel (Handle : Z) : M handles Z := ZwClose Handle.

(** ** Event objects (inc/cxplat.hpp) *)

(** [CxPlatEvent] in user mode, where its member is a handle (0: [CreateEvent]
    failed).  What the event does is in [WinEvent]; here is who closes it.
    [fresh] is the handle the system gives out. *)
Record CxPlatEvent_object := mkEventObject { Handle : Z }.

Definition CreateEvent (ok : bool) (fresh : Z) : M handles Z := fun s =>
  if ok then Ret fresh ({[fresh]} ∪ s) else Ret 0 s.

(** [CxPlatEventUninitialize] of user mode. *)
Definition CxPlatEventUninitialize (Event : Z) : M handles Z := CxPlatCloseHandle_user Event.

(** [CxPlatEvent()] and [CxPlatEvent(bool)]; a debug build asserts that there is an event. *)
Definition CxPlatEvent_ctor (DEBUG ok : bool) (fresh : Z) : M handles CxPlatEvent_object :=
  h ← CreateEvent ok fresh;
  _ ← (if DEBUG then fre_assert (negb (h =? 0)) else mret tt);
  mret (mkEventObject h).

(** [CxPlatEvent(CXPLAT_EVENT)] and [operator CXPLAT_EVENT()]. *)
Definition CxPlatEvent_from (event : Z) : CxPlatEvent_object := mkEventObject event.
Definition CxPlatEvent_handle (o : CxPlatEvent_object) : Z := Handle o.

Definition CxPlatEvent_dtor (o : CxPlatEvent_object) : M handles unit :=
  _ ← CxPlatEventUninitialize (Handle o); mret tt.

(** ** Random numbers (src/lib/cxplat_winuser.c, src/lib/cxplat_winkernel.c) *)

(** [BCryptGenRandom provider n Buffer]: the status and the buffer afterwards, for
    a request of [n] bytes.  [None] is the system's generator; [Some h]: the flags
    are 0 and the handle is not null iff [h].  A null handle is refused. *)
Class BCrypt := {
  BCryptGenRandom : option bool -> nat -> list Z -> Z * list Z;
  random_null n Buffer : NT_SUCCESS (BCryptGenRandom (Some false) n Buffer).1 = false
}.

Section Random.
Context `{!BCrypt}.

Definition CxPlatRandom_user (BufferLen : nat) (Buffer : list Z) : Z * list Z :=
  BCryptGenRandom None BufferLen Buffer.

Definition CxPlatRandom_kernel (DEBUG : bool) (BufferLen : nat) (Buffer : list Z) : M kernel_plat (Z * list Z) :=
  s ← get;
  _ ← (if DEBUG then fre_assert (RngAlgorithm s) else mret tt);
  mret (BCryptGenRandom (Some (RngAlgorithm s)) BufferLen Buffer).
End Random.

(** ** Allocation in the kernel (inc/cxplat_winkernel.h, src/lib/cxplat_winkernel.c) *)

Record kernel_inject := mkInject { K_AllocFailDenominator : Z; K_AllocCounter : Z }.

Definition CxPlatSetAllocFailDenominator_kernel (Value : Z) : M kernel_inject unit :=
  put (mkInject Value 0).

Definition CxPlatGetAllocFailDenominator_kernel : M kernel_inject Z :=
  s ← get; mret (K_AllocFailDenominator s).

Definition POOL_FLAG_UNINITIALIZED : Z := 0x2.
Definition POOL_FLAG_NON_PAGED : Z := 0x40.
Definition POOL_FLAG_PAGED : Z := 0x100.

(** [pool2 flags size tag] is what [ExAllocatePool2] answers. *)
Definition CXPLAT_ALLOC_PAGED (pool2 : Z -> Z -> Z -> option Z) (Size Tag : Z) : M kernel_inject (option Z) :=
  mret (pool2 (Z.lor POOL_FLAG_PAGED POOL_FLAG_UNINITIALIZED) Size Tag).

Definition CXPLAT_ALLOC_NONPAGED (pool2 : Z -> Z -> Z -> option Z) (Size Tag : Z) : M kernel_inject (option Z) :=
  mret (pool2 (Z.lor POOL_FLAG_NON_PAGED POOL_FLAG_UNINITIALIZED) Size Tag).

(** On POSIX the setting is read back the same way. *)
Definition CxPlatGetAllocFailDenominator_posix : M posix_plat Z :=
  s ← get; mret (P_AllocFailDenominator s).

(** ** Thread identifiers (src/lib/cxplat_posix.c) *)

Inductive unix := FreeBSD | LinuxOs | MacOs.

(** [Tid] is what the system answers: [int] on FreeBSD, [long] on Linux,
    [uint64_t] on macOS, with [Res] the result of the call. *)
Definition CxPlatCurThreadID (DEBUG : bool) (os : unix) (Tid Res : Z) : M unit Z :=
  match os with
  | FreeBSD | LinuxOs => mret (u32 Tid)
  | MacOs =>
      _ ← (if DEBUG then fre_assert (Res =? 0) else mret tt);
      _ ← (if DEBUG then fre_assert (Tid <=? 4294967295) else mret tt);
      mret (u32 Tid)
  end.

(** ** Flag operators (inc/cxplat_posix_shim.h) *)

(** [_ENUM_FLAG_SIZED_INTEGER]: the unsigned type of the size of the enum. *)
Definition flag_bits (size : Z) : option Z :=
  if decide (size ∈ [1; 2; 4; 8]) then Some (8 * size) else None.

Section Flags.
Variable w : Z.

Definition flag_or (a b : Z) : Z := Z.lor (wrap w a) (wrap w b).
Definition flag_and (a b : Z) : Z := Z.land (wrap w a) (wrap w b).
Definition flag_not (a : Z) : Z := wrap w (Z.lnot (wrap w a)).
Definition flag_xor (a b : Z) : Z := Z.lxor (wrap w a) (wrap w b).

(** The assignment operators store in their first operand what they return. *)
Definition flag_or_assign (b : Z) : M Z Z := a ← get; _ ← put (flag_or a b); get.
Definition flag_and_assign (b : Z) : M Z Z := a ← get; _ ← put (flag_and a b); get.
Definition flag_xor_assign (b : Z) : M Z Z := a ← get; _ ← put (flag_xor a b); get.
End Flags.

(** ** Unit conversion (inc/cxplat.h), at type [uint64_t] *)

Definition NS_TO_US (x : Z) : Z := x / 1000.
Definition US_TO_NS (x : Z) : Z := u64 (x * 1000).
Definition US_TO_NS100 (x : Z) : Z := u64 (x * 10).
Definition MS_TO_NS100 (x : Z) : Z := u64 (x * 10000).
Definition MS_TO_US (x : Z) : Z := u64 (x * 1000).
Definition US_TO_S (x : Z) : Z := x / (1000 * 1000).
Definition S_TO_US (x : Z) : Z := u64 (u64 (x * 1000) * 1000).
Definition S_TO_NS (x : Z) : Z := u64 (u64 (u64 (x * 1000) * 1000) * 1000).
Definition MS_TO_S (x : Z) : Z := x / 1000.

(** ** Status codes and handles *)

(** Bits of a 16-bit value below the facility. *)
Lemma hresult_value x : 0 < x < 65536 -> Z.lor (Z.lor (Z.land x 0xFFFF) (Z.shiftl 7 16)) 0x80000000 = x + 0x80070000.
Proof.
  intros Hx. change 0xFFFF with (Z.ones 16). rewrite Z.land_ones, Z.mod_small by lia.
  rewrite <- Z.lor_assoc. change (Z.lor (Z.shiftl 7 16) 0x80000000) with (Z.shiftl 0x8007 16).
  assert (Z.land x (Z.shiftl 0x8007 16) = 0) as Hand; [|by rewrite <- Z.lxor_lor, <- Z.add_nocarry_lxor].
  apply Z.bits_inj'. intros n Hn. rewrite Z.land_spec, Z.bits_0.
  destruct (Z.ltb_spec n 16); [rewrite Z.shiftl_spec_low by lia; apply andb_false_r|].
  rewrite (Z.bits_above_log2 x n); [done|lia|]. apply Z.log2_lt_pow2; [lia|].
  apply (Z.lt_le_trans _ (2 ^ 16)); [lia|]. apply Z.pow_le_mono_r; lia.
Qed.

(** A Windows error reported by [CxPlatGetLastErrorAsStatus] is a failure
    that keeps its code; [CxPlatCloseHandle] succeeds exactly for an open handle,
    which is then closed, and otherwise reports a failure and closes nothing,
    in user and in kernel mode. *)
Theorem close_handle_status h s e :
  (0 < e < 65536 ->
     FAILED (CxPlatGetLastErrorAsStatus e) = true /\ Z.land (CxPlatGetLastErrorAsStatus e) 0xFFFF = e) /\
  (exists st, CxPlatCloseHandle_user h s = Ret st (s ∖ {[h]}) /\ (FAILED st = false <-> h ∈ s)) /\
  (exists st, CxPlatCloseHandle_kernel h s = Ret st (s ∖ {[h]}) /\ (NT_SUCCESS st = true <-> h ∈ s)).
Proof.
  split; [|split].
  - intros He. unfold CxPlatGetLastErrorAsStatus, HRESULT_FROM_WIN32.
    rewrite (sgn_small 32 e) by (unfold is_s; lia). rewrite (proj2 (Z.leb_gt _ _)) by lia.
    rewrite hresult_value by lia.
    assert (i32 (e + 0x80070000) = e + 0x80070000 - 2 ^ 32) as Hs.
    { unfold sgn. rewrite Z.mod_small by lia. cbv zeta. by rewrite (proj2 (Z.ltb_ge _ _)) by lia. }
    rewrite Hs. unfold FAILED. rewrite sgn_small by (unfold is_s; lia). split; [apply Z.ltb_lt; lia|].
    change 0xFFFF with (Z.ones 16). rewrite Z.land_ones by lia.
    replace (e + 0x80070000 - 2 ^ 32) with (e + (-32761) * 2 ^ 16) by lia.
    rewrite Z_mod_plus_full. apply Z.mod_small. lia.
  - unfold CxPlatCloseHandle_user, CloseHandle, mbind, M_bind. destruct (decide (h ∈ s)).
    + eexists. split; [done|]. by split.
    + exists (CxPlatGetLastErrorAsStatus 6). split; [cbn; f_equal; set_solver|by split].
  - unfold CxPlatCloseHandle_kernel, ZwClose. destruct (decide (h ∈ s)).
    + eexists. split; [done|]. by split.
    + exists (i32 0xC0000008). split; [f_equal; set_solver|by split].
Qed.

(** ** Event objects *)

(** An event object closes its handle exactly once: its construction and destruction
    leave the handles that were open, also when there was no event in a release
    build.  An object made from a handle takes it over: after its destruction the
    handle is closed, and whoever closes it again gets an error or, if the number
    has been given out again in between, closes the new handle. *)
Theorem event_object_handles DEBUG ok fresh h s :
  0 < fresh -> fresh ∉ s -> 0 ∉ s -> (DEBUG = true -> ok = true) ->
  (exists o s1, CxPlatEvent_ctor DEBUG ok fresh s = Ret o s1 /\ CxPlatEvent_dtor o s1 = Ret tt s /\
     CxPlatEvent_handle o = if ok then fresh else 0) /\
  (h ∈ s -> exists st s2, CxPlatEvent_dtor (CxPlatEvent_from h) s = Ret tt (s ∖ {[h]}) /\
     CxPlatEventUninitialize h (s ∖ {[h]}) = Ret st (s ∖ {[h]}) /\ FAILED st = true /\
     CreateEvent true h (s ∖ {[h]}) = Ret h s2 /\ CxPlatEventUninitialize h s2 = Ret 0 (s ∖ {[h]})).
Proof.
  intros Hf Hfs H0 Hd. split.
  - exists (mkEventObject (if ok then fresh else 0)), (if ok then {[fresh]} ∪ s else s).
    unfold CxPlatEvent_ctor, CreateEvent, CxPlatEvent_dtor, CxPlatEventUninitialize, CxPlatCloseHandle_user, CloseHandle, mbind, M_bind.
    destruct ok; cbn [Handle].
    + rewrite (proj2 (Z.eqb_neq fresh 0)) by lia. split; [by destruct DEBUG|]. rewrite decide_True by set_solver.
      split; [|done]. cbn. f_equal. set_solver.
    + destruct DEBUG; [by specialize (Hd eq_refl)|]. by rewrite decide_False.
  - intros Hh. exists (CxPlatGetLastErrorAsStatus 6), ({[h]} ∪ s ∖ {[h]}).
    unfold CxPlatEvent_dtor, CxPlatEventUninitialize, CxPlatCloseHandle_user, CloseHandle, CreateEvent, mbind, M_bind. cbn [Handle CxPlatEvent_from].
    rewrite (decide_True (P := h ∈ s)), (decide_False (P := h ∈ s ∖ {[h]})), (decide_True (P := h ∈ {[h]} ∪ s ∖ {[h]})) by set_solver.
    split_and!; try done. cbn. f_equal. set_solver.
Qed.

(** ** Random numbers *)

(** In the kernel, random numbers are refused, or stop a debug build, while the
    library is not initialized. *)
Lemma random_before_initialize `{!BCrypt} n Buffer s :
  RngAlgorithm s = false ->
  CxPlatRandom_kernel true n Buffer s = Stop AssertFailed /\
  exists st B, CxPlatRandom_kernel false n Buffer s = Ret (st, B) s /\ NT_SUCCESS st = false.
Proof.
  intros Hr. unfold CxPlatRandom_kernel, get, mbind, M_bind. rewrite Hr. cbn. split; [done|].
  destruct (BCryptGenRandom (Some false) n Buffer) as [st B] eqn:E. exists st, B. split; [done|].
  pose proof (random_null n Buffer) as Hn. by rewrite E in Hn.
Qed.

(** ** Settings, identifiers, flags and units *)

(** The failure injection setting is read back as it was set. *)
Lemma denominator_roundtrip v s p :
  (exists s', CxPlatSetAllocFailDenominator_kernel v s = Ret tt s' /\
     CxPlatGetAllocFailDenominator_kernel s' = Ret v s') /\
  (exists p', CxPlatSetAllocFailDenominator_posix v p = Ret tt p' /\
     CxPlatGetAllocFailDenominator_posix p' = Ret v p').
Proof. split; by eexists. Qed.

(** Threads whose system identifiers fit in 32 bits have different identifiers;
    beyond that a macOS debug build stops, and a release build gives the same
    identifier to threads 2^32 apart. *)
Lemma thread_id_unique DEBUG os t1 t2 :
  is_u 32 t1 -> is_u 32 t2 ->
  (exists i1 i2, CxPlatCurThreadID DEBUG os t1 0 tt = Ret i1 tt /\ CxPlatCurThreadID DEBUG os t2 0 tt = Ret i2 tt /\
     (i1 = i2 <-> t1 = t2)) /\
  CxPlatCurThreadID true MacOs (t1 + 2 ^ 32) 0 tt = Stop AssertFailed /\
  CxPlatCurThreadID false MacOs (t1 + 2 ^ 32) 0 tt = CxPlatCurThreadID false MacOs t1 0 tt.
Proof.
  intros H1 H2. assert (forall t, is_u 32 t -> CxPlatCurThreadID DEBUG os t 0 tt = Ret t tt) as Hid.
  { intros t Ht. unfold CxPlatCurThreadID, fre_assert. rewrite (wrap_small 32 t Ht).
    unfold is_u in Ht. rewrite (proj2 (Z.leb_le t 4294967295)) by lia. by destruct os, DEBUG. }
  split; [exists t1, t2; by rewrite !Hid|]. split.
  - unfold CxPlatCurThreadID, fre_assert. unfold is_u in *. by rewrite (proj2 (Z.leb_gt (t1 + 2 ^ 32) 4294967295)) by lia.
  - cbn. f_equal. unfold wrap. by rewrite <- (Z_mod_plus_full t1 1).
Qed.

Section FlagAlgebra.
Variable w : Z.
Hypothesis Hw : 0 <= w.

Lemma wrap_bits x n : 0 <= n -> Z.testbit (wrap w x) n = (n <? w) && Z.testbit x n.
Proof.
  intros Hn. unfold wrap. rewrite <- Z.land_ones by lia. rewrite Z.land_spec, Z.testbit_ones_nonneg by lia.
  apply andb_comm.
Qed.

Lemma flag_and_bits a b n : 0 <= n -> Z.testbit (flag_and w a b) n = (n <? w) && Z.testbit a n && Z.testbit b n.
Proof. intros Hn. unfold flag_and. rewrite Z.land_spec, !wrap_bits by lia. by destruct (n <? w). Qed.

Lemma flag_or_bits a b n : 0 <= n -> Z.testbit (flag_or w a b) n = (n <? w) && (Z.testbit a n || Z.testbit b n).
Proof. intros Hn. unfold flag_or. rewrite Z.lor_spec, !wrap_bits by lia. by destruct (n <? w). Qed.

Lemma flag_xor_bits a b n : 0 <= n -> Z.testbit (flag_xor w a b) n = (n <? w) && xorb (Z.testbit a n) (Z.testbit b n).
Proof. intros Hn. unfold flag_xor. rewrite Z.lxor_spec, !wrap_bits by lia. by destruct (n <? w). Qed.

Lemma flag_not_bits a n : 0 <= n -> Z.testbit (flag_not w a) n = (n <? w) && negb (Z.testbit a n).
Proof.
  intros Hn. unfold flag_not. rewrite wrap_bits, Z.lnot_spec, wrap_bits by lia. by destruct (n <? w).
Qed.
End FlagAlgebra.

(** Equality of flags, bit by bit. *)
Ltac flag_bits :=
  apply Z.bits_inj'; intros n Hn;
  rewrite ?flag_and_bits, ?flag_or_bits, ?flag_xor_bits, ?flag_not_bits, ?wrap_bits, ?Z.bits_0 by lia;
  rewrite ?flag_and_bits, ?flag_or_bits, ?flag_xor_bits, ?flag_not_bits, ?wrap_bits by lia;
  repeat match goal with |- context [Z.testbit ?x n] => destruct (Z.testbit x n) end; by destruct (n <? _).

(** The flag operators.  For an enum of 1, 2, 4 or 8 bytes the operators
    behave as sets of flags do: setting a flag makes it present, clearing it
    with the complement removes it and nothing else, toggling twice restores the
    value, and the complement follows the laws of De Morgan. *)
Theorem flags_algebra size w a f :
  flag_bits size = Some w ->
  flag_and w (flag_or w a f) f = wrap w f /\
  flag_and w (flag_and w a (flag_not w f)) f = 0 /\
  flag_or w (flag_and w a (flag_not w f)) (flag_and w a f) = wrap w a /\
  flag_xor w (flag_xor w a f) f = wrap w a /\
  flag_not w (flag_or w a f) = flag_and w (flag_not w a) (flag_not w f) /\
  (flag_or_assign w f a = Ret (flag_or w a f) (flag_or w a f) /\
   flag_and_assign w f a = Ret (flag_and w a f) (flag_and w a f) /\
   flag_xor_assign w f a = Ret (flag_xor w a f) (flag_xor w a f)).
Proof.
  intros Hb. assert (0 <= w) as Hw.
  { unfold flag_bits in Hb. destruct (decide _) as [Hin|]; [|done]. injection Hb as <-.
    rewrite !elem_of_cons, elem_of_nil in Hin. lia. }
  split_and!; try done; flag_bits.
Qed.

Lemma flags_algebra_witness : flag_and 32 (flag_or 32 1 4) 4 = 4 /\ flag_xor 32 (flag_xor 32 5 4) 4 = 5.
Proof. destruct (flags_algebra 4 32 1 4 eq_refl) as (H & _). destruct (flags_algebra 4 32 5 4 eq_refl) as (_ & _ & _ & Hx & _). by split. Defined.

(** Converting to a smaller unit and back is exact where the product fits. *)
Lemma unit_roundtrip x :
  0 <= x -> x * 1000000000 < 2 ^ 64 ->
  NS_TO_US (US_TO_NS x) = x /\ NS100_TO_US (US_TO_NS100 x) = x /\ NS100_TO_MS (MS_TO_NS100 x) = x /\
  US_TO_MS (MS_TO_US x) = x /\ US_TO_S (S_TO_US x) = x /\ NS_TO_US (S_TO_NS x) = S_TO_US x /\
  MS_TO_S (u64 (x * 1000)) = x.
Proof.
  intros Hx Hfit.
  assert (forall k, 0 <= k <= 1000000000 -> u64 (x * k) = x * k) as Hk by (intros; apply wrap_small; unfold is_u; nia).
  unfold NS_TO_US, US_TO_NS, NS100_TO_US, US_TO_NS100, NS100_TO_MS, MS_TO_NS100, US_TO_MS, MS_TO_US, US_TO_S, S_TO_US, S_TO_NS, MS_TO_S.
  rewrite !(Hk 1000), !(Hk 10), !(Hk 10000) by lia. rewrite <- !Z.mul_assoc. rewrite !Hk by lia.
  rewrite <- !Z.mul_assoc. rewrite !Hk by lia. rewrite Z.quot_mul by lia. rewrite !Z.div_mul by lia.
  split_and!; done || zdm.
Qed.
