(* ===== verification/Thread.v ===== *)
(** * Threads

    [CxPlatThreadCreate] of the three platforms (src/lib/cxplat_posix.c,
    inc/cxplat_winuser.h, inc/cxplat_winkernel.h) and the C++ wrapper
    [CxPlatAsyncT] (inc/cxplat.hpp).  What the operating system answers is a
    class per platform; the state is what the calls change: the threads that
    run, how they are placed and named, the custom contexts they are handed, the
    objects the function must release.  On POSIX the threads also run: at any
    moment between its creation and the end of its join. *)

From S2P Require Import Prelude.

Definition CXPLAT_THREAD_FLAG_SET_IDEAL_PROC : Z := 1.
Definition CXPLAT_THREAD_FLAG_SET_AFFINITIZE : Z := 2.
Definition CXPLAT_THREAD_FLAG_HIGH_PRIORITY : Z := 4.

(** The functions a thread can start with: code of the user, by its address; the
    static [ThreadCallback] of [CxPlatAsyncT]; and the start routine that builds
    with [CXPLAT_USE_CUSTOM_THREAD_CONTEXT] provide. *)
Inductive start_routine := Routine (addr : Z) | ThreadCallback | CxPlatThreadCustomStart.

(** [Name] is the bytes of the string before its terminator, [None] for NULL. *)
Record CXPLAT_THREAD_CONFIG := mkConfig {
  Flags : Z;
  IdealProcessor : Z;
  Name : option (list Z);
  Callback : start_routine;
  Context : Z
}.

Definition has_flag (c : CXPLAT_THREAD_CONFIG) (f : Z) : bool := negb (Z.land (Flags c) f =? 0).

(** A thread: the function it runs, its argument, the processors it is bound to
    and its ideal processor (a group, and a mask or a number in the group), its
    raised priority, its name in UTF-16; [t_ended] when its start routine has
    returned, [t_joined] when it has been waited for. *)
Record thread := mkThread {
  t_start : start_routine;
  t_arg : Z;
  t_affinity : option (Z * Z);
  t_ideal : option (Z * Z);
  t_high : bool;
  t_name : option (list Z);
  t_ended : bool;
  t_joined : bool
}.

Definition new_thread (start : start_routine) (arg : Z) : thread :=
  mkThread start arg None None false None false false.
Definition set_affinity (a : Z * Z) (t : thread) : thread :=
  mkThread (t_start t) (t_arg t) (Some a) (t_ideal t) (t_high t) (t_name t) (t_ended t) (t_joined t).
Definition set_ideal (i : Z * Z) (t : thread) : thread :=
  mkThread (t_start t) (t_arg t) (t_affinity t) (Some i) (t_high t) (t_name t) (t_ended t) (t_joined t).
Definition set_high (t : thread) : thread :=
  mkThread (t_start t) (t_arg t) (t_affinity t) (t_ideal t) true (t_name t) (t_ended t) (t_joined t).
Definition set_name (n : list Z) (t : thread) : thread :=
  mkThread (t_start t) (t_arg t) (t_affinity t) (t_ideal t) (t_high t) (Some n) (t_ended t) (t_joined t).
Definition set_ended (t : thread) : thread :=
  mkThread (t_start t) (t_arg t) (t_affinity t) (t_ideal t) (t_high t) (t_name t) true (t_joined t).
Definition set_joined (t : thread) : thread :=
  mkThread (t_start t) (t_arg t) (t_affinity t) (t_ideal t) (t_high t) (t_name t) (t_ended t) true.

(** [CXPLAT_THREAD_CUSTOM_CONTEXT]. *)
Record CXPLAT_THREAD_CUSTOM_CONTEXT := mkCustom { cc_Callback : start_routine; cc_Context : Z }.

(** [CxPlatAsyncT::ContextT]. *)
Record ContextT := mkContext { UserContext : Z; UserCallback : Z }.

(** ** POSIX *)

(** The answers of [pthread]: error numbers, 0 for success.  [errno] is what the
    code reads from that variable; the [pthread] functions return their error
    number and need not store it there.  [create_rc with_attr] is the answer of
    [pthread_create] with the attributes and without.  [NumaNodeMasks] is the
    table that [CxPlatInitialize] filled, with [NumaNodeCount] entries;
    [numa_node_of_cpu] is a node number, or -1 for a processor there is not. *)
Class Pthread := {
  attr_init_rc : Z;
  attr_setaffinity_rc : Z;
  attr_setschedparam_rc : Z;
  create_rc : bool -> Z;
  setaffinity_rc : Z;
  context_alloc_ok : bool;
  errno : Z;
  NumaNodeMasks : list Z;
  numa_node_of_cpu : Z -> Z
}.

Definition NumaNodeCount `{!Pthread} : Z := Z.of_nat (length NumaNodeMasks).

(** [contexts]: the custom contexts that are allocated, by address; [objects]:
    the [CxPlatAsyncT] objects that exist, by address; [calls]: the calls of user
    code with their arguments, in order. *)
Record posix := mkPosix {
  threads : gmap nat thread;
  next_thread : nat;
  attrs : nat;                  (** attribute objects not yet destroyed *)
  contexts : gmap Z CXPLAT_THREAD_CUSTOM_CONTEXT;
  next_context : Z;
  objects : gmap Z ContextT;
  calls : list (Z * Z)
}.

Definition p_threads (f : gmap nat thread -> gmap nat thread) (n : nat) (s : posix) : posix :=
  mkPosix (f (threads s)) n (attrs s) (contexts s) (next_context s) (objects s) (calls s).
Definition p_attrs (n : nat) (s : posix) : posix :=
  mkPosix (threads s) (next_thread s) n (contexts s) (next_context s) (objects s) (calls s).
Definition p_contexts (c : gmap Z CXPLAT_THREAD_CUSTOM_CONTEXT) (n : Z) (s : posix) : posix :=
  mkPosix (threads s) (next_thread s) (attrs s) c n (objects s) (calls s).
Definition p_objects (o : gmap Z ContextT) (s : posix) : posix :=
  mkPosix (threads s) (next_thread s) (attrs s) (contexts s) (next_context s) o (calls s).
Definition p_calls (l : list (Z * Z)) (s : posix) : posix :=
  mkPosix (threads s) (next_thread s) (attrs s) (contexts s) (next_context s) (objects s) l.

Definition CXPLAT_STATUS_SUCCESS : Z := 0.
Definition CXPLAT_STATUS_OUT_OF_MEMORY : Z := 12.
Definition CXPLAT_SUCCEEDED (Status : Z) : bool := i32 Status <=? 0.

#[local] Abbreviation P := (M posix).

Definition upd_thread (t : nat) (f : thread -> thread) : P unit :=
  fun s => Ret tt (p_threads (alter f t) (next_thread s) s).

Definition free_context (p : Z) : P unit := fun s =>
  match contexts s !! p with
  | Some _ => Ret tt (p_contexts (delete p (contexts s)) (next_context s) s)
  | None => Fault DoubleFree
  end.

(** *** What a thread does *)

Definition call_user (f arg : Z) : P unit := fun s => Ret tt (p_calls (calls s ++ [(f, arg)]) s).

(** [CxPlatAsyncT::ThreadCallback]: it reads the context inside the object. *)
Definition async_thread_callback (Context : Z) : P unit := fun s =>
  match objects s !! Context with
  | Some AsyncContext => call_user (UserCallback AsyncContext) (UserContext AsyncContext) s
  | None => Fault BadAccess
  end.

Definition call_routine (r : start_routine) (arg : Z) : P unit :=
  match r with
  | Routine a => call_user a arg
  | ThreadCallback => async_thread_callback arg
  | CxPlatThreadCustomStart => fail_with BadAccess
  end.

(** [CxPlatThreadCustomStart] is the platform's.  What the header asks of it: it
    calls the callback of its context and frees the context. *)
Class CustomStart := {
  custom_start : Z -> P unit;
  custom_start_contract p s c :
    contexts s !! p = Some c ->
    custom_start p s = (_ ← call_routine (cc_Callback c) (cc_Context c); free_context p) s
}.

(** The thread [t] runs, unless it has ended. *)
Definition run_thread `{!CustomStart} (t : nat) : P unit := fun s =>
  match threads s !! t with
  | Some th =>
      if t_ended th then Ret tt s
      else (_ ← (match t_start th with
                 | CxPlatThreadCustomStart => custom_start (t_arg th)
                 | r => call_routine r (t_arg th)
                 end);
            upd_thread t set_ended) s
  | None => Ret tt s
  end.

(** *** Creation *)

Section Posix.
Context `{!Pthread}.

(** The attributes: the processors and the priority the new thread is to get. *)
Record pthread_attr := mkAttr { a_cpus : option Z; a_high : bool }.

Definition thread_of (attr : option pthread_attr) (start : start_routine) (arg : Z) : thread :=
  match attr with
  | Some a => mkThread start arg (option_map (fun m => (0, m)) (a_cpus a)) None (a_high a) None false false
  | None => new_thread start arg
  end.

(** [pthread_create]: its result, and [*Thread] ([None]: undefined). *)
Definition pthread_create (attr : option pthread_attr) (start : start_routine) (arg : Z)
    : P (Z * option nat) :=
  fun s =>
    let rc := create_rc (match attr with Some _ => true | None => false end) in
    if rc =? 0 then
      Ret (0, Some (next_thread s))
        (p_threads (insert (next_thread s) (thread_of attr start arg)) (S (next_thread s)) s)
    else Ret (rc, None) s.

(** [CPU_ZERO] and [CPU_SET] on a [cpu_set_t] of 1024 bits. *)
Definition cpu_mask (cpu : Z) : Z := if cpu <? 1024 then 2 ^ cpu else 0.

(** The attributes the configuration asks for; what could not be set is only
    traced.  [Affinity]: the build can set the affinity of the attributes. *)
Definition make_attr (Affinity : bool) (c : CXPLAT_THREAD_CONFIG) : pthread_attr :=
  mkAttr (if Affinity && has_flag c CXPLAT_THREAD_FLAG_SET_AFFINITIZE && (attr_setaffinity_rc =? 0)
          then Some (cpu_mask (IdealProcessor c)) else None)
         (has_flag c CXPLAT_THREAD_FLAG_HIGH_PRIORITY && (attr_setschedparam_rc =? 0)).

Definition pthread_attr_init : P Z := fun s =>
  if attr_init_rc =? 0 then Ret 0 (p_attrs (S (attrs s)) s) else Ret attr_init_rc s.

Definition pthread_attr_destroy : P unit := fun s =>
  match attrs s with
  | O => Fault DoubleFree
  | S n => Ret tt (p_attrs n s)
  end.

Definition pthread_setaffinity_np (Thread : option nat) (mask : Z) : P unit :=
  match Thread with
  | None => fail_with UninitRead
  | Some t => if setaffinity_rc =? 0 then upd_thread t (set_affinity (0, mask)) else mret tt
  end.

(** The creation proper, with the retry without attributes. *)
Definition create_plain (attr : pthread_attr) (c : CXPLAT_THREAD_CONFIG) : P (Z * option nat) :=
  r ← pthread_create (Some attr) (Callback c) (Context c);
  if negb (r.1 =? 0) then
    r2 ← pthread_create None (Callback c) (Context c);
    if negb (r2.1 =? 0) then mret (u32 errno, r2.2) else mret (CXPLAT_STATUS_SUCCESS, r2.2)
  else mret (CXPLAT_STATUS_SUCCESS, r.2).

(** The allocation of a custom context (a null pointer is 0), and the assignment
    of its fields. *)
Definition alloc_context : P Z := fun s =>
  if context_alloc_ok
  then Ret (next_context s) (p_contexts (contexts s) (next_context s + 1) s) else Ret 0 s.

Definition write_context (p : Z) (c : CXPLAT_THREAD_CUSTOM_CONTEXT) : P unit := fun s =>
  if p =? 0 then Fault NullDeref
  else Ret tt (p_contexts (<[p := c]> (contexts s)) (next_context s) s).

(** The same with a custom context: when it cannot be allocated the code sets the
    status, goes on, and writes to it. *)
Definition create_custom (attr : pthread_attr) (c : CXPLAT_THREAD_CONFIG) : P (Z * option nat) :=
  CustomContext ← alloc_context;
  let Status := if CustomContext =? 0 then CXPLAT_STATUS_OUT_OF_MEMORY else CXPLAT_STATUS_SUCCESS in
  _ ← write_context CustomContext (mkCustom (Callback c) (Context c));
  r ← pthread_create (Some attr) CxPlatThreadCustomStart CustomContext;
  if negb (r.1 =? 0) then _ ← free_context CustomContext; mret (u32 errno, r.2)
  else mret (Status, r.2).

(** The affinity of the created thread: its processor, or in NUMA builds the
    node of the processor. *)
Definition bind_thread (Numa : bool) (c : CXPLAT_THREAD_CONFIG) (Thread : option nat) : P unit :=
  if has_flag c CXPLAT_THREAD_FLAG_SET_AFFINITIZE
  then pthread_setaffinity_np Thread (cpu_mask (IdealProcessor c))
  else if Numa && negb (NumaNodeCount =? 0) then
    let IdealNumaNode := numa_node_of_cpu (IdealProcessor c) in
    match (if 0 <=? IdealNumaNode then NumaNodeMasks !! Z.to_nat IdealNumaNode else None) with
    | Some mask => pthread_setaffinity_np Thread mask
    | None => fail_with BadAccess
    end
  else mret tt.

(** Linux.  [Custom] (a custom thread context), [Numa], [Glibc], [Android]: build
    options. *)
Definition CxPlatThreadCreate_linux (Custom Numa Glibc Android : bool) (c : CXPLAT_THREAD_CONFIG)
    : P (Z * option nat) :=
  rc ← pthread_attr_init;
  if negb (rc =? 0) then mret (u32 errno, None)
  else
    let attr := make_attr Glibc c in
    r ← (if Custom then create_custom attr c else create_plain attr c);
    _ ← (if negb Android && (r.1 =? CXPLAT_STATUS_SUCCESS) then bind_thread Numa c r.2 else mret tt);
    _ ← pthread_attr_destroy;
    mret r.

(** macOS and FreeBSD: one attempt, no affinity. *)
Definition CxPlatThreadCreate_bsd (c : CXPLAT_THREAD_CONFIG) : P (Z * option nat) :=
  rc ← pthread_attr_init;
  if negb (rc =? 0) then mret (u32 errno, None)
  else
    r ← pthread_create (Some (make_attr false c)) (Callback c) (Context c);
    let Status := if negb (r.1 =? 0) then u32 errno else CXPLAT_STATUS_SUCCESS in
    _ ← pthread_attr_destroy;
    mret (Status, r.2).
End Posix.

Definition CxPlatThreadDelete (Thread : option nat) : P unit := mret tt.

(** [pthread_join] returns after the thread has ended, so the thread has run by
    then.  Joining a thread that was joined before, or that never was, is
    undefined. *)
Definition CxPlatThreadWaitForever `{!CustomStart} (Thread : option nat) : P unit :=
  match Thread with
  | None => fail_with UninitRead
  | Some t => fun s =>
      match threads s !! t with
      | Some th => if t_joined th then Fault BadAccess
                   else (_ ← run_thread t; upd_thread t set_joined) s
      | None => Fault BadAccess
      end
  end.

(** ** [CxPlatAsyncT] on POSIX *)

(** [this] is the address of the object. *)
Record CxPlatAsync := mkAsync {
  this : Z;
  Thread : option nat;
  ThreadCompleted : bool;
  Initialized : bool
}.

(** The bytes of the name all these threads have. *)
Definition async_name : list Z := [67; 120; 80; 108; 97; 116; 65; 115; 121; 110; 99].

Definition begin_object (this : Z) (c : ContextT) : P unit := fun s =>
  Ret tt (p_objects (<[this := c]> (objects s)) s).

Definition end_object (this : Z) : P unit := fun s => Ret tt (p_objects (delete this (objects s)) s).

(** The object is there from the initialization of [AsyncContext], its first
    member, on.  [create] is the platform's [CxPlatThreadCreate]. *)
Definition async_ctor (create : CXPLAT_THREAD_CONFIG -> P (Z * option nat)) (this cb ctx : Z)
    : P CxPlatAsync :=
  _ ← begin_object this (mkContext ctx cb);
  r ← create (mkConfig 0 0 (Some async_name) ThreadCallback this);
  mret (mkAsync this r.2 false (r.1 =? 0)).

Section PosixAsync.
Context `{!CustomStart}.

Definition async_wait (a : CxPlatAsync) : P CxPlatAsync :=
  if Initialized a then
    _ ← CxPlatThreadWaitForever (Thread a);
    mret (mkAsync (this a) (Thread a) true (Initialized a))
  else mret a.

(** After the destructor's body the object is gone. *)
Definition async_dtor (a : CxPlatAsync) : P unit :=
  _ ← (if Initialized a then
         _ ← (if negb (ThreadCompleted a) then CxPlatThreadWaitForever (Thread a) else mret tt);
         CxPlatThreadDelete (Thread a)
       else mret tt);
  end_object (this a).
End PosixAsync.

(** ** Windows user mode *)

(** [procs] and [group_mask] are the processor tables; the answers of the calls
    after the creation are ignored by the code, [placed] tells whether they took
    effect.  [mbstowcs_s n name] is the wide string that [mbstowcs_s] leaves in a
    buffer of [n] characters when it may truncate: it fits with its terminator. *)
Class WinThread := {
  CreateThread_ok : bool;
  GetLastError : Z;
  ProcCount : Z;
  procs : Z -> Z * Z;           (** index in its group, group *)
  group_mask : Z -> Z;
  placed : bool;
  user_context_alloc_ok : bool;
  mbstowcs_s : nat -> list Z -> list Z;
  GetLastError_range : 0 < GetLastError < 2 ^ 31;
  mbstowcs_s_fits n name : (0 < n)%nat -> (length (mbstowcs_s n name) < n)%nat
}.

Record winthread := mkWinThread {
  w_thread : option thread;     (** the thread behind the handle, [None]: NULL *)
  w_contexts : gmap Z CXPLAT_THREAD_CUSTOM_CONTEXT;
  w_next_context : Z
}.

Definition E_OUTOFMEMORY : Z := -2147024882.
Definition HRESULT_SUCCEEDED (Status : Z) : bool := 0 <=? i32 Status.

(** A [UNICODE_STRING] names [Length] bytes of its buffer. *)
Definition unicode_string (Length : Z) (Buffer : list Z) : list Z := take (Z.to_nat (Length / 2)) Buffer.

(** [RtlInitUnicodeString]: the length up to the terminator, in a [USHORT]. *)
Definition RtlInitUnicodeString (s : list Z) : list Z := unicode_string (u16 (2 * Z.of_nat (length s))) s.

Section WinUserThread.
Context `{!WinThread}.

#[local] Abbreviation M := (M winthread).

Definition upd_win (f : thread -> thread) : M unit :=
  fun s => Ret tt (mkWinThread (if placed then option_map f (w_thread s) else w_thread s)
                     (w_contexts s) (w_next_context s)).

(** [*Thread = CreateThread(...)]; true if it is not NULL. *)
Definition CreateThread (start : start_routine) (arg : Z) : M bool := fun s =>
  Ret CreateThread_ok
    (mkWinThread (if CreateThread_ok then Some (new_thread start arg) else None)
       (w_contexts s) (w_next_context s)).

Definition win_alloc_context (c : CXPLAT_THREAD_CUSTOM_CONTEXT) : M Z := fun s =>
  Ret (w_next_context s)
    (mkWinThread (w_thread s) (<[w_next_context s := c]> (w_contexts s)) (w_next_context s + 1)).

Definition win_free_context (p : Z) : M unit := fun s =>
  match w_contexts s !! p with
  | Some _ => Ret tt (mkWinThread (w_thread s) (delete p (w_contexts s)) (w_next_context s))
  | None => Fault DoubleFree
  end.

(** The thread is created; its placement and its name. *)
Definition place_user (DEBUG : bool) (c : CXPLAT_THREAD_CONFIG) : M Z :=
  _ ← (if DEBUG then fre_assert (IdealProcessor c <? ProcCount) else mret tt);
  _ ← (if IdealProcessor c <? ProcCount then mret tt else fail_with BadAccess);
  let '(Index, Group) := procs (IdealProcessor c) in
  let Mask := if has_flag c CXPLAT_THREAD_FLAG_SET_AFFINITIZE
              then u64 (Z.shiftl 1 Index) else group_mask Group in
  _ ← upd_win (set_affinity (Group, Mask));
  _ ← (if has_flag c CXPLAT_THREAD_FLAG_SET_IDEAL_PROC
       then upd_win (set_ideal (Group, Index)) else mret tt);
  _ ← (if has_flag c CXPLAT_THREAD_FLAG_HIGH_PRIORITY then upd_win set_high else mret tt);
  _ ← (match Name c with
       | Some n =>
           let WideName := mbstowcs_s (64 - 1) n in
           upd_win (set_name (RtlInitUnicodeString WideName))
       | None => mret tt
       end);
  mret 0.

Definition CxPlatThreadCreate_user (DEBUG Custom : bool) (c : CXPLAT_THREAD_CONFIG) : M Z :=
  if Custom then
    if negb user_context_alloc_ok then mret E_OUTOFMEMORY
    else
      CustomContext ← win_alloc_context (mkCustom (Callback c) (Context c));
      ok ← CreateThread CxPlatThreadCustomStart CustomContext;
      if negb ok then _ ← win_free_context CustomContext; mret GetLastError
      else place_user DEBUG c
  else
    ok ← CreateThread (Callback c) (Context c);
    if negb ok then mret GetLastError else place_user DEBUG c.

End WinUserThread.

(** ** Windows kernel mode *)

Definition NT_SUCCESS (Status : Z) : bool := 0 <=? Status.
Definition STATUS_BUFFER_TOO_SMALL : Z := -1073741789.

(** The answers of the kernel: [NTSTATUS] values, negative ones failures.
    [utf16] is the conversion of a UTF-8 string, which has at most one unit per
    byte, and [utf16_st] its status: malformed bytes are replaced, with a status
    that is not a failure. *)
Class Kernel := {
  PsCreateSystemThread_st : Z;
  ObReferenceObject_st : Z;
  KeGetProcessorNumber_st : Z;
  processor_number : Z -> Z * Z;     (** group, number in the group *)
  KeQueryRelationship_st : Z;
  numa_mask : Z * Z -> Z * Z;
  ZwSetAffinity_st : Z;
  ZwSetIdeal_st : Z;
  ZwSetName_st : Z;
  utf16 : list Z -> list Z;
  utf16_st : list Z -> Z;
  utf16_length n : (length (utf16 n) <= length n)%nat;
  utf16_st_ok n : NT_SUCCESS (utf16_st n) = true
}.

(** [RtlUTF8ToUnicodeN] into a buffer of [Max] bytes: its status and the units it
    stored, all of them if they fit. *)
Definition RtlUTF8ToUnicodeN `{!Kernel} (Max : Z) (source : list Z) : Z * list Z :=
  let u := utf16 source in
  if 2 * Z.of_nat (length u) <=? Max then (utf16_st source, u)
  else (STATUS_BUFFER_TOO_SMALL, take (Z.to_nat (Max / 2)) u).

Record kernel := mkKernel {
  k_thread : option thread;
  k_handle : bool;              (** the handle is open *)
  k_refs : nat                  (** references taken on the thread object *)
}.

Section KernelThread.
Context `{!Kernel}.

#[local] Abbreviation M := (M kernel).

Definition upd_kernel (f : thread -> thread) : M unit :=
  fun s => Ret tt (mkKernel (option_map f (k_thread s)) (k_handle s) (k_refs s)).

Definition kassert (DEBUG b : bool) : M unit := if DEBUG then fre_assert b else mret tt.

(** The name: at most 64 bytes of it, converted into a buffer of 64 units. *)
Definition set_kernel_name (DEBUG : bool) (n : list Z) : M unit :=
  let '(Status, Buffer) := RtlUTF8ToUnicodeN (64 * 2) (take 64 n) in
  let UnicodeNameLength := 2 * Z.of_nat (length Buffer) in
  _ ← kassert DEBUG (NT_SUCCESS Status);
  let Length := u16 UnicodeNameLength in
  _ ← (if NT_SUCCESS ZwSetName_st then upd_kernel (set_name (unicode_string Length Buffer)) else mret tt);
  kassert DEBUG (NT_SUCCESS ZwSetName_st).

(** From the [SetPriority] label, reached with status [st], to the [Cleanup]
    label: failures to set the name do not count. *)
Definition set_priority (DEBUG : bool) (c : CXPLAT_THREAD_CONFIG) (st : Z) : M Z :=
  _ ← (if has_flag c CXPLAT_THREAD_FLAG_HIGH_PRIORITY then upd_kernel set_high else mret tt);
  match Name c with
  | Some n => _ ← set_kernel_name DEBUG n; mret 0
  | None => mret st
  end.

(** From the processor number on, the thread having been created and
    referenced: the status that reaches the [Cleanup] label. *)
Definition place_thread (DEBUG : bool) (c : CXPLAT_THREAD_CONFIG) : M Z :=
  if negb (NT_SUCCESS KeGetProcessorNumber_st) then set_priority DEBUG c 0
  else
    let '(Group, Number) := processor_number (IdealProcessor c) in
    st ← (if has_flag c CXPLAT_THREAD_FLAG_SET_AFFINITIZE then
            _ ← kassert DEBUG (NT_SUCCESS ZwSetAffinity_st);
            _ ← (if NT_SUCCESS ZwSetAffinity_st
                 then upd_kernel (set_affinity (Group, u64 (Z.shiftl 1 Number))) else mret tt);
            mret ZwSetAffinity_st
          else
            _ ← kassert DEBUG (NT_SUCCESS KeQueryRelationship_st);
            if negb (NT_SUCCESS KeQueryRelationship_st) then mret KeQueryRelationship_st
            else
              _ ← kassert DEBUG (NT_SUCCESS ZwSetAffinity_st);
              _ ← (if NT_SUCCESS ZwSetAffinity_st
                   then upd_kernel (set_affinity (numa_mask (Group, Number))) else mret tt);
              mret ZwSetAffinity_st);
    if negb (NT_SUCCESS st) then mret st
    else
      st ← (if has_flag c CXPLAT_THREAD_FLAG_SET_IDEAL_PROC then
              _ ← kassert DEBUG (NT_SUCCESS ZwSetIdeal_st);
              _ ← (if NT_SUCCESS ZwSetIdeal_st then upd_kernel (set_ideal (Group, Number)) else mret tt);
              mret ZwSetIdeal_st
            else mret st);
      if negb (NT_SUCCESS st) then mret st else set_priority DEBUG c st.

(** The status, and whether [*Thread] is not NULL. *)
Definition CxPlatThreadCreate_kernel (DEBUG : bool) (c : CXPLAT_THREAD_CONFIG) : M (Z * bool) :=
  _ ← kassert DEBUG (NT_SUCCESS PsCreateSystemThread_st);
  if negb (NT_SUCCESS PsCreateSystemThread_st) then mret (PsCreateSystemThread_st, false)
  else
    _ ← put (mkKernel (Some (new_thread (Callback c) (Context c))) true 0);
    _ ← kassert DEBUG (NT_SUCCESS ObReferenceObject_st);
    r ← (if negb (NT_SUCCESS ObReferenceObject_st) then mret (ObReferenceObject_st, false)
         else
           s ← get;
           _ ← put (mkKernel (k_thread s) (k_handle s) (S (k_refs s)));
           st ← place_thread DEBUG c;
           mret (st, true));
    s ← get;
    _ ← put (mkKernel (k_thread s) false (k_refs s));
    mret r.

End KernelThread.
