(* ===== verification/ThreadTheorems.v ===== *)
(** * Theorems about threads

    When [CxPlatThreadCreate] has created the thread it reports, what it leaves
    behind when it has not, that every thread calls its callback once and no
    custom context is lost, and when the [CxPlatAsyncT] wrapper joins its thread
    exactly once. *)

From S2P Require Import Prelude Thread.

(** ** Linux *)

(** States that differ in nothing but the numbers of the next thread and context. *)
Definition same_world (s s' : posix) : Prop :=
  threads s' = threads s /\ attrs s' = attrs s /\ contexts s' = contexts s /\
  objects s' = objects s /\ calls s' = calls s.

(** The numbers of the next thread and context are not in use; no context is at
    the null address. *)
Record posix_wf (s : posix) : Prop := {
  wf_next : 0 < next_context s;
  wf_contexts p : next_context s <= p -> contexts s !! p = None;
  wf_threads t : (next_thread s <= t)%nat -> threads s !! t = None
}.

(** [s'] is [s] with the new thread [th] of the configuration [c], which is handed
    the callback directly or through a new custom context. *)
Record created (Custom : bool) (c : CXPLAT_THREAD_CONFIG) (s s' : posix) (th : thread) : Prop := {
  cr_threads : threads s' = <[next_thread s := th]> (threads s);
  cr_next : next_thread s' = S (next_thread s);
  cr_attrs : attrs s' = attrs s;
  cr_objects : objects s' = objects s;
  cr_calls : calls s' = calls s;
  cr_new : t_ended th = false /\ t_joined th = false;
  cr_start : t_start th = if Custom then CxPlatThreadCustomStart else Callback c;
  cr_arg : t_arg th = if Custom then next_context s else Context c;
  cr_contexts : contexts s' = if Custom then <[next_context s := mkCustom (Callback c) (Context c)]> (contexts s)
                              else contexts s;
  cr_next_context : next_context s' = if Custom then next_context s + 1 else next_context s
}.

Lemma created_wf Custom c s s' th : posix_wf s -> created Custom c s s' th -> posix_wf s'.
Proof.
  intros [Hn Hc Ht] Hcr. split.
  - rewrite (cr_next_context _ _ _ _ _ Hcr). destruct Custom; lia.
  - intros p. rewrite (cr_next_context _ _ _ _ _ Hcr), (cr_contexts _ _ _ _ _ Hcr).
    destruct Custom; intros Hp; [rewrite lookup_insert_ne by lia|]; apply Hc; lia.
  - intros t. rewrite (cr_next _ _ _ _ _ Hcr), (cr_threads _ _ _ _ _ Hcr). intros Hle.
    rewrite lookup_insert_ne by lia. apply Ht. lia.
Qed.

Section Linux.
Context `{!Pthread}.
Variable Custom : bool.

(** An attempt to create the thread succeeds; with a custom context there is only
    the one with attributes. *)
Definition attempt_ok : Prop := create_rc true = 0 \/ (Custom = false /\ create_rc false = 0).
Definition attempt_fails : Prop := create_rc true <> 0 /\ (Custom = false -> create_rc false <> 0).

(** The custom context, if the build has one, can be allocated. *)
Definition context_ok : Prop := Custom = true -> context_alloc_ok = true.

Definition create_thread (attr : pthread_attr) (c : CXPLAT_THREAD_CONFIG) : M posix (Z * option nat) :=
  if Custom then create_custom attr c else create_plain attr c.

Lemma create_thread_ok a c s :
  posix_wf s -> context_ok -> attempt_ok ->
  exists s' th, create_thread a c s = Ret (0, Some (next_thread s)) s' /\ created Custom c s s' th.
Proof.
  intros [Hn Hf _] Hc Ha. unfold create_thread, context_ok, attempt_ok in *.
  destruct Custom; unfold create_custom, create_plain, alloc_context, write_context, pthread_create, mbind, M_bind.
  - rewrite (Hc eq_refl). rewrite (proj2 (Z.eqb_neq _ _)) by lia.
    destruct Ha as [-> | [? _]]; [|done]. cbn. by eexists _, _.
  - cbn. destruct (Z.eqb_spec (create_rc true) 0) as [H1|H1]; cbn; [by eexists _, _|].
    rewrite (proj2 (Z.eqb_neq _ _)) by done. cbn. destruct Ha as [?|[_ Ha]]; [done|].
    rewrite Ha. cbn. by eexists _, _.
Qed.

Lemma create_thread_fails a c s :
  posix_wf s -> context_ok -> attempt_fails ->
  exists s', create_thread a c s = Ret (u32 errno, None) s' /\ same_world s s' /\ posix_wf s'.
Proof.
  intros [Hn Hf Ht] Hc [H1 H2]. unfold create_thread, context_ok in *.
  destruct Custom; unfold create_custom, create_plain, alloc_context, write_context, free_context, pthread_create, mbind, M_bind.
  - rewrite (Hc eq_refl). rewrite (proj2 (Z.eqb_neq _ 0)) by lia.
    rewrite (proj2 (Z.eqb_neq (create_rc true) 0)) by done. cbn. rewrite (proj2 (Z.eqb_neq (create_rc true) 0)) by done.
    cbn. rewrite lookup_insert_eq. eexists. split; [done|]. cbn.
    rewrite delete_insert_id by (apply Hf; lia). split; [done|].
    split; cbn; [lia|intros p Hp; apply Hf; lia|done].
  - cbn. repeat (rewrite (proj2 (Z.eqb_neq (create_rc _) 0)) by auto; cbn). by exists s.
Qed.

(** The processors the code asks the system to bind the created thread to. *)
Definition bind_target (Numa : bool) (c : CXPLAT_THREAD_CONFIG) : option Z :=
  if has_flag c CXPLAT_THREAD_FLAG_SET_AFFINITIZE then Some (cpu_mask (IdealProcessor c))
  else if Numa && negb (NumaNodeCount =? 0)
       then NumaNodeMasks !! Z.to_nat (numa_node_of_cpu (IdealProcessor c)) else None.

(** In NUMA builds: the node of the processor is one of the table. *)
Definition node_ok (Numa : bool) (c : CXPLAT_THREAD_CONFIG) : Prop :=
  Numa = true -> NumaNodeCount <> 0 -> has_flag c CXPLAT_THREAD_FLAG_SET_AFFINITIZE = false ->
  0 <= numa_node_of_cpu (IdealProcessor c) < NumaNodeCount.

Lemma bind_thread_eq Numa c t s :
  node_ok Numa c ->
  bind_thread Numa c t s =
    match bind_target Numa c with Some m => pthread_setaffinity_np t m s | None => Ret tt s end.
Proof.
  unfold node_ok, bind_thread, bind_target. intros Hn.
  destruct (has_flag c CXPLAT_THREAD_FLAG_SET_AFFINITIZE); [done|].
  destruct Numa; [|done]. cbn [andb]. destruct (Z.eqb_spec NumaNodeCount 0); [done|]. cbn [negb].
  destruct Hn as [H0 H1]; [done..|]. rewrite (proj2 (Z.leb_le _ _)) by done.
  destruct (_ !! _) eqn:Hl; [done|]. apply lookup_ge_None in Hl. unfold NumaNodeCount in H1. lia.
Qed.

(** The function after [pthread_attr_init]. *)
Lemma linux_eq Numa Glibc Android c s :
  attr_init_rc = 0 ->
  CxPlatThreadCreate_linux Custom Numa Glibc Android c s =
    (r ← create_thread (make_attr Glibc c) c;
     _ ← (if negb Android && (r.1 =? CXPLAT_STATUS_SUCCESS) then bind_thread Numa c r.2 else mret tt);
     _ ← pthread_attr_destroy; mret r) (p_attrs (S (attrs s)) s).
Proof.
  intros Hi. unfold CxPlatThreadCreate_linux. rewrite (bind_Ret _ _ s 0 (p_attrs (S (attrs s)) s)); [done|].
  unfold pthread_attr_init. by rewrite Hi.
Qed.

Lemma wf_attrs n s : posix_wf s -> posix_wf (p_attrs n s).
Proof. intros [???]. by split. Qed.

(** A successful creation, whichever attempt it took. *)
Lemma linux_create_ok Numa Glibc Android c s :
  attr_init_rc = 0 -> posix_wf s -> context_ok -> node_ok Numa c -> attempt_ok ->
  exists s' th, CxPlatThreadCreate_linux Custom Numa Glibc Android c s = Ret (0, Some (next_thread s)) s' /\
    created Custom c s s' th /\
    (Android = false -> setaffinity_rc = 0 -> forall m, bind_target Numa c = Some m -> t_affinity th = Some (0, m)).
Proof.
  intros Hi Hwf Hc Hn Ha. rewrite linux_eq by done.
  destruct (create_thread_ok (make_attr Glibc c) c _ (wf_attrs (S (attrs s)) s Hwf) Hc Ha) as (s1 & th & Hcr & Hc1).
  rewrite (bind_Ret _ _ _ _ _ Hcr). cbn [fst snd]. change (0 =? CXPLAT_STATUS_SUCCESS) with true. rewrite andb_true_r.
  destruct Hc1 as [C1 C2 C3 C4 C5 [C6 C6'] C7 C8 C9 C10].
  assert (forall f th', f (threads s1) = <[next_thread s := th']> (threads s) ->
    t_ended th' = false -> t_joined th' = false -> t_start th' = t_start th -> t_arg th' = t_arg th ->
    created Custom c s (p_attrs (attrs s) (p_threads f (next_thread s1) s1)) th') as Hcreated.
  { intros f th' Hf E1 E2 E3 E4. split; cbn; rewrite ?E3, ?E4; try done. }
  assert (exists m' th', bind_thread Numa c (Some (next_thread s)) s1 = Ret tt (p_threads (fun _ => m') (next_thread s1) s1) /\
    m' = <[next_thread s := th']> (threads s) /\ t_ended th' = false /\ t_joined th' = false /\
    t_start th' = t_start th /\ t_arg th' = t_arg th /\
    (setaffinity_rc = 0 -> forall m, bind_target Numa c = Some m -> t_affinity th' = Some (0, m)))
    as (m' & th' & Hb & Hm' & ? & ? & ? & ? & Haff).
  { rewrite bind_thread_eq by done. unfold pthread_setaffinity_np, upd_thread, p_threads in *. cbn in C1.
    destruct (bind_target Numa c) as [m|]; [destruct (Z.eqb_spec setaffinity_rc 0)|].
    - eexists _, (set_affinity (0, m) th). split; [done|]. rewrite C1, alter_insert_eq.
      split_and!; try done. by intros _ ? [= <-].
    - exists (threads s1), th. split; [by destruct s1|]. by split_and!.
    - exists (threads s1), th. split; [by destruct s1|]. by split_and!. }
  assert (attrs s1 = S (attrs s)) as Hat by done.
  destruct Android; cbn [negb].
  - exists (p_attrs (attrs s) (p_threads id (next_thread s1) s1)), th.
    split; [|split; [by apply Hcreated|done]]. erewrite bind_Ret by done.
    rewrite (bind_Ret _ _ _ tt (p_attrs (attrs s) s1)) by (unfold pthread_attr_destroy; by rewrite Hat). by destruct s1.
  - eexists _, th'. split; [|split; [|intros _; exact Haff]].
    + rewrite (bind_Ret _ _ _ _ _ Hb). unfold pthread_attr_destroy, mbind, M_bind. cbn. rewrite Hat. done.
    + by apply (Hcreated (fun _ => m')).
Qed.

Lemma linux_create_fails Numa Glibc Android c s :
  attr_init_rc = 0 -> posix_wf s -> context_ok -> attempt_fails ->
  u32 errno <> 0 \/ Android = true \/ (node_ok Numa c /\ bind_target Numa c = None) ->
  exists s', CxPlatThreadCreate_linux Custom Numa Glibc Android c s = Ret (u32 errno, None) s' /\
    same_world s s' /\ posix_wf s'.
Proof.
  intros Hi Hwf Hc Ha He. rewrite linux_eq by done.
  destruct (create_thread_fails (make_attr Glibc c) c _ (wf_attrs (S (attrs s)) s Hwf) Hc Ha)
    as (s1 & Hcr & (E1 & E2 & E3 & E4 & E5) & Hwf1).
  rewrite (bind_Ret _ _ _ _ _ Hcr). cbn [fst snd].
  erewrite (bind_Ret _ _ s1 tt s1).
  2:{ destruct Android; [done|]. unfold CXPLAT_STATUS_SUCCESS. cbn [andb negb]. destruct (Z.eqb_spec (u32 errno) 0); [|done].
      destruct He as [?|[?|[Hn Hb]]]; [done..|]. by rewrite bind_thread_eq, Hb by done. }
  unfold pthread_attr_destroy, mbind, M_bind. rewrite E2. cbn.
  eexists. split; [done|]. split; [done|by apply wf_attrs].
Qed.

End Linux.


(** The two faults outside those conditions: a custom context that cannot be
    allocated is written to, and the node -1 of a processor there is not is used
    as an index. *)
Theorem linux_thread_faults `{!Pthread} Custom Numa Glibc c s :
  attr_init_rc = 0 -> posix_wf s ->
  (context_alloc_ok = false -> CxPlatThreadCreate_linux true Numa Glibc false c s = Fault NullDeref) /\
  (context_ok Custom -> attempt_ok Custom -> NumaNodeCount <> 0 ->
   has_flag c CXPLAT_THREAD_FLAG_SET_AFFINITIZE = false -> numa_node_of_cpu (IdealProcessor c) = -1 ->
   CxPlatThreadCreate_linux Custom true Glibc false c s = Fault BadAccess).
Proof.
  intros Hi Hwf. split.
  - intros Ha. rewrite linux_eq by done. apply bind_Fault.
    unfold create_thread, create_custom, alloc_context, mbind, M_bind. by rewrite Ha.
  - intros Hc Ha Hn Hf Hm. rewrite linux_eq by done.
    destruct (create_thread_ok Custom (make_attr Glibc c) c _ (wf_attrs (S (attrs s)) s Hwf) Hc Ha) as (s1 & th & Hcr & _).
    rewrite (bind_Ret _ _ _ _ _ Hcr). cbn [fst snd negb andb]. apply bind_Fault.
    change (0 =? CXPLAT_STATUS_SUCCESS) with true. cbn iota. unfold bind_thread. rewrite Hf, Hm.
    by rewrite (proj2 (Z.eqb_neq _ _)) by done.
Qed.

(** Both attempts answer EAGAIN and [errno] is 0. *)
Definition exhausted_pthread : Pthread := {|
  attr_init_rc := 0; attr_setaffinity_rc := 0; attr_setschedparam_rc := 0;
  create_rc := fun _ => 11; setaffinity_rc := 0; context_alloc_ok := true; errno := 0;
  NumaNodeMasks := []; numa_node_of_cpu := fun _ => 0
|}.


(** Two NUMA nodes of four processors; everything succeeds. *)
Definition numa_pthread : Pthread := {|
  attr_init_rc := 0; attr_setaffinity_rc := 0; attr_setschedparam_rc := 0;
  create_rc := fun _ => 0; setaffinity_rc := 0; context_alloc_ok := true; errno := 0;
  NumaNodeMasks := [15; 240]; numa_node_of_cpu := fun cpu => if cpu <? 4 then 0 else 1
|}.

Definition no_threads : posix := mkPosix ∅ 0 0 ∅ 4096 ∅ [].

Lemma no_threads_wf : posix_wf no_threads.
Proof. split; [done|..]; intros; apply lookup_empty. Qed.


(** ** What the threads do *)

Section Running.
Context `{!CustomStart}.

(** What a thread that has not run is to call. *)
Definition entry (s : posix) (th : thread) : option CXPLAT_THREAD_CUSTOM_CONTEXT :=
  match t_start th with
  | CxPlatThreadCustomStart => contexts s !! t_arg th
  | r => Some (mkCustom r (t_arg th))
  end.

(** The contexts when the thread has freed its own. *)
Definition without (th : thread) (m : gmap Z CXPLAT_THREAD_CUSTOM_CONTEXT) : gmap Z CXPLAT_THREAD_CUSTOM_CONTEXT :=
  match t_start th with CxPlatThreadCustomStart => delete (t_arg th) m | _ => m end.

(** A thread whose callback makes the call [u] of user code makes that call, frees
    its custom context and has ended. *)
Lemma run_thread_eq s t th c u :
  threads s !! t = Some th -> t_ended th = false -> entry s th = Some c ->
  call_routine (cc_Callback c) (cc_Context c) s = Ret tt (p_calls (calls s ++ [u]) s) ->
  run_thread t s = Ret tt (p_threads (alter set_ended t) (next_thread s)
    (p_contexts (without th (contexts s)) (next_context s) (p_calls (calls s ++ [u]) s))).
Proof.
  intros Ht He Hc Hu. unfold run_thread, without, entry in *. rewrite Ht, He.
  destruct (t_start th) eqn:Hs; [injection Hc as <-; rewrite (bind_Ret _ _ _ _ _ Hu); by destruct s..|].
  rewrite (bind_Ret (custom_start (t_arg th)) _ s tt (p_contexts (delete (t_arg th) (contexts s)) (next_context s) (p_calls (calls s ++ [u]) s))); [done|].
  rewrite (custom_start_contract _ _ _ Hc), (bind_Ret _ _ _ _ _ Hu). unfold free_context. cbn. by rewrite Hc.
Qed.


(** The created thread is to call the configured callback, and when it has freed
    its context the contexts are those before its creation. *)
Lemma created_entry Custom c s s' th :
  created Custom c s s' th -> Callback c <> CxPlatThreadCustomStart ->
  entry s' th = Some (mkCustom (Callback c) (Context c)).
Proof.
  intros Hc Hn. unfold entry. rewrite (cr_start _ _ _ _ _ Hc), (cr_arg _ _ _ _ _ Hc), (cr_contexts _ _ _ _ _ Hc).
  destruct Custom; [apply lookup_insert_eq|]. by destruct (Callback c).
Qed.


(** Threads that have not run: the number, the thread, and the call of user code
    it is going to make. *)
Abbreviation item := (nat * thread * (Z * Z))%type.

Definition own_context (i : item) : option Z :=
  match t_start i.1.2 with CxPlatThreadCustomStart => Some (t_arg i.1.2) | _ => None end.

(** The threads [l] have been created since [s0], none has run, each has its own
    context, and there are no other new contexts. *)
Record pending (s0 s : posix) (l : list item) : Prop := {
  pd_threads : NoDup (map (fun i => i.1.1) l);
  pd_contexts : NoDup (omap own_context l);
  pd_items i : i ∈ l -> threads s !! i.1.1 = Some i.1.2 /\ t_ended i.1.2 = false /\
    entry s i.1.2 = Some (mkCustom (Routine i.2.1) i.2.2);
  pd_others p : p ∉ omap own_context l -> contexts s !! p = contexts s0 !! p;
  pd_new p : p ∈ omap own_context l -> contexts s0 !! p = None
}.

#[local] Instance pending_perm s0 s : Proper (Permutation ==> impl) (pending s0 s).
Proof.
  intros l l' Hp [H1 H2 H3 H4 H5]. split.
  - by rewrite <- Hp.
  - by rewrite <- Hp.
  - intros i. rewrite <- Hp. apply H3.
  - intros p. rewrite <- Hp. apply H4.
  - intros p. rewrite <- Hp. apply H5.
Qed.

Lemma pending_nil s : pending s s [].
Proof.
  split; [apply NoDup_nil_2..|by intros ? ?%not_elem_of_nil|done|by intros ? ?%not_elem_of_nil].
Qed.

Lemma pending_done s0 s : pending s0 s [] -> contexts s = contexts s0.
Proof. intros Hp. apply map_eq. intros p. apply (pd_others _ _ _ Hp). apply not_elem_of_nil. Qed.

Lemma pending_create s0 s s' l Custom c a th :
  posix_wf s -> pending s0 s l -> created Custom c s s' th -> Callback c = Routine a ->
  pending s0 s' ((next_thread s, th, (a, Context c)) :: l).
Proof.
  intros Hwf [H1 H2 H3 H4 H5] Hc Ha. set (i := (next_thread s, th, (a, Context c))).
  assert (Callback c <> CxPlatThreadCustomStart) as Hn by (by rewrite Ha).
  assert (forall j, j ∈ l -> own_context j <> Some (next_context s)) as Hfresh.
  { intros j (_ & _ & He)%H3 Hj. unfold own_context, entry in *. destruct (t_start j.1.2); try done.
    injection Hj as Hj. rewrite Hj, (wf_contexts _ Hwf) in He by lia. done. }
  assert (forall p, own_context i = Some p -> p = next_context s /\ contexts s !! p = None) as Hi.
  { intros p. unfold own_context, i. cbn. rewrite (cr_start _ _ _ _ _ Hc), (cr_arg _ _ _ _ _ Hc).
    destruct Custom; [|by rewrite Ha]. intros [= <-]. split; [done|]. apply (wf_contexts _ Hwf). lia. }
  assert (forall p, p ∈ omap own_context l -> p <> next_context s) as Hl.
  { intros p (j & Hj & Ho)%list_elem_of_omap ->. by apply (Hfresh j). }
  assert (forall p, p <> next_context s -> contexts s' !! p = contexts s !! p) as Hs'.
  { intros p Hp. rewrite (cr_contexts _ _ _ _ _ Hc). destruct Custom; [by rewrite lookup_insert_ne|done]. }
  split.
  - cbn. apply list.NoDup_cons. split; [|done]. intros (j & Hj & (Ht & _)%H3)%list_elem_of_fmap.
    rewrite <- Hj, (wf_threads _ Hwf) in Ht by lia. done.
  - cbn. destruct (own_context i) as [p|] eqn:Ho; [|done]. apply list.NoDup_cons. split; [|done].
    intros Hp%Hl. by destruct (Hi p).
  - intros j [-> |Hj]%elem_of_cons; cbn.
    + rewrite (cr_threads _ _ _ _ _ Hc), lookup_insert_eq. split; [done|]. split; [apply Hc|].
      by rewrite (created_entry _ _ _ _ _ Hc), Ha by done.
    + destruct (H3 j Hj) as (Ht & He & Hen). rewrite (cr_threads _ _ _ _ _ Hc). split_and!; [|done|].
      * rewrite lookup_insert_ne; [done|]. intros Hx. rewrite <- Hx, (wf_threads _ Hwf) in Ht by lia. done.
      * revert Hen. unfold entry. specialize (Hfresh j Hj). unfold own_context in Hfresh.
        destruct (t_start j.1.2); [done..|]. intros <-. apply Hs'. congruence.
  - intros p Hp. cbn in Hp. destruct (decide (p = next_context s)) as [->|Hne].
    + rewrite <- (H4 (next_context s)) by (intros Hx; by apply (Hl _ Hx)).
      rewrite (cr_contexts _ _ _ _ _ Hc). destruct Custom; [|done]. exfalso. apply Hp.
      unfold own_context at 1, i. cbn. rewrite (cr_start _ _ _ _ _ Hc), (cr_arg _ _ _ _ _ Hc). apply list_elem_of_here.
    + rewrite Hs' by done. apply H4. intros Hx. apply Hp. destruct (own_context i); [by apply list_elem_of_further|done].
  - intros p Hp. cbn in Hp. destruct (own_context i) as [q|] eqn:Ho; [|by apply H5].
    apply elem_of_cons in Hp as [->|Hp]; [|by apply H5]. destruct (Hi q eq_refl) as [-> Hq].
    rewrite <- (H4 (next_context s)); [done|]. intros Hx. by apply (Hl _ Hx).
Qed.

Lemma pending_run s0 s i l :
  pending s0 s (i :: l) ->
  exists s', run_thread i.1.1 s = Ret tt s' /\ pending s0 s' l /\ calls s' = calls s ++ [i.2].
Proof.
  intros [H1 H2 H3 H4 H5]. destruct (H3 i) as (Ht & He & Hen); [apply list_elem_of_here|].
  eexists. split; [eapply (run_thread_eq _ _ _ _ i.2); [done..|]; by destruct i as [? []]|]. split; [|done].
  cbn in H1. apply list.NoDup_cons in H1 as [H1 H1'].
  assert (forall j p, j ∈ l -> own_context j = Some p -> without i.1.2 (contexts s) !! p = contexts s !! p) as Hw.
  { intros j p Hj Ho. unfold without. destruct (t_start i.1.2) eqn:Hs; [done..|].
    apply lookup_delete_ne. intros Hx. cbn in H2. unfold own_context in H2 at 1. rewrite Hs in H2.
    apply list.NoDup_cons in H2 as [H2 _]. apply H2. apply list_elem_of_omap. exists j. by rewrite Ho, Hx. }
  split; cbn.
  - done.
  - cbn in H2. destruct (own_context i); [by apply list.NoDup_cons in H2 as [_ ?]|done].
  - intros j Hj. destruct (H3 j) as (Htj & Hej & Henj); [by apply list_elem_of_further|].
    assert (i.1.1 <> j.1.1) as Hne.
    { intros Hx. apply H1. apply list_elem_of_fmap. by exists j. }
    rewrite lookup_alter_ne by done. split_and!; [done..|]. revert Henj. unfold entry. cbn.
    specialize (Hw j). unfold own_context in Hw. destruct (t_start j.1.2); [done..|]. intros <-. by apply Hw.
  - intros p Hp. cbn in H4. unfold without, own_context in *. destruct (t_start i.1.2) eqn:Hs; [by apply H4..|].
    destruct (decide (p = t_arg i.1.2)) as [->|Hne].
    + rewrite lookup_delete_eq. symmetry. apply H5. cbn. rewrite Hs. apply list_elem_of_here.
    + rewrite lookup_delete_ne by done. apply H4. by intros [?|?]%elem_of_cons.
  - intros p Hp. apply H5. cbn. destruct (own_context i); [by apply list_elem_of_further|done].
Qed.

Fixpoint run_all (ts : list nat) : M posix unit :=
  match ts with
  | [] => mret tt
  | t :: ts => _ ← run_thread t; run_all ts
  end.

Lemma pending_run_all s0 s l :
  pending s0 s l ->
  exists s', run_all (map (fun i => i.1.1) l) s = Ret tt s' /\ contexts s' = contexts s0 /\
    calls s' = calls s ++ map snd l.
Proof.
  induction l as [|i l IH] in s |- *; intros Hp; cbn [run_all map].
  { exists s. split; [done|]. split; [by apply pending_done|]. by rewrite app_nil_r. }
  destruct (pending_run s0 s i l Hp) as (s1 & Hr & Hp1 & Hc1). rewrite (bind_Ret _ _ _ _ _ Hr).
  destruct (IH s1 Hp1) as (s' & -> & Hc & Hcalls). exists s'. split; [done|]. split; [done|].
  by rewrite Hcalls, Hc1, <- app_assoc.
Qed.

(** A client creates threads one after the other, each call with its own answers
    of the system. *)
Fixpoint create_all (Custom Numa Glibc Android : bool) (l : list (Pthread * CXPLAT_THREAD_CONFIG))
    : M posix (list (Z * option nat)) :=
  match l with
  | [] => mret []
  | (E, c) :: l =>
      r ← CxPlatThreadCreate_linux (H := E) Custom Numa Glibc Android c;
      rs ← create_all Custom Numa Glibc Android l;
      mret (r :: rs)
  end.

Definition user_call (c : CXPLAT_THREAD_CONFIG) : Z * Z :=
  (match Callback c with Routine a => a | _ => 0 end, Context c).

Definition is_routine (r : start_routine) : bool := match r with Routine _ => true | _ => false end.

(** Contexts can be allocated, the processors have NUMA nodes, and the callback is
    the client's own. *)
Definition call_env_ok (Custom Numa : bool) (e : Pthread * CXPLAT_THREAD_CONFIG) : Prop :=
  let E := e.1 in
  context_ok Custom /\ node_ok Numa e.2 /\ is_routine (Callback e.2) = true.

(** This call creates a thread. *)
Definition succeeds (Custom : bool) (e : Pthread * CXPLAT_THREAD_CONFIG) : bool :=
  let E := e.1 in
  (attr_init_rc =? 0) && ((create_rc true =? 0) || (negb Custom && (create_rc false =? 0))).

(** This call creates none, finds [errno] 0, and goes on to bind the thread. *)
Definition crashes (Custom Numa Android : bool) (e : Pthread * CXPLAT_THREAD_CONFIG) : bool :=
  let E := e.1 in
  (attr_init_rc =? 0) && negb (succeeds Custom e) && (u32 errno =? 0) && negb Android &&
  bool_decide (bind_target Numa e.2 <> None).

(** What a call returns: success and a thread, or [errno] and none. *)
Definition reported (Custom : bool) (e : Pthread * CXPLAT_THREAD_CONFIG) (r : Z * option nat) : Prop :=
  if succeeds Custom e then r.1 = 0 /\ is_Some r.2 else r = (u32 (@errno e.1), None).

(** The user code the created threads are to call. *)
Definition wanted (Custom : bool) (l : list (Pthread * CXPLAT_THREAD_CONFIG)) : list (Z * Z) :=
  map (fun e => user_call e.2) (List.filter (succeeds Custom) l).

Lemma succeeds_spec Custom E c :
  if succeeds Custom (E, c) then attr_init_rc = 0 /\ attempt_ok (H := E) Custom
  else attr_init_rc <> 0 \/ (attr_init_rc = 0 /\ attempt_fails (H := E) Custom).
Proof.
  unfold succeeds, attempt_ok, attempt_fails. cbn.
  destruct (Z.eqb_spec (@attr_init_rc E) 0), (Z.eqb_spec (@create_rc E true) 0),
    (Z.eqb_spec (@create_rc E false) 0), Custom; cbn; auto.
Qed.

Lemma same_pending s0 s s' l : same_world s s' -> pending s0 s l -> pending s0 s' l.
Proof.
  intros (Ht & _ & Hc & _) [H1 H2 H3 H4 H5]. unfold entry in *. split; rewrite ?Ht, ?Hc; try done.
  intros i Hi. unfold entry. rewrite Hc. by apply H3.
Qed.

(** One call: it creates a pending thread, or fails and changes nothing. *)
Lemma create_one Custom Numa Glibc Android e s0 s l :
  posix_wf s -> pending s0 s l -> call_env_ok Custom Numa e -> crashes Custom Numa Android e = false ->
  exists st r s', CxPlatThreadCreate_linux (H := e.1) Custom Numa Glibc Android e.2 s = Ret (st, r) s' /\
    posix_wf s' /\ calls s' = calls s /\
    if succeeds Custom e
    then exists t th, st = 0 /\ r = Some t /\ pending s0 s' ((t, th, user_call e.2) :: l)
    else st = u32 (@errno e.1) /\ r = None /\ pending s0 s' l.
Proof.
  destruct e as [E c]. intros Hwf Hp (Hc & Hn & Hr) Hnc. unfold crashes in Hnc. cbn in *.
  pose proof (succeeds_spec Custom E c) as Hs. destruct (succeeds Custom (E, c)).
  - destruct Hs as [Hi0 Hok]. destruct (linux_create_ok Custom Numa Glibc Android c s) as (s' & th & Hrun & Hcr & _); [done..|].
    exists 0, (Some (next_thread s)), s'. split_and!; [done|by eapply created_wf|apply Hcr|].
    eexists _, th. split_and!; [done..|]. unfold user_call. destruct (Callback c) eqn:Hcb; [|done..].
    by eapply pending_create.
  - destruct Hs as [Hi0|[Hi0 Hfail]].
    + exists (u32 errno), None, s. split; [|by split_and!].
      unfold CxPlatThreadCreate_linux, pthread_attr_init, mbind, M_bind. apply Z.eqb_neq in Hi0.
      rewrite Hi0. cbn. by rewrite Hi0.
    + assert (u32 errno <> 0 \/ Android = true \/ (node_ok Numa c /\ bind_target Numa c = None)) as He.
      { rewrite Hi0 in Hnc. cbn in Hnc. destruct (Z.eqb_spec (u32 (@errno E)) 0); [|by left]. right.
        destruct Android; [by left|]. right. split; [done|]. cbn in Hnc. apply bool_decide_eq_false in Hnc.
        destruct (bind_target Numa c); [by destruct Hnc|done]. }
      destruct (linux_create_fails Custom Numa Glibc Android c s) as (s' & Hrun & Hsame & Hwf'); auto.
      exists (u32 errno), None, s'. split_and!; [done|done|apply Hsame|done|done|by eapply same_pending].
Qed.

Lemma create_all_pending Custom Numa Glibc Android l s0 s l0 :
  posix_wf s -> pending s0 s l0 -> Forall (call_env_ok Custom Numa) l ->
  existsb (crashes Custom Numa Android) l = false ->
  exists rs s' new, create_all Custom Numa Glibc Android l s = Ret rs s' /\
    Forall2 (reported Custom) l rs /\
    omap snd rs = map (fun i => i.1.1) new /\ map snd new = wanted Custom l /\
    calls s' = calls s /\ pending s0 s' (new ++ l0).
Proof.
  induction l as [|[E c] l IH] in s, l0 |- *; intros Hwf Hp Hok Hnc; cbn [create_all].
  { exists [], s, []. by split_and!. }
  cbn in Hnc. apply orb_false_elim in Hnc as [Hnc Hncs].
  inversion Hok as [|? ? He Hl]; subst.
  destruct (create_one Custom Numa Glibc Android (E, c) s0 s l0 Hwf Hp He Hnc) as (st & r & s1 & Hr & Hwf1 & Hc1 & Hcase).
  cbn in Hr. rewrite (bind_Ret _ _ _ _ _ Hr). cbn [fst snd]. unfold wanted. cbn [List.filter].
  destruct (succeeds Custom (E, c)) eqn:Hs.
  - destruct Hcase as (t & th & -> & -> & Hp1).
    destruct (IH s1 _ Hwf1 Hp1 Hl Hncs) as (rs & s' & new & Hrs & Hf & Ht & Hu & Hcalls & Hp').
    rewrite (bind_Ret _ _ _ _ _ Hrs). exists ((0, Some t) :: rs), s', ((t, th, user_call c) :: new). cbn.
    split_and!; [done|constructor; [|done]; unfold reported; rewrite Hs; by split; [|eexists]|by rewrite Ht|by rewrite Hu|congruence|].
    eapply pending_perm; [|exact Hp']. by rewrite Permutation_middle.
  - destruct Hcase as (-> & -> & Hp1).
    destruct (IH s1 _ Hwf1 Hp1 Hl Hncs) as (rs & s' & new & Hrs & Hf & Ht & Hu & Hcalls & Hp').
    rewrite (bind_Ret _ _ _ _ _ Hrs). exists ((u32 (@errno E), None) :: rs), s', new. cbn.
    split_and!; [done|constructor; [|done]; unfold reported; by rewrite Hs|done..|congruence|done].
Qed.

(** The first call that crashes crashes the client. *)
Lemma create_all_crash Custom Numa Glibc Android l s0 s l0 :
  posix_wf s -> pending s0 s l0 -> Forall (call_env_ok Custom Numa) l ->
  existsb (crashes Custom Numa Android) l = true ->
  create_all Custom Numa Glibc Android l s = Fault UninitRead.
Proof.
  induction l as [|[E c] l IH] in s, l0 |- *; intros Hwf Hp Hok Hex; [done|]. cbn [create_all].
  inversion Hok as [|? ? He Hl]; subst. cbn in Hex. destruct (crashes Custom Numa Android (E, c)) eqn:Hcr.
  - apply bind_Fault. destruct He as (Hc & Hn & _). unfold crashes in Hcr. cbn in Hc, Hn, Hcr.
    apply andb_prop in Hcr as [Hcr Hb%bool_decide_eq_true]. apply andb_prop in Hcr as [Hcr Han%negb_true_iff].
    apply andb_prop in Hcr as [Hcr He%Z.eqb_eq]. apply andb_prop in Hcr as [Hi Hs%negb_true_iff]. subst Android.
    pose proof (succeeds_spec Custom E c) as Hsp. rewrite Hs in Hsp. apply Z.eqb_eq in Hi.
    destruct Hsp as [?|[_ Hfail]]; [done|].
    destruct (bind_target Numa c) eqn:Hbt; [|done]. rewrite linux_eq by done.
    destruct (create_thread_fails Custom (make_attr Glibc c) c _ (wf_attrs (S (attrs s)) s Hwf) Hc Hfail) as (s1 & Hcr' & _).
    rewrite (bind_Ret _ _ _ _ _ Hcr'). cbn [fst snd negb andb]. rewrite He. apply bind_Fault.
    change (0 =? CXPLAT_STATUS_SUCCESS) with true. cbn iota. by rewrite bind_thread_eq, Hbt by done.
  - destruct (create_one Custom Numa Glibc Android (E, c) s0 s l0 Hwf Hp He Hcr) as (st & r & s1 & Hr & Hwf1 & _ & Hcase).
    cbn in Hr. rewrite (bind_Ret _ _ _ _ _ Hr). apply bind_Fault.
    destruct (succeeds Custom (E, c)).
    + destruct Hcase as (t & th & _ & _ & Hp1). by eapply IH.
    + destruct Hcase as (_ & _ & Hp1). by eapply IH.
Qed.

(** C39: threads and their contexts on Linux.  A client creates any number of
    threads, some of which the system refuses; contexts can be allocated.  If a
    refused call finds [errno] 0 and its thread was to be bound, the client crashes.
    Otherwise each call returns success and a thread, or [errno] and none: a
    nonzero status means that there is no thread, and zero that there is one or that
    [errno] was not set.  When the created threads have run, in whatever order,
    exactly their callbacks have been called, each once and with its context, and in
    builds with custom contexts every context has been freed, provided that the
    platform's start routine calls the callback and frees the context as the header
    asks. *)
Theorem threads_call_and_free Custom Numa Glibc Android l s :
  posix_wf s -> Forall (call_env_ok Custom Numa) l ->
  if existsb (crashes Custom Numa Android) l then create_all Custom Numa Glibc Android l s = Fault UninitRead
  else exists rs s1, create_all Custom Numa Glibc Android l s = Ret rs s1 /\ Forall2 (reported Custom) l rs /\
    forall order, order ≡ₚ omap snd rs ->
      exists s2 made, run_all order s1 = Ret tt s2 /\ contexts s2 = contexts s /\
        calls s2 = calls s ++ made /\ made ≡ₚ wanted Custom l.
Proof.
  intros Hwf Hok. destruct (existsb _ _) eqn:Hnc; [by eapply create_all_crash; [|apply pending_nil|..]|].
  destruct (create_all_pending Custom Numa Glibc Android l s s [] Hwf (pending_nil s) Hok Hnc)
    as (rs & s1 & new & Hr & Hf & Ht & Hu & Hcalls & Hp). rewrite app_nil_r in Hp.
  exists rs, s1. split; [done|]. split; [done|]. intros order Ho. rewrite Ht in Ho.
  apply Permutation_map_inv in Ho as (new' & -> & Hperm).
  destruct (pending_run_all s s1 new') as (s2 & Hrun & Hc & Hcalls2); [by eapply pending_perm|].
  exists s2, (map snd new'). split_and!; [done..|congruence|]. rewrite <- Hu. by rewrite Hperm.
Qed.

(** ** [CxPlatAsyncT] *)





(** The states an object goes through, from the state [s] before its construction:
    [s1] with its thread [th] created; then the thread has run ([e]) and been
    joined ([j]). *)
Section AsyncStates.
Variables (s s1 : posix) (th : thread) (u : Z * Z) (o : gmap Z ContextT).


Context (Custom : bool) (c : CXPLAT_THREAD_CONFIG).
Hypothesis Hwf : posix_wf s.
Hypothesis Hcr : created Custom c s s1 th.
Hypothesis Hcb : Callback c <> CxPlatThreadCustomStart.
Hypothesis Hcall : forall s', objects s' = o ->
  call_routine (Callback c) (Context c) s' = Ret tt (p_calls (calls s' ++ [u]) s').





End AsyncStates.




End Running.

(** A start routine that does what the header asks. *)
Definition demo_start (p : Z) : M posix unit := fun s =>
  match contexts s !! p with
  | Some c => (_ ← call_routine (cc_Callback c) (cc_Context c); free_context p) s
  | None => Fault BadAccess
  end.

Lemma demo_start_contract p s c :
  contexts s !! p = Some c ->
  demo_start p s = (_ ← call_routine (cc_Callback c) (cc_Context c); free_context p) s.
Proof. intros Hc. unfold demo_start. by rewrite Hc. Qed.

Definition demo_custom : CustomStart := {|
  custom_start := demo_start; custom_start_contract := demo_start_contract
|}.

(** A refused thread between two created ones, run in the opposite order. *)
Definition failing_pthread : Pthread := {|
  attr_init_rc := 0; attr_setaffinity_rc := 0; attr_setschedparam_rc := 0;
  create_rc := fun _ => 11; setaffinity_rc := 0; context_alloc_ok := true; errno := 11;
  NumaNodeMasks := []; numa_node_of_cpu := fun _ => 0
|}.

Definition three_calls : list (Pthread * CXPLAT_THREAD_CONFIG) :=
  [(numa_pthread, mkConfig 0 0 None (Routine 100) 1); (failing_pthread, mkConfig 0 0 None (Routine 200) 2);
   (numa_pthread, mkConfig 0 0 None (Routine 300) 3)].

Lemma three_calls_ok : Forall (call_env_ok true false) three_calls.
Proof.
  unfold call_env_ok, context_ok, node_ok. repeat constructor; cbn; done.
Qed.

Lemma threads_call_and_free_witness :
  exists s1 s2, create_all true false true false three_calls no_threads = Ret [(0, Some O); (11, None); (0, Some 1%nat)] s1 /\
    run_all (H := demo_custom) [1%nat; O] s1 = Ret tt s2 /\ contexts s2 = ∅ /\
    calls s2 ≡ₚ [(100, 1); (300, 3)].
Proof.
  destruct (threads_call_and_free (H := demo_custom) true false true false three_calls no_threads no_threads_wf three_calls_ok)
    as (rs & s1 & Hr & Hf & Hrun).
  assert (rs = [(0, Some O); (11, None); (0, Some 1%nat)]) as -> by (vm_compute in Hr; by injection Hr as <- _).
  destruct (Hrun [1%nat; O]) as (s2 & made & Hs2 & Hc & Hcalls & Hp); [apply perm_swap|].
  exists s1, s2. split; [exact Hr|]. split; [exact Hs2|]. split; [exact Hc|].
  rewrite Hcalls. exact Hp.
Defined.


(** ** macOS and FreeBSD *)

(** One attempt: it yields the configured thread, or the error number in [errno],
    with the attributes destroyed in both cases. *)
Theorem bsd_thread_create `{!Pthread} c s :
  attr_init_rc = 0 -> posix_wf s ->
  if create_rc true =? 0
  then exists s' th, CxPlatThreadCreate_bsd c s = Ret (0, Some (next_thread s)) s' /\ created false c s s' th
  else CxPlatThreadCreate_bsd c s = Ret (u32 errno, None) s.
Proof.
  intros Hi _. unfold CxPlatThreadCreate_bsd, pthread_attr_init, pthread_create, pthread_attr_destroy, mbind, M_bind.
  rewrite Hi. cbn. destruct (create_rc true =? 0) eqn:Hc; cbn; [by eexists _, _|].
  rewrite Hc. cbn. by destruct s.
Qed.
