(* ===== verification/WinThreadTheorems.v ===== *)
(** * Theorems about the creation of threads on Windows

    Where a created thread is placed and how it is named in user mode and in the
    kernel, which failures are reported as successes, and what is left when the
    creation fails. *)

From S2P Require Import Prelude Thread.

(** ** User mode *)

Lemma unicode_string_whole u : 2 * Z.of_nat (length u) < 2 ^ 16 -> unicode_string (u16 (2 * Z.of_nat (length u))) u = u.
Proof.
  intros Hu. unfold unicode_string. rewrite wrap_small by (unfold is_u; lia).
  apply take_ge. rewrite Z.mul_comm, Z.div_mul by done. lia.
Qed.

Section User.
Context `{!WinThread}.

(** The thread the configuration describes, when it starts with [start arg]. *)
Definition configured (c : CXPLAT_THREAD_CONFIG) (start : start_routine) (arg : Z) : thread :=
  let '(Index, Group) := procs (IdealProcessor c) in
  mkThread start arg
    (Some (Group, if has_flag c CXPLAT_THREAD_FLAG_SET_AFFINITIZE then u64 (2 ^ Index) else group_mask Group))
    (if has_flag c CXPLAT_THREAD_FLAG_SET_IDEAL_PROC then Some (Group, Index) else None)
    (has_flag c CXPLAT_THREAD_FLAG_HIGH_PRIORITY)
    (option_map (mbstowcs_s 63) (Name c)) false false.

Lemma wide_name n : RtlInitUnicodeString (mbstowcs_s 63 n) = mbstowcs_s 63 n.
Proof.
  apply unicode_string_whole. pose proof (mbstowcs_s_fits 63 n ltac:(lia)). lia.
Qed.

Lemma place_user_eq DEBUG c start arg x n :
  IdealProcessor c < ProcCount -> placed = true ->
  place_user DEBUG c (mkWinThread (Some (new_thread start arg)) x n) =
    Ret 0 (mkWinThread (Some (configured c start arg)) x n).
Proof.
  intros Hp Hpl. unfold place_user, configured, upd_win, mbind, M_bind. rewrite Hpl.
  rewrite (proj2 (Z.ltb_lt _ _)) by done. destruct (procs (IdealProcessor c)) as [i g].
  destruct DEBUG, (has_flag c CXPLAT_THREAD_FLAG_SET_AFFINITIZE), (has_flag c CXPLAT_THREAD_FLAG_SET_IDEAL_PROC),
    (has_flag c CXPLAT_THREAD_FLAG_HIGH_PRIORITY), (Name c); cbn -[mbstowcs_s RtlInitUnicodeString];
    change (64 - 1)%nat with 63%nat; by rewrite ?wide_name, ?Z.shiftl_1_l.
Qed.
End User.

(** User mode.  A failed [CreateThread] is reported by the Win32 error code
    itself, which as an [HRESULT] is not negative: [CXPLAT_SUCCEEDED] accepts it
    although there is no thread.  A created thread is bound to the processor of
    the configuration when affinity is asked for, else to that processor's group,
    and has its name, cut to 62 characters; a build with custom contexts hands it
    one with the configured callback, and has freed it when there is no thread.
    An ideal processor outside the table stops a debug build and is read beyond
    the table in others. *)
Theorem user_thread_create `{!WinThread} DEBUG Custom c s :
  w_contexts s !! w_next_context s = None -> (Custom = true -> user_context_alloc_ok = true) ->
  let cc := mkCustom (Callback c) (Context c) in
  (CreateThread_ok = false ->
   exists Status s', CxPlatThreadCreate_user DEBUG Custom c s = Ret Status s' /\
     HRESULT_SUCCEEDED Status = true /\ w_thread s' = None /\ w_contexts s' = w_contexts s) /\
  (CreateThread_ok = true -> placed = true -> IdealProcessor c < ProcCount ->
   exists s', CxPlatThreadCreate_user DEBUG Custom c s = Ret 0 s' /\
     if Custom
     then w_thread s' = Some (configured c CxPlatThreadCustomStart (w_next_context s)) /\
          w_contexts s' = <[w_next_context s := cc]> (w_contexts s)
     else w_thread s' = Some (configured c (Callback c) (Context c)) /\ w_contexts s' = w_contexts s) /\
  (CreateThread_ok = true -> ProcCount <= IdealProcessor c ->
   CxPlatThreadCreate_user DEBUG Custom c s = if DEBUG then Stop AssertFailed else Fault BadAccess).
Proof.
  intros Hf Hc cc. unfold CxPlatThreadCreate_user, win_alloc_context, win_free_context, CreateThread.
  assert (HRESULT_SUCCEEDED GetLastError = true) as Herr.
  { pose proof GetLastError_range. unfold HRESULT_SUCCEEDED. rewrite sgn_small by (unfold is_s; lia). apply Z.leb_le. lia. }
  split; [|split].
  - intros Ho. rewrite Ho. destruct Custom; unfold mbind, M_bind; cbn; [rewrite (Hc eq_refl); cbn; rewrite lookup_insert_eq; cbn|].
    + eexists _, _. split; [done|]. by rewrite delete_insert_id.
    + by eexists _, _.
  - intros Ho Hp Hi. rewrite Ho. destruct Custom; unfold mbind, M_bind; cbn [negb w_contexts w_next_context];
      [rewrite (Hc eq_refl)|]; cbn [negb w_contexts w_next_context w_thread];
      rewrite place_user_eq by done; by eexists.
  - intros Ho Hi. rewrite Ho.
    assert (forall s', place_user DEBUG c s' = if DEBUG then Stop AssertFailed else Fault BadAccess) as Hpl.
    { intros s'. unfold place_user, mbind, M_bind. rewrite (proj2 (Z.ltb_ge _ _)) by done. by destruct DEBUG. }
    destruct Custom; unfold mbind, M_bind; cbn; [rewrite (Hc eq_refl)|]; cbn; apply Hpl.
Qed.

Lemma error8_range : 0 < 8 < 2 ^ 31.
Proof. done. Qed.

Lemma take_fits n (name : list Z) : (0 < n)%nat -> (length (take (n - 1) name) < n)%nat.
Proof. intros Hn. rewrite length_take. lia. Qed.

(** Four processors in one group, names in ASCII. *)
Definition four_processors (ok : bool) : WinThread := {|
  CreateThread_ok := ok; Thread.GetLastError := 8; ProcCount := 4; procs := fun i => (i, 0);
  group_mask := fun _ => 15; placed := true; user_context_alloc_ok := true;
  mbstowcs_s := fun n name => take (n - 1) name;
  GetLastError_range := error8_range; mbstowcs_s_fits := take_fits
|}.

Definition pinned_config : CXPLAT_THREAD_CONFIG := mkConfig 6 2 (Some [119; 49]) (Routine 4096) 8192.

Lemma user_thread_create_witness :
  exists Status s', CxPlatThreadCreate_user (H := four_processors false) false true pinned_config (mkWinThread None ∅ 64) =
      Ret Status s' /\ HRESULT_SUCCEEDED Status = true /\ w_thread s' = None /\ w_contexts s' = ∅.
Proof.
  apply (user_thread_create (H := four_processors false) false true pinned_config (mkWinThread None ∅ 64)); done.
Defined.

(** ** Kernel mode *)

(** The statuses of the calls that place the thread. *)
Definition placing_fails `{!Kernel} (c : CXPLAT_THREAD_CONFIG) : bool :=
  NT_SUCCESS KeGetProcessorNumber_st &&
  ((if has_flag c CXPLAT_THREAD_FLAG_SET_AFFINITIZE then negb (NT_SUCCESS ZwSetAffinity_st)
    else negb (NT_SUCCESS KeQueryRelationship_st) || negb (NT_SUCCESS ZwSetAffinity_st)) ||
   (has_flag c CXPLAT_THREAD_FLAG_SET_IDEAL_PROC && negb (NT_SUCCESS ZwSetIdeal_st))).

Section KernelThreads.
Context `{!Kernel}.

(** A name fits: at most 64 bytes are converted, into room for 64 units. *)
Lemma kernel_name_fits n : RtlUTF8ToUnicodeN (64 * 2) (take 64 n) = (utf16_st (take 64 n), utf16 (take 64 n)).
Proof.
  unfold RtlUTF8ToUnicodeN. pose proof (utf16_length (take 64 n)) as Hl. rewrite length_take in Hl.
  by rewrite (proj2 (Z.leb_le _ _)) by lia.
Qed.

Lemma set_kernel_name_eq DEBUG n s :
  NT_SUCCESS ZwSetName_st = true ->
  set_kernel_name DEBUG n s =
    Ret tt (mkKernel (option_map (set_name (utf16 (take 64 n))) (k_thread s)) (k_handle s) (k_refs s)).
Proof.
  intros Hz. unfold set_kernel_name, kassert. rewrite kernel_name_fits, utf16_st_ok, Hz.
  rewrite unicode_string_whole.
  - unfold mbind, M_bind. by destruct DEBUG.
  - pose proof (utf16_length (take 64 n)) as Hl. rewrite length_take in Hl. lia.
Qed.

Lemma set_kernel_name_release n s :
  exists nm, set_kernel_name false n s =
    Ret tt (mkKernel (match nm with Some m => option_map (set_name m) (k_thread s) | None => k_thread s end) (k_handle s) (k_refs s)).
Proof.
  unfold set_kernel_name, kassert, mbind, M_bind. destruct (RtlUTF8ToUnicodeN _ _).
  destruct (NT_SUCCESS ZwSetName_st); [by eexists (Some _)|]. exists None. by destruct s.
Qed.

(** What the part of the creation after the thread is referenced keeps in release
    builds: it returns, with the same thread. *)
Definition keeps (m : M kernel Z) (s : kernel) (Q : Z -> Prop) : Prop :=
  exists st s', m s = Ret st s' /\ Q st /\ k_handle s' = k_handle s /\ k_refs s' = k_refs s /\
    forall th, k_thread s = Some th -> exists th', k_thread s' = Some th' /\ t_start th' = t_start th /\ t_arg th' = t_arg th.

Lemma keeps_upd f (m : M kernel Z) s Q :
  (forall th, t_start (f th) = t_start th /\ t_arg (f th) = t_arg th) ->
  keeps m (mkKernel (option_map f (k_thread s)) (k_handle s) (k_refs s)) Q ->
  keeps (_ ← upd_kernel f; m) s Q.
Proof.
  intros Hf (st & s' & Hm & HQ & Hh & Hr & Ht). exists st, s'. split; [done|]. split_and!; try done.
  intros th Hth. cbn in Ht. rewrite Hth in Ht. destruct (Ht (f th) eq_refl) as (th' & ? & E1 & E2).
  exists th'. destruct (Hf th) as [F1 F2]. by rewrite E1, E2, F1, F2.
Qed.

Lemma keeps_ret st s (Q : Z -> Prop) : Q st -> keeps (mret st) s Q.
Proof. intros HQ. exists st, s. split_and!; try done. by intros th ->; eexists. Qed.

Lemma set_priority_keeps c st s :
  keeps (set_priority false c st) s (fun st' => (NT_SUCCESS st = true -> NT_SUCCESS st' = true) /\ (Name c <> None -> st' = 0)).
Proof.
  assert (forall s, keeps (match Name c with Some n => _ ← set_kernel_name false n; mret 0 | None => mret st end) s
    (fun st' => (NT_SUCCESS st = true -> NT_SUCCESS st' = true) /\ (Name c <> None -> st' = 0))) as Hn.
  { intros s1. destruct (Name c) as [n|]; [|by apply keeps_ret].
    destruct (set_kernel_name_release n s1) as [nm Hnm]. eexists _, _.
    split; [rewrite (bind_Ret _ _ _ _ _ Hnm); done|]. split_and!; try done. intros th Ht. cbn. rewrite Ht. by destruct nm; eexists. }
  unfold set_priority. destruct (has_flag c CXPLAT_THREAD_FLAG_HIGH_PRIORITY); [by apply keeps_upd|apply Hn].
Qed.

Lemma place_thread_keeps c s :
  keeps (place_thread false c) s (fun st => NT_SUCCESS st = negb (placing_fails c) /\
    (Name c <> None -> placing_fails c = false -> st = 0)).
Proof.
  assert (forall st s1, NT_SUCCESS st = true -> placing_fails c = false ->
    keeps (set_priority false c st) s1 (fun st => NT_SUCCESS st = negb (placing_fails c) /\
      (Name c <> None -> placing_fails c = false -> st = 0))) as Hsp.
  { intros st s1 Hst Hpf. destruct (set_priority_keeps c st s1) as (st' & s' & ? & [Hq1 Hq2] & ?). exists st', s'.
    rewrite Hpf. split; [done|]. split; [split; [by apply Hq1|by intros ? _; apply Hq2]|done]. }
  unfold place_thread, kassert. unfold placing_fails in *.
  destruct (NT_SUCCESS KeGetProcessorNumber_st); cbn [negb andb] in *; [|by apply Hsp].
  destruct (processor_number (IdealProcessor c)) as [g n].
  destruct (has_flag c CXPLAT_THREAD_FLAG_SET_AFFINITIZE), (NT_SUCCESS ZwSetAffinity_st) eqn:Ha,
    (NT_SUCCESS KeQueryRelationship_st) eqn:Hq, (has_flag c CXPLAT_THREAD_FLAG_SET_IDEAL_PROC), (NT_SUCCESS ZwSetIdeal_st) eqn:Hz;
    cbn [negb andb orb] in *; unfold keeps, mbind, M_bind, upd_kernel in *; cbn in *; rewrite ?Ha, ?Hq, ?Hz; cbn.
  all: try match goal with |- context [set_priority false _ ?st ?x] =>
         let Ht := fresh in destruct (Hsp st x) as (st' & s' & -> & [? ?] & ? & ? & Ht); [done..|];
         exists st', s'; split_and!; try done; intros th Hth; cbn in Ht; rewrite Hth in Ht;
         by destruct (Ht _ eq_refl) as (th' & ? & ? & ?); exists th' end.
  all: eexists _, _; (split; [done|]); (split; [by split; [|intros]|]); split_and!; try done; intros th ->; by eexists.
Qed.

(** The calls whose results the assertions of a debug build check. *)
Definition name_fails (c : CXPLAT_THREAD_CONFIG) : bool :=
  match Name c with Some _ => negb (NT_SUCCESS ZwSetName_st) | None => false end.

Definition checked_failure (c : CXPLAT_THREAD_CONFIG) : bool :=
  negb (NT_SUCCESS PsCreateSystemThread_st) || negb (NT_SUCCESS ObReferenceObject_st) ||
  placing_fails c || name_fails c.

Lemma kassert_debug b s : kassert true b s = if b then Ret tt s else Stop AssertFailed.
Proof. by destruct b. Qed.

Lemma set_priority_debug c st s :
  set_priority true c st s = if name_fails c then Stop AssertFailed else set_priority false c st s.
Proof.
  assert (forall n s1, set_kernel_name true n s1 =
    if negb (NT_SUCCESS ZwSetName_st) then Stop AssertFailed else set_kernel_name false n s1) as Hn.
  { intros n s1. destruct (NT_SUCCESS ZwSetName_st) eqn:Hz; cbn [negb]; [by rewrite !set_kernel_name_eq|].
    unfold set_kernel_name. rewrite kernel_name_fits. unfold mbind, M_bind.
    by rewrite kassert_debug, utf16_st_ok, Hz. }
  unfold set_priority, name_fails, mbind, M_bind, upd_kernel.
  destruct (has_flag c CXPLAT_THREAD_FLAG_HIGH_PRIORITY); cbn; (destruct (Name c); [|done]); rewrite Hn;
    by destruct (negb (NT_SUCCESS ZwSetName_st)).
Qed.

Lemma place_thread_debug c s :
  place_thread true c s = if placing_fails c || name_fails c then Stop AssertFailed else place_thread false c s.
Proof.
  unfold place_thread, placing_fails. destruct (NT_SUCCESS KeGetProcessorNumber_st); cbn [negb andb orb]; [|apply set_priority_debug].
  destruct (processor_number (IdealProcessor c)) as [g n].
  destruct (has_flag c CXPLAT_THREAD_FLAG_SET_AFFINITIZE), (NT_SUCCESS ZwSetAffinity_st) eqn:Ha,
    (NT_SUCCESS KeQueryRelationship_st) eqn:Hq, (has_flag c CXPLAT_THREAD_FLAG_SET_IDEAL_PROC), (NT_SUCCESS ZwSetIdeal_st) eqn:Hz;
    unfold mbind, M_bind, upd_kernel; cbn; rewrite ?Ha, ?Hq, ?Hz; cbn; rewrite ?set_priority_debug; done.
Qed.

(** A debug build behaves as a release build until an assertion stops it. *)
Lemma create_kernel_debug c s :
  CxPlatThreadCreate_kernel true c s =
    if checked_failure c then Stop AssertFailed else CxPlatThreadCreate_kernel false c s.
Proof.
  unfold CxPlatThreadCreate_kernel, checked_failure, put, get, mbind, M_bind. rewrite kassert_debug.
  destruct (NT_SUCCESS PsCreateSystemThread_st); [|done]. cbn [negb].
  destruct (NT_SUCCESS ObReferenceObject_st); [|done]. cbn -[place_thread]. rewrite place_thread_debug.
  by destruct (placing_fails c || name_fails c).
Qed.

Lemma create_kernel_release c s :
  exists st created s', CxPlatThreadCreate_kernel false c s = Ret (st, created) s' /\
    if NT_SUCCESS PsCreateSystemThread_st then
      k_handle s' = false /\
      exists th, k_thread s' = Some th /\ t_start th = Callback c /\ t_arg th = Context c /\
        if NT_SUCCESS ObReferenceObject_st
        then created = true /\ k_refs s' = 1%nat /\ NT_SUCCESS st = negb (placing_fails c) /\
          (Name c <> None -> placing_fails c = false -> st = 0)
        else created = false /\ k_refs s' = 0%nat /\ st = ObReferenceObject_st
    else created = false /\ st = PsCreateSystemThread_st /\ s' = s.
Proof.
  unfold CxPlatThreadCreate_kernel, kassert, put, get, mbind, M_bind.
  destruct (NT_SUCCESS PsCreateSystemThread_st); cbn; [|by eexists _, _, _].
  destruct (NT_SUCCESS ObReferenceObject_st); cbn.
  - destruct (place_thread_keeps c (mkKernel (Some (new_thread (Callback c) (Context c))) true 1))
      as (st & s2 & -> & [Hst H0] & _ & Hr & Ht). destruct (Ht _ eq_refl) as (th & E1 & E2 & E3).
    eexists _, _, _. split; [done|]. split; [done|]. by exists th.
  - eexists _, _, _. split; [done|]. split; [done|]. by eexists.
Qed.

(** C34: thread creation in kernel mode, on every path.  A debug build stops at the
    first of the calls it checks that fails.  Otherwise the function returns and
    the handle is closed.  When the thread could not be created nothing was
    changed.  When it was created, it runs the configured callback; if it could
    not be referenced the failure is reported, the thread running and no
    reference held; if it was referenced [*Thread] is set and the caller has
    one reference, also when placing the thread failed, in which case the
    function reports failure with the thread running. *)
Theorem kernel_thread_create DEBUG c s :
  k_handle s = false ->
  if DEBUG && checked_failure c then CxPlatThreadCreate_kernel DEBUG c s = Stop AssertFailed
  else exists st created s', CxPlatThreadCreate_kernel DEBUG c s = Ret (st, created) s' /\ k_handle s' = false /\
    if NT_SUCCESS PsCreateSystemThread_st then
      exists th, k_thread s' = Some th /\ t_start th = Callback c /\ t_arg th = Context c /\
        if NT_SUCCESS ObReferenceObject_st
        then created = true /\ k_refs s' = 1%nat /\ NT_SUCCESS st = negb (placing_fails c)
        else created = false /\ k_refs s' = 0%nat /\ st = ObReferenceObject_st
    else created = false /\ st = PsCreateSystemThread_st /\ s' = s.
Proof.
  intros Hh. destruct (create_kernel_release c s) as (st & created & s' & He & Hs).
  assert (k_handle s' = false) as Hc.
  { destruct (NT_SUCCESS PsCreateSystemThread_st); [by destruct Hs|by destruct Hs as (_ & _ & ->)]. }
  destruct DEBUG; cbn [andb]; [rewrite create_kernel_debug; destruct (checked_failure c); [done|]|];
    exists st, created, s'; (split; [done|]); (split; [done|]);
    (destruct (NT_SUCCESS PsCreateSystemThread_st); [|done]);
    destruct Hs as (_ & th & Ht & E1 & E2 & Ho); exists th; (split_and!; [done..|]);
    destruct (NT_SUCCESS ObReferenceObject_st); naive_solver.
Qed.
End KernelThreads.

Lemma demo_utf16_length (n : list Z) : (length (id n) <= length n)%nat.
Proof. done. Qed.

(** The affinity of the thread cannot be set (STATUS_INVALID_PARAMETER). *)
Definition no_affinity : Kernel := {|
  PsCreateSystemThread_st := 0; ObReferenceObject_st := 0; KeGetProcessorNumber_st := 0;
  processor_number := fun i => (0, i); KeQueryRelationship_st := 0; numa_mask := fun _ => (0, 15);
  ZwSetAffinity_st := -1073741811; ZwSetIdeal_st := 0; ZwSetName_st := 0;
  utf16 := id; utf16_st := fun _ => 0; utf16_length := demo_utf16_length; utf16_st_ok := fun _ => eq_refl
|}.

Lemma kernel_thread_create_witness :
  CxPlatThreadCreate_kernel (H := no_affinity) true pinned_config (mkKernel None false 0) = Stop AssertFailed /\
  exists st s' th, CxPlatThreadCreate_kernel (H := no_affinity) false pinned_config (mkKernel None false 0) =
      Ret (st, true) s' /\
    k_handle s' = false /\ k_refs s' = 1%nat /\ k_thread s' = Some th /\
    t_start th = Routine 4096 /\ t_arg th = 8192 /\ NT_SUCCESS st = false.
Proof.
  split; [exact (kernel_thread_create (H := no_affinity) true pinned_config (mkKernel None false 0) eq_refl)|].
  destruct (kernel_thread_create (H := no_affinity) false pinned_config (mkKernel None false 0) eq_refl)
    as (st & created & s' & He & Hh & th & Ht & Hs & Ha & Hc & Hr & Hst).
  exists st, s', th. rewrite Hc in He. split_and!; done.
Defined.

(** When every call succeeds the kernel thread is placed and named as the
    configuration says, in debug builds as well: no assertion fails, and a name of
    whatever length is cut to 64 bytes, whose conversion always has room. *)
Theorem kernel_thread_configured `{!Kernel} DEBUG c s :
  NT_SUCCESS PsCreateSystemThread_st = true -> NT_SUCCESS ObReferenceObject_st = true ->
  NT_SUCCESS KeGetProcessorNumber_st = true -> NT_SUCCESS KeQueryRelationship_st = true ->
  NT_SUCCESS ZwSetAffinity_st = true -> NT_SUCCESS ZwSetIdeal_st = true -> NT_SUCCESS ZwSetName_st = true ->
  exists st, CxPlatThreadCreate_kernel DEBUG c s = Ret (st, true) (mkKernel
    (Some (let '(Group, Number) := processor_number (IdealProcessor c) in
      mkThread (Callback c) (Context c)
        (Some (if has_flag c CXPLAT_THREAD_FLAG_SET_AFFINITIZE then (Group, u64 (2 ^ Number)) else numa_mask (Group, Number)))
        (if has_flag c CXPLAT_THREAD_FLAG_SET_IDEAL_PROC then Some (Group, Number) else None)
        (has_flag c CXPLAT_THREAD_FLAG_HIGH_PRIORITY)
        (option_map (fun n => utf16 (take 64 n)) (Name c)) false false)) false 1) /\ NT_SUCCESS st = true.
Proof.
  intros H1 H2 H3 H4 H5 H6 H7.
  assert (forall b s, kassert b true s = Ret tt s) as Hk by (by intros [] ?).
  unfold CxPlatThreadCreate_kernel, place_thread, set_priority, upd_kernel, put, get, mbind, M_bind.
  rewrite H1, H2, H3, H4, H5, H6. cbn [negb]. destruct (processor_number (IdealProcessor c)) as [g n].
  destruct (has_flag c CXPLAT_THREAD_FLAG_SET_AFFINITIZE), (has_flag c CXPLAT_THREAD_FLAG_SET_IDEAL_PROC),
    (has_flag c CXPLAT_THREAD_FLAG_HIGH_PRIORITY), (Name c) as [nm|];
    repeat (rewrite ?Hk, ?H5, ?H6, ?set_kernel_name_eq by done; cbn -[Z.shiftl Z.pow set_kernel_name take kassert NT_SUCCESS]);
    rewrite ?Z.shiftl_1_l; by eexists.
Qed.
