(* ===== verification/WinAsync.v ===== *)
(** * [CxPlatAsyncT] on Windows (inc/cxplat.hpp)

    The C++ wrapper that runs a callback on a thread of its own, with the
    Windows-only [WaitFor], on the thread waits of user and kernel mode (file
    WinEvent).  A thread object is signaled from the time its thread has ended;
    a wait on it returns at the first moment it can.  The thread is created by the
    functions of file Thread, with whatever they leave when they fail; a wrapper
    whose creation succeeded owns one handle (a reference in the kernel). *)

From S2P Require Import Prelude TimeConv Event Thread WinThreadTheorems WinEvent WinEventTheorems.

(** ** Waiting *)

(** The time of a wait that starts at [now] on a thread that ends at [ends]
    ([None]: never): the result and the time of its return; [None] if it never
    returns. *)
Definition wait_thread (ends : option Z) (now : Z) (c : syscall) : option (Z * Z) :=
  match c, ends with
  | SysWait None, Some e => Some (STATUS_SUCCESS, Z.max now e)
  | SysWait None, None => None
  | SysWait (Some l), Some e =>
      if e <=? now + l then Some (STATUS_SUCCESS, Z.max now e) else Some (STATUS_TIMEOUT, now + l)
  | SysWait (Some l), None => Some (STATUS_TIMEOUT, now + l)
  | _, _ => None
  end.

(** A computation returns, never returns, or stops at an assertion. *)
Inductive ran (S A : Type) := Ran (a : A) (s : S) | Blocks | Halts.
Arguments Ran {S A} _ _.
Arguments Blocks {S A}.
Arguments Halts {S A}.

Definition R (S A : Type) : Type := S -> ran S A.

#[export] Instance R_ret S : MRet (R S) := fun A a s => Ran a s.
#[export] Instance R_bind S : MBind (R S) := fun A B k m s =>
  match m s with Ran a s' => k a s' | Blocks => Blocks | Halts => Halts end.

(** The clock, the handles of threads (references in the kernel) there are, and
    whether the thread of the object has been created. *)
Record async_world := mkAsyncWorld { now : Z; thread_handles : nat; running : bool }.

(** What a call of [CxPlatThreadCreate] returned and did: its status, whether a
    thread runs, and whether its [Thread] argument got a handle or reference. *)
Record creation := mkCreation { c_status : Z; c_thread : bool; c_handle : bool }.

Section Async.
Context `{!WinSdk} `{!WinThread} `{!Kernel}.
Variable p : target.
(** The build of user mode has custom thread contexts. *)
Variable Custom : bool.
(** When the thread of this object ends, once it was created. *)
Variable ends : option Z.

Definition on_thread (w : wrapped) : R async_world bool := fun s =>
  match w with
  | None => Halts
  | Some (c, k) =>
      match wait_thread ends (now s) c with
      | Some (rc, t) => Ran (k rc) (mkAsyncWorld t (thread_handles s) (running s))
      | None => Blocks
      end
  end.

Definition CxPlatThreadWaitForever : R async_world bool := fun s =>
  on_thread (if kernel_mode p then Kernel.CxPlatThreadWaitForever (now s) else User.CxPlatThreadWaitForever) s.

Definition CxPlatThreadWaitWithTimeout (TimeoutMs : Z) : R async_world bool := fun s =>
  on_thread (if kernel_mode p then Kernel.CxPlatThreadWaitWithTimeout (debug_build p) (now s) TimeoutMs
             else User.CxPlatThreadWaitWithTimeout (debug_build p) TimeoutMs) s.

(** [CxPlatCloseHandle] of the thread's handle, [ObDereferenceObject] in the kernel. *)
Definition CxPlatThreadDelete : R async_world unit := fun s =>
  Ran tt (mkAsyncWorld (now s) (Nat.pred (thread_handles s)) (running s)).

(** The platform's [CxPlatThreadCreate]; [None] when an assertion of a debug build
    stops it, or it faults. *)
Definition CxPlatThreadCreate (c : CXPLAT_THREAD_CONFIG) : option creation :=
  if kernel_mode p then
    match CxPlatThreadCreate_kernel (debug_build p) c (mkKernel None false 0) with
    | Ret (st, _) k => Some (mkCreation st (bool_decide (is_Some (k_thread k))) (bool_decide (k_refs k <> O)))
    | _ => None
    end
  else
    match CxPlatThreadCreate_user (debug_build p) Custom c (mkWinThread None ∅ 1) with
    | Ret st w => Some (mkCreation st (bool_decide (is_Some (w_thread w))) (bool_decide (is_Some (w_thread w))))
    | _ => None
    end.

(** [ThreadConfig]; [AsyncContext] is the address of the member. *)
Definition ThreadConfig (AsyncContext : Z) : CXPLAT_THREAD_CONFIG :=
  mkConfig 0 0 (Some async_name) ThreadCallback AsyncContext.

Record CxPlatAsync := mkAsync { ThreadCompleted : bool; Initialized : bool }.

Definition async_ctor (AsyncContext : Z) : R async_world CxPlatAsync := fun s =>
  match CxPlatThreadCreate (ThreadConfig AsyncContext) with
  | Some k =>
      Ran (mkAsync false (c_status k =? 0))
        (mkAsyncWorld (now s) ((if c_handle k then S else id) (thread_handles s)) (c_thread k))
  | None => Halts
  end.

Definition async_wait (a : CxPlatAsync) : R async_world CxPlatAsync :=
  if Initialized a then
    _ ← CxPlatThreadWaitForever;
    mret (mkAsync true (Initialized a))
  else mret a.

Definition async_wait_for (TimeoutMs : Z) (a : CxPlatAsync) : R async_world (CxPlatAsync * bool) :=
  if Initialized a then
    r ← CxPlatThreadWaitWithTimeout TimeoutMs;
    mret (mkAsync r (Initialized a), r)
  else mret (a, false).

Definition async_dtor (a : CxPlatAsync) : R async_world unit :=
  if Initialized a then
    _ ← (if negb (ThreadCompleted a) then CxPlatThreadWaitForever else mret true);
    CxPlatThreadDelete
  else mret tt.

(** The user of an object calls [Wait] ([None]) or [WaitFor] a number of times;
    for each [WaitFor] the result and the time it returned. *)
Fixpoint calls (cs : list (option Z)) (a : CxPlatAsync) : R async_world (CxPlatAsync * list (bool * Z)) :=
  match cs with
  | [] => mret (a, [])
  | None :: cs => a' ← async_wait a; calls cs a'
  | Some ms :: cs =>
      r ← async_wait_for ms a;
      t ← (fun s => Ran (now s) s);
      r' ← calls cs r.1;
      mret (r'.1, (r.2, t) :: r'.2)
  end.

Definition life (AsyncContext : Z) (cs : list (option Z)) : R async_world (list (bool * Z)) :=
  a ← async_ctor AsyncContext;
  r ← calls cs a;
  _ ← async_dtor r.1;
  mret r.2.
End Async.

(** ** Theorems *)

Lemma r_bind_Ran {S A B} (m : R S A) (k : A -> R S B) s a s' : m s = Ran a s' -> (mbind k m) s = k a s'.
Proof. intros H. unfold mbind, R_bind. by rewrite H. Qed.

Section AsyncTheorems.
Context `{S : !WinSdk} `{W : !WinThread} `{K : !Kernel}.
Variable p : target.

(** A timeout [WaitFor] accepts in this build. *)
Definition timeout_ok (ms : Z) : Prop := is_u 32 ms /\ (debug_build p = true -> ms <> UINT32_MAX).

Definition call_ok (c : option Z) : Prop := match c with Some ms => timeout_ok ms | None => True end.

(** The world at another time. *)
Definition at_time (t : Z) (s : async_world) : async_world := mkAsyncWorld t (thread_handles s) (running s).

Lemma wait_forever_eq e s :
  CxPlatThreadWaitForever p (Some e) s = Ran true (at_time (Z.max (now s) e) s).
Proof. unfold CxPlatThreadWaitForever. by destruct (kernel_mode p). Qed.

Lemma wait_timeout_eq e ms s :
  timeout_ok ms -> exists t, now s <= t /\
    CxPlatThreadWaitWithTimeout p (Some e) ms s = Ran (e <=? t) (at_time t s).
Proof.
  intros [Hm Hd]. unfold CxPlatThreadWaitWithTimeout.
  assert (debug_build p && (ms =? UINT32_MAX) = false) as Hg.
  { destruct (debug_build p); [|done]. apply Z.eqb_neq. by apply Hd. }
  assert (forall l k, k STATUS_SUCCESS = true -> k STATUS_TIMEOUT = false -> (forall x, l = Some x -> 0 <= x) ->
    exists t, now s <= t /\ on_thread (Some e) (Some (SysWait l, k)) s = Ran (e <=? t) (at_time t s)) as Hw.
  { intros [l|] k Hs Ht Hl; cbn.
    - specialize (Hl l eq_refl). destruct (Z.leb_spec e (now s + l)).
      + exists (Z.max (now s) e). split; [lia|]. rewrite Hs. by rewrite (proj2 (Z.leb_le _ _)) by lia.
      + exists (now s + l). split; [lia|]. rewrite Ht. by rewrite (proj2 (Z.leb_gt _ _)) by lia.
    - exists (Z.max (now s) e). split; [lia|]. rewrite Hs. by rewrite (proj2 (Z.leb_le _ _)) by lia. }
  destruct (kernel_mode p).
  - unfold Kernel.CxPlatThreadWaitWithTimeout, Kernel.CxPlatInternalThreadWaitWithTimeout. rewrite Hg. cbn [mbind option_bind].
    rewrite (kernel_limit _ _ Hm). apply Hw; [done|done|]. unfold is_u in Hm. intros x [= <-]. lia.
  - unfold User.CxPlatThreadWaitWithTimeout, dbg_guard. rewrite negb_involutive, Hg. unfold WaitForSingleObject.
    apply Hw; [done|done|]. unfold is_u in Hm. intros x. destruct (ms =? INFINITE); intros [= <-]. lia.
Qed.

(** An object whose thread was created: [ThreadCompleted] only says so after the
    thread has ended. *)
Definition async_ok (e : Z) (a : CxPlatAsync) (s : async_world) : Prop :=
  Initialized a = true /\ (ThreadCompleted a = true -> e <= now s).

Lemma calls_spec e cs a s :
  async_ok e a s -> Forall call_ok cs ->
  exists a' rs t, calls p (Some e) cs a s = Ran (a', rs) (at_time t s) /\ async_ok e a' (at_time t s) /\
    now s <= t /\ Forall (fun r => r.1 = (e <=? r.2)) rs.
Proof.
  induction cs as [|c cs IH] in a, s |- *; intros [Hi Hc] Hok.
  { exists a, [], (now s). unfold at_time. destruct s. split_and!; try done; cbn; lia. }
  inversion Hok as [|? ? Hc1 Hcs]; subst. destruct c as [ms|]; cbn [calls].
  - destruct (wait_timeout_eq e ms s Hc1) as (t & Hle & Hw).
    assert (async_wait_for p (Some e) ms a s = Ran (mkAsync (e <=? t) true, e <=? t) (at_time t s)) as Hwf
      by (unfold async_wait_for; rewrite Hi, (r_bind_Ran _ _ _ _ _ Hw); done).
    rewrite (r_bind_Ran _ _ _ _ _ Hwf). cbn [fst snd].
    rewrite (r_bind_Ran (fun s => Ran (now s) s) _ _ _ _ eq_refl).
    destruct (IH (mkAsync (e <=? t) true) (at_time t s)) as (a' & rs & t' & Hr & Ha' & Hn & Hf);
      [split; [done|]; cbn; by intros ?%Z.leb_le|done|].
    rewrite (r_bind_Ran _ _ _ _ _ Hr). exists a', ((e <=? t, t) :: rs), t'. cbn in *.
    split_and!; try done; [lia|by constructor].
  - assert (async_wait p (Some e) a s = Ran (mkAsync true true) (at_time (Z.max (now s) e) s)) as Hw
      by (unfold async_wait; rewrite Hi, (r_bind_Ran _ _ _ _ _ (wait_forever_eq e s)); done).
    rewrite (r_bind_Ran _ _ _ _ _ Hw).
    destruct (IH (mkAsync true true) (at_time (Z.max (now s) e) s)) as (a' & rs & t' & Hr & Ha' & Hn & Hf);
      [split; [done|]; cbn; lia|done|].
    exists a', rs, t'. cbn in *. split_and!; try done; lia.
Qed.

(** An object whose thread could not be created waits for nothing. *)
Lemma calls_failed ends cs a s :
  Initialized a = false ->
  calls p ends cs a s = Ran (a, omap (fun c : option Z => ms ← c; Some (false, now s)) cs) s.
Proof.
  intros Hi. induction cs as [|[ms|] cs IH]; [done|..]; cbn [calls].
  - rewrite (r_bind_Ran _ _ _ (a, false) s) by (unfold async_wait_for; by rewrite Hi). cbn [fst snd].
    rewrite (r_bind_Ran (fun s => Ran (now s) s) _ _ _ _ eq_refl), (r_bind_Ran _ _ _ _ _ IH). done.
  - rewrite (r_bind_Ran _ _ _ a s) by (unfold async_wait; by rewrite Hi). exact IH.
Qed.

(** What the creation leaves.  In the kernel a failure to reference or to place
    the thread leaves it running. *)
Definition stays_running : bool :=
  kernel_mode p && NT_SUCCESS PsCreateSystemThread_st &&
  (negb (NT_SUCCESS ObReferenceObject_st) || placing_fails (ThreadConfig 0)).

Lemma create_kernel_cases ctx :
  kernel_mode p = true -> debug_build p && checked_failure (ThreadConfig ctx) = false ->
  exists k, CxPlatThreadCreate p false (ThreadConfig ctx) = Some k /\
    (c_status k = 0 -> c_thread k = true /\ c_handle k = true) /\
    (c_status k <> 0 -> c_thread k = stays_running /\
       c_handle k = stays_running && NT_SUCCESS ObReferenceObject_st).
Proof.
  intros Hk Hd. unfold CxPlatThreadCreate, stays_running. rewrite Hk.
  change (placing_fails (ThreadConfig 0)) with (placing_fails (ThreadConfig ctx)).
  assert (CxPlatThreadCreate_kernel (debug_build p) (ThreadConfig ctx) (mkKernel None false 0) =
    CxPlatThreadCreate_kernel false (ThreadConfig ctx) (mkKernel None false 0)) as ->.
  { destruct (debug_build p); [|done]. rewrite create_kernel_debug. cbn [andb] in Hd. by rewrite Hd. }
  destruct (create_kernel_release (ThreadConfig ctx) (mkKernel None false 0)) as (st & created & s' & -> & Hs).
  eexists. split; [done|]. cbn [c_status c_thread c_handle].
  destruct (NT_SUCCESS PsCreateSystemThread_st) eqn:Hps; cbn [andb].
  - destruct Hs as (_ & th & Ht & _ & _ & Ho). rewrite Ht, (bool_decide_true (is_Some _)) by done.
    destruct (NT_SUCCESS ObReferenceObject_st) eqn:Hob; cbn [negb orb].
    + destruct Ho as (_ & -> & Hst & H0). split; [done|]. intros Hne.
      destruct (placing_fails (ThreadConfig ctx)); [done|]. by destruct Hne; apply H0.
    + destruct Ho as (_ & -> & ->). split; [|done]. intros Hz. unfold NT_SUCCESS in Hob. by rewrite Hz in Hob.
  - destruct Hs as (_ & -> & ->). cbn. split; [|done]. intros Hz. unfold NT_SUCCESS in Hps. by rewrite Hz in Hps.
Qed.

Lemma create_user_cases Custom ctx :
  kernel_mode p = false -> 0 < ProcCount ->
  exists k, CxPlatThreadCreate p Custom (ThreadConfig ctx) = Some k /\
    (c_status k = 0 -> c_thread k = true /\ c_handle k = true) /\
    (c_status k <> 0 -> c_thread k = false /\ c_handle k = false).
Proof.
  intros Hk Hp. unfold CxPlatThreadCreate. rewrite Hk. pose proof GetLastError_range as Hg.
  assert (forall w, is_Some (w_thread w) -> exists w', place_user (debug_build p) (ThreadConfig ctx) w = Ret 0 w' /\ is_Some (w_thread w')) as Hpl.
  { intros w [th Hw]. unfold place_user. cbn [IdealProcessor ThreadConfig]. rewrite (proj2 (Z.ltb_lt _ _) Hp).
    destruct (procs 0) as [ix g]. unfold mbind, M_bind, upd_win, fre_assert. cbn -[RtlInitUnicodeString].
    destruct (debug_build p), placed; cbn; eexists; (split; [done|]); rewrite Hw; done. }
  unfold CxPlatThreadCreate_user, CreateThread, win_alloc_context, win_free_context, mbind, M_bind.
  destruct Custom; [destruct user_context_alloc_ok; cbn [negb]|].
  2:{ eexists. split; [done|]. cbn. split; [done|]. done. }
  all: destruct CreateThread_ok; cbn; rewrite ?lookup_insert_eq.
  1,3: match goal with |- context [place_user _ _ ?w] => destruct (Hpl w ltac:(by eexists)) as (w' & -> & Hw) end;
    eexists; (split; [done|]); cbn; rewrite bool_decide_true by done; done.
  all: eexists; (split; [done|]); cbn; split; [lia|done].
Qed.

Lemma create_cases Custom ctx :
  (kernel_mode p = false -> 0 < ProcCount) -> debug_build p && kernel_mode p && checked_failure (ThreadConfig ctx) = false ->
  exists k, CxPlatThreadCreate p Custom (ThreadConfig ctx) = Some k /\
    (c_status k = 0 -> c_thread k = true /\ c_handle k = true) /\
    (c_status k <> 0 -> c_thread k = stays_running /\
       c_handle k = stays_running && NT_SUCCESS ObReferenceObject_st).
Proof.
  intros Hp Hd. destruct (kernel_mode p) eqn:Hk.
  - destruct (create_kernel_cases ctx Hk) as (k & Hc & H); [by rewrite andb_true_r in Hd|].
    exists k. split; [|done]. rewrite <- Hc. unfold CxPlatThreadCreate. by rewrite Hk.
  - destruct (create_user_cases Custom ctx Hk (Hp eq_refl)) as (k & Hc & H0 & H1). exists k. split; [done|]. split; [done|].
    unfold stays_running. by rewrite Hk.
Qed.

(** C22: an asynchronous call on Windows, from its constructor to its destructor,
    with whatever sequence of [Wait] and [WaitFor] in between.  An assertion of
    a debug kernel stops a creation one of whose calls fails.  Otherwise, when
    the creation succeeded and the thread ends, everything returns, each
    [WaitFor] tells whether the thread had ended by the time it returned, the
    destructor returns after the thread has ended, so that the thread never uses
    the destroyed object, and the one handle is closed; when the thread never
    ends, the destructor does not return.  When the creation failed all calls
    return at once and nothing is left, with one exception: in the kernel, when
    the thread was created and could not be referenced or placed, the destructor
    returns at once too, while the thread may still run, and a reference that
    was taken is never given back. *)
Theorem win_async_life Custom ctx e cs s :
  (kernel_mode p = false -> 0 < ProcCount) -> Forall call_ok cs ->
  if debug_build p && kernel_mode p && checked_failure (ThreadConfig ctx) then
    forall ends, life p Custom ends ctx cs s = Halts
  else exists k, CxPlatThreadCreate p Custom (ThreadConfig ctx) = Some k /\
    (c_status k = 0 ->
       (exists rs s', life p Custom (Some e) ctx cs s = Ran rs s' /\ running s' = true /\ e <= now s' /\
          thread_handles s' = thread_handles s /\ Forall (fun r => r.1 = (e <=? r.2)) rs) /\
       life p Custom None ctx [] s = Blocks) /\
    (c_status k <> 0 -> forall ends, exists rs s', life p Custom ends ctx cs s = Ran rs s' /\ now s' = now s /\
       running s' = stays_running /\
       thread_handles s' = ((if stays_running && NT_SUCCESS ObReferenceObject_st then 1 else 0) + thread_handles s)%nat /\
       Forall (fun r => r.1 = false) rs).
Proof.
  intros Hp Hok. destruct (debug_build p && kernel_mode p && checked_failure (ThreadConfig ctx)) eqn:Hd.
  { intros ends. unfold life, async_ctor, mbind, R_bind. rewrite !andb_true_iff in Hd. destruct Hd as [[H1 H2] H3].
    unfold CxPlatThreadCreate. by rewrite H2, H1, create_kernel_debug, H3. }
  destruct (create_cases Custom ctx Hp Hd) as (k & Hk & H0 & H1). exists k. split; [done|].
  unfold life. split.
  - intros Hst. destruct (H0 Hst) as [Ht Hh]. set (s0 := mkAsyncWorld (now s) (Datatypes.S (thread_handles s)) true).
    assert (async_ctor p Custom ctx s = Ran (mkAsync false true) s0) as Hc
      by (unfold async_ctor; by rewrite Hk, Hst, Ht, Hh).
    split.
    + rewrite (r_bind_Ran _ _ _ _ _ Hc).
      destruct (calls_spec e cs (mkAsync false true) s0) as (a & rs & t & Hr & [Hi Hcm] & Hn & Hf); [done|done|].
      rewrite (r_bind_Ran _ _ _ _ _ Hr). cbn [fst snd].
      assert (exists t', e <= t' /\ async_dtor p (Some e) a (at_time t s0) = Ran tt (mkAsyncWorld t' (thread_handles s) true)) as (t' & Ht' & Hdt).
      { unfold async_dtor. rewrite Hi. destruct (ThreadCompleted a); cbn [negb].
        - exists t. split; [by apply Hcm|]. by rewrite (r_bind_Ran (mret true) _ _ _ _ eq_refl).
        - exists (Z.max t e). split; [lia|]. by rewrite (r_bind_Ran _ _ _ _ _ (wait_forever_eq e _)). }
      rewrite (r_bind_Ran _ _ _ _ _ Hdt). by eexists _, _.
    + rewrite (r_bind_Ran _ _ _ _ _ Hc). unfold mbind, R_bind. cbn.
      unfold CxPlatThreadWaitForever. by destruct (kernel_mode p).
  - intros Hst ends. destruct (H1 Hst) as [Ht Hh]. apply Z.eqb_neq in Hst.
    assert (async_ctor p Custom ctx s = Ran (mkAsync false false)
      (mkAsyncWorld (now s) ((if c_handle k then Datatypes.S else id) (thread_handles s)) stays_running)) as Hc
      by (unfold async_ctor; by rewrite Hk, Hst, Ht).
    rewrite (r_bind_Ran _ _ _ _ _ Hc), (r_bind_Ran _ _ _ _ _ (calls_failed ends cs (mkAsync false false) _ eq_refl)). cbn [fst snd].
    rewrite (r_bind_Ran (async_dtor p ends (mkAsync false false)) _ _ _ _ eq_refl). eexists _, _. split; [done|].
    cbn. rewrite Hh. split_and!; [done|done|by destruct (stays_running && _)|].
    apply Forall_forall. intros r Hr%list_elem_of_In. apply list_elem_of_omap in Hr as ([ms|] & _ & Hx); [|done]. by injection Hx as <-.
Qed.
End AsyncTheorems.

(** In user mode, the thread ends at 70 ms; a wait of 50 ms fails, another one
    succeeds.  In the kernel, where the affinity of the thread cannot be set, the
    destructor returns at once and a reference is left. *)
Lemma win_async_life_witness :
  (exists rs s', life (H0 := four_processors true) (H1 := no_affinity) win_release false (Some 700000) 64 [Some 50; Some 50]
      (mkAsyncWorld 0 0 false) = Ran rs s' /\
    700000 <= now s' /\ thread_handles s' = O /\ rs = [(false, 500000); (true, 700000)]) /\
  (exists rs s', life (H0 := four_processors true) (H1 := no_affinity) (mkTarget true false) false (Some 700000) 64 [Some 50]
      (mkAsyncWorld 0 0 false) = Ran rs s' /\
    now s' = 0 /\ running s' = true /\ thread_handles s' = 1%nat).
Proof.
  split.
  - destruct (win_async_life (W := four_processors true) (K := no_affinity) win_release false 64 700000 [Some 50; Some 50]
      (mkAsyncWorld 0 0 false)) as (k & Hk & Hl & _); [done|repeat constructor; done|].
    destruct Hl as [(rs & s' & Hr & _ & Hn & Hh & _) _]; [vm_compute in Hk; by injection Hk as <-|].
    exists rs, s'. split; [exact Hr|]. split; [exact Hn|]. split; [exact Hh|]. vm_compute in Hr. by injection Hr as <- _.
  - destruct (win_async_life (W := four_processors true) (K := no_affinity) (mkTarget true false) false 64 700000 [Some 50]
      (mkAsyncWorld 0 0 false)) as (k & Hk & _ & Hl); [done|repeat constructor; done|].
    destruct (Hl ltac:(vm_compute in Hk; by injection Hk as <-) (Some 700000)) as (rs & s' & Hr & Hn & Hs & Hh & _).
    exists rs, s'. split; [exact Hr|]. split; [exact Hn|]. split; [exact Hs|]. exact Hh.
Defined.
