(* ===== verification/SysLock.v ===== *)
(** * Locks and reader-writer locks (inc/cxplat_posix.h, cxplat_winuser.h, cxplat_winkernel.h)

    [CXPLAT_LOCK] and [CXPLAT_RW_LOCK] of the three platforms, and the C++
    classes of inc/cxplat.hpp that wrap them.  The macros expand to calls of the
    system's locks; each call is one statement here, with the documented
    behaviour of the system: POSIX mutexes (recursive, as the code creates
    them) and reader-writer locks, Windows critical sections and slim
    reader-writer locks, kernel push locks with the critical region around them.
    Threads run sections (acquire, body, release) on one lock, one statement at
    a time, in any interleaving.  In user mode and on POSIX the dispatch locks
    are the same locks; the kernel's are in the file Lock. *)

From S2P Require Import Prelude.

(** ** The system's locks *)

Inductive mode := Exclusive | Shared.

#[export] Instance mode_eq_dec : EqDecision mode.
Proof. solve_decision. Defined.

(** Who holds a lock: nobody, one thread a number of times, or readers. *)
Inductive holder := Free | Held (t : nat) (count : nat) | Readers (ts : list nat).

(** A call on a lock returns and leaves the lock as given, does not return as
    long as the lock is as it is, makes the asserting macro around it stop the
    process, or is not defined by the system. *)
Inductive reaction := Go (h : holder) | Waits | Stops | Undefined.

(** The calls.  [Rw_unlock] carries the mode of the macro it comes from; the
    call is the same.  [Enter_region] and [Leave_region] are
    [KeEnterCriticalRegion] and [KeLeaveCriticalRegion]. *)
Inductive call :=
  | Mutex_lock | Mutex_unlock
  | Rw_rdlock | Rw_wrlock | Rw_unlock (m : mode)
  | EnterCriticalSection | LeaveCriticalSection
  | AcquireSRWLock (m : mode) | ReleaseSRWLock (m : mode)
  | ExAcquirePushLock (m : mode) | ExReleasePushLock (m : mode)
  | Enter_region | Leave_region
  | Body.

(** Whether the POSIX implementation reports a thread that waits for itself
    (EDEADLK) or lets it wait; both are allowed. *)
Class DeadlockPolicy := { reports_deadlock : bool }.

Section Calls.
Context `{!DeadlockPolicy}.

Definition self_wait : reaction := if reports_deadlock then Stops else Waits.

(** Recursive locks: a POSIX recursive mutex, a critical section. *)
Definition lock_recursive (t : nat) (h : holder) : reaction :=
  match h with
  | Free => Go (Held t 1)
  | Held u n => if Nat.eqb u t then Go (Held t (S n)) else Waits
  | Readers _ => Undefined
  end.

Definition unlock_recursive (other : reaction) (t : nat) (h : holder) : reaction :=
  match h with
  | Held u (S n) => if Nat.eqb u t then Go (if Nat.eqb n 0 then Free else Held t n) else other
  | _ => other
  end.

(** Slim reader-writer locks and push locks: not recursive, and without checks. *)
Definition acquire_slim (m : mode) (t : nat) (h : holder) : reaction :=
  match m, h with
  | Exclusive, Free => Go (Held t 1)
  | Shared, Free => Go (Readers [t])
  | Shared, Readers ts => Go (Readers (t :: ts))
  | _, _ => Waits
  end.

(** One of the times [t] holds the lock. *)
Fixpoint remove_one (t : nat) (ts : list nat) : list nat :=
  match ts with
  | [] => []
  | u :: ts => if Nat.eqb u t then ts else u :: remove_one t ts
  end.

Definition drop_reader (t : nat) (ts : list nat) : holder :=
  match remove_one t ts with [] => Free | ts' => Readers ts' end.

Definition release_slim (m : mode) (t : nat) (h : holder) : reaction :=
  match m, h with
  | Exclusive, Held u _ => if Nat.eqb u t then Go Free else Undefined
  | Shared, Readers ts => if bool_decide (t ∈ ts) then Go (drop_reader t ts) else Undefined
  | _, _ => Undefined
  end.

(** POSIX reader-writer locks: one unlock for both modes; a thread that waits
    for a lock it holds may be told so. *)
Definition rdlock (t : nat) (h : holder) : reaction :=
  match h with
  | Free => Go (Readers [t])
  | Readers ts => Go (Readers (t :: ts))
  | Held u _ => if Nat.eqb u t then self_wait else Waits
  end.

Definition wrlock (t : nat) (h : holder) : reaction :=
  match h with
  | Free => Go (Held t 1)
  | Held u _ => if Nat.eqb u t then self_wait else Waits
  | Readers ts => if bool_decide (t ∈ ts) then self_wait else Waits
  end.

Definition rw_unlock (t : nat) (h : holder) : reaction :=
  match h with
  | Free => Undefined
  | Held _ _ => release_slim Exclusive t h
  | Readers _ => release_slim Shared t h
  end.

(** What a call of thread [t] does to the lock.  A failing unlock of a recursive
    mutex returns EPERM, which the macro asserts not to happen. *)
Definition perform (c : call) (t : nat) (h : holder) : reaction :=
  match c with
  | Mutex_lock => lock_recursive t h
  | Mutex_unlock => unlock_recursive Stops t h
  | Rw_rdlock => rdlock t h
  | Rw_wrlock => wrlock t h
  | Rw_unlock _ => rw_unlock t h
  | EnterCriticalSection => lock_recursive t h
  | LeaveCriticalSection => unlock_recursive Undefined t h
  | AcquireSRWLock m => acquire_slim m t h
  | ReleaseSRWLock m => release_slim m t h
  | ExAcquirePushLock m => acquire_slim m t h
  | ExReleasePushLock m => release_slim m t h
  | Enter_region | Leave_region | Body => Go h
  end.
End Calls.

(** ** The macros *)

(** The code of acquiring and releasing a lock in a mode. *)
Record lock_api := mkApi { acquire : mode -> list call; release : mode -> list call }.

Module Posix.
Definition CxPlatLockAcquire : list call := [Mutex_lock].
Definition CxPlatLockRelease : list call := [Mutex_unlock].
Definition CxPlatRwLockAcquireShared : list call := [Rw_rdlock].
Definition CxPlatRwLockAcquireExclusive : list call := [Rw_wrlock].
Definition CxPlatRwLockReleaseShared : list call := [Rw_unlock Shared].
Definition CxPlatRwLockReleaseExclusive : list call := [Rw_unlock Exclusive].
Definition CxPlatDispatchLockAcquire : list call := CxPlatLockAcquire.
Definition CxPlatDispatchLockRelease : list call := CxPlatLockRelease.
Definition CxPlatDispatchRwLockAcquireShared : list call := CxPlatRwLockAcquireShared.
Definition CxPlatDispatchRwLockAcquireExclusive : list call := CxPlatRwLockAcquireExclusive.
Definition CxPlatDispatchRwLockReleaseShared : list call := CxPlatRwLockReleaseShared.
Definition CxPlatDispatchRwLockReleaseExclusive : list call := CxPlatRwLockReleaseExclusive.
End Posix.

Module User.
Definition CxPlatLockAcquire : list call := [EnterCriticalSection].
Definition CxPlatLockRelease : list call := [LeaveCriticalSection].
Definition CxPlatRwLockAcquireShared : list call := [AcquireSRWLock Shared].
Definition CxPlatRwLockAcquireExclusive : list call := [AcquireSRWLock Exclusive].
Definition CxPlatRwLockReleaseShared : list call := [ReleaseSRWLock Shared].
Definition CxPlatRwLockReleaseExclusive : list call := [ReleaseSRWLock Exclusive].
Definition CxPlatDispatchLockAcquire : list call := [EnterCriticalSection].
Definition CxPlatDispatchLockRelease : list call := [LeaveCriticalSection].
Definition CxPlatDispatchRwLockAcquireShared : list call := [AcquireSRWLock Shared].
Definition CxPlatDispatchRwLockAcquireExclusive : list call := [AcquireSRWLock Exclusive].
Definition CxPlatDispatchRwLockReleaseShared : list call := [ReleaseSRWLock Shared].
Definition CxPlatDispatchRwLockReleaseExclusive : list call := [ReleaseSRWLock Exclusive].
End User.

Module Kernel.
Definition CxPlatLockAcquire : list call := [Enter_region; ExAcquirePushLock Exclusive].
Definition CxPlatLockRelease : list call := [ExReleasePushLock Exclusive; Leave_region].
Definition CxPlatRwLockAcquireShared : list call := [Enter_region; ExAcquirePushLock Shared].
Definition CxPlatRwLockAcquireExclusive : list call := [Enter_region; ExAcquirePushLock Exclusive].
Definition CxPlatRwLockReleaseShared : list call := [ExReleasePushLock Shared; Leave_region].
Definition CxPlatRwLockReleaseExclusive : list call := [ExReleasePushLock Exclusive; Leave_region].
End Kernel.

Inductive platform := POSIX | WINUSER | WINKERNEL.

#[export] Instance platform_eq_dec : EqDecision platform.
Proof. solve_decision. Defined.

(** [CxPlatLock] and [CxPlatRwLock] of inc/cxplat.hpp: their methods are the
    macros of the platform. *)
Definition CxPlatLock (p : platform) : lock_api :=
  match p with
  | POSIX => mkApi (fun _ => Posix.CxPlatLockAcquire) (fun _ => Posix.CxPlatLockRelease)
  | WINUSER => mkApi (fun _ => User.CxPlatLockAcquire) (fun _ => User.CxPlatLockRelease)
  | WINKERNEL => mkApi (fun _ => Kernel.CxPlatLockAcquire) (fun _ => Kernel.CxPlatLockRelease)
  end.

Definition CxPlatRwLock (p : platform) : lock_api :=
  match p with
  | POSIX =>
      mkApi (fun m => match m with Shared => Posix.CxPlatRwLockAcquireShared
                                 | Exclusive => Posix.CxPlatRwLockAcquireExclusive end)
            (fun m => match m with Shared => Posix.CxPlatRwLockReleaseShared
                                 | Exclusive => Posix.CxPlatRwLockReleaseExclusive end)
  | WINUSER =>
      mkApi (fun m => match m with Shared => User.CxPlatRwLockAcquireShared
                                 | Exclusive => User.CxPlatRwLockAcquireExclusive end)
            (fun m => match m with Shared => User.CxPlatRwLockReleaseShared
                                 | Exclusive => User.CxPlatRwLockReleaseExclusive end)
  | WINKERNEL =>
      mkApi (fun m => match m with Shared => Kernel.CxPlatRwLockAcquireShared
                                 | Exclusive => Kernel.CxPlatRwLockAcquireExclusive end)
            (fun m => match m with Shared => Kernel.CxPlatRwLockReleaseShared
                                 | Exclusive => Kernel.CxPlatRwLockReleaseExclusive end)
  end.

(** [CxPlatLockDispatch] and [CxPlatRwLockDispatch], on POSIX and in user mode
    ([windows]). *)
Definition CxPlatLockDispatch (windows : bool) : lock_api :=
  if windows
  then mkApi (fun _ => User.CxPlatDispatchLockAcquire) (fun _ => User.CxPlatDispatchLockRelease)
  else mkApi (fun _ => Posix.CxPlatDispatchLockAcquire) (fun _ => Posix.CxPlatDispatchLockRelease).

Definition CxPlatRwLockDispatch (windows : bool) : lock_api :=
  if windows
  then mkApi (fun m => match m with Shared => User.CxPlatDispatchRwLockAcquireShared
                                  | Exclusive => User.CxPlatDispatchRwLockAcquireExclusive end)
             (fun m => match m with Shared => User.CxPlatDispatchRwLockReleaseShared
                                  | Exclusive => User.CxPlatDispatchRwLockReleaseExclusive end)
  else mkApi (fun m => match m with Shared => Posix.CxPlatDispatchRwLockAcquireShared
                                  | Exclusive => Posix.CxPlatDispatchRwLockAcquireExclusive end)
             (fun m => match m with Shared => Posix.CxPlatDispatchRwLockReleaseShared
                                  | Exclusive => Posix.CxPlatDispatchRwLockReleaseExclusive end).

(** ** Initialization and destruction *)

(** What the [pthread] functions return: 0, or an error number. *)
Class PthreadLocks := {
  mutexattr_init_rc : Z;
  mutexattr_settype_rc : Z;
  mutex_init_rc : Z;
  mutexattr_destroy_rc : Z;
  rwlock_init_rc : Z
}.

(** The attribute objects that exist, and the lock ([None]: not initialized). *)
Record lock_memory := mkMemory { attrs : nat; object : option holder }.

Definition set_attrs (n : nat) : M lock_memory unit := fun s => Ret tt (mkMemory n (object s)).
Definition set_object (o : option holder) : M lock_memory unit := fun s => Ret tt (mkMemory (attrs s) o).

(** [pthread_mutex_destroy], [pthread_rwlock_destroy]: EBUSY (16) for a lock
    that is held; a lock that was not initialized is an error of the caller. *)
Definition destroy : M lock_memory Z := fun s =>
  match object s with
  | Some Free => Ret 0 (mkMemory (attrs s) None)
  | Some _ => Ret 16 s
  | None => Fault BadAccess
  end.

Module PosixInit.
Section Macros.
Context `{!PthreadLocks}.

Definition CxPlatLockInitialize : M lock_memory unit :=
  _ ← fre_assert (mutexattr_init_rc =? 0);
  s ← get;
  _ ← set_attrs (S (attrs s));
  _ ← fre_assert (mutexattr_settype_rc =? 0);
  _ ← fre_assert (mutex_init_rc =? 0);
  _ ← set_object (Some Free);
  _ ← fre_assert (mutexattr_destroy_rc =? 0);
  set_attrs (attrs s).
Definition CxPlatLockUninitialize : M lock_memory unit := rc ← destroy; fre_assert (rc =? 0).
Definition CxPlatDispatchLockInitialize := CxPlatLockInitialize.
Definition CxPlatDispatchLockUninitialize := CxPlatLockUninitialize.

Definition CxPlatRwLockInitialize : M lock_memory unit :=
  _ ← fre_assert (rwlock_init_rc =? 0);
  set_object (Some Free).
Definition CxPlatRwLockUninitialize : M lock_memory unit := rc ← destroy; fre_assert (rc =? 0).
Definition CxPlatDispatchRwLockInitialize := CxPlatRwLockInitialize.
Definition CxPlatDispatchRwLockUninitialize := CxPlatRwLockUninitialize.
End Macros.
End PosixInit.

(** Only a critical section has to be deleted, and deleting one that is owned is not
    defined; slim reader-writer locks are left as they are. *)
Module UserInit.
Definition InitializeCriticalSection : M lock_memory unit := set_object (Some Free).
Definition DeleteCriticalSection : M lock_memory unit :=
  rc ← destroy; if rc =? 0 then mret tt else fail_with BadAccess.
Definition InitializeSRWLock : M lock_memory unit := set_object (Some Free).

Definition CxPlatLockInitialize := InitializeCriticalSection.
Definition CxPlatLockUninitialize := DeleteCriticalSection.
Definition CxPlatDispatchLockInitialize := InitializeCriticalSection.
Definition CxPlatDispatchLockUninitialize := DeleteCriticalSection.
Definition CxPlatRwLockInitialize := InitializeSRWLock.
Definition CxPlatRwLockUninitialize : M lock_memory unit := mret tt.
Definition CxPlatDispatchRwLockInitialize := InitializeSRWLock.
Definition CxPlatDispatchRwLockUninitialize : M lock_memory unit := mret tt.
End UserInit.

(** Push locks; there is nothing to release. *)
Module KernelInit.
Definition ExInitializePushLock : M lock_memory unit := set_object (Some Free).

Definition CxPlatLockInitialize := ExInitializePushLock.
Definition CxPlatLockUninitialize : M lock_memory unit := mret tt.
Definition CxPlatRwLockInitialize := ExInitializePushLock.
Definition CxPlatRwLockUninitialize : M lock_memory unit := mret tt.
End KernelInit.

(** The constructors and destructors of [CxPlatLock] and [CxPlatRwLock], and of the
    dispatch classes outside the kernel. *)
Section Lifetime.
Context `{!PthreadLocks}.

Definition lock_ctor (p : platform) : M lock_memory unit :=
  match p with
  | POSIX => PosixInit.CxPlatLockInitialize
  | WINUSER => UserInit.CxPlatLockInitialize
  | WINKERNEL => KernelInit.CxPlatLockInitialize
  end.

Definition lock_dtor (p : platform) : M lock_memory unit :=
  match p with
  | POSIX => PosixInit.CxPlatLockUninitialize
  | WINUSER => UserInit.CxPlatLockUninitialize
  | WINKERNEL => KernelInit.CxPlatLockUninitialize
  end.

Definition rwlock_ctor (p : platform) : M lock_memory unit :=
  match p with
  | POSIX => PosixInit.CxPlatRwLockInitialize
  | WINUSER => UserInit.CxPlatRwLockInitialize
  | WINKERNEL => KernelInit.CxPlatRwLockInitialize
  end.

Definition rwlock_dtor (p : platform) : M lock_memory unit :=
  match p with
  | POSIX => PosixInit.CxPlatRwLockUninitialize
  | WINUSER => UserInit.CxPlatRwLockUninitialize
  | WINKERNEL => KernelInit.CxPlatRwLockUninitialize
  end.

Definition dispatch_lock_ctor (windows shared : bool) : M lock_memory unit :=
  match windows, shared with
  | false, false => PosixInit.CxPlatDispatchLockInitialize
  | false, true => PosixInit.CxPlatDispatchRwLockInitialize
  | true, false => UserInit.CxPlatDispatchLockInitialize
  | true, true => UserInit.CxPlatDispatchRwLockInitialize
  end.

Definition dispatch_lock_dtor (windows shared : bool) : M lock_memory unit :=
  match windows, shared with
  | false, false => PosixInit.CxPlatDispatchLockUninitialize
  | false, true => PosixInit.CxPlatDispatchRwLockUninitialize
  | true, false => UserInit.CxPlatDispatchLockUninitialize
  | true, true => UserInit.CxPlatDispatchRwLockUninitialize
  end.
End Lifetime.

(** ** Threads *)

(** A thread: the sections it still has to run, the first of them at statement
    [pos], and how often it has entered a critical region. *)
Record thread := mkThread { sections : list mode; pos : nat; region : Z }.

Record system := mkSystem { lock : holder; threads : list thread }.

(** The statements of a section. *)
Definition section (api : lock_api) (m : mode) : list call := acquire api m ++ Body :: release api m.

Definition region_after (c : call) (r : Z) : Z :=
  match c with Enter_region => r + 1 | Leave_region => r - 1 | _ => r end.

(** The thread after its current statement [c] of a section of [n]. *)
Definition advance (c : call) (n : nat) (k : thread) : thread :=
  if Nat.eqb (S (pos k)) n
  then mkThread (tail (sections k)) 0 (region_after c (region k))
  else mkThread (sections k) (S (pos k)) (region_after c (region k)).

(** What happens when thread [t] is scheduled. *)
Inductive event := Moves (s : system) | IsBlocked | IsDone | Crash | Undef.

Section Runs.
Context `{!DeadlockPolicy}.
Variable api : lock_api.

(** The statement thread [k] is at. *)
Definition current (k : thread) : option call :=
  m ← head (sections k); section api m !! pos k.

Definition sched_thread (s : system) (t : nat) : event :=
  match threads s !! t with
  | None => IsDone
  | Some k =>
      match head (sections k) with
      | None => IsDone
      | Some m =>
          match section api m !! pos k with
          | None => IsDone
          | Some c =>
              match perform c t (lock s) with
              | Go h => Moves (mkSystem h (<[t := advance c (length (section api m)) k]> (threads s)))
              | Waits => IsBlocked
              | Stops => Crash
              | Undefined => Undef
              end
          end
      end
  end.

Fixpoint run (s : system) (sched : list nat) : option system :=
  match sched with
  | [] => Some s
  | t :: sched => match sched_thread s t with Moves s' => run s' sched | _ => None end
  end.
End Runs.

(** A new lock, and threads with the given sections to run. *)
Definition start (progs : list (list mode)) : system :=
  mkSystem Free (map (fun ms => mkThread ms 0 0) progs).
