(* ===== verification/SysLockTheorems.v ===== *)
(** * Theorems about the locks

    What an acquire and a release promise, as a class ([LockLaws]); the locks of
    the three platforms as instances of it; and from the laws alone: sections
    exclude each other, no assertion of the macros fails, no call is undefined,
    and all sections finish under every scheduler.  Recursive acquisition, on
    the other hand, is not the same on the three platforms. *)

From S2P Require Import Prelude SysLock.

(** ** What a lock promises *)

(** Thread [t] holds the lock in mode [m], once. *)
Definition holds (m : mode) (t : nat) (h : holder) : Prop :=
  match m with
  | Exclusive => h = Held t 1
  | Shared => exists ts, h = Readers ts /\ t ∈ ts
  end.

Definition stranger (t : nat) (h : holder) : Prop := forall m, ~ holds m t h.

(** The states a lock is in when nobody takes it twice. *)
Definition lock_ok (sharing : bool) (h : holder) : Prop :=
  match h with
  | Free => True
  | Held _ n => n = 1%nat
  | Readers ts => ts <> [] /\ NoDup ts /\ sharing = true
  end.

Definition compatible (m : mode) (h : holder) : bool :=
  match m, h with _, Free | Shared, Readers _ => true | _, _ => false end.

Definition join (m : mode) (t : nat) (h : holder) : holder :=
  match m, h with
  | Shared, Readers ts => Readers (t :: ts)
  | Shared, _ => Readers [t]
  | Exclusive, _ => Held t 1
  end.

Definition leave (t : nat) (h : holder) : holder :=
  match h with Readers ts => drop_reader t ts | _ => Free end.

(** The modes a lock has: a plain lock has no shared mode. *)
Definition allowed (sharing : bool) (m : mode) : Prop := sharing = true \/ m = Exclusive.

Definition neutral `{!DeadlockPolicy} (c : call) : Prop := forall t h, perform c t h = Go h.

(** Calls that leave the lock alone, one call that takes it, the body, one call
    that gives it back, calls that leave it alone; the regions they enter are
    left again. *)
Class LockLaws `{!DeadlockPolicy} (sharing : bool) (api : lock_api) := {
  before : list call;
  takes : mode -> call;
  gives : mode -> call;
  behind : list call;
  acquire_shape m : allowed sharing m -> acquire api m = before ++ [takes m];
  release_shape m : allowed sharing m -> release api m = gives m :: behind;
  before_neutral : Forall neutral before;
  behind_neutral : Forall neutral behind;
  takes_law m t h : allowed sharing m -> lock_ok sharing h -> stranger t h ->
    perform (takes m) t h = if compatible m h then Go (join m t h) else Waits;
  gives_law m t h : allowed sharing m -> lock_ok sharing h -> holds m t h ->
    perform (gives m) t h = Go (leave t h);
  balanced m : allowed sharing m -> foldl (fun r c => region_after c r) 0 (section api m) = 0
}.

Lemma remove_one_elem t u ts : NoDup ts -> u ∈ remove_one t ts <-> u ∈ ts /\ u <> t.
Proof.
  induction ts as [|v ts IH]; cbn; intros Hnd; [set_solver|].
  apply list.NoDup_cons in Hnd as [Hv Hnd]. destruct (Nat.eqb_spec v t) as [->|Hne]; [set_solver|].
  specialize (IH Hnd). set_solver.
Qed.

Lemma remove_one_NoDup t ts : NoDup ts -> NoDup (remove_one t ts).
Proof.
  induction ts as [|v ts IH]; cbn; intros Hnd; [done|]. apply list.NoDup_cons in Hnd as [Hv Hnd].
  destruct (Nat.eqb_spec v t) as [->|Hne]; [done|]. apply list.NoDup_cons. split; [|by apply IH].
  rewrite remove_one_elem by done. tauto.
Qed.

(** How taking and giving back change who holds the lock. *)
Lemma holds_join sharing m t h u m' :
  lock_ok sharing h -> stranger t h -> compatible m h = true ->
  holds m' u (join m t h) <-> (u = t /\ m' = m) \/ (u <> t /\ holds m' u h).
Proof.
  intros Hok Hs Hc. destruct m, h as [|v n|ts]; try done; destruct m'; cbn in *.
  - split; [intros [= <-]; by left|]. intros [[-> _]|[_ ?]]; done.
  - split; [by intros (? & ? & _)|]. intros [[_ ?]|[_ (? & ? & _)]]; done.
  - split; [done|]. intros [[_ ?]|[_ ?]]; done.
  - split; [intros (? & [= <-] & Hu%list_elem_of_singleton); by left|].
    intros [[-> _]|[_ (? & ? & _)]]; [|done]. eexists; split; [done|set_solver].
  - split; [done|]. intros [[_ ?]|[_ ?]]; done.
  - split.
    + intros (? & [= <-] & [->|Hu]%elem_of_cons); [by left|]. right. split; [|eauto].
      intros ->. apply (Hs Shared). by exists ts.
    + intros [[-> _]|[_ (? & [= <-] & Hu)]]; eexists; (split; [done|]); set_solver.
Qed.

Lemma holds_leave sharing m t h u m' :
  lock_ok sharing h -> holds m t h -> holds m' u (leave t h) <-> u <> t /\ holds m' u h.
Proof.
  intros Hok Hm. destruct m; cbn in Hm.
  - subst h. cbn. destruct m'; cbn; [split; [done|]; intros [? [= ->]]; done|].
    split; [by intros (? & ? & _)|by intros (_ & ? & ? & _)].
  - destruct Hm as (ts & -> & Ht). cbn in *. destruct Hok as (_ & Hnd & _). unfold drop_reader.
    pose proof (remove_one_elem t u ts Hnd) as He.
    destruct (remove_one t ts) as [|v ts'] eqn:Hr; destruct m'; cbn.
    + split; [done|]. by intros [_ ?].
    + split; [by intros (? & ? & _)|]. intros (Hne & ? & [= <-] & Hu).
      by destruct (not_elem_of_nil u (proj2 He (conj Hu Hne))).
    + split; [done|]. by intros [_ ?].
    + split; [intros (? & [= <-] & Hu); apply He in Hu as [? ?]; eauto|].
      intros (Hne & ? & [= <-] & Hu). eexists; split; [done|]. by apply He.
Qed.

Lemma lock_ok_join sharing m t h :
  allowed sharing m -> lock_ok sharing h -> stranger t h -> compatible m h = true ->
  lock_ok sharing (join m t h).
Proof.
  intros Ha Hok Hs Hc. destruct m, h as [|v n|ts]; try done; cbn in *.
  - destruct Ha as [Ha|Ha]; [|done]. split; [done|]. split; [apply NoDup_singleton|done].
  - destruct Hok as (_ & Hnd & Hsh). split; [done|]. split; [|done]. apply list.NoDup_cons. split; [|done].
    intros Ht. apply (Hs Shared). by exists ts.
Qed.

Lemma lock_ok_leave sharing t h : lock_ok sharing h -> lock_ok sharing (leave t h).
Proof.
  destruct h as [|v n|ts]; cbn; try done. intros (_ & Hnd & Hs). unfold drop_reader.
  pose proof (remove_one_NoDup t ts Hnd) as Hr. by destruct (remove_one t ts).
Qed.

(** ** The locks of the platforms keep the promise *)

Ltac holder_cases h :=
  destruct h as [|?u ?n|?ts]; cbn in *; try done.

Lemma stranger_Held t u : stranger t (Held u 1) -> Nat.eqb u t = false.
Proof. intros Hs. apply Nat.eqb_neq. intros ->. by apply (Hs Exclusive). Qed.

Lemma stranger_Readers t ts : stranger t (Readers ts) -> t ∉ ts.
Proof. intros Hs Ht. apply (Hs Shared). by exists ts. Qed.

Section Instances.
Context `{!DeadlockPolicy}.

Lemma recursive_takes t h :
  lock_ok false h -> stranger t h ->
  lock_recursive t h = if compatible Exclusive h then Go (join Exclusive t h) else Waits.
Proof.
  destruct h as [|u n|ts]; cbn; [done| |by intros (_ & _ & ?)].
  intros -> Hs. by rewrite (stranger_Held _ _ Hs).
Qed.

Lemma recursive_gives other t h : holds Exclusive t h -> unlock_recursive other t h = Go (leave t h).
Proof. intros ->. cbn. by rewrite Nat.eqb_refl. Qed.

Lemma slim_takes m t h :
  acquire_slim m t h = if compatible m h then Go (join m t h) else Waits.
Proof. by destruct m, h. Qed.

Lemma slim_gives m t h : holds m t h -> release_slim m t h = Go (leave t h).
Proof.
  destruct m; cbn; [intros ->; cbn; by rewrite Nat.eqb_refl|].
  intros (ts & -> & Ht). cbn. by rewrite bool_decide_true.
Qed.

Lemma rw_takes m t h :
  lock_ok true h -> stranger t h ->
  perform (match m with Shared => Rw_rdlock | Exclusive => Rw_wrlock end) t h =
    if compatible m h then Go (join m t h) else Waits.
Proof.
  intros Hok Hs. destruct m, h as [|u n|ts]; cbn in *; try done; subst;
    rewrite ?(stranger_Held _ _ Hs); try done.
  by rewrite (bool_decide_false _ (stranger_Readers _ _ Hs)).
Qed.

Lemma rw_gives m t h : holds m t h -> rw_unlock t h = Go (leave t h).
Proof.
  intros Hh. rewrite <- (slim_gives m t h Hh).
  destruct m; cbn in Hh; [by subst|by destruct Hh as (ts & -> & _)].
Qed.

Lemma allowed_plain m : allowed false m -> m = Exclusive.
Proof. by intros [?|?]. Qed.

#[export] Instance CxPlatLock_laws p : LockLaws false (CxPlatLock p).
Proof.
  refine (match p with
          | POSIX => {| before := []; takes _ := Mutex_lock; gives _ := Mutex_unlock; behind := [] |}
          | WINUSER => {| before := []; takes _ := EnterCriticalSection;
                          gives _ := LeaveCriticalSection; behind := [] |}
          | WINKERNEL => {| before := [Enter_region]; takes _ := ExAcquirePushLock Exclusive;
                            gives _ := ExReleasePushLock Exclusive; behind := [Leave_region] |}
          end); try done; try (by repeat constructor); intros m t h ->%allowed_plain Hok.
  all: try (intros Hs; first [by apply recursive_takes | by apply slim_takes]).
  all: intros Hh; first [by apply recursive_gives | by apply slim_gives].
Defined.

#[export] Instance CxPlatRwLock_laws p : LockLaws true (CxPlatRwLock p).
Proof.
  refine (match p with
          | POSIX => {| before := []; takes m := match m with Shared => Rw_rdlock | Exclusive => Rw_wrlock end;
                        gives m := Rw_unlock m; behind := [] |}
          | WINUSER => {| before := []; takes m := AcquireSRWLock m; gives m := ReleaseSRWLock m; behind := [] |}
          | WINKERNEL => {| before := [Enter_region]; takes m := ExAcquirePushLock m;
                            gives m := ExReleasePushLock m; behind := [Leave_region] |}
          end); try (by intros []); try (by repeat constructor); intros m t h _ Hok Hh.
  - by apply rw_takes.
  - by apply (rw_gives m).
  - by apply slim_takes.
  - by apply slim_gives.
  - by apply slim_takes.
  - by apply slim_gives.
Defined.
End Instances.

(** ** Sections under any lock that keeps the promise *)

Section Sections.
Context `{!DeadlockPolicy} {sharing : bool} {api : lock_api} `{L : !LockLaws sharing api}.

(** The mode in which a thread is inside its section: the lock is taken and not
    given back. *)
Definition inside (k : thread) : option mode :=
  m ← head (sections k);
  if (length (acquire api m) <=? pos k)%nat && (pos k <=? S (length (acquire api m)))%nat
  then Some m else None.

Definition sections_ok (k : thread) : Prop :=
  Forall (allowed sharing) (sections k) /\
  match sections k with
  | [] => pos k = O
  | m :: _ => (pos k < length (section api m))%nat
  end.

(** What is left to do. *)
Definition left_over (k : thread) : nat :=
  (sum_list_with (fun m => length (section api m)) (sections k) - pos k)%nat.

Definition remaining (s : system) : nat := sum_list_with left_over (threads s).

Lemma section_shape m :
  allowed sharing m -> section api m = before ++ takes m :: Body :: gives m :: behind.
Proof.
  intros Ha. unfold section. rewrite (acquire_shape m Ha), (release_shape m Ha), <- app_assoc. done.
Qed.

Lemma acquire_length m : allowed sharing m -> length (acquire api m) = S (length before).
Proof. intros Ha. rewrite (acquire_shape m Ha), length_app. cbn. lia. Qed.

Lemma section_length m :
  allowed sharing m -> length (section api m) = (length before + 3 + length behind)%nat.
Proof. intros Ha. rewrite section_shape, length_app by done. cbn. lia. Qed.

(** Where a statement of a section can be. *)
Lemma statement_at m i c :
  allowed sharing m -> section api m !! i = Some c ->
  (i < length before)%nat /\ neutral c \/ i = length before /\ c = takes m \/
  i = S (length before) /\ c = Body \/ i = S (S (length before)) /\ c = gives m \/
  (S (S (length before)) < i)%nat /\ neutral c.
Proof.
  intros Ha. rewrite section_shape by done. intros [Hi|[Hl Hi]]%lookup_app_Some.
  - left. split; [by eapply lookup_lt_Some|]. by eapply Forall_lookup_1 in Hi; [|apply before_neutral].
  - destruct (i - length before)%nat as [|[|[|j]]] eqn:Hj; cbn in Hi; simplify_eq.
    + right; left. split; [lia|done].
    + right; right; left. split; [lia|done].
    + right; right; right; left. split; [lia|done].
    + right; right; right; right. split; [lia|].
      by eapply Forall_lookup_1 in Hi; [|apply behind_neutral].
Qed.

Lemma inside_at m ms i r :
  allowed sharing m ->
  inside (mkThread (m :: ms) i r) =
    if (S (length before) <=? i)%nat && (i <=? S (S (length before)))%nat then Some m else None.
Proof. intros Ha. unfold inside. cbn. by rewrite acquire_length. Qed.

Lemma inside_start ms r : Forall (allowed sharing) ms -> inside (mkThread ms 0 r) = None.
Proof. intros Ha. destruct ms as [|m ms]; [done|]. inversion Ha; subst. by rewrite inside_at. Qed.

(** One statement: it leaves the lock alone and stays on its side of it, or
    takes the lock from outside, or gives it back from inside. *)
Lemma statement_cases k m c :
  sections_ok k -> head (sections k) = Some m -> section api m !! pos k = Some c ->
  let k' := advance c (length (section api m)) k in
  sections_ok k' /\ (left_over k = S (left_over k'))%nat /\
  (neutral c /\ inside k' = inside k \/
   c = takes m /\ inside k = None /\ inside k' = Some m \/
   c = gives m /\ inside k = Some m /\ inside k' = None).
Proof.
  destruct k as [[|m' ms] i r]; [done|]. intros [Ha Hi] [= ->] Hc k'. cbn in Hi, Hc.
  inversion Ha as [|? ? Ham Hms]; subst. pose proof (section_length m Ham) as Hn.
  assert (sections_ok k' /\ left_over (mkThread (m :: ms) i r) = S (left_over k')) as [H1 H2].
  { unfold k', advance, sections_ok, left_over. cbn [pos sections tail].
    destruct (Nat.eqb_spec (S i) (length (section api m))); cbn [pos sections tail sum_list_with].
    - split; [|lia]. split; [done|]. destruct ms; [done|]. inversion Hms; subst. rewrite section_length by done. lia.
    - split; [|lia]. split; [done|lia]. }
  split; [done|]. split; [done|]. unfold k', advance. cbn [pos sections tail region].
  destruct (statement_at m i c Ham Hc) as [[? ?]|[[-> ->]|[[-> ->]|[[-> ->]|[? ?]]]]];
    (match goal with |- context [Nat.eqb ?x ?y] => destruct (Nat.eqb_spec x y) as [He|He] end); try lia;
    rewrite ?inside_start, ?inside_at by done;
    repeat match goal with |- context [(?x <=? ?y)%nat] => destruct (Nat.leb_spec x y); try lia end; cbn;
    auto.
  by left.
Qed.

(** The regions entered by the statements executed so far. *)
Definition entered (k : thread) : Z :=
  match sections k with
  | [] => 0
  | m :: _ => foldl (fun r c => region_after c r) 0 (take (pos k) (section api m))
  end.

Lemma entered_advance k m c :
  sections_ok k -> head (sections k) = Some m -> section api m !! pos k = Some c ->
  region k = entered k ->
  region (advance c (length (section api m)) k) = entered (advance c (length (section api m)) k).
Proof.
  destruct k as [[|m' ms] i r]; [done|]. intros [Ha _] [= ->] Hc Hr. cbn in Hc, Hr. subst r.
  inversion Ha as [|? ? Ham Hms]; subst. unfold advance. cbn [pos sections tail region].
  assert (region_after c (foldl (fun r c => region_after c r) 0 (take i (section api m))) =
          foldl (fun r c => region_after c r) 0 (take (S i) (section api m))) as Hs.
  { by rewrite (take_S_r _ _ _ Hc), foldl_app. }
  destruct (Nat.eqb_spec (S i) (length (section api m))) as [He|He]; unfold entered; cbn; rewrite Hs; [|done].
  rewrite He, firstn_all, balanced by done. by destruct ms.
Qed.

Record Inv (s : system) : Prop := {
  inv_lock : lock_ok sharing (lock s);
  inv_thread t k : threads s !! t = Some k -> sections_ok k /\ region k = entered k;
  inv_inside t k m : threads s !! t = Some k -> inside k = Some m <-> holds m t (lock s);
  inv_range t m : holds m t (lock s) -> (t < length (threads s))%nat
}.

(** Thread [t] moves from [k] to [k'] and the lock to [h]: nobody else's hold on
    the lock changes, and [t] holds it as far as it is inside. *)
Lemma locks_move_inv s t k k' h :
  Inv s -> threads s !! t = Some k -> sections_ok k' -> region k' = entered k' -> lock_ok sharing h ->
  (forall u m, holds m u h <-> (u = t /\ inside k' = Some m) \/ (u <> t /\ holds m u (lock s))) ->
  left_over k = S (left_over k') ->
  Inv (mkSystem h (<[t := k']> (threads s))) /\
  remaining s = S (remaining (mkSystem h (<[t := k']> (threads s)))).
Proof.
  intros [Il It Ii Ir] Hk Hok Hreg Hl Hh Hleft. split; [split|]; cbn [lock threads].
  - done.
  - intros u j [(-> & -> & _)|(_ & Hj)]%list_lookup_insert_Some; [done|by eapply It].
  - intros u j m [(-> & -> & _)|(Hne & Hj)]%list_lookup_insert_Some; rewrite Hh; [naive_solver|].
    rewrite (Ii _ _ m Hj). naive_solver.
  - intros u m. rewrite length_insert, Hh. intros [[-> _]|[_ Hu]]; [by eapply lookup_lt_Some|by eapply Ir].
  - unfold remaining. cbn. pose proof (sum_insert left_over _ _ _ k' Hk). lia.
Qed.

(** A scheduled thread waits for a lock it cannot share, or moves on. *)
Lemma sched_cases s t k :
  Inv s -> threads s !! t = Some k -> sections k <> [] ->
  sched_thread api s t = IsBlocked /\ lock s <> Free /\ inside k = None \/
  exists s', sched_thread api s t = Moves s' /\ Inv s' /\ remaining s = S (remaining s').
Proof.
  intros [Il It Ii Ir] Hk Hne. destruct (It _ _ Hk) as [Hok Hreg].
  destruct (sections k) as [|m ms] eqn:Hs; [done|].
  assert (head (sections k) = Some m) as Hh by (by rewrite Hs).
  assert (allowed sharing m) as Ham by (destruct Hok as [Ha _]; rewrite Hs in Ha; by inversion Ha).
  destruct (lookup_lt_is_Some_2 (section api m) (pos k)) as [c Hc];
    [destruct Hok as [_ Hp]; by rewrite Hs in Hp|].
  destruct (statement_cases k m c Hok Hh Hc) as (Hok' & Hleft & Hcase).
  pose proof (entered_advance k m c Hok Hh Hc Hreg) as Hreg'.
  set (k' := advance c (length (section api m)) k) in *.
  assert (forall h, perform c t (lock s) = Go h -> lock_ok sharing h ->
    (forall u m, holds m u h <-> (u = t /\ inside k' = Some m) \/ (u <> t /\ holds m u (lock s))) ->
    exists s', sched_thread api s t = Moves s' /\ Inv s' /\ remaining s = S (remaining s')) as Hgo.
  { intros h Hp Hlok Hh'. exists (mkSystem h (<[t := k']> (threads s))).
    split; [|by apply (locks_move_inv s t k)]. unfold sched_thread. by rewrite Hk, Hh, Hc, Hp. }
  destruct Hcase as [[Hn Hin]|[(-> & Hout & Hin)|(-> & Hin & Hout)]].
  - right. apply (Hgo (lock s)); [apply Hn|done|]. intros u m'. rewrite Hin, (Ii _ _ m' Hk).
    destruct (decide (u = t)) as [->|]; naive_solver.
  - assert (stranger t (lock s)) as Hst by (intros m' Hm'; apply (Ii _ _ m' Hk) in Hm'; congruence).
    pose proof (takes_law m t (lock s) Ham Il Hst) as Hp. destruct (compatible m (lock s)) eqn:Hcm.
    + right. apply (Hgo _ Hp); [by apply lock_ok_join|]. intros u m'.
      rewrite (holds_join sharing), Hin by done. naive_solver.
    + left. split; [|split; [by destruct (lock s), m|done]]. unfold sched_thread. by rewrite Hk, Hh, Hc, Hp.
  - apply (Ii _ _ m Hk) in Hin as Hm. right.
    apply (Hgo (leave t (lock s))); [by apply gives_law|by apply lock_ok_leave|].
    intros u m'. rewrite (holds_leave sharing m), Hout by done. naive_solver.
Qed.

Lemma locks_start_inv progs : Forall (Forall (allowed sharing)) progs -> Inv (start progs).
Proof.
  intros Hp. assert (forall t k, threads (start progs) !! t = Some k ->
    exists ms, k = mkThread ms 0 0 /\ Forall (allowed sharing) ms) as Hstart.
  { intros t k Hk. cbn in Hk. rewrite list_lookup_fmap in Hk.
    destruct (progs !! t) as [ms|] eqn:Hms; [|done]. injection Hk as <-. exists ms. split; [done|].
    by eapply Forall_lookup_1 in Hms. }
  split.
  - done.
  - intros t k (ms & -> & Ha)%Hstart. split; [split; [done|]|]; destruct ms; cbn; try done.
    inversion Ha; subst. rewrite section_length by done. lia.
  - intros t k m (ms & -> & Ha)%Hstart. rewrite inside_start by done.
    split; [done|]. destruct m; [done|by intros (? & ? & _)].
  - intros t [] Hm; [done|by destruct Hm as (? & ? & _)].
Qed.

Lemma locks_sched_inv s t s' : Inv s -> sched_thread api s t = Moves s' -> Inv s' /\ remaining s = S (remaining s').
Proof.
  intros I Hm. destruct (threads s !! t) as [k|] eqn:Hk; [|unfold sched_thread in Hm; by rewrite Hk in Hm].
  destruct (decide (sections k = [])) as [He|He].
  { unfold sched_thread in Hm. by rewrite Hk, He in Hm. }
  destruct (sched_cases s t k I Hk He) as [(Hb & _)|(s1 & H1 & H2)]; congruence.
Qed.

Lemma locks_run_inv progs sched s :
  Forall (Forall (allowed sharing)) progs -> run api (start progs) sched = Some s ->
  Inv s /\ (remaining (start progs) = length sched + remaining s)%nat.
Proof.
  intros Hp. generalize (locks_start_inv progs Hp). generalize (start progs) as s0.
  induction sched as [|t sched IH]; intros s0 I; cbn; [by intros [= <-]|].
  destruct (sched_thread api s0 t) as [s1| | | |] eqn:Hs; try done. intros Hr.
  destruct (locks_sched_inv _ _ _ I Hs) as [I1 ->]. destruct (IH s1 I1 Hr) as [I2 ->]. split; [done|lia].
Qed.

(** Safety: exclusion, and nothing that the macros assert or the system leaves
    undefined. *)
Lemma sections_exclude progs sched s :
  Forall (Forall (allowed sharing)) progs -> run api (start progs) sched = Some s ->
  (forall t u k j, threads s !! t = Some k -> threads s !! u = Some j -> t <> u ->
     inside k = Some Exclusive -> inside j = None) /\
  (forall t, sched_thread api s t <> Crash /\ sched_thread api s t <> Undef).
Proof.
  intros Hp Hr. destruct (locks_run_inv _ _ _ Hp Hr) as [I _]. split.
  - intros t u k j Hk Hj Hne Hin. apply (inv_inside _ I _ _ _ Hk) in Hin. cbn in Hin.
    destruct (inside j) as [m|] eqn:Hij; [|done]. apply (inv_inside _ I _ _ _ Hj) in Hij.
    rewrite Hin in Hij. destruct m; cbn in Hij; [congruence|by destruct Hij as (? & ? & _)].
  - intros t. destruct (threads s !! t) as [k|] eqn:Hk; [|by unfold sched_thread; rewrite Hk].
    destruct (decide (sections k = [])) as [He|He]; [unfold sched_thread; by rewrite Hk, He|].
    destruct (sched_cases s t k I Hk He) as [(-> & _)|(s1 & -> & _)]; done.
Qed.

(** Completion: as long as a section is left some thread can go on, every step
    is one statement less, and at the end the lock is free. *)
Lemma sections_finish progs sched s :
  Forall (Forall (allowed sharing)) progs -> run api (start progs) sched = Some s ->
  (remaining (start progs) = length sched + remaining s)%nat /\
  (remaining s <> O -> exists t s', sched_thread api s t = Moves s') /\
  (remaining s = O -> lock s = Free /\ forall t k, threads s !! t = Some k -> region k = 0).
Proof.
  intros Hp Hr. destruct (locks_run_inv _ _ _ Hp Hr) as [I Hn]. split; [done|].
  assert (forall t k, threads s !! t = Some k -> inside k <> None ->
    exists s', sched_thread api s t = Moves s') as Hmove.
  { intros t k Hk Hin. destruct (sched_cases s t k I Hk) as [(_ & _ & ?)|(s1 & ? & _)]; [|done|eauto].
    intros He. destruct Hin. unfold inside. by rewrite He. }
  assert (forall t m, holds m t (lock s) -> exists s', sched_thread api s t = Moves s') as Hholder.
  { intros t m Hm. destruct (lookup_lt_is_Some_2 (threads s) t (inv_range _ I _ _ Hm)) as [k Hk].
    apply (Hmove _ _ Hk). apply (inv_inside _ I _ _ _ Hk) in Hm. congruence. }
  assert (forall t k, threads s !! t = Some k -> left_over k = O <-> sections k = []) as Hleft.
  { intros t k Hk. destruct (inv_thread _ I _ _ Hk) as [[_ Hpos] _]. unfold left_over.
    destruct (sections k) as [|m ms]; [done|]. cbn. split; [lia|done]. }
  split.
  - intros Hrem. destruct (lock s) as [|t n|[|t ts]] eqn:Hl.
    + destruct (sum_nonzero left_over (threads s) Hrem) as (t & k & Hk & Hx).
      assert (sections k <> []) as Hs by (by rewrite <- (Hleft t k Hk)).
      destruct (sched_cases s t k I Hk Hs) as [(_ & ? & _)|(s1 & ? & _)]; [congruence|eauto].
    + exists t. apply (Hholder t Exclusive). pose proof (inv_lock _ I) as Hok. rewrite Hl in Hok. cbn in *. congruence.
    + pose proof (inv_lock _ I) as Hok. rewrite Hl in Hok. by destruct Hok.
    + exists t. apply (Hholder t Shared). exists (t :: ts). split; [done|set_solver].
  - intros Hrem.
    assert (forall t k, threads s !! t = Some k -> sections k = []) as Hdone
      by (intros t k Hk; by apply (Hleft t), (sum_zero left_over (threads s) t)).
    assert (forall t m, ~ holds m t (lock s)) as Hnone.
    { intros t m Hm. destruct (lookup_lt_is_Some_2 (threads s) t (inv_range _ I _ _ Hm)) as [k Hk].
      apply (inv_inside _ I _ _ _ Hk) in Hm. unfold inside in Hm. by rewrite (Hdone _ _ Hk) in Hm. }
    split.
    + pose proof (inv_lock _ I) as Hok. destruct (lock s) as [|t n|[|t ts]] eqn:Hl; [done|..].
      * destruct (Hnone t Exclusive). cbn in *. by rewrite Hok.
      * by destruct Hok.
      * destruct (Hnone t Shared). exists (t :: ts). split; [done|set_solver].
    + intros t k Hk. destruct (inv_thread _ I _ _ Hk) as [_ ->]. unfold entered. by rewrite (Hdone _ _ Hk).
Qed.
End Sections.

(** ** The locks of cxplat *)

Definition platform_lock (rw : bool) (p : platform) : lock_api :=
  if rw then CxPlatRwLock p else CxPlatLock p.

#[export] Instance platform_lock_laws `{!DeadlockPolicy} rw p : LockLaws rw (platform_lock rw p) :=
  match rw with true => CxPlatRwLock_laws p | false => CxPlatLock_laws p end.

Section Platforms.
Context `{D : !DeadlockPolicy}.

(** Inside a section of a kernel lock the thread is in a critical region. *)
Lemma kernel_region rw progs sched s t k :
  Forall (Forall (allowed rw)) progs ->
  run (platform_lock rw WINKERNEL) (start progs) sched = Some s ->
  threads s !! t = Some k -> inside (api := platform_lock rw WINKERNEL) k <> None -> region k = 1.
Proof.
  intros Hp Hr Hk Hin. destruct (locks_run_inv _ _ _ Hp Hr) as [I _].
  destruct (inv_thread _ I _ _ Hk) as [[Ha _] ->]. unfold entered, inside in *.
  destruct k as [[|m ms] i r]; [done|]. cbn [sections pos head mbind option_bind] in *.
  inversion Ha as [|? ? Ham _]; subst.
  assert (length (acquire (platform_lock rw WINKERNEL) m) = 2%nat) as Hlen by (by destruct rw, m).
  rewrite Hlen in Hin. destruct i as [|[|[|[|i]]]]; try done; by destruct rw, m.
Qed.

(** C12: the locks and the reader-writer locks of all platforms exclude.  Threads
    run any sections on one lock, in any interleaving: while one is inside an
    exclusive section nobody else is inside a section; no assertion of the
    macros fails and no call is one the system leaves undefined; and inside a
    section of a kernel lock the thread is in exactly one critical region. *)
Theorem locks_exclude rw p progs sched s :
  Forall (Forall (allowed rw)) progs -> run (platform_lock rw p) (start progs) sched = Some s ->
  (forall t u k j, threads s !! t = Some k -> threads s !! u = Some j -> t <> u ->
     inside (api := platform_lock rw p) k = Some Exclusive -> inside (api := platform_lock rw p) j = None) /\
  (forall t, sched_thread (platform_lock rw p) s t <> Crash /\ sched_thread (platform_lock rw p) s t <> Undef) /\
  (p = WINKERNEL -> forall t k, threads s !! t = Some k ->
     inside (api := platform_lock rw p) k <> None -> region k = 1).
Proof.
  intros Hp Hr. destruct (sections_exclude _ _ _ Hp Hr) as [H1 H2].
  split; [done|]. split; [done|]. intros -> t k. by eapply kernel_region.
Qed.

(** C13: the locks do not get stuck.  Under every scheduler that only picks
    threads that can go on, the sections of all threads finish after exactly as
    many steps as they have statements; then the lock is free, so that it can
    be destroyed, and every thread has left the critical regions it entered. *)
Theorem locks_finish rw p progs sched s :
  Forall (Forall (allowed rw)) progs -> run (platform_lock rw p) (start progs) sched = Some s ->
  (remaining (api := platform_lock rw p) (start progs) =
     length sched + remaining (api := platform_lock rw p) s)%nat /\
  (remaining (api := platform_lock rw p) s <> O ->
     exists t s', sched_thread (platform_lock rw p) s t = Moves s') /\
  (remaining (api := platform_lock rw p) s = O ->
     lock s = Free /\ forall t k, threads s !! t = Some k -> region k = 0).
Proof. apply sections_finish. Qed.

(** Outside the kernel the dispatch locks are locks like the others. *)
Lemma dispatch_locks windows :
  CxPlatLockDispatch windows = CxPlatLock (if windows then WINUSER else POSIX) /\
  CxPlatRwLockDispatch windows = CxPlatRwLock (if windows then WINUSER else POSIX).
Proof. by destruct windows. Qed.

(** A thread's calls, one after the other, nobody else using the lock. *)
Fixpoint perform_all (cs : list call) (t : nat) (h : holder) : reaction :=
  match cs with
  | [] => Go h
  | c :: cs => match perform c t h with Go h' => perform_all cs t h' | r => r end
  end.

(** Taking a lock one already holds.  On POSIX and in Windows user mode
    [CxPlatLock] is recursive; in the kernel the second acquisition waits for
    the thread itself.  A reader that asks for exclusive access to a
    [CxPlatRwLock] it holds never gets it, on any platform: it waits for
    itself, or POSIX reports it and the assertion stops the process. *)
Theorem lock_nesting p t :
  let acq := acquire (CxPlatLock p) Exclusive in
  let rel := release (CxPlatLock p) Exclusive in
  (perform_all (acq ++ acq) t Free = if decide (p = WINKERNEL) then Waits else Go (Held t 2)) /\
  (p <> WINKERNEL -> perform_all (acq ++ acq ++ rel ++ rel) t Free = Go Free) /\
  forall h, perform_all (acquire (CxPlatRwLock p) Shared ++ acquire (CxPlatRwLock p) Exclusive) t Free <> Go h.
Proof.
  cbv zeta. destruct p; cbn; repeat (rewrite ?Nat.eqb_refl; cbn); split_and!; try done.
  intros h. rewrite bool_decide_true by set_solver. unfold self_wait. by destruct reports_deadlock.
Qed.

(** ** Lifetime *)

Definition init (rw : bool) `{!PthreadLocks} (p : platform) : M lock_memory unit :=
  if rw then rwlock_ctor p else lock_ctor p.

Definition uninit (rw : bool) (p : platform) : M lock_memory unit :=
  if rw then rwlock_dtor p else lock_dtor p.

(** The calls initialization makes. *)
Definition init_rcs (rw : bool) (p : platform) `{!PthreadLocks} : list Z :=
  match p, rw with
  | POSIX, false => [mutexattr_init_rc; mutexattr_settype_rc; mutex_init_rc; mutexattr_destroy_rc]
  | POSIX, true => [rwlock_init_rc]
  | _, _ => []
  end.

(** Initialization in closed form. *)
Lemma init_eq `{!PthreadLocks} rw p s :
  init rw p s = if decide (Forall (fun rc => rc = 0) (init_rcs rw p))
                then Ret tt (mkMemory (attrs s) (Some Free)) else Stop AssertFailed.
Proof.
  destruct (decide _) as [Hrc|Hrc]; destruct p, rw; cbn [init init_rcs] in *;
    rewrite ?Forall_cons_iff, ?Forall_nil_iff in Hrc; try done;
    unfold lock_ctor, rwlock_ctor, PosixInit.CxPlatLockInitialize, PosixInit.CxPlatRwLockInitialize, fre_assert;
    repeat (match goal with |- context [?x =? 0] => destruct (Z.eqb_spec x 0) end); done || (exfalso; tauto).
Qed.

(** The life of a lock.  Initialization leaves a free lock and no attribute
    object, or stops the process if one of its calls fails.  A lock that is
    free can be destroyed on every platform; on POSIX destroying one that is
    held stops the process. *)
Theorem lock_lifetime `{!PthreadLocks} rw p s :
  (Forall (fun rc => rc = 0) (init_rcs rw p) ->
     init rw p s = Ret tt (mkMemory (attrs s) (Some Free))) /\
  (~ Forall (fun rc => rc = 0) (init_rcs rw p) -> init rw p s = Stop AssertFailed) /\
  (object s = Some Free -> exists s', uninit rw p s = Ret tt s' /\ attrs s' = attrs s) /\
  (p = POSIX -> forall h, object s = Some h -> h <> Free -> uninit rw p s = Stop AssertFailed).
Proof.
  rewrite init_eq. split; [intros Hrc; by rewrite decide_True|]. split; [intros Hrc; by rewrite decide_False|].
  destruct s as [n o]. cbn [object attrs]. split.
  - intros ->. destruct p, rw; by eexists.
  - intros -> h -> Hh. by destruct rw, h.
Qed.
End Platforms.

(** ** Concrete runs *)

#[local] Instance reporting : DeadlockPolicy := {| reports_deadlock := true |}.

(** Two readers and a writer of a kernel reader-writer lock; the readers are
    inside together, then the writer is. *)
Lemma locks_exclude_witness :
  exists s, run (platform_lock true WINKERNEL) (start [[Shared]; [Shared]; [Exclusive]])
              [0; 1; 0; 1; 0; 1; 0; 0; 1; 1; 2; 2]%nat = Some s /\
    (forall t, sched_thread (platform_lock true WINKERNEL) s t <> Crash) /\
    (exists k, threads s !! 2%nat = Some k /\ region k = 1).
Proof.
  eexists. split; [vm_compute; reflexivity|].
  edestruct (locks_exclude true WINKERNEL [[Shared]; [Shared]; [Exclusive]]
               [0; 1; 0; 1; 0; 1; 0; 0; 1; 1; 2; 2]%nat) as (_ & Hsafe & Hregion);
    [repeat constructor; done|vm_compute; reflexivity|].
  split; [intros t; apply Hsafe|]. eexists. split; [reflexivity|].
  eapply (Hregion eq_refl 2%nat); [reflexivity|done].
Defined.

(** Two threads, one with two sections of a POSIX lock, run to the end. *)
Lemma locks_finish_witness :
  exists s, run (platform_lock false POSIX) (start [[Exclusive; Exclusive]; [Exclusive]])
              [0; 0; 0; 1; 1; 1; 0; 0; 0]%nat = Some s /\ lock s = Free.
Proof.
  eexists. split; [vm_compute; reflexivity|].
  edestruct (locks_finish false POSIX [[Exclusive; Exclusive]; [Exclusive]]
               [0; 0; 0; 1; 1; 1; 0; 0; 0]%nat) as (_ & _ & Hend);
    [repeat constructor; done|vm_compute; reflexivity|].
  apply Hend. reflexivity.
Defined.
