(* ===== verification/Lock.v ===== *)
(** * Dispatch-level locks (inc/cxplat_winkernel.h)

    The kernel's dispatch locks raise the interrupt request level (IRQL) of the
    processor that takes them and keep the previous level in a field of the
    lock, from which the release restores it.  Both locks are modelled with
    their statements as steps, for any number of processors each at its own
    level: [CXPLAT_DISPATCH_LOCK], a spin lock, and [CXPLAT_DISPATCH_RW_LOCK],
    a reader-writer spin lock.  The spin locks of the kernel are as documented:
    acquisition waits for the holder, raises to DISPATCH_LEVEL and returns the
    previous level; release sets the level it is given. *)

From S2P Require Import Prelude.

Definition PASSIVE_LEVEL : Z := 0.
Definition DISPATCH_LEVEL : Z := 2.

(** A spin lock: free, held exclusively, or by a number of readers. *)
Inductive spin := Free | Exclusive | Shared (n : nat).

(** Both lock types: the spin lock and [PrevIrql]. *)
Record DISPATCH_LOCK := mkLock { SpinLock : spin; PrevIrql : Z }.

(** Where a processor is: outside; having acquired the spin lock, the returned
    level not yet stored; inside; releasing, with the level read from the lock. *)
Inductive position := Outside | Acquired (Old : Z) | Inside | Releasing (Prev : Z).

(** A processor: its position, its level, and how it takes the lock. *)
Record processor := mkProcessor { pos : position; irql : Z; shared : bool }.

Record system := mkSystem { lock : DISPATCH_LOCK; procs : list processor }.

(** [KeAcquireSpinLockRaiseToDpc] and [ExAcquireSpinLockExclusive]. *)
Definition acquire_exclusive (l : spin) : option spin :=
  match l with Free => Some Exclusive | _ => None end.

(** [ExAcquireSpinLockShared]. *)
Definition acquire_shared (l : spin) : option spin :=
  match l with Free => Some (Shared 1) | Shared n => Some (Shared (S n)) | Exclusive => None end.

Definition release (l : spin) : spin :=
  match l with Shared (S (S n)) => Shared (S n) | _ => Free end.

(** The next statement of processor [c] on the lock:
    - outside, [CxPlatDispatchLockAcquire], [CxPlatDispatchRwLockAcquireExclusive]
      or [CxPlatDispatchRwLockAcquireShared] acquires the spin lock; the routines
      may only be called at DISPATCH_LEVEL or below, and above it there is no step;
    - then the returned level is stored in [PrevIrql];
    - inside, the release reads [PrevIrql];
    - and passes it to the release of the spin lock, which sets the level. *)
Definition processor_step (c : processor) (l : DISPATCH_LOCK) : option (processor * DISPATCH_LOCK) :=
  match pos c with
  | Outside =>
      if DISPATCH_LEVEL <? irql c then None
      else match (if shared c then acquire_shared (SpinLock l) else acquire_exclusive (SpinLock l)) with
           | Some sl => Some (mkProcessor (Acquired (irql c)) DISPATCH_LEVEL (shared c), mkLock sl (PrevIrql l))
           | None => None
           end
  | Acquired Old => Some (mkProcessor Inside (irql c) (shared c), mkLock (SpinLock l) Old)
  | Inside => Some (mkProcessor (Releasing (PrevIrql l)) (irql c) (shared c), l)
  | Releasing Prev =>
      Some (mkProcessor Outside Prev (shared c), mkLock (release (SpinLock l)) (PrevIrql l))
  end.

Definition step (s : system) (i : nat) : option system :=
  c ← procs s !! i;
  '(c', l') ← processor_step c (lock s);
  Some (mkSystem l' (<[i := c']> (procs s))).

Fixpoint run (s : system) (sched : list nat) : option system :=
  match sched with
  | [] => Some s
  | i :: sched => s' ← step s i; run s' sched
  end.

(** Processors outside the lock at the given levels, and a new lock. *)
Definition initial (levels : list Z) (sh : bool) (Prev : Z) : system :=
  mkSystem (mkLock Free Prev) (map (fun i => mkProcessor Outside i sh) levels).

(** ** The exclusive locks *)

Definition inside (c : processor) : bool := match pos c with Outside => false | _ => true end.

(** What holds of a processor that entered at level [base]. *)
Definition proc_ok (l : DISPATCH_LOCK) (base : Z) (c : processor) : Prop :=
  shared c = false /\
  match pos c with
  | Outside => irql c = base
  | Acquired Old => irql c = DISPATCH_LEVEL /\ Old = base
  | Inside => irql c = DISPATCH_LEVEL /\ PrevIrql l = base
  | Releasing Prev => irql c = DISPATCH_LEVEL /\ Prev = base
  end.

Record ExInv (levels : list Z) (s : system) : Prop := {
  ex_len : length (procs s) = length levels;
  ex_free i c : procs s !! i = Some c -> inside c = true -> SpinLock (lock s) = Exclusive;
  ex_one i j c d : procs s !! i = Some c -> procs s !! j = Some d ->
    inside c = true -> inside d = true -> i = j;
  ex_lock : SpinLock (lock s) = Free \/ SpinLock (lock s) = Exclusive;
  ex_proc i c base : procs s !! i = Some c -> levels !! i = Some base -> proc_ok (lock s) base c
}.

Lemma exclusive_step levels s i s' : ExInv levels s -> step s i = Some s' -> ExInv levels s'.
Proof.
  intros [Hl Hf Ho Hk Hp]. unfold step. destruct (procs s !! i) as [c|] eqn:Hc; [|done]. cbn.
  destruct (processor_step c (lock s)) as [[c' l']|] eqn:Hs; [|done]. cbn. intros [= <-].
  destruct (lookup_lt_is_Some_2 levels i) as [base Hb]; [rewrite <- Hl; by eapply lookup_lt_Some|].
  pose proof (Hp _ _ _ Hc Hb) as [Hsh Hpos].
  assert ((inside c = true -> SpinLock (lock s) = Exclusive) /\
          proc_ok l' base c' /\
          (inside c = false -> SpinLock (lock s) = Free) /\
          (inside c' = true -> SpinLock l' = Exclusive) /\
          (SpinLock l' = Free \/ SpinLock l' = Exclusive) /\
          (inside c' = false -> SpinLock l' = Free /\ inside c = true) /\
          (PrevIrql l' = PrevIrql (lock s) \/ inside c = true)) as (Hc1 & Hc2 & Hc3 & Hc4 & Hc5 & Hc6 & Hc7).
  { split; [by apply Hf with i|]. specialize (Hf i c Hc). unfold processor_step in Hs. rewrite Hsh in Hs.
    unfold proc_ok, inside in *. destruct c as [[|Old| |Prev] lv sh]; cbn in *; subst.
    - destruct (_ <? _); [done|]. destruct (SpinLock (lock s)); cbn in Hs; try done. injection Hs as <- <-. cbn. intuition congruence.
    - injection Hs as <- <-. cbn. intuition congruence.
    - injection Hs as <- <-. cbn. intuition congruence.
    - injection Hs as <- <-. cbn. rewrite Hf by done. cbn. intuition congruence. }
  assert (forall j d, j <> i -> procs s !! j = Some d -> inside d = true ->
    inside c = false /\ SpinLock (lock s) = Exclusive) as Hother.
  { intros j d Hji Hd Hid. split; [|by eapply Hf]. destruct (inside c) eqn:Hic; [|done].
    destruct Hji. by apply (Ho j i d c). }
  split; cbn [procs lock].
  - by rewrite length_insert.
  - intros j d [(-> & -> & _)|(Hne & Hd)]%list_lookup_insert_Some Hid; [by apply Hc4|].
    destruct (Hother j d) as [Hic He]; [done..|]. by rewrite Hc3 in He.
  - intros j k d e [(-> & -> & _)|(Hne & Hd)]%list_lookup_insert_Some
      [(-> & -> & _)|(Hne' & He)]%list_lookup_insert_Some Hid Hie; [done|..].
    + destruct (Hother k e) as [Hic Hx]; [done..|]. by rewrite Hc3 in Hx.
    + destruct (Hother j d) as [Hic Hx]; [done..|]. by rewrite Hc3 in Hx.
    + by apply (Ho j k d e).
  - done.
  - intros j d b [(-> & -> & _)|(Hne & Hd)]%list_lookup_insert_Some Hbj.
    + rewrite Hb in Hbj. by injection Hbj as <-.
    + pose proof (Hp _ _ _ Hd Hbj) as Hok. destruct Hc7 as [He|Hic].
      * unfold proc_ok in *. by rewrite He.
      * destruct (inside d) eqn:Hid; [destruct Hne; by apply (Ho i j c d)|].
        unfold proc_ok, inside in *. by destruct (pos d).
Qed.

Lemma exclusive_run levels Prev sched s :
  run (initial levels false Prev) sched = Some s -> ExInv levels s.
Proof.
  assert (ExInv levels (initial levels false Prev)) as Hi.
  { split; cbn.
    - by rewrite length_map.
    - intros i c Hc. rewrite list_lookup_fmap in Hc. destruct (levels !! i); by simplify_eq/=.
    - intros i j c d Hc. rewrite list_lookup_fmap in Hc. destruct (levels !! i); by simplify_eq/=.
    - by left.
    - intros i c b Hc Hb. rewrite list_lookup_fmap, Hb in Hc. by simplify_eq/=. }
  revert Hi. generalize (initial levels false Prev). induction sched as [|i sched IH]; intros s0 Hi; cbn.
  - by intros [= <-].
  - destruct (step s0 i) as [s1|] eqn:Hs; [|done]. cbn. apply IH. by eapply exclusive_step.
Qed.

(** C26: the exclusive dispatch locks exclude and restore the interrupt level.
    In every interleaving of any number of processors, which take the lock at
    DISPATCH_LEVEL or below, at most one is between its acquisition and its release, at DISPATCH_LEVEL; and every
    processor outside the lock is at the level it had when it first came. *)
Theorem exclusive_lock_restores_irql levels Prev sched s i c base :
  run (initial levels false Prev) sched = Some s ->
  procs s !! i = Some c -> levels !! i = Some base ->
  irql c = (if inside c then DISPATCH_LEVEL else base) /\
  forall j d, procs s !! j = Some d -> inside c = true -> inside d = true -> i = j.
Proof.
  intros HI%exclusive_run Hc Hb. split.
  - destruct (ex_proc _ _ HI _ _ _ Hc Hb) as [_ Hok]. unfold inside. destruct (pos c); intuition congruence.
  - intros j d Hd. by apply (ex_one _ _ HI).
Qed.

Lemma exclusive_lock_restores_irql_witness :
  let s := mkSystem (mkLock Exclusive 0) [mkProcessor Outside 0 false; mkProcessor (Acquired 2) 2 false] in
  2 = (if inside (mkProcessor (Acquired 2) 2 false) then DISPATCH_LEVEL else 2) /\
  forall j d, procs s !! j = Some d -> true = true -> inside d = true -> 1%nat = j.
Proof.
  exact (exclusive_lock_restores_irql [0; 2] 0 [0; 0; 0; 0; 1]%nat _ 1 _ 2 eq_refl eq_refl eq_refl).
Defined.

(** The reader-writer lock taken shared: two readers share one [PrevIrql].  A
    processor at PASSIVE_LEVEL takes the lock, one at DISPATCH_LEVEL takes it
    too and stores its own level, then the first releases: it is outside the
    lock, at DISPATCH_LEVEL instead of the level it came with. *)
Theorem shared_lock_loses_irql :
  exists sched s c, run (initial [PASSIVE_LEVEL; DISPATCH_LEVEL] true 0) sched = Some s /\
    procs s !! O = Some c /\ inside c = false /\ irql c = DISPATCH_LEVEL.
Proof. exists [0; 0; 1; 1; 0; 0]%nat. eexists _, _. repeat (split; [reflexivity|]). reflexivity. Qed.
