(* ===== verification/ControlDevice.v ===== *)
(** * The control device of the kernel test driver (src/test/bin/winkernel/control.cpp)

    User-mode tests open this device and ask it to run kernel-mode tests, one
    control code per test.  The model has the control codes
    (src/test/CxPlatTests.h), the creation and deletion of the device, and its
    callbacks: file create, file cleanup, device control and cancellation, plus
    [LogTestFailure], which the running tests call.  The framework runs
    callbacks of different requests concurrently; each callback is a thread
    that executes one statement at a time, so every interleaving is covered.
    The framework keeps its own order per file object: one create; cleanup only
    of a file whose create succeeded, once; device control only through a file
    that is open when the request is sent (it may still run at the cleanup). *)

From S2P Require Import Prelude Thread.

(** ** Control codes *)

Definition FILE_DEVICE_NETWORK : Z := 18.
Definition METHOD_BUFFERED : Z := 0.
Definition FILE_WRITE_DATA : Z := 2.

(** The system's [CTL_CODE] macro. *)
Definition CTL_CODE (DeviceType Function Method Access : Z) : Z :=
  Z.lor (Z.lor (Z.lor (Z.shiftl DeviceType 16) (Z.shiftl Access 14)) (Z.shiftl Function 2)) Method.

Definition CXPLAT_CTL_CODE (request method access : Z) : Z :=
  CTL_CODE FILE_DEVICE_NETWORK request method access.

Definition IoGetFunctionCodeFromCtlCode (ControlCode : Z) : Z :=
  Z.land (Z.shiftr ControlCode 2) 4095.

(** The kernel-mode tests. *)
Inductive test :=
  | CryptRandom | MemoryBasic | TimeBasic | EventBasic | ProcBasic | ThreadBasic
  | ThreadWaitTimeout | VectorBasic | ThreadAsync | EventCpp | LockBasic | LockReadWrite.

Definition IOCTL_CXPLAT_RUN (t : test) : Z :=
  CXPLAT_CTL_CODE
    match t with
    | CryptRandom => 1 | MemoryBasic => 2 | TimeBasic => 3 | EventBasic => 4
    | ProcBasic => 5 | ThreadBasic => 6 | ThreadWaitTimeout => 7 | VectorBasic => 8
    | ThreadAsync => 9 | EventCpp => 10 | LockBasic => 11 | LockReadWrite => 12
    end METHOD_BUFFERED FILE_WRITE_DATA.

Definition CXPLAT_MAX_IOCTL_FUNC_CODE : Z := 12.

(** Status values as the signed 32-bit numbers they are. *)
Definition nt (code : Z) : Z := i32 code.
Definition STATUS_SUCCESS : Z := 0.
Definition STATUS_NOT_IMPLEMENTED : Z := nt 0xC0000002.
Definition STATUS_INVALID_PARAMETER : Z := nt 0xC000000D.
Definition STATUS_INSUFFICIENT_RESOURCES : Z := nt 0xC000009A.
Definition STATUS_DEVICE_NOT_READY : Z := nt 0xC00000A3.
Definition STATUS_NOT_SUPPORTED : Z := nt 0xC00000BB.
Definition STATUS_TOO_MANY_SESSIONS : Z := nt 0xC00000CE.
Definition STATUS_CANCELLED : Z := nt 0xC0000120.
Definition STATUS_FAIL_FAST_EXCEPTION : Z := nt 0xC0000602.

(** The driver framework's answers: whether the initialization structure can be
    allocated, the status of each call that sets the device up, and what
    retrieving an input buffer of a size gives (the status, and whether the
    buffer pointer is set). *)
Class Wdf := {
  WdfControlDeviceInitAllocate_ok : bool;
  WdfDeviceInitAssignName_st : Z;
  WdfDeviceCreate_st : Z;
  WdfDeviceCreateSymbolicLink_st : Z;
  WdfIoQueueCreate_st : Z;
  WdfRequestRetrieveInputBuffer : Z -> Z * bool
}.

(** ** The device and its callbacks *)

(** [Lock] is the thread that owns the push lock; a client is named by its file
    object, whose context it is. *)
Record CXPLAT_DEVICE_EXTENSION := mkExt {
  Lock : option nat;
  ClientList : list nat;
  ClientListSize : Z
}.

(** How far the framework is with a file object. *)
Inductive file_state := Unopened | Creating | Opened | Refused | Cleaning | Closed.

(** A file object: whether it has a context (a [CXPLAT_TEST_CLIENT]) and the
    context's [TestFailure]. *)
Record file := mkFile { fstate : file_state; context : bool; TestFailure : bool }.

Record device := mkDevice {
  ext : CXPLAT_DEVICE_EXTENSION;
  CxPlatTestClient : option nat;
  files : list file
}.

(** Where a thread is: in [CxPlatTestCtlEvtFileCreate] for a file, in
    [CxPlatTestCtlEvtFileCleanup], in [CxPlatTestCtlEvtIoDeviceControl] (with
    the arguments of the request, then running a test), in
    [CxPlatTestCtlEvtIoCanceled].  [Crashed] is a bug check. *)
Inductive pc :=
  | Idle
  | FC_enter (f : nat) | FC_acquire (f : nat) | FC_check (f : nat) | FC_zero (f : nat)
  | FC_insert (f : nat) | FC_count (f : nat) | FC_publish (f : nat)
  | FC_release (f : nat) (Status : Z) | FC_leave (f : nat) (Status : Z)
  | FC_complete (f : nat) (Status : Z)
  | FL_enter (f : nat) | FL_context (f : nat) | FL_acquire (f : nat) | FL_remove (f : nat)
  | FL_count (f : nat) | FL_release (f : nat) | FL_clear (f : nat) | FL_leave (f : nat)
  | IO_check (fo : option nat) (Irql InputBufferLength IoControlCode : Z)
  | IO_reset (f : nat) (x : test) | IO_test (f : nat) (x : test) | IO_status (f : nat)
  | IO_complete (Status : Z)
  | IC_check (fo : option nat)
  | Crashed (why : fault).

(** A thread: its position and how many guarded regions it is in. *)
Record kthread := mkKthread { at_ : pc; guarded : Z }.

Definition set_ext (e : CXPLAT_DEVICE_EXTENSION) (d : device) : device :=
  mkDevice e (CxPlatTestClient d) (files d).
Definition set_client (c : option nat) (d : device) : device := mkDevice (ext d) c (files d).
Definition set_fstate (f : nat) (x : file_state) (d : device) : device :=
  mkDevice (ext d) (CxPlatTestClient d)
    (alter (fun g => mkFile x (context g) (TestFailure g)) f (files d)).
Definition set_failure (f : nat) (b : bool) (d : device) : device :=
  mkDevice (ext d) (CxPlatTestClient d)
    (alter (fun g => mkFile (fstate g) (context g) b) f (files d)).

(** [CxPlatTestCtlGetFileContext(FileObject) != nullptr]. *)
Definition has_context (f : nat) (d : device) : bool :=
  match files d !! f with Some g => context g | None => false end.

Definition failed (f : nat) (d : device) : bool :=
  match files d !! f with Some g => TestFailure g | None => false end.

Definition ExAcquirePushLockExclusive (me : nat) (d : device) : option device :=
  match Lock (ext d) with
  | None => Some (set_ext (mkExt (Some me) (ClientList (ext d)) (ClientListSize (ext d))) d)
  | Some _ => None
  end.

Definition ExReleasePushLockExclusive (d : device) : device :=
  set_ext (mkExt None (ClientList (ext d)) (ClientListSize (ext d))) d.

(** [InsertTailList], and [RemoveEntryList], which follows the links of the
    entry: [None] when it is not in the list. *)
Definition InsertTailList (f : nat) (e : CXPLAT_DEVICE_EXTENSION) : CXPLAT_DEVICE_EXTENSION :=
  mkExt (Lock e) (ClientList e ++ [f]) (ClientListSize e).

Definition RemoveEntryList (f : nat) (e : CXPLAT_DEVICE_EXTENSION) : option CXPLAT_DEVICE_EXTENSION :=
  if bool_decide (f ∈ ClientList e)
  then Some (mkExt (Lock e) (filter (fun g => g <> f) (ClientList e)) (ClientListSize e))
  else None.

Definition add_size (n : Z) (e : CXPLAT_DEVICE_EXTENSION) : CXPLAT_DEVICE_EXTENSION :=
  mkExt (Lock e) (ClientList e) (u32 (ClientListSize e + n)).

(** A statement gives the device, the thread's next position and the status it
    completes a request with, if it does; [None] when it cannot be executed. *)
Definition stepped : Type := option (device * kthread * option Z).

Definition go (d : device) (p : pc) (k : kthread) : stepped :=
  Some (d, mkKthread p (guarded k), None).

Definition CxPlatTestCtlEvtFileCreate (me : nat) (k : kthread) (d : device) : stepped :=
  match at_ k with
  | FC_enter f => Some (d, mkKthread (FC_acquire f) (guarded k + 1), None)
  | FC_acquire f => d' ← ExAcquirePushLockExclusive me d; go d' (FC_check f) k
  | FC_check f =>
      if 1 <=? ClientListSize (ext d) then go d (FC_release f STATUS_TOO_MANY_SESSIONS) k
      else if negb (has_context f d) then go d (FC_release f STATUS_INVALID_PARAMETER) k
      else go d (FC_zero f) k
  | FC_zero f => go (set_failure f false d) (FC_insert f) k
  | FC_insert f => go (set_ext (InsertTailList f (ext d)) d) (FC_count f) k
  | FC_count f => go (set_ext (add_size 1 (ext d)) d) (FC_publish f) k
  | FC_publish f => go (set_client (Some f) d) (FC_release f STATUS_SUCCESS) k
  | FC_release f Status => go (ExReleasePushLockExclusive d) (FC_leave f Status) k
  | FC_leave f Status => Some (d, mkKthread (FC_complete f Status) (guarded k - 1), None)
  | FC_complete f Status =>
      Some (set_fstate f (if NT_SUCCESS Status then Opened else Refused) d,
            mkKthread Idle (guarded k), Some Status)
  | _ => None
  end.

Definition CxPlatTestCtlEvtFileCleanup (me : nat) (k : kthread) (d : device) : stepped :=
  match at_ k with
  | FL_enter f => Some (d, mkKthread (FL_context f) (guarded k + 1), None)
  | FL_context f => go d (if has_context f d then FL_acquire f else FL_leave f) k
  | FL_acquire f => d' ← ExAcquirePushLockExclusive me d; go d' (FL_remove f) k
  | FL_remove f =>
      match RemoveEntryList f (ext d) with
      | Some e => go (set_ext e d) (FL_count f) k
      | None => go d (Crashed BadAccess) k
      end
  | FL_count f => go (set_ext (add_size (-1) (ext d)) d) (FL_release f) k
  | FL_release f => go (ExReleasePushLockExclusive d) (FL_clear f) k
  | FL_clear f => go (set_client None d) (FL_leave f) k
  | FL_leave f => Some (set_fstate f Closed d, mkKthread Idle (guarded k - 1), None)
  | _ => None
  end.

Definition CXPLAT_IOCTL_BUFFER_SIZES : list Z := [0; 0; 0; 0; 0; 0; 0; 0; 0; 0; 0; 0; 0].

(** The cases of the switch, in its order. *)
Definition switch_cases : list test :=
  [CryptRandom; MemoryBasic; TimeBasic; EventBasic; ProcBasic; ThreadBasic; ThreadAsync;
   ThreadWaitTimeout; VectorBasic; EventCpp; LockBasic; LockReadWrite].

Definition switch (IoControlCode : Z) : option test :=
  List.find (fun x => IoControlCode =? IOCTL_CXPLAT_RUN x) switch_cases.

(** What the checks of a device control request decide: a status, a test to run
    for a client, or an access outside the table of buffer sizes. *)
Inductive decision := Complete (Status : Z) | RunTest (f : nat) (x : test) | OutOfTable.

Section ControlDevice.
Context `{!Wdf}.

Definition ioctl_decide (fo : option nat) (Irql InputBufferLength IoControlCode : Z)
    (d : device) : decision :=
  if 0 <? Irql then Complete STATUS_NOT_SUPPORTED
  else match fo with
  | None => Complete STATUS_DEVICE_NOT_READY
  | Some f =>
      if negb (has_context f d) then Complete STATUS_DEVICE_NOT_READY
      else let FunctionCode := IoGetFunctionCodeFromCtlCode IoControlCode in
      if (FunctionCode =? 0) || (CXPLAT_MAX_IOCTL_FUNC_CODE <? FunctionCode)
      then Complete STATUS_NOT_IMPLEMENTED
      else match CXPLAT_IOCTL_BUFFER_SIZES !! Z.to_nat FunctionCode with
      | None => OutOfTable
      | Some size =>
          if InputBufferLength <? size then Complete STATUS_INSUFFICIENT_RESOURCES
          else let dispatch := match switch IoControlCode with
                               | Some x => RunTest f x
                               | None => Complete STATUS_NOT_IMPLEMENTED
                               end in
          if negb (size =? 0) then
            let '(Status, Params) := WdfRequestRetrieveInputBuffer size in
            if negb (NT_SUCCESS Status) then Complete Status
            else if negb Params then Complete STATUS_INVALID_PARAMETER
            else dispatch
          else dispatch
      end
  end.

(** The macro [CxPlatTestCtlRun] is the positions [IO_reset], [IO_test] (the
    test runs) and [IO_status]. *)
Definition CxPlatTestCtlEvtIoDeviceControl (k : kthread) (d : device) : stepped :=
  match at_ k with
  | IO_check fo Irql InputBufferLength IoControlCode =>
      match ioctl_decide fo Irql InputBufferLength IoControlCode d with
      | Complete Status => go d (IO_complete Status) k
      | RunTest f x => go d (IO_reset f x) k
      | OutOfTable => go d (Crashed BadAccess) k
      end
  | IO_reset f x => go (set_failure f false d) (IO_test f x) k
  | IO_test f x => go d (IO_status f) k
  | IO_status f =>
      go d (IO_complete (if failed f d then STATUS_FAIL_FAST_EXCEPTION else STATUS_SUCCESS)) k
  | IO_complete Status => Some (d, mkKthread Idle (guarded k), Some Status)
  | _ => None
  end.

Definition CxPlatTestCtlEvtIoCanceled (k : kthread) (d : device) : stepped :=
  match at_ k with
  | IC_check fo =>
      go d (IO_complete
              match fo with
              | None => STATUS_DEVICE_NOT_READY
              | Some f => if has_context f d then STATUS_CANCELLED else STATUS_DEVICE_NOT_READY
              end) k
  | _ => None
  end.

(** A running test reports a failure: the flag of the client in the global
    variable is set, whichever client the test runs for. *)
Definition LogTestFailure (k : kthread) (d : device) : stepped :=
  match CxPlatTestClient d with
  | Some c => go (set_failure c true d) (at_ k) k
  | None => go d (Crashed NullDeref) k
  end.

(** ** Runs *)

Definition thread_step (me : nat) (k : kthread) (d : device) : stepped :=
  match at_ k with
  | Idle | Crashed _ => None
  | FC_enter _ | FC_acquire _ | FC_check _ | FC_zero _ | FC_insert _ | FC_count _
  | FC_publish _ | FC_release _ _ | FC_leave _ _ | FC_complete _ _ =>
      CxPlatTestCtlEvtFileCreate me k d
  | FL_enter _ | FL_context _ | FL_acquire _ | FL_remove _ | FL_count _ | FL_release _
  | FL_clear _ | FL_leave _ => CxPlatTestCtlEvtFileCleanup me k d
  | IC_check _ => CxPlatTestCtlEvtIoCanceled k d
  | _ => CxPlatTestCtlEvtIoDeviceControl k d
  end.

Record world := mkWorld {
  dev : device;
  threads : list kthread;
  completed : list (nat * Z)       (** requests completed: the thread and the status *)
}.

Inductive label :=
  | Create (t f : nat)
  | Cleanup (t f : nat)
  | Control (t : nat) (fo : option nat) (Irql InputBufferLength IoControlCode : Z)
  | Cancel (t : nat) (fo : option nat)
  | Run (t : nat)                 (** a thread executes its next statement *)
  | Failing (t : nat).            (** the test a thread runs reports a failure *)

Definition in_state (f : nat) (x : file_state) (d : device) : bool :=
  match files d !! f, x with
  | Some (mkFile Unopened _ _), Unopened | Some (mkFile Opened _ _), Opened => true
  | _, _ => false
  end.

(** An idle thread enters a callback at [p], with the device [d]. *)
Definition enter (t : nat) (p : pc) (d : device) (w : world) : option world :=
  match threads w !! t with
  | Some (mkKthread Idle n) => Some (mkWorld d (<[t := mkKthread p n]> (threads w)) (completed w))
  | _ => None
  end.

Definition apply_step (t : nat) (r : stepped) (w : world) : option world :=
  '(d, k, st) ← r;
  Some (mkWorld d (<[t := k]> (threads w))
          (completed w ++ match st with Some Status => [(t, Status)] | None => [] end)).

Definition step (w : world) (l : label) : option world :=
  match l with
  | Create t f =>
      if in_state f Unopened (dev w)
      then enter t (FC_enter f) (set_fstate f Creating (dev w)) w else None
  | Cleanup t f =>
      if in_state f Opened (dev w)
      then enter t (FL_enter f) (set_fstate f Cleaning (dev w)) w else None
  | Control t fo Irql len code =>
      if match fo with Some f => in_state f Opened (dev w) | None => true end
      then enter t (IO_check fo Irql len code) (dev w) w else None
  | Cancel t fo =>
      if match fo with Some f => in_state f Opened (dev w) | None => true end
      then enter t (IC_check fo) (dev w) w else None
  | Run t => k ← threads w !! t; apply_step t (thread_step t k (dev w)) w
  | Failing t =>
      k ← threads w !! t;
      match at_ k with
      | IO_test _ _ => apply_step t (LogTestFailure k (dev w)) w
      | _ => None
      end
  end.

Fixpoint run (w : world) (ls : list label) : option world :=
  match ls with
  | [] => Some w
  | l :: ls => w' ← step w l; run w' ls
  end.

(** The device context as [CxPlatTestCtlInitialize] sets it. *)
Definition new_extension : CXPLAT_DEVICE_EXTENSION := mkExt None [] 0.

(** [n] idle threads, and file objects with or without a context. *)
Definition initial (n : nat) (contexts : list bool) : world :=
  mkWorld (mkDevice new_extension None (map (fun c => mkFile Unopened c false) contexts))
    (replicate n (mkKthread Idle 0)) [].

(** ** Creating and deleting the device *)

(** A framework device: its context ([None]: not initialized yet), its symbolic
    link, its default queue, and whether requests are let through to it. *)
Record control_device := mkControl {
  c_ext : option CXPLAT_DEVICE_EXTENSION;
  c_link : bool;
  c_queue : bool;
  c_ready : bool
}.

(** The device initialization structures the driver owns, the devices, and the
    globals; the extension is the context of the device it names. *)
Record driver := mkDriver {
  device_inits : nat;
  devices : gmap nat control_device;
  CxPlatTestCtlDevice : option nat;
  CxPlatTestCtlExtension : option nat
}.

#[local] Abbreviation M := (M driver).

Definition set_inits (n : nat) (s : driver) : driver :=
  mkDriver n (devices s) (CxPlatTestCtlDevice s) (CxPlatTestCtlExtension s).
Definition set_device (c : control_device) (d : nat) (s : driver) : driver :=
  mkDriver (device_inits s) (<[d := c]> (devices s)) (CxPlatTestCtlDevice s)
    (CxPlatTestCtlExtension s).
Definition set_globals (d e : option nat) (s : driver) : driver :=
  mkDriver (device_inits s) (devices s) d e.
Definition update (f : driver -> driver) : M unit := fun s => Ret tt (f s).

(** [WdfDeviceInitFree], and [WdfDeviceCreate] when it succeeds: it takes the
    initialization structure over and clears the caller's pointer to it. *)
Definition WdfDeviceInitFree : M unit := fun s =>
  match device_inits s with O => Fault DoubleFree | S n => Ret tt (set_inits n s) end.

Definition WdfDeviceCreate : M nat := fun s =>
  let d := fresh (dom (devices s)) in
  Ret d (set_inits (pred (device_inits s)) (set_device (mkControl None false false false) d s)).

Definition WdfObjectDelete (d : nat) : M unit := fun s =>
  match devices s !! d with
  | Some _ => Ret tt (mkDriver (device_inits s) (delete d (devices s)) (CxPlatTestCtlDevice s)
                        (CxPlatTestCtlExtension s))
  | None => Fault DoubleFree
  end.

(** From the name of the device on: the status, and whether the driver still
    owns [DeviceInit]. *)
Definition ctl_setup : M (Z * bool) :=
  if negb (NT_SUCCESS WdfDeviceInitAssignName_st) then mret (WdfDeviceInitAssignName_st, true)
  else if negb (NT_SUCCESS WdfDeviceCreate_st) then mret (WdfDeviceCreate_st, true)
  else
    Device ← WdfDeviceCreate;
    _ ← update (set_device (mkControl (Some new_extension) false false false) Device);
    if negb (NT_SUCCESS WdfDeviceCreateSymbolicLink_st)
    then mret (WdfDeviceCreateSymbolicLink_st, false)
    else
      _ ← update (set_device (mkControl (Some new_extension) true false false) Device);
      if negb (NT_SUCCESS WdfIoQueueCreate_st) then mret (WdfIoQueueCreate_st, false)
      else
        _ ← update (set_device (mkControl (Some new_extension) true true false) Device);
        _ ← update (set_globals (Some Device) (Some Device));
        _ ← update (set_device (mkControl (Some new_extension) true true true) Device);
        mret (WdfIoQueueCreate_st, false).

Definition CxPlatTestCtlInitialize : M Z :=
  if negb WdfControlDeviceInitAllocate_ok then mret STATUS_INSUFFICIENT_RESOURCES
  else
    _ ← update (fun s => set_inits (S (device_inits s)) s);
    r ← ctl_setup;
    _ ← (if r.2 : bool then WdfDeviceInitFree else mret tt);
    mret r.1.

(** [DBG]: a checked build, in which [NT_ASSERT] checks. *)
Definition CxPlatTestCtlUninitialize (DBG : bool) : M unit :=
  s ← get;
  match CxPlatTestCtlDevice s with
  | None => mret tt
  | Some d =>
      _ ← (if DBG then fre_assert (bool_decide (is_Some (CxPlatTestCtlExtension s))) else mret tt);
      _ ← update (set_globals (CxPlatTestCtlDevice s) None);
      _ ← WdfObjectDelete d;
      update (set_globals None None)
  end.
End ControlDevice.
