(* ===== verification/ControlTheorems.v ===== *)
(** * Theorems about the control device

    An invariant of all reachable states (the push lock excludes, the client
    count is the length of the client list, a file that is open is the only
    client), the dispatch of control codes, the verdict reported for a test, and
    the schedules in which a failing test finds no client. *)

From S2P Require Import Prelude Thread ControlDevice.

(** ** Control codes *)

Lemma function_code_ioctl x : 1 <= IoGetFunctionCodeFromCtlCode (IOCTL_CXPLAT_RUN x) <= 12.
Proof. destruct x; cbv; split; discriminate. Qed.

Lemma switch_ioctl x : switch (IOCTL_CXPLAT_RUN x) = Some x.
Proof. by destruct x. Qed.

Lemma switch_sound c x : switch c = Some x -> c = IOCTL_CXPLAT_RUN x.
Proof. intros H. apply List.find_some in H as [_ H]. by apply Z.eqb_eq. Qed.

(** The table of buffer sizes has an entry, zero, for each function code that
    passes the check. *)
Lemma sizes_lookup n : 1 <= n <= 12 -> CXPLAT_IOCTL_BUFFER_SIZES !! Z.to_nat n = Some 0.
Proof.
  intros Hn. apply (lookup_replicate_2 13 (0 : Z)). lia.
Qed.

Lemma function_code_nonneg c : 0 <= IoGetFunctionCodeFromCtlCode c.
Proof. apply Z.land_nonneg. right. lia. Qed.

(** The function code check passes for exactly the codes 1 to 12. *)
Lemma function_code_check c :
  (IoGetFunctionCodeFromCtlCode c =? 0) ||
    (CXPLAT_MAX_IOCTL_FUNC_CODE <? IoGetFunctionCodeFromCtlCode c) = false ->
  1 <= IoGetFunctionCodeFromCtlCode c <= 12.
Proof. pose proof (function_code_nonneg c). unfold CXPLAT_MAX_IOCTL_FUNC_CODE. lia. Qed.

(** Everything a device control request can be decided to. *)
Lemma ioctl_decide_cases `{!Wdf} fo Irql len c d :
  0 <= len ->
  ioctl_decide fo Irql len c d =
    if 0 <? Irql then Complete STATUS_NOT_SUPPORTED
    else match fo with
         | None => Complete STATUS_DEVICE_NOT_READY
         | Some f => if negb (has_context f d) then Complete STATUS_DEVICE_NOT_READY
                     else match switch c with
                          | Some x => RunTest f x
                          | None => Complete STATUS_NOT_IMPLEMENTED
                          end
         end.
Proof.
  intros Hl. unfold ioctl_decide. destruct (0 <? Irql); [done|].
  destruct fo as [f|]; [|done]. destruct (has_context f d); [|done]. cbn [negb].
  destruct ((IoGetFunctionCodeFromCtlCode c =? 0) || _) eqn:Hf.
  - destruct (switch c) as [x|] eqn:Hx; [|done]. apply switch_sound in Hx as ->.
    pose proof (function_code_ioctl x). unfold CXPLAT_MAX_IOCTL_FUNC_CODE in Hf. lia.
  - rewrite sizes_lookup by (by apply function_code_check).
    by rewrite (proj2 (Z.ltb_ge len 0)) by lia.
Qed.

Lemma ioctl_in_table `{!Wdf} fo Irql len c d : ioctl_decide fo Irql len c d <> OutOfTable.
Proof.
  unfold ioctl_decide. destruct (0 <? Irql); [done|]. destruct fo as [f|]; [|done].
  destruct (has_context f d); [|done]. cbn [negb].
  destruct ((IoGetFunctionCodeFromCtlCode c =? 0) || _) eqn:Hf; [done|].
  rewrite sizes_lookup by (by apply function_code_check). repeat case_match; done.
Qed.

(** ** The invariant *)

(** Between acquisition and release of the push lock. *)
Definition holding (p : pc) : bool :=
  match p with
  | FC_check _ | FC_zero _ | FC_insert _ | FC_count _ | FC_publish _ | FC_release _ _
  | FL_remove _ | FL_count _ | FL_release _ => true
  | _ => false
  end.

(** Between entering and leaving the guarded region. *)
Definition in_region (p : pc) : bool :=
  match p with
  | FC_acquire _ | FC_leave _ _ | FL_context _ | FL_acquire _ | FL_clear _ | FL_leave _ => true
  | _ => holding p
  end.

(** The file a create or a cleanup works on, with the state it is in. *)
Definition working (p : pc) : option (nat * file_state) :=
  match p with
  | FC_enter f | FC_acquire f | FC_check f | FC_zero f | FC_insert f | FC_count f
  | FC_publish f | FC_release f _ | FC_leave f _ | FC_complete f _ => Some (f, Creating)
  | FL_enter f | FL_context f | FL_acquire f | FL_remove f | FL_count f | FL_release f
  | FL_clear f | FL_leave f => Some (f, Cleaning)
  | _ => None
  end.

(** The file that is in the client list while a thread is at [p]. *)
Definition linked (p : pc) : option nat :=
  match p with
  | FC_count f | FC_publish f | FL_enter f | FL_context f | FL_acquire f | FL_remove f => Some f
  | FC_release f Status | FC_leave f Status | FC_complete f Status =>
      if NT_SUCCESS Status then Some f else None
  | _ => None
  end.

(** The file whose context a create or cleanup has found. *)
Definition admitted (p : pc) : option nat :=
  match p with FC_zero f | FC_insert f => Some f | _ => linked p end.

(** The list and its size, while the thread that holds the lock is at [p]. *)
Definition list_ok (p : pc) (e : CXPLAT_DEVICE_EXTENSION) : Prop :=
  match p with
  | FC_zero _ | FC_insert _ | FL_release _ => ClientList e = [] /\ ClientListSize e = 0
  | FC_count f => ClientList e = [f] /\ ClientListSize e = 0
  | FL_count f => ClientList e = [] /\ ClientListSize e = 1
  | _ => ClientListSize e = Z.of_nat (length (ClientList e)) /\ (length (ClientList e) <= 1)%nat
  end.

Record Inv (w : world) : Prop := {
  i_mutex t k : threads w !! t = Some k -> holding (at_ k) = true <-> Lock (ext (dev w)) = Some t;
  i_owner t : Lock (ext (dev w)) = Some t -> (t < length (threads w))%nat;
  i_free : Lock (ext (dev w)) = None -> list_ok Idle (ext (dev w));
  i_list t k : threads w !! t = Some k -> holding (at_ k) = true -> list_ok (at_ k) (ext (dev w));
  i_region t k : threads w !! t = Some k -> (forall why, at_ k <> Crashed why) ->
    guarded k = if in_region (at_ k) then 1 else 0;
  i_file t k f x : threads w !! t = Some k -> working (at_ k) = Some (f, x) ->
    exists g, files (dev w) !! f = Some g /\ fstate g = x;
  i_unique t u k j f x y : threads w !! t = Some k -> threads w !! u = Some j ->
    working (at_ k) = Some (f, x) -> working (at_ j) = Some (f, y) -> t = u;
  i_opened f g : files (dev w) !! f = Some g -> fstate g = Opened ->
    ClientList (ext (dev w)) = [f] /\ context g = true;
  i_linked t k f : threads w !! t = Some k -> linked (at_ k) = Some f ->
    ClientList (ext (dev w)) = [f];
  i_context t k f : threads w !! t = Some k -> admitted (at_ k) = Some f ->
    has_context f (dev w) = true;
  i_safe t k : threads w !! t = Some k -> at_ k <> Crashed BadAccess
}.

(** Everything the invariant needs to know of one statement. *)
Record step_facts (me : nat) k d k' d' : Prop := {
  sf_me : holding (at_ k') = true <-> Lock (ext d') = Some me;
  sf_others t : t <> me -> Lock (ext d') = Some t <-> Lock (ext d) = Some t;
  sf_free : Lock (ext d') = None -> list_ok Idle (ext d');
  sf_list : holding (at_ k') = true -> list_ok (at_ k') (ext d');
  sf_same : ClientList (ext d') = ClientList (ext d) /\ ClientListSize (ext d') = ClientListSize (ext d)
            \/ holding (at_ k) = true;
  sf_region : (forall why, at_ k' <> Crashed why) -> guarded k' = if in_region (at_ k') then 1 else 0;
  sf_work f x : working (at_ k') = Some (f, x) -> working (at_ k) = Some (f, x);
  sf_len : length (files d') = length (files d);
  sf_files f g' : files d' !! f = Some g' -> exists g, files d !! f = Some g /\
    context g' = context g /\
    (fstate g' = fstate g \/ (exists x, working (at_ k) = Some (f, x)) /\ working (at_ k') = None /\
       (fstate g' = Opened -> linked (at_ k) = Some f /\ ClientList (ext d') = ClientList (ext d)));
  sf_linked f : linked (at_ k') = Some f -> ClientList (ext d') = [f];
  sf_list_change : ClientList (ext d') = ClientList (ext d) \/ ClientList (ext d) = [] \/
    exists f, ClientList (ext d) = [f] /\ working (at_ k) = Some (f, Cleaning);
  sf_context f : admitted (at_ k') = Some f -> has_context f d = true;
  sf_safe : at_ k' <> Crashed BadAccess
}.

Lemma alter_files (h : file -> file) f (l : list file) f' g' :
  alter h f l !! f' = Some g' -> exists g, l !! f' = Some g /\ (g' = g /\ f' <> f \/ f' = f /\ g' = h g).
Proof.
  intros H. destruct (decide (f' = f)) as [->|Hne].
  - rewrite list_lookup_alter_eq in H. destruct (l !! f) as [g|]; [|done]. injection H as <-. eauto.
  - rewrite list_lookup_alter_ne in H by done. eauto.
Qed.

Lemma remove_only f e :
  ClientList e = [f] -> RemoveEntryList f e = Some (mkExt (Lock e) [] (ClientListSize e)).
Proof.
  intros He. unfold RemoveEntryList. rewrite He, bool_decide_true by set_solver.
  rewrite filter_cons_False, filter_nil; [done|]. intros Hn. by apply Hn.
Qed.

(** The results a statement can have. *)
Ltac split_step Hs :=
  repeat match type of Hs with
         | context [if 1 <=? ?n then _ else _] => destruct (Z.leb_spec 1 n); cbn in Hs
         | context [has_context ?f ?d] => destruct (has_context f d) eqn:?; cbn in Hs
         | context [ioctl_decide ?a ?b ?c ?x ?d] =>
             pose proof (ioctl_in_table a b c x d); destruct (ioctl_decide a b c x d); cbn in Hs
         | context [NT_SUCCESS ?x] => destruct (NT_SUCCESS x) eqn:?; cbn in Hs
         end; injection Hs as <- <- <-.

Ltac step_fact :=
  intros; cbn in *;
  repeat match goal with
         | H : Some _ = Some _ |- _ => injection H as H; subst
         | H : _ /\ _ |- _ => destruct H
         | H : NT_SUCCESS _ = _ |- _ => rewrite H in *; clear H
         | H : ClientList ?e = _, G : context [ClientList ?e] |- _ => rewrite H in G
         | H : ClientListSize ?e = _ |- context [ClientListSize ?e] => rewrite H
         | H : ClientList ?e = _ |- context [ClientList ?e] => rewrite H
         end; cbn in *;
  first [assumption | reflexivity | discriminate | congruence | lia | tauto | intuition congruence
        | eauto | idtac].

Ltac files_fact :=
  intros ? ? Hx; cbn in Hx |- *;
  first [ eexists; split; [exact Hx|]; split; [reflexivity|]; left; reflexivity
        | apply alter_files in Hx as (? & Hy & [[-> ?]|[-> ->]]); eexists; (split; [exact Hy|]); cbn;
          (split; [reflexivity|]);
          first [ left; reflexivity
                | right; split; [eexists; reflexivity|]; split; [reflexivity|];
                  first [discriminate | case_match; first [done | split; reflexivity | discriminate]] ] ].
Section Invariant.
Context `{W : !Wdf}.
Lemma ctl_step_facts me k d d' k' st :
  thread_step me k d = Some (d', k', st) ->
  (holding (at_ k) = true <-> Lock (ext d) = Some me) ->
  (Lock (ext d) = None -> list_ok Idle (ext d)) ->
  (holding (at_ k) = true -> list_ok (at_ k) (ext d)) ->
  guarded k = (if in_region (at_ k) then 1 else 0) ->
  (forall f, linked (at_ k) = Some f -> ClientList (ext d) = [f]) ->
  (forall f, admitted (at_ k) = Some f -> has_context f d = true) ->
  step_facts me k d k' d'.
Proof.
  intros Hs Hm Hf Hl Hg Hk Hc. destruct k as [p n].
  destruct p; cbn in Hs, Hm, Hl, Hg, Hk, Hc |- *; try discriminate Hs;
    try (specialize (Hl eq_refl)); try (rewrite (remove_only _ _ (Hk _ eq_refl)) in Hs);
    try (unfold ExAcquirePushLockExclusive in Hs; destruct (Lock (ext d)) eqn:Hlk; cbn in Hs;
         [discriminate Hs|specialize (Hf eq_refl)]);
    unfold go in Hs; split_step Hs;
    try (pose proof (Hk _ eq_refl)); try (pose proof (Hc _ eq_refl)).
  all: split; [step_fact|step_fact|step_fact|step_fact
     |try solve [left; split; reflexivity | right; reflexivity]|step_fact|step_fact
     |cbn; rewrite ?length_alter; reflexivity|files_fact|step_fact|first [left; reflexivity|idtac]|step_fact|step_fact].
  - destruct (ClientList (ext d)); cbn in *; [done|lia].
  - right; left. apply Hl.
  - right; right. exists f. split; [by apply Hk|done].
Qed.

Lemma set_fstate_context f x g d : has_context f (set_fstate g x d) = has_context f d.
Proof.
  unfold has_context, set_fstate. cbn. destruct (decide (f = g)) as [->|Hne].
  - rewrite list_lookup_alter_eq. by destruct (files d !! g).
  - by rewrite list_lookup_alter_ne.
Qed.

Lemma set_failure_context f b g d : has_context f (set_failure g b d) = has_context f d.
Proof.
  unfold has_context, set_failure. cbn. destruct (decide (f = g)) as [->|Hne].
  - rewrite list_lookup_alter_eq. by destruct (files d !! g).
  - by rewrite list_lookup_alter_ne.
Qed.

Lemma facts_lookup me k d d' k' f g :
  step_facts me k d k' d' -> files d !! f = Some g ->
  exists g', files d' !! f = Some g' /\ context g' = context g /\
    (fstate g' = fstate g \/ (exists x, working (at_ k) = Some (f, x)) /\ working (at_ k') = None).
Proof.
  intros F Hg. destruct (lookup_lt_is_Some_2 (files d') f) as [g' Hg'].
  { rewrite (sf_len _ _ _ _ _ F). by eapply lookup_lt_Some. }
  destruct (sf_files _ _ _ _ _ F _ _ Hg') as (g0 & Hg0 & Hc & Ho).
  exists g'. rewrite Hg in Hg0. injection Hg0 as <-. intuition.
Qed.

Lemma step_context me k d d' k' f :
  step_facts me k d k' d' -> has_context f d = true -> has_context f d' = true.
Proof.
  intros F. unfold has_context. destruct (files d !! f) as [g|] eqn:Hg; [|done].
  destruct (facts_lookup _ _ _ _ _ _ _ F Hg) as (g' & -> & -> & _). done.
Qed.

(** The client list is left alone while another thread relies on an entry. *)
Lemma facts_keep_list w t k k' d' f :
  Inv w -> threads w !! t = Some k -> step_facts t k (dev w) k' d' ->
  ClientList (ext (dev w)) = [f] ->
  (forall x, working (at_ k) <> Some (f, x)) -> ClientList (ext d') = [f].
Proof.
  intros I Hk F Hf Hw. destruct (sf_list_change _ _ _ _ _ F) as [He|[He|(f' & He & Hw')]]; [congruence..|].
  rewrite Hf in He. injection He as <-. by destruct (Hw Cleaning).
Qed.

Lemma linked_working p f : linked p = Some f -> exists x, working p = Some (f, x).
Proof. destruct p; cbn; try done; try case_match; intros [= ->]; eauto. Qed.

(** An open file stays the only client. *)
Lemma facts_opened w t k k' d' f g' :
  Inv w -> threads w !! t = Some k -> step_facts t k (dev w) k' d' ->
  files d' !! f = Some g' -> fstate g' = Opened -> ClientList (ext d') = [f] /\ context g' = true.
Proof.
  intros I Hk F Hg' Ho. destruct (sf_files _ _ _ _ _ F _ _ Hg') as (g & Hg & Hc & [Hs|(_ & Hn & Hl)]).
  - rewrite Hs in Ho. destruct (i_opened _ I _ _ Hg Ho) as [Hcl Hcx]. split; [|congruence].
    apply (facts_keep_list w t k k'); [done..|]. intros x Hw.
    destruct (i_file _ I _ _ _ _ Hk Hw) as (g1 & Hg1 & Hx). destruct x; destruct (at_ k); cbn in Hw; congruence.
  - destruct (Hl Ho) as [Hlk ->]. split; [by eapply (i_linked _ I)|].
    assert (has_context f (dev w) = true) as Hcx.
    { apply (i_context _ I _ _ _ Hk). destruct (at_ k); cbn in *; done. }
    unfold has_context in Hcx. rewrite Hg in Hcx. congruence.
Qed.

(** One thread moves from [k] to [k'] and leaves the device [d']. *)
Lemma facts_inv w t k k' d' c :
  Inv w -> threads w !! t = Some k -> step_facts t k (dev w) k' d' ->
  Inv (mkWorld d' (<[t := k']> (threads w)) c).
Proof.
  intros I Hk F. pose proof (lookup_lt_Some _ _ _ Hk) as Hlt.
  assert (forall u j, u <> t -> threads w !! u = Some j -> holding (at_ j) = true ->
    holding (at_ k) = false) as Hexcl.
  { intros u j Hu Hj Hh. destruct (holding (at_ k)) eqn:Hhk; [|done].
    apply (i_mutex _ I _ _ Hj) in Hh. apply (i_mutex _ I _ _ Hk) in Hhk. congruence. }
  split; cbn [dev threads].
  - intros u j [(-> & -> & _)|(Hne & Hj)]%list_lookup_insert_Some; [apply F|].
    rewrite (sf_others _ _ _ _ _ F) by done. by apply I.
  - intros u Hu. rewrite length_insert. destruct (decide (u = t)) as [->|Hne]; [done|].
    apply I. by apply (sf_others _ _ _ _ _ F).
  - apply F.
  - intros u j [(-> & -> & _)|(Hne & Hj)]%list_lookup_insert_Some Hh; [by apply F|].
    pose proof (i_list _ I _ _ Hj Hh) as Hok.
    destruct (sf_same _ _ _ _ _ F) as [[H1 H2]|Hhk].
    + unfold list_ok in *. destruct (at_ j); by rewrite H1, H2.
    + rewrite (Hexcl u j) in Hhk by congruence. done.
  - intros u j [(-> & -> & _)|(Hne & Hj)]%list_lookup_insert_Some; [apply F|by eapply (i_region _ I)].
  - intros u j f x [(-> & -> & _)|(Hne & Hj)]%list_lookup_insert_Some Hw.
    + apply (sf_work _ _ _ _ _ F) in Hw as Hw0. destruct (i_file _ I _ _ _ _ Hk Hw0) as (g & Hg & Hx).
      destruct (facts_lookup _ _ _ _ _ _ _ F Hg) as (g' & Hg' & _ & [Hs|[_ Hn]]); [|congruence].
      exists g'. by rewrite Hs.
    + destruct (i_file _ I _ _ _ _ Hj Hw) as (g & Hg & Hx).
      destruct (facts_lookup _ _ _ _ _ _ _ F Hg) as (g' & Hg' & _ & [Hs|[[y Hy] _]]).
      * exists g'. by rewrite Hs.
      * destruct Hne. by eapply (i_unique _ I t u).
  - intros u v j l f x y [(-> & -> & _)|(Hne & Hj)]%list_lookup_insert_Some
      [(-> & -> & _)|(Hne' & Hl)]%list_lookup_insert_Some Hw Hw'; [done|..];
      try (apply (sf_work _ _ _ _ _ F) in Hw); try (apply (sf_work _ _ _ _ _ F) in Hw');
      by eapply (i_unique _ I).
  - intros f g'. by apply (facts_opened w t k k').
  - intros u j f [(-> & -> & _)|(Hne & Hj)]%list_lookup_insert_Some Hl; [by apply F|].
    apply (facts_keep_list w t k k'); [done..|by eapply (i_linked _ I)|].
    intros x Hw. destruct Hne. destruct (linked_working _ _ Hl) as [y Hy]. by eapply (i_unique _ I t u).
  - intros u j f [(-> & -> & _)|(Hne & Hj)]%list_lookup_insert_Some Ha.
    + eapply step_context; [done|]. by apply F.
    + eapply step_context; [done|]. by eapply (i_context _ I).
  - intros u j [(-> & -> & _)|(Hne & Hj)]%list_lookup_insert_Some; [apply F|by eapply (i_safe _ I)].
Qed.

(** A running test reports a failure. *)
Lemma log_facts me k d d' k' st f x :
  LogTestFailure k d = Some (d', k', st) -> at_ k = IO_test f x ->
  (holding (at_ k) = true <-> Lock (ext d) = Some me) ->
  (Lock (ext d) = None -> list_ok Idle (ext d)) ->
  guarded k = (if in_region (at_ k) then 1 else 0) -> step_facts me k d k' d'.
Proof.
  destruct k as [p n]. unfold LogTestFailure. cbn [at_]. intros Hs -> Hm Hf Hg. cbn in Hm, Hg.
  destruct (CxPlatTestClient d) as [c|]; unfold go in Hs; injection Hs as <- <- <-.
  all: split; [step_fact|step_fact|step_fact|step_fact|left; split; reflexivity|step_fact|step_fact
     |cbn; rewrite ?length_alter; reflexivity|files_fact|step_fact|left; reflexivity|step_fact|step_fact].
Qed.

Lemma set_fstate_lookup f x d f' g' :
  files (set_fstate f x d) !! f' = Some g' -> exists g, files d !! f' = Some g /\
    context g' = context g /\ (f' = f /\ fstate g' = x \/ f' <> f /\ g' = g).
Proof. intros (g & Hg & [[-> Hne]|[-> ->]])%alter_files; exists g; eauto. Qed.

(** An idle thread enters a callback that works on no file. *)
Lemma enter_plain_inv w t n p c :
  Inv w -> threads w !! t = Some (mkKthread Idle n) ->
  working p = None -> linked p = None -> admitted p = None -> holding p = false ->
  in_region p = false -> (forall why, p <> Crashed why) ->
  Inv (mkWorld (dev w) (<[t := mkKthread p n]> (threads w)) c).
Proof.
  intros I Hk Hw Hl Ha Hh Hr Hc. apply (facts_inv w t (mkKthread Idle n)); [done..|].
  pose proof (i_mutex _ I _ _ Hk) as Hm. cbn in Hm. split; cbn; rewrite ?Hw, ?Hl, ?Ha, ?Hh, ?Hr;
    try done; try (left; split; done); try (by left).
  - apply I.
  - intros _. by apply (i_region _ I _ _ Hk).
  - intros f g Hg. exists g. eauto.
Qed.

(** An idle thread starts to create or to clean up a file nobody works on. *)
Lemma enter_file_inv w t n p f x c :
  Inv w -> threads w !! t = Some (mkKthread Idle n) -> working p = Some (f, x) ->
  holding p = false -> in_region p = false -> is_Some (files (dev w) !! f) ->
  (forall u j y, threads w !! u = Some j -> working (at_ j) <> Some (f, y)) ->
  (forall g, linked p = Some g -> ClientList (ext (dev w)) = [g]) ->
  (forall g, admitted p = Some g -> has_context g (dev w) = true) ->
  Inv (mkWorld (set_fstate f x (dev w)) (<[t := mkKthread p n]> (threads w)) c).
Proof.
  intros I Hk Hw Hh Hr [g0 Hg0] Hno Hl Ha. pose proof (i_mutex _ I _ _ Hk) as Hm. cbn in Hm.
  assert (x <> Opened) as Hx by (by destruct p; cbn in Hw; simplify_eq).
  split; cbn [dev threads].
  - intros u j [(-> & <- & _)|(Hne & Hj)]%list_lookup_insert_Some; [cbn; by rewrite Hh|].
    by apply (i_mutex _ I).
  - intros u. rewrite length_insert. apply (i_owner _ I).
  - apply (i_free _ I).
  - intros u j [(-> & <- & _)|(Hne & Hj)]%list_lookup_insert_Some Hhj; [cbn in Hhj; congruence|].
    by apply (i_list _ I _ _ Hj).
  - intros u j [(-> & <- & _)|(Hne & Hj)]%list_lookup_insert_Some Hc; [|by apply (i_region _ I _ _ Hj)].
    cbn. rewrite Hr. by apply (i_region _ I _ _ Hk).
  - intros u j f' y [(-> & <- & _)|(Hne & Hj)]%list_lookup_insert_Some Hwj; unfold set_fstate; cbn.
    + cbn in Hwj. rewrite Hw in Hwj. injection Hwj as <- <-. rewrite list_lookup_alter_eq, Hg0. by eexists.
    + assert (f' <> f) by (intros ->; by eapply Hno). rewrite list_lookup_alter_ne by done.
      by apply (i_file _ I _ _ _ _ Hj).
  - intros u v j l f' y z [(-> & <- & _)|(Hne & Hj)]%list_lookup_insert_Some
      [(-> & <- & _)|(Hne' & Hlk)]%list_lookup_insert_Some Hy Hz; cbn in *; try congruence.
    + rewrite Hw in Hy. injection Hy as <- <-. by destruct (Hno _ _ _ Hlk Hz).
    + rewrite Hw in Hz. injection Hz as <- <-. by destruct (Hno _ _ _ Hj Hy).
    + by eapply (i_unique _ I).
  - intros f' g' (g & Hg & Hc & [[-> Hs]|[Hne ->]])%set_fstate_lookup Ho; [congruence|].
    by apply (i_opened _ I).
  - intros u j f' [(-> & <- & _)|(Hne & Hj)]%list_lookup_insert_Some Hlj; [by apply Hl|].
    by apply (i_linked _ I _ _ _ Hj).
  - intros u j f'. rewrite set_fstate_context.
    intros [(-> & <- & _)|(Hne & Hj)]%list_lookup_insert_Some Haj; [by apply Ha|].
    by apply (i_context _ I _ _ _ Hj).
  - intros u j [(-> & <- & _)|(Hne & Hj)]%list_lookup_insert_Some; [|by apply (i_safe _ I _ _ Hj)].
    cbn. intros ->. done.
Qed.

Lemma in_state_inv f x d :
  in_state f x d = true -> exists g, files d !! f = Some g /\ fstate g = x.
Proof. unfold in_state. destruct (files d !! f) as [[[] c b]|]; destruct x; try done; eauto. Qed.

Lemma nobody_works w f x :
  Inv w -> in_state f x (dev w) = true -> x = Unopened \/ x = Opened ->
  forall u j y, threads w !! u = Some j -> working (at_ j) <> Some (f, y).
Proof.
  intros I (g & Hg & Hx)%in_state_inv Ho u j y Hj Hw.
  destruct (i_file _ I _ _ _ _ Hj Hw) as (g' & Hg' & Hy). rewrite Hg in Hg'. injection Hg' as <-.
  destruct Ho; destruct (at_ j); cbn in Hw; congruence.
Qed.

Lemma ctl_step_inv w l w' : Inv w -> step w l = Some w' -> Inv w'.
Proof.
  intros I. destruct l as [t f|t f|t fo q len code|t fo|t|t]; cbn [step].
  - destruct (in_state f Unopened (dev w)) eqn:Hs; [|done]. unfold enter.
    destruct (threads w !! t) as [[[] n]|] eqn:Hk; try done. intros [= <-].
    apply enter_file_inv; try done.
    + by apply in_state_inv in Hs as (g & -> & _).
    + by apply (nobody_works w f Unopened); [..|left].
  - destruct (in_state f Opened (dev w)) eqn:Hs; [|done]. unfold enter.
    destruct (threads w !! t) as [[[] n]|] eqn:Hk; try done. intros [= <-].
    pose proof Hs as (g & Hg & Ho)%in_state_inv. destruct (i_opened _ I _ _ Hg Ho) as [Hl Hc].
    apply enter_file_inv; try done.
    + by apply (nobody_works w f Opened); [..|right].
    + intros g' [= <-]. done.
    + intros g' [= <-]. unfold has_context. by rewrite Hg.
  - case_match; [|done]. unfold enter. destruct (threads w !! t) as [[[] n]|] eqn:Hk; try done.
    intros [= <-]. by apply enter_plain_inv.
  - case_match; [|done]. unfold enter. destruct (threads w !! t) as [[[] n]|] eqn:Hk; try done.
    intros [= <-]. by apply enter_plain_inv.
  - destruct (threads w !! t) as [k|] eqn:Hk; [|done]. cbn.
    destruct (thread_step t k (dev w)) as [[[d' k'] st]|] eqn:Hs; [|done]. cbn. intros [= <-].
    apply (facts_inv w t k); [done..|]. apply (ctl_step_facts _ _ _ _ _ st Hs); try (by apply I).
    + by apply (i_list _ I _ _ Hk).
    + apply (i_region _ I _ _ Hk). intros why Hc. unfold thread_step in Hs. by rewrite Hc in Hs.
    + intros f. by apply (i_linked _ I _ _ _ Hk).
    + intros f. by apply (i_context _ I _ _ _ Hk).
  - destruct (threads w !! t) as [k|] eqn:Hk; [|done]. cbn. destruct (at_ k) eqn:Ha; try done.
    destruct (LogTestFailure k (dev w)) as [[[d' k'] st]|] eqn:Hs; [|done]. cbn. intros [= <-].
    apply (facts_inv w t k); [done..|]. apply (log_facts _ _ _ _ _ st f x Hs); try done.
    + by apply (i_mutex _ I _ _ Hk).
    + by apply (i_free _ I).
    + apply (i_region _ I _ _ Hk). by rewrite Ha.
Qed.

Lemma ctl_initial_inv n contexts : Inv (initial n contexts).
Proof.
  assert (forall t k, replicate n (mkKthread Idle 0) !! t = Some k -> k = mkKthread Idle 0) as Hr.
  { intros t k [-> _]%lookup_replicate. done. }
  split; cbn [initial dev threads ext files].
  - by intros t k ->%Hr.
  - done.
  - by split; [|cbn; lia].
  - by intros t k ->%Hr.
  - by intros t k ->%Hr.
  - by intros t k f x ->%Hr.
  - by intros t u k j f x y ->%Hr.
  - intros f g Hg. rewrite list_lookup_fmap in Hg. destruct (contexts !! f); [|done].
    by injection Hg as <-.
  - by intros t k f ->%Hr.
  - by intros t k f ->%Hr.
  - by intros t k ->%Hr.
Qed.

Lemma ctl_reachable_inv n contexts ls w : run (initial n contexts) ls = Some w -> Inv w.
Proof.
  generalize (ctl_initial_inv n contexts). generalize (initial n contexts).
  induction ls as [|l ls IH]; intros w0 I; cbn.
  - by intros [= <-].
  - destruct (step w0 l) as [w1|] eqn:Hs; [|done]. cbn. apply IH. by eapply ctl_step_inv.
Qed.

(** C28: one client at a time.  In every interleaving of any number of requests:
    whenever the push lock is free, the client count is the length of the
    client list, which is at most one; a file that is open is the only entry of
    that list and has a context, so two open files are the same; at most one
    thread is between acquiring and releasing the lock; a cleanup never removes
    an entry that is not in the list and no request is looked up outside the
    table of buffer sizes; and a thread outside the callbacks is outside the
    guarded region. *)
Theorem ctl_single_client n contexts ls w :
  run (initial n contexts) ls = Some w ->
  (Lock (ext (dev w)) = None ->
     ClientListSize (ext (dev w)) = Z.of_nat (length (ClientList (ext (dev w)))) /\
     (length (ClientList (ext (dev w))) <= 1)%nat) /\
  (forall f g, files (dev w) !! f = Some g -> fstate g = Opened ->
     ClientList (ext (dev w)) = [f] /\ context g = true) /\
  (forall t u k j, threads w !! t = Some k -> threads w !! u = Some j ->
     holding (at_ k) = true -> holding (at_ j) = true -> t = u) /\
  (forall t k, threads w !! t = Some k ->
     at_ k <> Crashed BadAccess /\ (at_ k = Idle -> guarded k = 0)).
Proof.
  intros I%ctl_reachable_inv. split; [apply (i_free _ I)|]. split; [apply (i_opened _ I)|]. split.
  - intros t u k j Hk Hj Hh Hh'. apply (i_mutex _ I _ _ Hk) in Hh. apply (i_mutex _ I _ _ Hj) in Hh'.
    congruence.
  - intros t k Hk. split; [by apply (i_safe _ I _ _ Hk)|]. intros Hi.
    rewrite (i_region _ I _ _ Hk); by rewrite Hi.
Qed.

(** ** The client a failing test is reported to *)

(** In the list, but not in [CxPlatTestClient] yet. *)
Definition awaiting (p : pc) : option nat :=
  match p with FC_count f | FC_publish f => Some f | _ => None end.

(** Past the release of the lock, [CxPlatTestClient] still to be cleared. *)
Definition clearing (p : pc) : bool := match p with FL_clear _ => true | _ => false end.

Definition publishing (p : pc) : bool := match p with FC_publish _ => true | _ => false end.

(** No client is published while a cleanup still has to clear the variable. *)
Definition polite_step (w : world) (l : label) : bool :=
  match l with
  | Run t => match threads w !! t with
             | Some k => negb (publishing (at_ k)) || forallb (fun j => negb (clearing (at_ j))) (threads w)
             | None => true
             end
  | _ => true
  end.

Fixpoint polite (w : world) (ls : list label) : bool :=
  match ls with
  | [] => true
  | l :: ls => polite_step w l && match step w l with Some w' => polite w' ls | None => true end
  end.

Record Tracked (w : world) : Prop := {
  t_client f : ClientList (ext (dev w)) = [f] ->
    (forall t k, threads w !! t = Some k -> awaiting (at_ k) <> Some f) ->
    CxPlatTestClient (dev w) = Some f;
  t_clear t k f : threads w !! t = Some k -> clearing (at_ k) = true ->
    ClientList (ext (dev w)) = [f] ->
    exists u j, threads w !! u = Some j /\ awaiting (at_ j) = Some f
}.

(** What a statement does to the list and the variable. *)
Inductive tracking (k : kthread) (d : device) (k' : kthread) (d' : device) : Prop :=
  | Quiet : ClientList (ext d') = ClientList (ext d) -> CxPlatTestClient d' = CxPlatTestClient d ->
      awaiting (at_ k) = None -> clearing (at_ k') = false -> tracking k d k' d'
  | Inserts f : awaiting (at_ k') = Some f -> ClientList (ext d') = [f] -> tracking k d k' d'
  | Publishes f : publishing (at_ k) = true -> ClientList (ext d') = [f] ->
      CxPlatTestClient d' = Some f -> clearing (at_ k') = false -> tracking k d k' d'
  | Empties : ClientList (ext d') = [] -> tracking k d k' d'
  | Clears : clearing (at_ k) = true -> clearing (at_ k') = false -> awaiting (at_ k) = None ->
      ClientList (ext d') = ClientList (ext d) -> tracking k d k' d'.

Lemma awaiting_not_clearing p f : awaiting p = Some f -> clearing p = false.
Proof. by destruct p. Qed.

(** A thread that waits to be published stays, unless it is the one that moved. *)
Lemma awaiting_stays w t k k' u j f :
  threads w !! t = Some k -> awaiting (at_ k) = None ->
  threads w !! u = Some j -> awaiting (at_ j) = Some f -> <[t := k']> (threads w) !! u = Some j.
Proof.
  intros Hk Ha Hj Hf. rewrite list_lookup_insert_ne; [done|]. intros <-. congruence.
Qed.

Lemma tracking_inv w t k k' d' c :
  Tracked w -> threads w !! t = Some k -> tracking k (dev w) k' d' ->
  (publishing (at_ k) = true -> forall u j, threads w !! u = Some j -> clearing (at_ j) = false) ->
  Tracked (mkWorld d' (<[t := k']> (threads w)) c).
Proof.
  intros [Tc Tk] Hk Htr Hp. pose proof (lookup_lt_Some _ _ _ Hk) as Hlt.
  assert (<[t := k']> (threads w) !! t = Some k') as Ht by (by apply list_lookup_insert_eq).
  split; cbn [dev threads].
  - intros f Hf Hno. destruct Htr as [H1 H2 H3 H4|f' H1 H2|f' H1 H2 H3 H4|H1|H1 H2 H3 H4].
    + rewrite H2. apply Tc; [congruence|]. intros u j Hj Haw.
      by destruct (Hno u j (awaiting_stays w t k k' u j f Hk H3 Hj Haw)).
    + destruct (Hno t k' Ht). congruence.
    + congruence.
    + congruence.
    + destruct (Tk t k f Hk H1) as (u & j & Hj & Haw); [congruence|].
      by destruct (Hno u j (awaiting_stays w t k k' u j f Hk H3 Hj Haw)).
  - intros u j f [(-> & -> & _)|(Hne & Hj)]%list_lookup_insert_Some Hcl Hf;
      destruct Htr as [H1 H2 H3 H4|f' H1 H2|f' H1 H2 H3 H4|H1|H1 H2 H3 H4]; try congruence.
    + apply awaiting_not_clearing in H1. congruence.
    + destruct (Tk u j f Hj Hcl) as (v & l & Hl & Haw); [congruence|].
      exists v, l. split; [by eapply awaiting_stays|done].
    + exists t, k'. split; [done|congruence].
    + rewrite (Hp H1 u j Hj) in Hcl. done.
    + destruct (Tk u j f Hj Hcl) as (v & l & Hl & Haw); [congruence|].
      exists v, l. split; [by eapply awaiting_stays|done].
Qed.

Lemma thread_step_tracking me k d d' k' st :
  thread_step me k d = Some (d', k', st) ->
  (holding (at_ k) = true -> list_ok (at_ k) (ext d)) ->
  (forall f, linked (at_ k) = Some f -> ClientList (ext d) = [f]) ->
  tracking k d k' d'.
Proof.
  intros Hs Hl Hk. destruct k as [p n].
  destruct p; cbn in Hs, Hl, Hk |- *; try discriminate Hs;
    try (specialize (Hl eq_refl)); try (rewrite (remove_only _ _ (Hk _ eq_refl)) in Hs);
    try (unfold ExAcquirePushLockExclusive in Hs; destruct (Lock (ext d)) eqn:Hlk; cbn in Hs;
         [discriminate Hs|]);
    unfold go in Hs; split_step Hs; try (by apply Quiet).
  - apply (Inserts _ _ _ _ f); [done|]. cbn. by destruct Hl as [-> _].
  - apply (Inserts _ _ _ _ f); [done|]. by apply Hk.
  - apply (Publishes _ _ _ _ f); try done. by apply Hk.
  - by apply Empties.
  - apply Empties. apply Hl.
  - by apply Clears.
Qed.

Lemma step_tracked w l w' :
  Inv w -> Tracked w -> polite_step w l = true -> step w l = Some w' -> Tracked w'.
Proof.
  intros I T Hp. destruct l as [t f|t f|t fo q len code|t fo|t|t]; cbn [step].
  1-4: case_match; [|done]; unfold enter; destruct (threads w !! t) as [[[] n]|] eqn:Hk; try done;
    intros [= <-]; by eapply (tracking_inv w t (mkKthread Idle n)); [..|by apply Quiet|].
  - destruct (threads w !! t) as [k|] eqn:Hk; [|done]. cbn.
    destruct (thread_step t k (dev w)) as [[[d' k'] st]|] eqn:Hs; [|done]. cbn. intros [= <-].
    apply (tracking_inv w t k); [done..| |].
    + apply (thread_step_tracking _ _ _ _ _ _ Hs).
      * by apply (i_list _ I _ _ Hk).
      * intros f. by apply (i_linked _ I _ _ _ Hk).
    + intros Hpub u j Hj. cbn in Hp. rewrite Hk, Hpub in Hp. cbn in Hp.
      rewrite forallb_forall in Hp. apply negb_true_iff, Hp, list_elem_of_In.
      by eapply list_elem_of_lookup_2.
  - destruct (threads w !! t) as [k|] eqn:Hk; [|done]. cbn. destruct (at_ k) eqn:Ha; try done.
    unfold LogTestFailure. destruct (CxPlatTestClient (dev w)) as [c|] eqn:Hc; cbn; intros [= <-];
      (apply (tracking_inv w t k); [done..| |by rewrite Ha]); by apply Quiet; cbn; rewrite ?Ha.
Qed.

Lemma reachable_tracked n contexts ls w :
  run (initial n contexts) ls = Some w -> polite (initial n contexts) ls = true -> Tracked w.
Proof.
  assert (Tracked (initial n contexts)) as T.
  { split; cbn; [done|]. intros t k f [-> _]%lookup_replicate. done. }
  revert T. generalize (ctl_initial_inv n contexts). generalize (initial n contexts).
  induction ls as [|l ls IH]; intros w0 I T; cbn.
  - by intros [= <-].
  - destruct (step w0 l) as [w1|] eqn:Hs; [|done]. cbn. intros Hr [Hp Hp']%andb_true_iff.
    apply (IH w1); [by eapply ctl_step_inv|by eapply step_tracked|done|done].
Qed.

(** The client of an open file is the one failures are reported to. *)
Lemma opened_tracked w f g :
  Inv w -> Tracked w -> files (dev w) !! f = Some g -> fstate g = Opened ->
  CxPlatTestClient (dev w) = Some f /\ has_context f (dev w) = true.
Proof.
  intros I T Hg Ho. destruct (i_opened _ I _ _ Hg Ho) as [Hl Hc]. split.
  - apply (t_client _ T _ Hl). intros t k Hk Ha.
    assert (working (at_ k) = Some (f, Creating)) as Hw by (by destruct (at_ k); cbn in *; simplify_eq).
    destruct (i_file _ I _ _ _ _ Hk Hw) as (g' & Hg' & Hx). congruence.
  - unfold has_context. by rewrite Hg.
Qed.

Lemma set_failure_twice f a b d : set_failure f a (set_failure f b d) = set_failure f a d.
Proof.
  unfold set_failure. cbn. f_equal. apply list_eq. intros f'. destruct (decide (f' = f)) as [->|Hne].
  - rewrite !list_lookup_alter_eq. by destruct (files d !! f).
  - by rewrite !list_lookup_alter_ne.
Qed.

Lemma failed_set f b d : has_context f d = true -> failed f (set_failure f b d) = b.
Proof.
  unfold has_context, failed, set_failure. cbn. rewrite list_lookup_alter_eq.
  by destruct (files d !! f).
Qed.

(** [m] failures of the test that thread [t] runs. *)
Lemma run_failures m d ts cs t f x n :
  ts !! t = Some (mkKthread (IO_test f x) n) -> CxPlatTestClient d = Some f ->
  failed f d = false -> has_context f d = true ->
  exists d', run (mkWorld d ts cs) (replicate m (Failing t)) = Some (mkWorld d' ts cs) /\
    failed f d' = negb (Nat.eqb m 0).
Proof.
  intros Hk Hc Hf Hx. destruct m as [|m]; [by exists d|]. exists (set_failure f true d).
  split; [|by apply failed_set]. cbn. rewrite Hk. cbn. unfold LogTestFailure. rewrite Hc. cbn.
  rewrite list_insert_id, app_nil_r by done. clear Hf Hx.
  revert d Hc. induction m as [|m IH]; intros d Hc; cbn; [done|].
  rewrite Hk. cbn. unfold LogTestFailure. cbn. rewrite Hc. cbn.
  rewrite list_insert_id, app_nil_r, set_failure_twice by done. by apply IH.
Qed.

Lemma run_app w ls ls' : run w (ls ++ ls') = w' ← run w ls; run w' ls'.
Proof. revert w. induction ls as [|l ls IH]; intros w; cbn; [done|].
  destruct (step w l) as [w'|]; [apply IH|done].
Qed.

(** The labels of one device control request in which a test fails [m] times. *)
Definition test_run (t f : nat) (Irql len : Z) (x : test) (m : nat) : list label :=
  [Control t (Some f) Irql len (IOCTL_CXPLAT_RUN x); Run t; Run t] ++
  replicate m (Failing t) ++ [Run t; Run t; Run t].

(** The verdict of a test.  After any run in which no client is published
    while a cleanup has yet to clear [CxPlatTestClient], a device control
    request at PASSIVE_LEVEL through an open file for a test that reports [m]
    failures, handled without interruption, completes: with STATUS_SUCCESS if
    the test reported none, otherwise with STATUS_FAIL_FAST_EXCEPTION. *)
Theorem ctl_test_verdict n contexts ls w t f g q Irql len x m :
  run (initial n contexts) ls = Some w -> polite (initial n contexts) ls = true ->
  files (dev w) !! f = Some g -> fstate g = Opened -> threads w !! t = Some (mkKthread Idle q) ->
  Irql <= 0 -> 0 <= len ->
  exists w', run w (test_run t f Irql len x m) = Some w' /\ threads w' = threads w /\
    completed w' = completed w ++
      [(t, if Nat.eqb m 0 then STATUS_SUCCESS else STATUS_FAIL_FAST_EXCEPTION)].
Proof.
  intros Hr Hp Hg Ho Hk HI Hl. pose proof (lookup_lt_Some _ _ _ Hk) as Hlt.
  destruct (opened_tracked w f g) as [Hc Hx];
    [by eapply ctl_reachable_inv|by eapply reachable_tracked|done..|].
  assert (in_state f Opened (dev w) = true) as Hin.
  { unfold in_state. rewrite Hg. destruct g; cbn in Ho. by subst. }
  unfold test_run. rewrite run_app. cbn. rewrite Hin. unfold enter. rewrite Hk. cbn.
  rewrite list_lookup_insert_eq by done. cbn. rewrite ioctl_decide_cases, (proj2 (Z.ltb_ge 0 Irql)) by done.
  rewrite Hx, switch_ioctl. cbn. rewrite list_insert_insert_eq, list_lookup_insert_eq by done. cbn.
  rewrite list_insert_insert_eq, run_app.
  destruct (run_failures m (set_failure f false (dev w)) (<[t := mkKthread (IO_test f x) q]> (threads w))
              ((completed w ++ []) ++ []) t f x q) as (d' & -> & Hd);
    [by apply list_lookup_insert_eq|done|by apply failed_set|by rewrite set_failure_context|].
  cbn. rewrite list_lookup_insert_eq by done. cbn. rewrite list_insert_insert_eq, list_lookup_insert_eq by done.
  cbn. rewrite Hd, list_insert_insert_eq, list_lookup_insert_eq by done. cbn.
  eexists. split; [done|]. cbn. split.
  - rewrite list_insert_insert_eq. by apply list_insert_id.
  - rewrite !app_nil_r. by destruct m.
Qed.

(** Dispatch of control codes.  A device control request runs a test exactly
    when it comes at PASSIVE_LEVEL, through a file with a context, with the
    control code of that test; every other request completes with a failure
    status; the table of buffer sizes is never read outside; and no two tests
    share a control code. *)
Theorem ctl_ioctl_dispatch fo Irql len c d :
  0 <= len ->
  match ioctl_decide fo Irql len c d with
  | RunTest f x => fo = Some f /\ has_context f d = true /\ Irql <= 0 /\ c = IOCTL_CXPLAT_RUN x
  | Complete Status => NT_SUCCESS Status = false /\
      ~ (exists f x, fo = Some f /\ has_context f d = true /\ Irql <= 0 /\ c = IOCTL_CXPLAT_RUN x)
  | OutOfTable => False
  end /\
  (forall x y, IOCTL_CXPLAT_RUN x = IOCTL_CXPLAT_RUN y -> x = y).
Proof.
  intros Hl. split.
  - rewrite ioctl_decide_cases by done. destruct (Z.ltb_spec 0 Irql).
    { split; [done|]. intros (f & x & _ & _ & ? & _). lia. }
    destruct fo as [f|]; [|split; [done|]; by intros (f & x & ? & _)].
    destruct (has_context f d) eqn:Hc; cbn [negb];
      [|split; [done|]; intros (f' & x & [= <-] & ? & _); congruence].
    destruct (switch c) as [x|] eqn:Hs;
      [by apply switch_sound in Hs|].
    split; [done|]. intros (f' & x & _ & _ & _ & ->). by rewrite switch_ioctl in Hs.
  - intros x y Hxy. apply (f_equal switch) in Hxy. rewrite !switch_ioctl in Hxy. by injection Hxy.
Qed.

(** ** Creating and deleting the device *)

(** The device is created completely or not announced.  Whatever calls of
    the framework fail, [CxPlatTestCtlInitialize] gives every initialization
    structure back.  When it succeeds the globals name a new device that has an
    empty client list, a symbolic link and a queue and accepts requests, and
    [CxPlatTestCtlUninitialize] deletes it and clears the globals.  When it
    fails the globals are unchanged and no device it left behind accepts
    requests (such a device is left to the framework to delete). *)
Theorem ctl_initialize DBG s :
  CxPlatTestCtlDevice s = None -> CxPlatTestCtlExtension s = None ->
  exists Status s', CxPlatTestCtlInitialize s = Ret Status s' /\
    device_inits s' = device_inits s /\
    if NT_SUCCESS Status then
      exists d, devices s !! d = None /\ CxPlatTestCtlDevice s' = Some d /\
        CxPlatTestCtlExtension s' = Some d /\
        devices s' = <[d := mkControl (Some new_extension) true true true]> (devices s) /\
        CxPlatTestCtlUninitialize DBG s' = Ret tt s
    else CxPlatTestCtlDevice s' = None /\ CxPlatTestCtlExtension s' = None /\
         forall d c, devices s' !! d = Some c -> devices s !! d = None -> c_ready c = false.
Proof.
  destruct s as [n ds D E]. cbn. intros -> ->. unfold CxPlatTestCtlInitialize.
  assert (ds !! fresh (dom ds) = None) as Hfresh by apply not_elem_of_dom, is_fresh.
  destruct WdfControlDeviceInitAllocate_ok; cbn; [|eexists _, _; split; [done|]; cbn; naive_solver].
  unfold ctl_setup, mbind, M_bind, mret, M_ret, update, set_inits, set_device, WdfDeviceCreate,
    WdfDeviceInitFree, set_globals. cbn.
  destruct (NT_SUCCESS WdfDeviceInitAssignName_st) eqn:H1; cbn;
    [|eexists _, _; split; [done|]; rewrite H1; cbn; naive_solver].
  destruct (NT_SUCCESS WdfDeviceCreate_st) eqn:H2; cbn;
    [|eexists _, _; split; [done|]; rewrite H2; cbn; naive_solver].
  destruct (NT_SUCCESS WdfDeviceCreateSymbolicLink_st) eqn:H3; cbn.
  2: { eexists _, _; split; [done|]; rewrite H3; cbn. split; [done|]. split; [done|]. split; [done|].
       intros d c. rewrite insert_insert_eq. by intros [[<- <-]|[_ ->]]%lookup_insert_Some. }
  destruct (NT_SUCCESS WdfIoQueueCreate_st) eqn:H4; cbn.
  2: { eexists _, _; split; [done|]; rewrite H4; cbn. split; [done|]. split; [done|]. split; [done|].
       intros d c. rewrite !insert_insert_eq. by intros [[<- <-]|[_ ->]]%lookup_insert_Some. }
  eexists _, _; split; [done|]; rewrite H4; cbn. split; [done|]. exists (fresh (dom ds)).
  rewrite !insert_insert_eq. split; [done|]. split; [done|]. split; [done|]. split; [done|].
  unfold CxPlatTestCtlUninitialize, mbind, M_bind, WdfObjectDelete. cbn.
  destruct DBG; cbn; rewrite lookup_insert_eq; cbn; by rewrite delete_insert_id.
Qed.
End Invariant.

(** ** Examples and failing schedules *)

(** A framework in which every call succeeds. *)
#[export] Instance working_framework : Wdf := {|
  WdfControlDeviceInitAllocate_ok := true;
  WdfDeviceInitAssignName_st := 0;
  WdfDeviceCreate_st := 0;
  WdfDeviceCreateSymbolicLink_st := 0;
  WdfIoQueueCreate_st := 0;
  WdfRequestRetrieveInputBuffer := fun _ => (0, true)
|}.

(** One in which the queue cannot be created. *)
Definition no_queue : Wdf := {|
  WdfControlDeviceInitAllocate_ok := true;
  WdfDeviceInitAssignName_st := 0;
  WdfDeviceCreate_st := 0;
  WdfDeviceCreateSymbolicLink_st := 0;
  WdfIoQueueCreate_st := STATUS_INSUFFICIENT_RESOURCES;
  WdfRequestRetrieveInputBuffer := fun _ => (0, true)
|}.

(** Thread [t] opens file [f]; thread [t] closes it. *)
Definition opening (t f : nat) : list label := Create t f :: replicate 10 (Run t).
Definition closing (t f : nat) : list label := Cleanup t f :: replicate 8 (Run t).

(** File 0 is open; the create of file 1 is refused. *)
Definition second_refused : list label := (opening 0 0 ++ Create 1 1 :: replicate 6 (Run 1))%nat.

Definition second_refused_end : world :=
  mkWorld (mkDevice (mkExt None [O] 1) (Some O) [mkFile Opened true false; mkFile Refused true false])
    [mkKthread Idle 0; mkKthread Idle 0]
    [(O, STATUS_SUCCESS); (1%nat, STATUS_TOO_MANY_SESSIONS)].

Lemma ctl_single_client_witness :
  ClientListSize (ext (dev second_refused_end)) = 1 /\
  ClientList (ext (dev second_refused_end)) = [O].
Proof.
  assert (run (initial 2 [true; true]) second_refused = Some second_refused_end) as Hr
    by (vm_compute; reflexivity).
  destruct (ctl_single_client 2 [true; true] second_refused second_refused_end Hr) as (Hs & Ho & _).
  split; [exact (proj1 (Hs eq_refl))|exact (proj1 (Ho O _ eq_refl eq_refl))].
Defined.

Lemma ctl_test_verdict_witness :
  exists w', run second_refused_end (test_run 1 0 0 0 EventCpp 2) = Some w' /\
    completed w' = completed second_refused_end ++ [(1%nat, STATUS_FAIL_FAST_EXCEPTION)].
Proof.
  assert (run (initial 2 [true; true]) second_refused = Some second_refused_end) as Hr
    by (vm_compute; reflexivity).
  assert (polite (initial 2 [true; true]) second_refused = true) as Hp by (vm_compute; reflexivity).
  destruct (ctl_test_verdict 2 [true; true] second_refused second_refused_end 1 0 (mkFile Opened true false)
              0 0 0 EventCpp 2 Hr Hp) as (w' & Hw & _ & Hc); try reflexivity; try lia.
  exists w'. split; [exact Hw|exact Hc].
Defined.

Lemma ctl_ioctl_dispatch_witness :
  ioctl_decide (Some O) 0 0 1212420 (dev second_refused_end) = RunTest 0 CryptRandom /\
  1212420 = IOCTL_CXPLAT_RUN CryptRandom.
Proof.
  assert (ioctl_decide (Some O) 0 0 1212420 (dev second_refused_end) = RunTest 0 CryptRandom) as He
    by reflexivity.
  pose proof (ctl_ioctl_dispatch (Some O) 0 0 1212420 (dev second_refused_end) ltac:(done)) as [Hd _].
  rewrite He in Hd. split; [exact He|apply Hd].
Defined.

Lemma ctl_initialize_witness :
  exists Status s', CxPlatTestCtlInitialize (H := no_queue) (mkDriver 0 ∅ None None) = Ret Status s' /\
    device_inits s' = O.
Proof.
  destruct (ctl_initialize (W := no_queue) true (mkDriver 0 ∅ None None) eq_refl eq_refl)
    as (Status & s' & Hi & Hn & _). exists Status, s'. split; [exact Hi|exact Hn].
Defined.

(** A cleanup of file 0 has released the lock and not yet cleared
    [CxPlatTestClient] when file 1 is opened completely. *)
Definition reopened : list label :=
  (opening 0 0 ++ Cleanup 0 0 :: replicate 6 (Run 0) ++ opening 1 1 ++ [Run 0; Run 0])%nat.

(** File 0 is closed while a test runs for it. *)
Definition closed_in_test : list label :=
  (opening 0 0 ++ [Control 1 (Some 0) 0 0 (IOCTL_CXPLAT_RUN LockBasic); Run 1; Run 1] ++ closing 0 0)%nat.

(** A failing test may find no client.  [CxPlatTestCtlEvtFileCleanup] clears
    [CxPlatTestClient] after it has released the lock, and without asking whose
    client it is.  A file opened in between is left open, alone in the client
    list, every callback having returned, and without a client in the variable:
    the first failure a test reports for it dereferences a null pointer.  The
    same happens when the file is closed while its test still runs. *)
Theorem ctl_failure_without_client :
  (exists w w', run (initial 2 [true; true]) reopened = Some w /\
     (forall t k, threads w !! t = Some k -> at_ k = Idle) /\
     files (dev w) !! 1%nat = Some (mkFile Opened true false) /\
     CxPlatTestClient (dev w) = None /\
     run w [Control 0 (Some 1) 0 0 (IOCTL_CXPLAT_RUN LockBasic); Run 0; Run 0; Failing 0]%nat = Some w' /\
     threads w' !! O = Some (mkKthread (Crashed NullDeref) 0)) /\
  (exists w w', run (initial 2 [true; true]) closed_in_test = Some w /\
     step w (Failing 1) = Some w' /\ threads w' !! 1%nat = Some (mkKthread (Crashed NullDeref) 0)).
Proof.
  split; eexists _, _; (split; [vm_compute; reflexivity|]).
  - split; [intros [|[|t]] k Hk; by inversion Hk|]. repeat (split; [vm_compute; reflexivity|]). reflexivity.
  - split; [vm_compute; reflexivity|]. reflexivity.
Qed.
