(* ===== verification/DriverHelpers.v ===== *)
(** * The user-mode side of the test driver (src/test/bin/cxplat_driver_helpers.h)

    [CxPlatDriverService] installs and starts the driver's service;
    [CxPlatDriverClient] opens the driver's device and sends control codes to it
    with overlapped I/O.  The state has the handles that are open and the I/O
    requests the system has not completed.  A request writes to the [OVERLAPPED]
    variable of the call that sent it, so one that is left when the call returns
    writes to a dead stack frame. *)

From S2P Require Import Prelude.

(** ** The client *)

Definition ERROR_SUCCESS : Z := 0.
Definition WAIT_TIMEOUT : Z := 258.
Definition ERROR_IO_INCOMPLETE : Z := 996.
Definition ERROR_IO_PENDING : Z := 997.
Definition ERROR_TIMEOUT : Z := 1460.
Definition MAX_PATH : Z := 260.

(** What [DeviceIoControl] does: the operation completes, goes on in the
    background, or is refused with an error. *)
Inductive io_start := Completes | Pends | Refuses (Error : Z).

(** What [GetOverlappedResultEx] finds: the operation completed with a number of
    bytes or failed, or it is not complete when the time is over. *)
Inductive io_wait := Finished (Bytes : Z) | FailedWith (Error : Z) | StillPending.

(** The system's answers to one call.  An operation that [DeviceIoControl]
    completed is found complete.  [CancelIoEx_ok] is whether [CancelIoEx] finds
    the operation: it fails when the operation has completed meanwhile. *)
Class WinIo := {
  CreateFileA_ok : bool;
  CreateEvent_ok : bool;
  DeviceIoControl : io_start;
  GetOverlappedResultEx : io_wait;
  CancelIoEx_ok : bool;
  refuses_error e : DeviceIoControl = Refuses e -> e <> ERROR_IO_PENDING;
  completes_found : DeviceIoControl = Completes -> exists n, GetOverlappedResultEx = Finished n;
  failed_error e : GetOverlappedResultEx = FailedWith e ->
    e <> ERROR_SUCCESS /\ e <> WAIT_TIMEOUT /\ e <> ERROR_IO_INCOMPLETE
}.

Record client := mkClient {
  DeviceHandle : option nat;       (** [None]: INVALID_HANDLE_VALUE *)
  open_handles : gset nat;
  sent : nat;                      (** requests sent so far *)
  pending : gset nat               (** those that are not complete *)
}.

Definition set_handle (h : option nat) (s : client) : client :=
  mkClient h (open_handles s) (sent s) (pending s).
Definition set_open (hs : gset nat) (s : client) : client :=
  mkClient (DeviceHandle s) hs (sent s) (pending s).
Definition set_pending (n : nat) (p : gset nat) (s : client) : client :=
  mkClient (DeviceHandle s) (open_handles s) n p.

Section Client.
Context `{!WinIo}.

#[local] Abbreviation M := (M client).

Definition upd (f : client -> client) : M unit := fun s => Ret tt (f s).

Definition new_handle : M nat := fun s =>
  Ret (fresh (open_handles s)) (set_open ({[ fresh (open_handles s) ]} ∪ open_handles s) s).

Definition CloseHandle (h : nat) : M unit := fun s =>
  if bool_decide (h ∈ open_handles s) then Ret tt (set_open (open_handles s ∖ {[ h ]}) s)
  else Fault DoubleFree.

Definition end_pending (i : nat) : M unit := upd (fun s => set_pending (sent s) (pending s ∖ {[ i ]}) s).

(** [snprintf(IoctlPath, sizeof(IoctlPath), ...)] with a name of [NameLength]
    characters; the literal part is the five characters of the device prefix. *)
Definition Client_Initialize (NameLength : Z) : M bool :=
  let PathResult := 5 + NameLength in
  if (PathResult <? 0) || (MAX_PATH <=? PathResult) then mret false
  else if CreateFileA_ok then
    h ← new_handle;
    _ ← upd (set_handle (Some h));
    mret true
  else
    _ ← upd (set_handle None);
    mret false.

Definition Client_Uninitialize : M unit :=
  s ← get;
  match DeviceHandle s with
  | Some h => _ ← CloseHandle h; upd (set_handle None)
  | None => mret tt
  end.

(** [DeviceIoControl]: the request's number, and [None] if the call returned
    TRUE, otherwise the last error. *)
Definition device_io_control : M (nat * option Z) :=
  s ← get;
  _ ← upd (set_pending (S (sent s))
             (match DeviceIoControl with Pends => {[ sent s ]} ∪ pending s | _ => pending s end));
  mret (sent s, match DeviceIoControl with
                | Completes => None
                | Pends => Some ERROR_IO_PENDING
                | Refuses e => Some e
                end).

(** [GetOverlappedResultEx]: the bytes, or the last error: with a time limit of
    zero a pending operation is ERROR_IO_INCOMPLETE, otherwise WAIT_TIMEOUT. *)
Definition get_overlapped_result_ex (i : nat) (TimeoutMs : Z) : M (Z + Z) :=
  match GetOverlappedResultEx with
  | Finished n => _ ← end_pending i; mret (inl n)
  | FailedWith e => _ ← end_pending i; mret (inr e)
  | StillPending => mret (inr (if TimeoutMs =? 0 then ERROR_IO_INCOMPLETE else WAIT_TIMEOUT))
  end.

(** [CancelIoEx]: it asks for the operation to be cancelled and does not wait
    for that; it fails when the operation has completed. *)
Definition cancel_io_ex (i : nat) : M bool :=
  if CancelIoEx_ok then mret true else _ ← end_pending i; mret false.

(** [GetOverlappedResult(..., true)] waits until the operation has ended. *)
Definition get_overlapped_result (i : nat) : M unit := end_pending i.

(** The part [Run] and [Read] share: the event is created, the request is sent,
    and the event is closed again if the request is refused.  The event and the
    request, when the call goes on to wait. *)
Definition send : M (option (nat * nat)) :=
  if negb CreateEvent_ok then mret None
  else
    hEvent ← new_handle;
    r ← device_io_control;
    match r.2 with
    | Some Err =>
        if negb (Err =? ERROR_IO_PENDING) then _ ← CloseHandle hEvent; mret None
        else mret (Some (hEvent, r.1))
    | None => mret (Some (hEvent, r.1))
    end.

Definition Run (TimeoutMs : Z) : M bool :=
  e ← send;
  match e with
  | None => mret false
  | Some (hEvent, Overlapped) =>
      w ← get_overlapped_result_ex Overlapped TimeoutMs;
      Err ← match w with
            | inr Err =>
                if Err =? WAIT_TIMEOUT then _ ← cancel_io_ex Overlapped; mret ERROR_TIMEOUT
                else mret Err
            | inl _ => mret ERROR_SUCCESS
            end;
      _ ← CloseHandle hEvent;
      mret (Err =? ERROR_SUCCESS)
  end.

(** [OutBufferWritten] is whether the caller passed a pointer for the number of
    bytes; the result has the number stored. *)
Definition Read (OutBufferWritten : bool) (TimeoutMs : Z) : M (bool * option Z) :=
  e ← send;
  match e with
  | None => mret (false, None)
  | Some (hEvent, Overlapped) =>
      w ← get_overlapped_result_ex Overlapped TimeoutMs;
      r ← match w with
          | inr Err =>
              if Err =? WAIT_TIMEOUT then
                found ← cancel_io_ex Overlapped;
                _ ← (if found : bool then get_overlapped_result Overlapped else mret tt);
                mret (ERROR_TIMEOUT, None)
              else mret (Err, None)
          | inl dwBytesReturned =>
              if OutBufferWritten then mret (ERROR_SUCCESS, Some dwBytesReturned)
              else fail_with NullDeref
          end;
      _ ← CloseHandle hEvent;
      mret (r.1 =? ERROR_SUCCESS, r.2)
  end.
End Client.

(** ** The service *)

Definition ERROR_SERVICE_ALREADY_RUNNING : Z := 1056.
Definition ERROR_SERVICE_EXISTS : Z := 1073.

(** The answers of the service control manager: errors, [None] for success; the
    [k]-th [OpenServiceA] and [CreateServiceA] of a call.  [module_path] is the
    path of the running program and fits the buffer; [file_present] is whether
    [GetFileAttributesA] finds a file.  Error numbers are not zero. *)
Class Scm := {
  OpenSCManager : option Z;
  OpenServiceA : nat -> bool;
  module_path : list Z;
  file_present : list Z -> bool;
  CreateServiceA : nat -> list Z -> option Z;
  StartServiceA : option Z;
  module_path_fits : Z.of_nat (length module_path) < MAX_PATH;
  manager_error e : OpenSCManager = Some e -> 0 < e < 2 ^ 32;
  create_error k p e : CreateServiceA k p = Some e -> 0 < e < 2 ^ 32
}.

(** The two handles, the open handles of the manager, and the path a service was
    created with. *)
Record service := mkService {
  ScmHandle : option nat;
  ServiceHandle : option nat;
  sc_handles : gset nat;
  installed : option (list Z)
}.

Definition set_scm (h : option nat) (hs : gset nat) (s : service) : service :=
  mkService h (ServiceHandle s) hs (installed s).
Definition set_service (h : option nat) (hs : gset nat) (p : option (list Z)) (s : service) : service :=
  mkService (ScmHandle s) h hs p.

(** [strrchr(path, '\\') + 1]: the path up to its last backslash (92). *)
Fixpoint directory (path : list Z) : option (list Z) :=
  match path with
  | [] => None
  | c :: path =>
      match directory path with
      | Some d => Some (c :: d)
      | None => if c =? 92 then Some [c] else None
      end
  end.

(** [snprintf(PathEnd, RemainingLength, "%s.sys", DriverName)]: what it stores
    before the terminating zero, and the length it returns. *)
Definition driver_file (DriverName : list Z) : list Z := DriverName ++ [46; 115; 121; 115].

Definition printed (DriverName dir : list Z) : list Z :=
  dir ++ take (Z.to_nat (MAX_PATH - Z.of_nat (length dir) - 1)) (driver_file DriverName).

Section Service.
Context `{!Scm}.

#[local] Abbreviation M := (M service).

(** [return (uint32_t)Error], with [None] an [Error] that was never assigned. *)
Definition return_error (Err : option Z) : M Z :=
  match Err with Some e => mret (u32 e) | None => fail_with UninitRead end.

Definition open_service (h : nat) (p : option (list Z)) : M unit := fun s =>
  Ret tt (set_service (Some h) ({[ h ]} ∪ sc_handles s) p s).

(** The code from the label [QueryService] on; [k] counts the times it was
    reached and [fuel] bounds them. *)
Fixpoint QueryService (fuel k : nat) (DriverName : list Z) (Err : option Z) : M Z :=
  match fuel with
  | O => fun _ => NoFuel
  | S fuel =>
      s ← get;
      let h := fresh (sc_handles s) in
      if OpenServiceA k then _ ← open_service h (installed s); mret 0
      else
        match directory module_path with
        | None => return_error Err
        | Some dir =>
            let RemainingLength := MAX_PATH - Z.of_nat (length dir) in
            let PathResult := Z.of_nat (length (driver_file DriverName)) in
            if (PathResult <=? 0) || (RemainingLength <? PathResult) then return_error Err
            else let DriverFilePath := printed DriverName dir in
            if negb (file_present DriverFilePath) then return_error Err
            else match CreateServiceA k DriverFilePath with
                 | None => _ ← open_service h (Some DriverFilePath); mret 0
                 | Some Err =>
                     if Err =? ERROR_SERVICE_EXISTS
                     then QueryService fuel (S k) DriverName (Some Err)
                     else return_error (Some Err)
                 end
        end
  end.

Definition Service_Initialize (fuel : nat) (DriverName : list Z) : M Z :=
  match OpenSCManager with
  | Some Err => mret (u32 Err)
  | None =>
      s ← get;
      let h := fresh (sc_handles s) in
      _ ← (fun s => Ret tt (set_scm (Some h) ({[ h ]} ∪ sc_handles s) s) : outcome service unit);
      QueryService fuel 0 DriverName None
  end.

Definition CloseServiceHandle (h : option nat) : M unit := fun s =>
  match h with
  | None => Ret tt s
  | Some h => if bool_decide (h ∈ sc_handles s)
              then Ret tt (mkService (ScmHandle s) (ServiceHandle s) (sc_handles s ∖ {[ h ]}) (installed s))
              else Fault DoubleFree
  end.

Definition Service_Uninitialize : M unit :=
  s ← get;
  _ ← CloseServiceHandle (ServiceHandle s);
  CloseServiceHandle (ScmHandle s).

Definition Start : M Z :=
  match StartServiceA with
  | Some Err => if negb (Err =? ERROR_SERVICE_ALREADY_RUNNING) then mret (u32 Err) else mret 0
  | None => mret 0
  end.
End Service.

(** ** Theorems about the client *)

Section ClientTheorems.
Context `{W : !WinIo}.

(** Whether a call of [Run] returns with its request not complete. *)
Definition left_behind (TimeoutMs : Z) : bool :=
  match CreateEvent_ok, DeviceIoControl, GetOverlappedResultEx with
  | true, Pends, StillPending => (TimeoutMs =? 0) || CancelIoEx_ok
  | _, _, _ => false
  end.

Lemma close_fresh d hs n p :
  CloseHandle (fresh hs) (mkClient d ({[ fresh hs ]} ∪ hs) n p) = Ret tt (mkClient d hs n p).
Proof.
  unfold CloseHandle, set_open. cbn. rewrite bool_decide_true by set_solver. do 2 f_equal.
  pose proof (is_fresh hs). apply leibniz_equiv. set_solver.
Qed.

(** The two ways a call leaves the requests: as they were, or with its own. *)
Definition client_after (s : client) (p : gset nat) : client :=
  mkClient (DeviceHandle s) (open_handles s) (S (sent s)) p.

Lemma send_spec s :
  send s =
    if CreateEvent_ok then
      match DeviceIoControl with
      | Refuses _ => Ret None (client_after s (pending s))
      | Completes => Ret (Some (fresh (open_handles s), sent s))
          (set_open ({[ fresh (open_handles s) ]} ∪ open_handles s) (client_after s (pending s)))
      | Pends => Ret (Some (fresh (open_handles s), sent s))
          (set_open ({[ fresh (open_handles s) ]} ∪ open_handles s)
             (client_after s ({[ sent s ]} ∪ pending s)))
      end
    else Ret None s.
Proof.
  destruct s as [d hs n p]. unfold send. destruct CreateEvent_ok; [|done].
  destruct DeviceIoControl as [| |e] eqn:Hd;
    cbv [mbind M_bind new_handle device_io_control upd get mret M_ret set_open set_pending negb];
    cbn [open_handles DeviceHandle sent pending fst snd]; rewrite Hd; cbn [Z.eqb]; [done|done|].
  rewrite (proj2 (Z.eqb_neq _ _) (refuses_error e Hd)). by rewrite close_fresh.
Qed.

Lemma pending_minus (n : nat) (p : gset nat) : n ∉ p -> p ∖ {[ n ]} = p /\ ({[ n ]} ∪ p) ∖ {[ n ]} = p.
Proof. intros. set_solver. Qed.

Lemma bind_eq {S A B} (m : M S A) (k : A -> M S B) s :
  (mbind k m) s =
    match m s with Ret a s' => k a s' | Stop r => Stop r | Fault f => Fault f | NoFuel => NoFuel end.
Proof. done. Qed.

(** The request is sent, and it completes with [n] bytes. *)
Definition succeeds (n : Z) : Prop :=
  CreateEvent_ok = true /\ (forall e, DeviceIoControl <> Refuses e) /\ GetOverlappedResultEx = Finished n.

Ltac run_client :=
  cbv [mbind M_bind get_overlapped_result_ex get_overlapped_result cancel_io_ex end_pending upd mret M_ret
       set_open set_pending client_after];
  cbn [open_handles DeviceHandle sent pending fst snd Z.eqb Pos.eqb WAIT_TIMEOUT ERROR_IO_INCOMPLETE
       ERROR_TIMEOUT].

(** Closes a branch: the state is known, the statements about it compute. *)
Ltac end_client :=
  eexists _, _; split; [done|]; unfold succeeds, left_behind; cbn;
  repeat match goal with H : DeviceIoControl = _ |- _ => rewrite H; clear H
                    | H : GetOverlappedResultEx = _ |- _ => rewrite H; clear H
                    | H : CreateEvent_ok = _ |- _ => rewrite H; clear H end;
  repeat split; intros; naive_solver.

Lemma run_spec TimeoutMs s :
  sent s ∉ pending s ->
  exists r s', Run TimeoutMs s = Ret r s' /\
    open_handles s' = open_handles s /\ DeviceHandle s' = DeviceHandle s /\
    pending s' = (if left_behind TimeoutMs then {[ sent s ]} ∪ pending s else pending s) /\
    (r = true <-> exists n, succeeds n).
Proof.
  intros [P1 P2]%pending_minus. destruct s as [d hs n p]. cbn in *. unfold Run. rewrite bind_eq, send_spec.
  unfold left_behind. destruct CreateEvent_ok eqn:Hc; [|end_client].
  destruct DeviceIoControl as [| |e] eqn:Hd; [..|end_client].
  - destruct (completes_found Hd) as [b Hb]. run_client. rewrite Hb. run_client. rewrite P1, close_fresh.
    end_client.
  - run_client. destruct GetOverlappedResultEx as [b|e|] eqn:Hb; run_client.
    + rewrite P2, close_fresh. end_client.
    + destruct (failed_error e Hb) as (E1 & E2 & _).
      rewrite (proj2 (Z.eqb_neq _ _) E2). run_client. rewrite P2, close_fresh, (proj2 (Z.eqb_neq _ _) E1).
      end_client.
    + destruct (TimeoutMs =? 0); [|destruct CancelIoEx_ok]; run_client;
        rewrite ?P2, close_fresh; end_client.
Qed.

Lemma read_spec TimeoutMs s :
  sent s ∉ pending s ->
  exists r s', Read true TimeoutMs s = Ret r s' /\
    open_handles s' = open_handles s /\ DeviceHandle s' = DeviceHandle s /\
    (TimeoutMs <> 0 -> pending s' = pending s) /\
    (r.1 = true <-> exists n, succeeds n) /\ (forall n, r.2 = Some n <-> succeeds n).
Proof.
  intros [P1 P2]%pending_minus. destruct s as [d hs n p]. cbn in *. unfold Read. rewrite bind_eq, send_spec.
  destruct CreateEvent_ok eqn:Hc; [|end_client].
  destruct DeviceIoControl as [| |e] eqn:Hd; [..|end_client].
  - destruct (completes_found Hd) as [b Hb]. run_client. rewrite Hb. run_client. rewrite P1, close_fresh.
    end_client.
  - run_client. destruct GetOverlappedResultEx as [b|e|] eqn:Hb; run_client.
    + rewrite P2, close_fresh. end_client.
    + destruct (failed_error e Hb) as (E1 & E2 & _).
      rewrite (proj2 (Z.eqb_neq _ _) E2). run_client. rewrite P2, close_fresh, (proj2 (Z.eqb_neq _ _) E1).
      end_client.
    + destruct (Z.eqb_spec TimeoutMs 0); [|destruct CancelIoEx_ok]; run_client;
        rewrite ?P2, close_fresh; end_client.
Qed.

(** C40: the requests of the driver client.  Both [Run] and [Read] return, close
    their event on every path and succeed exactly when the request was accepted
    and completed.  A [Read] (with a place for the number of bytes) that times out
    after a nonzero limit waits for the cancelled request, so it leaves no request
    behind; a [Run] that times out cancels and does not wait:
    it returns with its request still pending, and the system later writes to
    its [OVERLAPPED] variable, which no longer exists. *)
Theorem driver_client_requests TimeoutMs s :
  sent s ∉ pending s ->
  (exists r s', Run TimeoutMs s = Ret r s' /\ open_handles s' = open_handles s /\
     (r = true <-> exists n, succeeds n) /\
     pending s' = (if left_behind TimeoutMs then {[ sent s ]} ∪ pending s else pending s)) /\
  (exists r s', Read true TimeoutMs s = Ret r s' /\ open_handles s' = open_handles s /\
     (r.1 = true <-> exists n, succeeds n) /\ (forall n, r.2 = Some n <-> succeeds n) /\
     (TimeoutMs <> 0 -> pending s' = pending s)).
Proof.
  intros Hs. destruct (run_spec TimeoutMs s Hs) as (r & s' & H1 & H2 & _ & H3 & H4).
  destruct (read_spec TimeoutMs s Hs) as (r2 & s2 & G1 & G2 & _ & G3 & G4 & G5).
  split; [by exists r, s'|by exists r2, s2].
Qed.
End ClientTheorems.

(** ** Theorems about the service *)

Section ServiceTheorems.
Context `{W : !Scm}.

Lemma printed_fits DriverName dir :
  Z.of_nat (length dir) + Z.of_nat (length (driver_file DriverName)) < MAX_PATH ->
  printed DriverName dir = dir ++ driver_file DriverName.
Proof. intros Hl. unfold printed. rewrite take_ge; [done|]. unfold MAX_PATH in *. lia. Qed.

(** The loop, when opening succeeds at the latest at the [k]-th time. *)
Lemma query_spec DriverName dir k fuel j Err s :
  directory module_path = Some dir ->
  Z.of_nat (length dir) + Z.of_nat (length (driver_file DriverName)) < MAX_PATH ->
  file_present (dir ++ driver_file DriverName) = true ->
  OpenServiceA k = true -> (j <= k)%nat -> (k - j < fuel)%nat ->
  exists r h hs p, QueryService fuel j DriverName Err s = Ret r (set_service h hs p s) /\
    (r = 0 /\ h = Some (fresh (sc_handles s)) /\ hs = {[ fresh (sc_handles s) ]} ∪ sc_handles s \/
     r <> 0 /\ h = ServiceHandle s /\ hs = sc_handles s) /\
    (p = installed s \/ p = Some (dir ++ driver_file DriverName)).
Proof.
  intros Hd Hl Hf Ho. revert j Err. induction fuel as [|fuel IH]; intros j Err Hj Hk; [lia|].
  cbn [QueryService]. rewrite (bind_Ret get _ s s s) by done.
  destruct (OpenServiceA j) eqn:Hoj; [exists 0; eexists _, _, _; split; [done|]; split; by left|].
  rewrite Hd, printed_fits, Hf by done. cbn [negb].
  assert (length (driver_file DriverName) <> O) by (unfold driver_file; rewrite length_app; cbn; lia).
  replace ((_ <=? 0) || _) with false by (unfold MAX_PATH in *; lia).
  destruct (CreateServiceA j (dir ++ driver_file DriverName)) as [e|] eqn:He;
    [|exists 0; eexists _, _, _; split; [done|]; split; [by left|by right]].
  destruct (e =? ERROR_SERVICE_EXISTS).
  - assert (j <> k) by congruence. apply IH; lia.
  - pose proof (create_error _ _ _ He). exists (u32 e), (ServiceHandle s), (sc_handles s), (installed s).
    split; [by destruct s|]. split; [right|by left]. rewrite wrap_small by (unfold is_u; lia). split; [lia|done].
Qed.

Lemma uninitialize_closes s hs :
  match ServiceHandle s, ScmHandle s with
  | Some h, Some m => h ∉ hs /\ m ∉ hs /\ h <> m /\ sc_handles s = {[ h ]} ∪ ({[ m ]} ∪ hs)
  | None, Some m => m ∉ hs /\ sc_handles s = {[ m ]} ∪ hs
  | None, None => sc_handles s = hs
  | Some _, None => False
  end ->
  exists s', Service_Uninitialize s = Ret tt s' /\ sc_handles s' = hs.
Proof.
  destruct s as [[m|] [h|] os p]; cbn; intros H; [destruct H as (H1 & H2 & H3 & ->)|destruct H as [H1 ->]|done|];
    unfold Service_Uninitialize, CloseServiceHandle, mbind, M_bind; cbn.
  - rewrite bool_decide_true by set_solver. cbn. rewrite bool_decide_true by set_solver.
    eexists. split; [done|]. cbn. apply leibniz_equiv. set_solver.
  - rewrite bool_decide_true by set_solver. eexists. split; [done|]. cbn. apply leibniz_equiv. set_solver.
  - eauto.
Qed.

(** Installing the service.  When the driver's file is found beside the program
    and its path fits the buffer, and the manager lets the service be opened at
    the latest at the [k]-th attempt, [Initialize] returns; its result is 0
    exactly when it opened the service, a service it creates is created with
    the driver's path, and [Uninitialize] then closes every handle. *)
Theorem driver_service_initialize DriverName dir fuel k s :
  ScmHandle s = None -> ServiceHandle s = None ->
  directory module_path = Some dir ->
  Z.of_nat (length dir) + Z.of_nat (length (driver_file DriverName)) < MAX_PATH ->
  file_present (dir ++ driver_file DriverName) = true ->
  OpenServiceA k = true -> (k < fuel)%nat ->
  exists r s', Service_Initialize fuel DriverName s = Ret r s' /\
    (r = 0 <-> is_Some (ServiceHandle s')) /\
    (installed s' = installed s \/ installed s' = Some (dir ++ driver_file DriverName)) /\
    exists s'', Service_Uninitialize s' = Ret tt s'' /\ sc_handles s'' = sc_handles s.
Proof.
  destruct s as [m h hs i]. cbn. intros -> -> Hd Hl Hf Ho Hk. unfold Service_Initialize.
  destruct OpenSCManager as [e|] eqn:Hm.
  - pose proof (manager_error _ Hm). eexists _, _. split; [done|]. cbn.
    rewrite wrap_small by (unfold is_u; lia). split; [split; [lia|by intros []]|]. split; [by left|].
    by apply uninitialize_closes.
  - cbv [mbind M_bind get]. cbn.
    destruct (query_spec DriverName dir k fuel 0 None
                (set_scm (Some (fresh hs)) ({[ fresh hs ]} ∪ hs) (mkService None None hs i)))
      as (r & h & hs' & p & -> & Hr & Hp); [done..|lia|lia|].
    eexists _, _. split; [done|]. cbn in *. pose proof (is_fresh hs) as F1.
    pose proof (is_fresh ({[ fresh hs ]} ∪ hs)) as F2.
    destruct Hr as [(-> & -> & ->)|(Hr & -> & ->)].
    + split; [done|]. split; [done|]. apply uninitialize_closes. cbn. set_solver.
    + split; [split; [done|by intros []]|]. split; [done|]. apply uninitialize_closes. cbn. set_solver.
Qed.

(** When the service cannot be opened and the driver's file is not there,
    [Initialize] returns [Error], which nothing has assigned. *)
Theorem driver_service_error_unassigned DriverName fuel dir s :
  OpenSCManager = None -> OpenServiceA 0 = false -> directory module_path = Some dir ->
  file_present (printed DriverName dir) = false ->
  Service_Initialize (S fuel) DriverName s = Fault UninitRead.
Proof.
  intros Hm Ho Hd Hf. unfold Service_Initialize. rewrite Hm. cbv [mbind M_bind get]. cbn.
  rewrite Ho, Hd, Hf. cbv zeta. by destruct (_ || _).
Qed.
End ServiceTheorems.

(** ** Examples *)

(** A driver that does not answer in time, and whose request can be cancelled. *)
#[export] Program Instance slow_driver : WinIo := {|
  CreateFileA_ok := true;
  CreateEvent_ok := true;
  DeviceIoControl := Pends;
  GetOverlappedResultEx := StillPending;
  CancelIoEx_ok := true
|}.
Solve All Obligations with done.

Lemma driver_client_requests_witness :
  exists r s', Run 30000 (mkClient (Some O) {[ O ]} 0 ∅) = Ret r s' /\
    open_handles s' = {[ O ]} /\ pending s' = {[ O ]} ∪ ∅.
Proof.
  destruct (driver_client_requests 30000 (mkClient (Some O) {[ O ]} 0 ∅)) as [(r & s' & Hr & Ho & _ & Hp) _].
  - cbn. apply not_elem_of_empty.
  - exists r, s'. split; [exact Hr|]. split; [exact Ho|exact Hp].
Defined.

(** A manager that does not know the service at the first attempt and finds at
    the creation that someone else has just installed it; the program is in
    the directory [\]. *)
#[export] Program Instance racing_manager : Scm := {|
  OpenSCManager := None;
  OpenServiceA := fun k => Nat.eqb k 1;
  module_path := [92; 97];
  file_present := fun _ => true;
  CreateServiceA := fun _ _ => Some ERROR_SERVICE_EXISTS;
  StartServiceA := None
|}.
Next Obligation. done. Qed.
Next Obligation. intros e Hx. discriminate Hx. Qed.
Next Obligation. intros k p e [= <-]. done. Qed.

Lemma driver_service_initialize_witness :
  exists r s', Service_Initialize 5 [99] (mkService None None ∅ None) = Ret r s' /\
    (r = 0 <-> is_Some (ServiceHandle s')).
Proof.
  destruct (driver_service_initialize [99] [92] 5 1 (mkService None None ∅ None))
    as (r & s' & Hr & Hs & _); try reflexivity; [lia|]. exists r, s'. split; [exact Hr|exact Hs].
Defined.
