(* ===== verification/Irql.v ===== *)
(** * Interrupt request levels (inc/cxplat_posix.h, cxplat_winuser.h, cxplat_winkernel.h)

    The macros that read, check, raise and lower the interrupt level, and their
    use together with the dispatch locks of the file Lock by any number of
    processors at once, each running its own code: blocks that raise the level,
    sections of dispatch locks, and checks of the level, nested in each other.
    The statements of the lock macros are those of [Lock.processor_step], and the
    statements of the processors are interleaved in any order. *)

From S2P Require Import Prelude Lock.

(** ** The macros *)

(** The level of the processor, and the dispatch locks by number. *)
Record irql_state := mkIrql { level : Z; locks : nat -> DISPATCH_LOCK }.

Definition set_level (l : Z) (s : irql_state) : irql_state := mkIrql l (locks s).
Definition set_lock (i : nat) (l : DISPATCH_LOCK) (s : irql_state) : irql_state :=
  mkIrql (level s) (fun j => if Nat.eqb j i then l else locks s j).

Inductive os := Posix | WinUserMode | WinKernelMode.

Definition dbg_assert (DEBUG b : bool) : M irql_state unit := if DEBUG then fre_assert b else mret tt.

Module PosixIrql.
Definition CXPLAT_IRQL : M irql_state Z := mret 0.
Definition CXPLAT_PASSIVE_CODE : M irql_state unit := mret tt.
Definition CXPLAT_AT_DISPATCH : M irql_state bool := mret false.
End PosixIrql.

Module UserIrql.
Definition CXPLAT_IRQL : M irql_state Z := mret PASSIVE_LEVEL.
Definition CXPLAT_PASSIVE_CODE (DEBUG : bool) : M irql_state unit :=
  l ← CXPLAT_IRQL; dbg_assert DEBUG (l =? PASSIVE_LEVEL).
Definition CXPLAT_AT_DISPATCH : M irql_state bool := mret false.
End UserIrql.

Module KernelIrql.
Definition CXPLAT_IRQL : M irql_state Z := fun s => Ret (level s) s.
Definition CXPLAT_PASSIVE_CODE (DEBUG : bool) : M irql_state unit :=
  l ← CXPLAT_IRQL; dbg_assert DEBUG (l =? PASSIVE_LEVEL).
Definition CXPLAT_AT_DISPATCH : M irql_state bool := l ← CXPLAT_IRQL; mret (l =? DISPATCH_LEVEL).
End KernelIrql.

Definition CXPLAT_IRQL (p : os) : M irql_state Z :=
  match p with
  | Posix => PosixIrql.CXPLAT_IRQL
  | WinUserMode => UserIrql.CXPLAT_IRQL
  | WinKernelMode => KernelIrql.CXPLAT_IRQL
  end.

Definition CXPLAT_PASSIVE_CODE (p : os) (DEBUG : bool) : M irql_state unit :=
  match p with
  | Posix => PosixIrql.CXPLAT_PASSIVE_CODE
  | WinUserMode => UserIrql.CXPLAT_PASSIVE_CODE DEBUG
  | WinKernelMode => KernelIrql.CXPLAT_PASSIVE_CODE DEBUG
  end.

Definition CXPLAT_AT_DISPATCH (p : os) : M irql_state bool :=
  match p with
  | Posix => PosixIrql.CXPLAT_AT_DISPATCH
  | WinUserMode => UserIrql.CXPLAT_AT_DISPATCH
  | WinKernelMode => KernelIrql.CXPLAT_AT_DISPATCH
  end.

(** Raising below the current level and lowering above it are bug checks:
    IRQL_NOT_GREATER_OR_EQUAL (9) and IRQL_NOT_LESS_OR_EQUAL (10). *)
Definition KeRaiseIrql (NewIrql : Z) : M irql_state Z := fun s =>
  if level s <=? NewIrql then Ret (level s) (set_level NewIrql s) else Stop (FastFail 9).

Definition KeLowerIrql (NewIrql : Z) : M irql_state unit := fun s =>
  if NewIrql <=? level s then Ret tt (set_level NewIrql s) else Stop (FastFail 10).

(** The declared variable [OldIrql] is the result. *)
Definition CXPLAT_RAISE_IRQL : M irql_state Z := KeRaiseIrql DISPATCH_LEVEL.
Definition CXPLAT_LOWER_IRQL (OldIrql : Z) : M irql_state unit := KeLowerIrql OldIrql.

(** One statement of an acquisition or of a release of lock [i] by a processor
    that is at [q].  A lock that is held makes it spin: the statement does not
    return now. *)
Definition lock_statement (i : nat) (sh : bool) (q : Lock.position) : M irql_state Lock.position := fun s =>
  match processor_step (mkProcessor q (level s) sh) (locks s i) with
  | None => NoFuel
  | Some (c, l) => Ret (pos c) (set_level (irql c) (set_lock i l s))
  end.

(** Both statements, by a processor that is the only one to use the lock. *)
Definition dispatch_acquire (i : nat) (sh : bool) : M irql_state unit :=
  q ← lock_statement i sh Outside; _ ← lock_statement i sh q; mret tt.
Definition dispatch_release (i : nat) (sh : bool) : M irql_state unit :=
  q ← lock_statement i sh Inside; _ ← lock_statement i sh q; mret tt.

(** ** Code that uses them *)

(** [Locked i sh]: a section of the dispatch lock [i], taken shared ([sh]) or
    exclusively; [AtDispatch] evaluates [CXPLAT_AT_DISPATCH]. *)
Inductive code :=
  | Skip
  | Seq (a b : code)
  | Raised (body : code)
  | Locked (i : nat) (sh : bool) (body : code)
  | AtDispatch
  | PassiveCode.

(** What is left to do around the current statement: code that follows, the
    lowering of the level with the [OldIrql] of the block, the release of a lock. *)
Inductive frame :=
  | Then (c : code)
  | Lower (OldIrql : Z)
  | Unlock (i : nat) (sh : bool).

(** The current statement: code, or one of the statements of a lock macro: the
    spin lock is held and the level to be stored, the level has been read and the
    spin lock is to be released. *)
Inductive control :=
  | Run (c : code)
  | Store (i : nat) (sh : bool) (q : Lock.position) (body : code)
  | Release (i : nat) (sh : bool) (q : Lock.position).

(** A processor, with the values of [CXPLAT_AT_DISPATCH] so far; and the machine. *)
Record cpu := mkCpu { lvl : Z; now : control; stack : list frame; seen : list bool }.
Record machine := mkMachine { dlocks : nat -> DISPATCH_LOCK; cpus : list cpu; crashed : bool }.

Section Machine.
Variable DEBUG : bool.

(** The next statement of a processor: what it does afterwards, and the value of
    [CXPLAT_AT_DISPATCH] if it evaluates it. *)
Definition statement (k : control) (fs : list frame) : M irql_state (control * list frame * list bool) :=
  match k with
  | Run Skip =>
      match fs with
      | [] => fun _ => NoFuel
      | Then c :: fs => mret (Run c, fs, [])
      | Lower OldIrql :: fs => _ ← CXPLAT_LOWER_IRQL OldIrql; mret (Run Skip, fs, [])
      | Unlock i sh :: fs => q ← lock_statement i sh Inside; mret (Release i sh q, fs, [])
      end
  | Run (Seq a b) => mret (Run a, Then b :: fs, [])
  | Run (Raised body) => OldIrql ← CXPLAT_RAISE_IRQL; mret (Run body, Lower OldIrql :: fs, [])
  | Run (Locked i sh body) => q ← lock_statement i sh Outside; mret (Store i sh q body, fs, [])
  | Run AtDispatch => b ← CXPLAT_AT_DISPATCH WinKernelMode; mret (Run Skip, fs, [b])
  | Run PassiveCode => _ ← CXPLAT_PASSIVE_CODE WinKernelMode DEBUG; mret (Run Skip, fs, [])
  | Store i sh q body => _ ← lock_statement i sh q; mret (Run body, Unlock i sh :: fs, [])
  | Release i sh q => _ ← lock_statement i sh q; mret (Run Skip, fs, [])
  end.

(** Processor [k] executes its next statement: [None] if it has none or spins; a
    bug check or a failed assertion crashes the machine. *)
Definition mstep (m : machine) (k : nat) : option machine :=
  c ← cpus m !! k;
  match statement (now c) (stack c) (mkIrql (lvl c) (dlocks m)) with
  | Ret (k', fs, o) s =>
      Some (mkMachine (locks s) (<[k := mkCpu (level s) k' fs (seen c ++ o)]> (cpus m)) (crashed m))
  | Stop _ | Fault _ => Some (mkMachine (dlocks m) (cpus m) true)
  | NoFuel => None
  end.

Fixpoint mrun (m : machine) (sched : list nat) : option machine :=
  match sched with
  | [] => Some m
  | k :: sched => m' ← mstep m k; mrun m' sched
  end.

(** The processors at the given levels, each with its code; all locks are free. *)
Definition start (prev : nat -> Z) (progs : list (Z * code)) : machine :=
  mkMachine (fun i => mkLock Free (prev i)) (map (fun p => mkCpu p.1 (Run p.2) [] []) progs) false.

Definition finished (c : cpu) : Prop := now c = Run Skip /\ stack c = [].

(** ** What the checks should find *)

(** Inside a block or a section the processor is at DISPATCH_LEVEL, outside at the
    level [l] it came with. *)
Fixpoint expected (l : Z) (c : code) : list bool :=
  match c with
  | Skip | PassiveCode => []
  | Seq a b => expected l a ++ expected l b
  | Raised body | Locked _ _ body => expected DISPATCH_LEVEL body
  | AtDispatch => [l =? DISPATCH_LEVEL]
  end.

(** The sections are exclusive, no section of a lock contains a section of the same
    lock ([held]: the locks of the sections around), passive code is only called at
    that level; [ordered]: sections are nested in the order of their locks. *)
Fixpoint well_nested (ordered : bool) (l : Z) (held : list nat) (c : code) : Prop :=
  match c with
  | Skip | AtDispatch => True
  | Seq a b => well_nested ordered l held a /\ well_nested ordered l held b
  | Raised body => well_nested ordered DISPATCH_LEVEL held body
  | Locked i sh body =>
      sh = false /\ (i ∉ held) /\ (ordered = true -> Forall (fun j => (j < i)%nat) held) /\
      well_nested ordered DISPATCH_LEVEL (i :: held) body
  | PassiveCode => DEBUG = true -> l = PASSIVE_LEVEL
  end.

(** The statements of a piece of code. *)
Fixpoint statements (c : code) : nat :=
  match c with
  | Skip => 0
  | Seq a b => S (statements a + S (statements b))
  | Raised body => S (S (statements body))
  | Locked _ _ body => S (S (S (S (statements body))))
  | AtDispatch | PassiveCode => 1
  end.

Definition all_statements (progs : list (Z * code)) : nat := sum_list_with (fun p => statements p.2) progs.

(** ** The invariant *)

(** The level of a processor that came at level [b], and the locks it holds. *)
Fixpoint level_at (b : Z) (fs : list frame) : Z :=
  match fs with
  | [] => b
  | Then _ :: fs => level_at b fs
  | _ => DISPATCH_LEVEL
  end.

Fixpoint unlocks (fs : list frame) : list nat :=
  match fs with
  | [] => []
  | Unlock i _ :: fs => i :: unlocks fs
  | _ :: fs => unlocks fs
  end.

Definition owned (c : cpu) : list nat :=
  match now c with
  | Run _ => unlocks (stack c)
  | Store i _ _ _ | Release i _ _ => i :: unlocks (stack c)
  end.

Variable ordered : bool.

(** The frames hold the levels to go back to, and so do the locks. *)
Fixpoint frames_ok (b : Z) (ls : nat -> DISPATCH_LOCK) (fs : list frame) : Prop :=
  match fs with
  | [] => True
  | Then c :: fs => well_nested ordered (level_at b fs) (unlocks fs) c /\ frames_ok b ls fs
  | Lower OldIrql :: fs => OldIrql = level_at b fs /\ frames_ok b ls fs
  | Unlock i sh :: fs =>
      sh = false /\ (i ∉ unlocks fs) /\ ls i = mkLock Exclusive (level_at b fs) /\ frames_ok b ls fs
  end.

Definition cpu_ok (b : Z) (ls : nat -> DISPATCH_LOCK) (c : cpu) : Prop :=
  frames_ok b ls (stack c) /\
  match now c with
  | Run k => lvl c = level_at b (stack c) /\ well_nested ordered (lvl c) (unlocks (stack c)) k
  | Store i sh q body =>
      sh = false /\ q = Acquired (level_at b (stack c)) /\ lvl c = DISPATCH_LEVEL /\ (i ∉ unlocks (stack c)) /\
      SpinLock (ls i) = Exclusive /\ well_nested ordered DISPATCH_LEVEL (i :: unlocks (stack c)) body
  | Release i sh q =>
      sh = false /\ q = Releasing (level_at b (stack c)) /\ (i ∉ unlocks (stack c)) /\ SpinLock (ls i) = Exclusive
  end.

(** The checks that are still to come. *)
Fixpoint left_frames (b : Z) (fs : list frame) : list bool :=
  match fs with
  | [] => []
  | Then c :: fs => expected (level_at b fs) c ++ left_frames b fs
  | _ :: fs => left_frames b fs
  end.

Definition left (b : Z) (c : cpu) : list bool :=
  (match now c with
   | Run k => expected (level_at b (stack c)) k
   | Store _ _ _ body => expected DISPATCH_LEVEL body
   | Release _ _ _ => []
   end) ++ left_frames b (stack c).

(** The statements that are still to come. *)
Definition frame_weight (f : frame) : nat :=
  match f with Then c => S (statements c) | Lower _ => 1 | Unlock _ _ => 2 end.

Definition weight (c : cpu) : nat :=
  (match now c with
   | Run k => statements k
   | Store _ _ _ body => 3 + statements body
   | Release _ _ _ => 1
   end) + sum_list_with frame_weight (stack c).

Lemma level_at_max b fs : b <= DISPATCH_LEVEL -> level_at b fs <= DISPATCH_LEVEL.
Proof. intros Hb. induction fs as [|[] fs IH]; cbn; lia || done. Qed.

Lemma frames_ok_agree b ls ls' fs :
  (forall i, i ∈ unlocks fs -> ls' i = ls i) -> frames_ok b ls fs -> frames_ok b ls' fs.
Proof.
  induction fs as [|[c|o|i sh] fs IH]; cbn; intros Ha Hf; try done.
  - destruct Hf. by auto.
  - destruct Hf. by auto.
  - destruct Hf as (? & ? & Hi & Hf). rewrite Ha by apply list_elem_of_here. split_and!; try done.
    apply IH; [|done]. intros j Hj. apply Ha. by apply list_elem_of_further.
Qed.

Lemma cpu_ok_agree b ls ls' c : (forall i, i ∈ owned c -> ls' i = ls i) -> cpu_ok b ls c -> cpu_ok b ls' c.
Proof.
  unfold cpu_ok, owned. intros Ha [Hf Hn]. split.
  - eapply frames_ok_agree; [|exact Hf]. intros i Hi. apply Ha. destruct (now c); [done|..]; by apply list_elem_of_further.
  - destruct (now c); [done|..]; by rewrite Ha by apply list_elem_of_here.
Qed.

Lemma owned_held b ls c i : cpu_ok b ls c -> i ∈ owned c -> SpinLock (ls i) = Exclusive.
Proof.
  intros [Hf Hn] Hi.
  assert (forall fs, frames_ok b ls fs -> i ∈ unlocks fs -> SpinLock (ls i) = Exclusive) as Hfs.
  { induction fs as [|[] fs IH]; cbn; [by intros _ ?%not_elem_of_nil|naive_solver|naive_solver|].
    intros (_ & _ & E & Hok) [->|?]%elem_of_cons; [by rewrite E|auto]. }
  unfold owned in Hi. destruct (now c); [by eapply Hfs|..];
    (apply elem_of_cons in Hi as [->|Hi]; [by destruct_and? Hn|by eapply Hfs]).
Qed.

(** What a statement of one processor does: it keeps the processor in order, is
    one of those that were to come, and changes only locks it owns before or
    after; a lock it does not own before was free. *)
Definition good_step (b : Z) (ls : nat -> DISPATCH_LOCK) (c : cpu) (ls' : nat -> DISPATCH_LOCK) (c' : cpu) : Prop :=
  cpu_ok b ls' c' /\ seen c' ++ left b c' = seen c ++ left b c /\ weight c = S (weight c') /\
  (forall j, ls' j = ls j \/ j ∈ owned c \/ j ∈ owned c') /\
  (forall j, j ∈ owned c' -> j ∉ owned c -> SpinLock (ls j) = Free) /\
  (forall j, j ∉ owned c' -> j ∈ owned c -> SpinLock (ls' j) = Free).

(** A statement that changes no lock. *)
Lemma good_quiet b ls c c' :
  cpu_ok b ls c' -> seen c' ++ left b c' = seen c ++ left b c -> weight c = S (weight c') -> owned c' = owned c ->
  good_step b ls c ls c'.
Proof. intros ??? Ho. unfold good_step. rewrite Ho. split_and!; auto; done. Qed.

Lemma set_lock_same i l ls lv : locks (set_lock i l (mkIrql lv ls)) i = l.
Proof. cbn. by rewrite Nat.eqb_refl. Qed.

Lemma set_lock_other i j l ls lv : j <> i -> locks (set_lock i l (mkIrql lv ls)) j = ls j.
Proof. intros H. cbn. by rewrite (proj2 (Nat.eqb_neq _ _)). Qed.

(** The four statements of a lock macro. *)
Lemma good_acquire b ls fs i body o :
  b <= DISPATCH_LEVEL -> cpu_ok b ls (mkCpu (level_at b fs) (Run (Locked i false body)) fs o) -> SpinLock (ls i) = Free ->
  good_step b ls (mkCpu (level_at b fs) (Run (Locked i false body)) fs o)
    (locks (set_lock i (mkLock Exclusive (PrevIrql (ls i))) (mkIrql (level_at b fs) ls)))
    (mkCpu DISPATCH_LEVEL (Store i false (Acquired (level_at b fs)) body) fs o).
Proof.
  intros Hb [Hf [_ (_ & Hi & _ & Hw)]] Hfree. unfold good_step, cpu_ok, owned, left, weight.
  cbn [now stack lvl seen] in *. split_and!; try done.
  - eapply frames_ok_agree; [|exact Hf]. intros j Hj. apply set_lock_other. by intros ->.
  - by rewrite set_lock_same.
  - intros j. destruct (decide (j = i)) as [->|]; [right; right; apply list_elem_of_here|].
    left. by apply set_lock_other.
  - by intros j [->|?]%elem_of_cons ?.
  - intros j Hn Hj. destruct Hn. by apply list_elem_of_further.
Qed.

Lemma good_store b ls fs i body o :
  cpu_ok b ls (mkCpu DISPATCH_LEVEL (Store i false (Acquired (level_at b fs)) body) fs o) ->
  good_step b ls (mkCpu DISPATCH_LEVEL (Store i false (Acquired (level_at b fs)) body) fs o)
    (locks (set_lock i (mkLock (SpinLock (ls i)) (level_at b fs)) (mkIrql DISPATCH_LEVEL ls)))
    (mkCpu DISPATCH_LEVEL (Run body) (Unlock i false :: fs) o).
Proof.
  intros [Hf (_ & _ & _ & Hi & He & Hw)]. unfold good_step, cpu_ok, owned, left, weight.
  cbn [now stack lvl seen] in *. split_and!; try done.
  - cbn [frames_ok]. rewrite set_lock_same, He. split_and!; try done.
    eapply frames_ok_agree; [|exact Hf]. intros j Hj. apply set_lock_other. by intros ->.
  - cbn. lia.
  - intros j. destruct (decide (j = i)) as [->|]; [right; right; apply list_elem_of_here|].
    left. by apply set_lock_other.
Qed.

Lemma good_read b ls fs i o :
  cpu_ok b ls (mkCpu DISPATCH_LEVEL (Run Skip) (Unlock i false :: fs) o) ->
  good_step b ls (mkCpu DISPATCH_LEVEL (Run Skip) (Unlock i false :: fs) o)
    (locks (set_lock i (ls i) (mkIrql DISPATCH_LEVEL ls)))
    (mkCpu DISPATCH_LEVEL (Release i false (Releasing (PrevIrql (ls i)))) fs o).
Proof.
  intros [(_ & Hi & He & Hf) _]. unfold good_step, cpu_ok, owned, left, weight.
  cbn [now stack lvl seen] in *. split_and!; try done.
  - eapply frames_ok_agree; [|exact Hf]. intros j Hj. apply set_lock_other. by intros ->.
  - by rewrite He.
  - by rewrite set_lock_same, He.
  - intros j. destruct (decide (j = i)) as [->|]; [left; apply set_lock_same|]. left. by apply set_lock_other.
Qed.

Lemma good_release b ls fs i lv o :
  cpu_ok b ls (mkCpu lv (Release i false (Releasing (level_at b fs))) fs o) ->
  good_step b ls (mkCpu lv (Release i false (Releasing (level_at b fs))) fs o)
    (locks (set_lock i (mkLock (release (SpinLock (ls i))) (PrevIrql (ls i))) (mkIrql lv ls)))
    (mkCpu (level_at b fs) (Run Skip) fs o).
Proof.
  intros [Hf (_ & _ & Hi & He)]. unfold good_step, cpu_ok, owned, left, weight.
  cbn [now stack lvl seen] in *. split_and!; try done.
  - eapply frames_ok_agree; [|exact Hf]. intros j Hj. apply set_lock_other. by intros ->.
  - intros j. destruct (decide (j = i)) as [->|]; [right; left; apply list_elem_of_here|].
    left. by apply set_lock_other.
  - intros j Hj Hn. destruct Hn. by apply list_elem_of_further.
  - intros j Hj [->|?]%elem_of_cons; [by rewrite set_lock_same, He|done].
Qed.

(** A processor that has no step has finished, or waits for a lock. *)
Definition waits (ls : nat -> DISPATCH_LOCK) (c : cpu) (i : nat) : Prop :=
  (exists sh body, now c = Run (Locked i sh body)) /\ SpinLock (ls i) <> Free.

Lemma statement_good b ls c :
  b <= DISPATCH_LEVEL -> cpu_ok b ls c ->
  match statement (now c) (stack c) (mkIrql (lvl c) ls) with
  | Ret (k, fs, o) s => good_step b ls c (locks s) (mkCpu (level s) k fs (seen c ++ o))
  | NoFuel => finished c \/ exists i, waits ls c i
  | _ => False
  end.
Proof.
  intros Hb Hok. pose proof (level_at_max b (stack c) Hb) as Hmax.
  destruct c as [lv k fs o]. pose proof Hok as [Hf Hn]. cbn [now stack lvl seen] in *.
  destruct k as [[|x y|x|i sh x| |]|i sh q x|i sh q].
  - destruct Hn as [-> _]. destruct fs as [|[x|old|i sh] fs]; [by left|..]; cbn [frames_ok] in Hf.
    + cbn [statement]. rewrite ret_app. cbv beta iota. rewrite app_nil_r. destruct Hf. by apply good_quiet.
    + destruct Hf as [-> Hf]. pose proof (level_at_max b fs Hb) as Hm'. unfold statement, CXPLAT_LOWER_IRQL, KeLowerIrql, mbind, M_bind.
      cbn [level level_at]. rewrite (proj2 (Z.leb_le _ _)) by done. rewrite ret_app. cbv beta iota. rewrite app_nil_r. by apply good_quiet.
    + destruct Hf as (-> & Hi & He & Hf). unfold statement, lock_statement, mbind, M_bind. cbn. rewrite app_nil_r. by apply good_read.
  - destruct Hn as [-> [Hx Hy]]. cbn [statement]. rewrite ret_app. cbv beta iota. rewrite app_nil_r. apply good_quiet; try done.
    + unfold left. cbn. by rewrite <- app_assoc.
    + unfold weight. cbn. lia.
  - destruct Hn as [-> Hw]. unfold statement, CXPLAT_RAISE_IRQL, KeRaiseIrql, mbind, M_bind. cbn [level].
    rewrite (proj2 (Z.leb_le _ _)) by done. rewrite ret_app. cbv beta iota. rewrite app_nil_r. apply good_quiet; try done.
    unfold weight. cbn. lia.
  - destruct Hn as [-> (-> & Hi & Ho & Hw)]. unfold statement, lock_statement, mbind, M_bind, processor_step.
    cbn [pos irql shared locks level]. rewrite (proj2 (Z.ltb_ge _ _)) by done.
    destruct (SpinLock (ls i)) eqn:Hs; cbn [acquire_exclusive].
    + cbv beta iota. cbn -[level_at set_lock]. rewrite app_nil_r. by apply good_acquire.
    + right. exists i. split; [by eexists _, _|]. by rewrite Hs.
    + right. exists i. split; [by eexists _, _|]. by rewrite Hs.
  - destruct Hn as [-> _]. cbn. apply good_quiet; try done. unfold left. cbn. by rewrite <- app_assoc.
  - destruct Hn as [-> Hw]. cbn -[level_at]. unfold KernelIrql.CXPLAT_PASSIVE_CODE, dbg_assert, mbind, M_bind. cbn [KernelIrql.CXPLAT_IRQL level].
    assert ((if DEBUG then fre_assert (level_at b fs =? PASSIVE_LEVEL) else mret tt) (mkIrql (level_at b fs) ls)
      = Ret tt (mkIrql (level_at b fs) ls)) as ->.
    { cbn in Hw. destruct DEBUG; [|done]. by rewrite Hw. }
    rewrite ret_app. cbv beta iota. rewrite app_nil_r. by apply good_quiet.
  - destruct Hn as (-> & -> & -> & Hrest). unfold statement, lock_statement, mbind, M_bind. cbn. rewrite app_nil_r. by apply good_store.
  - destruct Hn as (-> & -> & Hrest). unfold statement, lock_statement, mbind, M_bind. cbn. rewrite app_nil_r. by apply good_release.
Qed.

(** The machine: every processor is in order with what it came with, no lock has
    two owners, and a lock without an owner is free. *)
Record Inv (progs : list (Z * code)) (m : machine) : Prop := {
  inv_up : crashed m = false;
  inv_len : length (cpus m) = length progs;
  inv_cpu k c p : cpus m !! k = Some c -> progs !! k = Some p ->
    cpu_ok p.1 (dlocks m) c /\ seen c ++ left p.1 c = expected p.1 p.2;
  inv_one k k' c c' i : cpus m !! k = Some c -> cpus m !! k' = Some c' -> i ∈ owned c -> i ∈ owned c' -> k = k';
  inv_free i : (forall k c, cpus m !! k = Some c -> i ∉ owned c) -> SpinLock (dlocks m i) = Free
}.

Definition weights (m : machine) : nat := sum_list_with weight (cpus m).

Definition below_dispatch (progs : list (Z * code)) : Prop := Forall (fun p => p.1 <= DISPATCH_LEVEL) progs.

Lemma inv_prog progs m k c : Inv progs m -> cpus m !! k = Some c -> exists p, progs !! k = Some p.
Proof. intros HI Hc. apply lookup_lt_is_Some_2. rewrite <- (inv_len _ _ HI). by eapply lookup_lt_Some. Qed.

(** A good step of one processor keeps the invariant. *)
Lemma inv_good progs m k c p ls' c' :
  Inv progs m -> cpus m !! k = Some c -> progs !! k = Some p -> good_step p.1 (dlocks m) c ls' c' ->
  Inv progs (mkMachine ls' (<[k := c']> (cpus m)) (crashed m)).
Proof.
  intros HI Hc Hp (Hok & Hseen & _ & Hother & Hacq & Hrel).
  assert (forall j d i, j <> k -> cpus m !! j = Some d -> i ∈ owned d -> (i ∉ owned c) /\ (i ∉ owned c')) as Hsep.
  { intros j d i Hj Hd Hi. assert (i ∉ owned c) as Hn by (intros Hi'; apply Hj; by eapply (inv_one _ _ HI)).
    split; [done|]. intros Hi'. specialize (Hacq i Hi' Hn). destruct (inv_prog _ _ _ _ HI Hd) as [p' Hp'].
    destruct (inv_cpu _ _ HI _ _ _ Hd Hp') as [Hd' _]. by rewrite (owned_held _ _ _ _ Hd' Hi) in Hacq. }
  split; cbn [dlocks cpus crashed].
  - apply (inv_up _ _ HI).
  - rewrite length_insert. apply (inv_len _ _ HI).
  - intros j d q [(<- & <- & _)|(Hne & Hd)]%list_lookup_insert_Some Hq.
    + rewrite Hp in Hq. injection Hq as <-. rewrite Hseen. split; [done|]. by apply (inv_cpu _ _ HI k).
    + destruct (inv_cpu _ _ HI _ _ _ Hd Hq) as [Hd' Hs]. split; [|done]. eapply cpu_ok_agree; [|exact Hd'].
      intros i Hi. destruct (Hsep j d i) as [Hn Hn']; [done..|]. by destruct (Hother i) as [|[|]].
  - intros j j' d d' i [(<- & <- & _)|(Hne & Hd)]%list_lookup_insert_Some
      [(<- & <- & _)|(Hne' & Hd')]%list_lookup_insert_Some Hi Hi'; try done.
    + by destruct (Hsep j' d' i) as [_ []].
    + by destruct (Hsep j d i) as [_ []].
    + by eapply (inv_one _ _ HI).
  - intros i Hno.
    assert (i ∉ owned c') as Hn' by (apply (Hno k), list_lookup_insert_eq; by eapply lookup_lt_Some).
    destruct (decide (i ∈ owned c)) as [Hi|Hi]; [by apply Hrel|].
    destruct (Hother i) as [->|[|]]; [|done..]. apply (inv_free _ _ HI). intros j d Hd.
    destruct (decide (j = k)) as [->|Hne]; [by rewrite Hc in Hd; injection Hd as <-|].
    apply (Hno j). by rewrite list_lookup_insert_ne.
Qed.

Lemma weights_step m k c c' ls b :
  cpus m !! k = Some c -> weight c = S (weight c') ->
  weights m = S (weights (mkMachine ls (<[k := c']> (cpus m)) b)).
Proof.
  unfold weights. cbn [cpus]. generalize (cpus m). intros l Hc Hw.
  revert k Hc. induction l as [|x l IH]; intros [|k] Hc; try done.
  - injection Hc as ->. cbn. lia.
  - change (<[S k := c']> (x :: l)) with (x :: <[k := c']> l). cbn [sum_list_with]. specialize (IH k Hc). lia.
Qed.

Lemma mstep_inv progs m k m' :
  below_dispatch progs -> Inv progs m -> mstep m k = Some m' -> Inv progs m' /\ weights m = S (weights m').
Proof.
  intros Hb HI Hs. unfold mstep in Hs. destruct (cpus m !! k) as [c|] eqn:Hc; [|done]. cbn in Hs.
  destruct (inv_prog _ _ _ _ HI Hc) as [p Hp].
  destruct (inv_cpu _ _ HI _ _ _ Hc Hp) as [Hok _].
  pose proof (statement_good p.1 (dlocks m) c (proj1 (Forall_lookup _ _) Hb _ _ Hp) Hok) as Hg.
  destruct (statement _ _ _) as [[[k' fs] o] s| | |]; try done. injection Hs as <-.
  split; [by eapply inv_good|]. eapply weights_step; [exact Hc|]. apply Hg.
Qed.

Lemma mrun_inv progs m sched m' :
  below_dispatch progs -> Inv progs m -> mrun m sched = Some m' ->
  Inv progs m' /\ (length sched + weights m' = weights m)%nat.
Proof.
  intros Hb. revert m. induction sched as [|k sched IH]; intros m HI; cbn.
  - by intros [= <-].
  - destruct (mstep m k) as [m1|] eqn:Hs; [|done]. cbn. intros Hr.
    destruct (mstep_inv _ _ _ _ Hb HI Hs) as [HI1 Hw]. destruct (IH m1 HI1 Hr) as [? Hl]. split; [done|]. lia.
Qed.

Lemma start_inv prev progs :
  Forall (fun p => well_nested ordered p.1 [] p.2) progs -> Inv progs (start prev progs).
Proof.
  intros Hw. unfold start.
  assert (forall k c, map (fun p : Z * code => mkCpu p.1 (Run p.2) [] []) progs !! k = Some c ->
    exists p, progs !! k = Some p /\ c = mkCpu p.1 (Run p.2) [] []) as Hinit.
  { intros k c Hc. rewrite list_lookup_fmap in Hc. destruct (progs !! k) as [p|]; [|done]. injection Hc as <-. by exists p. }
  split; cbn [crashed cpus dlocks].
  - done.
  - apply length_map.
  - intros k c p (p' & Hp' & ->)%Hinit Hp. rewrite Hp in Hp'. injection Hp' as <-.
    unfold left. cbn. rewrite app_nil_r. split; [|done]. split; [done|]. cbn. split; [done|].
    exact (proj1 (Forall_lookup _ _) Hw _ _ Hp).
  - intros k k' c c' i (p & _ & ->)%Hinit _ []%not_elem_of_nil.
  - done.
Qed.

Lemma start_weights prev progs : weights (start prev progs) = all_statements progs.
Proof.
  unfold weights, all_statements, start. cbn. induction progs as [|p progs IH]; [done|]. cbn in *. rewrite IH.
  unfold weight. cbn. lia.
Qed.

(** A processor without a step has finished, or waits for a lock. *)
Lemma no_step progs m k c :
  below_dispatch progs -> Inv progs m -> cpus m !! k = Some c -> mstep m k = None ->
  finished c \/ exists i, waits (dlocks m) c i.
Proof.
  intros Hb HI Hc Hs. unfold mstep in Hs. rewrite Hc in Hs. cbn in Hs.
  destruct (inv_prog _ _ _ _ HI Hc) as [p Hp].
  destruct (inv_cpu _ _ HI _ _ _ Hc Hp) as [Hok _].
  pose proof (statement_good p.1 (dlocks m) c (proj1 (Forall_lookup _ _) Hb _ _ Hp) Hok) as Hg.
  by destruct (statement _ _ _) as [[[k' fs] o] s| | |].
Qed.

(** Where sections are nested in the order of the locks, a waiting processor waits
    for a lock above all those it owns, so that the waiting cannot be circular. *)
Lemma nobody_waits progs m :
  ordered = true -> below_dispatch progs -> Inv progs m -> (forall k, mstep m k = None) ->
  forall k c i, cpus m !! k = Some c -> ~ waits (dlocks m) c i.
Proof.
  intros Ho Hb HI Hstuck.
  assert (exists B, forall k c i, cpus m !! k = Some c -> waits (dlocks m) c i -> (i <= B)%nat) as [B HB].
  { clear. generalize (cpus m). intros l. induction l as [|x l [B IH]]; [by exists O|].
    assert (exists b, forall i, waits (dlocks m) x i -> (i <= b)%nat) as [b Hx].
    { destruct (now x) as [[| | |i sh body| |]| |] eqn:E; try (exists O; intros ? [(? & ? & E') _]; congruence).
      exists i. intros j [(? & ? & E') _]. rewrite E in E'. by injection E' as ->. }
    exists (max B b). intros [|k] c i Hc Hw; cbn in Hc; [injection Hc as ->; specialize (Hx _ Hw); lia|].
    specialize (IH _ _ _ Hc Hw). lia. }
  assert (forall n k c i, (B < i + n)%nat -> cpus m !! k = Some c -> ~ waits (dlocks m) c i) as Hall.
  2:{ intros k c i. apply (Hall (S B)). lia. }
  induction n as [|n IH]; intros k c i Hn Hc Hw; [specialize (HB _ _ _ Hc Hw); lia|].
  destruct (decide (Exists (fun d => i ∈ owned d) (cpus m))) as [He|He].
  2:{ destruct Hw as [_ []]. apply (inv_free _ _ HI). intros j d Hd Hi. apply He, Exists_exists. exists d.
      split; [by eapply list_elem_of_In, list_elem_of_lookup_2|done]. }
  apply Exists_exists in He as (d & [k' Hd]%list_elem_of_In%list_elem_of_lookup & Hi).
  destruct (no_step _ _ _ _ Hb HI Hd (Hstuck k')) as [[En Es]|[j Hj]].
  { unfold owned in Hi. rewrite En, Es in Hi. by apply not_elem_of_nil in Hi. }
  apply (IH k' d j); [|done|exact Hj]. destruct Hj as [(sh & body & En) _].
  destruct (inv_prog _ _ _ _ HI Hd) as [p Hp]. destruct (inv_cpu _ _ HI _ _ _ Hd Hp) as [[_ Hok] _].
  unfold owned in Hi. rewrite En in Hok, Hi. destruct Hok as [_ (_ & _ & Hord & _)].
  specialize (Hord Ho). rewrite Forall_forall in Hord. specialize (Hord _ (proj1 (list_elem_of_In _ _) Hi)). lia.
Qed.

End Machine.

(** C27: in the kernel, any number of processors at levels up to DISPATCH_LEVEL each
    run code that raises the level in blocks and takes dispatch locks exclusively in
    sections, nested in any way except that no section of a lock contains one of the
    same lock.  In every interleaving of their statements no bug check and no failed
    assertion occurs and every value of [CXPLAT_AT_DISPATCH] is the expected one,
    true inside a block or section and that of the level the processor came with
    outside; a processor that is done is back at that level; and there are no more
    steps than statements.  If sections are nested in an order of the locks, the
    machine only comes to rest when all processors are done and all locks free. *)
Theorem irql_nesting DEBUG ordered prev progs sched m :
  below_dispatch progs -> Forall (fun p => well_nested DEBUG ordered p.1 [] p.2) progs ->
  mrun DEBUG (start prev progs) sched = Some m ->
  crashed m = false /\ (length sched <= all_statements progs)%nat /\
  (forall k c p, cpus m !! k = Some c -> progs !! k = Some p ->
     seen c `prefix_of` expected p.1 p.2 /\ (finished c -> seen c = expected p.1 p.2 /\ lvl c = p.1)) /\
  (ordered = true -> (forall k, mstep DEBUG m k = None) ->
     (forall k c, cpus m !! k = Some c -> finished c) /\ forall i, SpinLock (dlocks m i) = Free).
Proof.
  intros Hb Hw Hr. pose proof (start_inv DEBUG ordered prev progs Hw) as HI0.
  destruct (mrun_inv _ _ _ _ _ _ Hb HI0 Hr) as [HI Hlen]. rewrite start_weights in Hlen.
  split; [apply (inv_up _ _ _ _ HI)|]. split; [lia|]. split.
  - intros k c p Hc Hp. destruct (inv_cpu _ _ _ _ HI _ _ _ Hc Hp) as [[_ Hok] Hs]. split; [by eexists|].
    intros [En Es]. unfold left in Hs. rewrite En, Es in Hs, Hok. cbn in Hs. rewrite app_nil_r in Hs.
    split; [done|apply Hok].
  - intros Ho Hstuck. pose proof (nobody_waits _ _ _ _ Ho Hb HI Hstuck) as Hnw.
    assert (forall k c, cpus m !! k = Some c -> finished c) as Hfin.
    { intros k c Hc. destruct (no_step _ _ _ _ _ _ Hb HI Hc (Hstuck k)) as [|[i Hi]]; [done|]. by destruct (Hnw k c i Hc). }
    split; [exact Hfin|]. intros i. apply (inv_free _ _ _ _ HI). intros k c Hc Hi.
    destruct (Hfin k c Hc) as [En Es]. unfold owned in Hi. rewrite En, Es in Hi. by apply not_elem_of_nil in Hi.
Qed.

(** Two processors, at PASSIVE_LEVEL and at DISPATCH_LEVEL, that use the same two
    locks. *)
Definition two_locks : code := Locked 0 false (Seq (Locked 1 false AtDispatch) AtDispatch).
Definition two_cpus : list (Z * code) :=
  [(PASSIVE_LEVEL, Seq PassiveCode (Seq (Raised two_locks) AtDispatch)); (DISPATCH_LEVEL, Seq two_locks AtDispatch)].

Lemma two_cpus_below : below_dispatch two_cpus.
Proof. by repeat apply Forall_cons_2. Qed.

Lemma two_cpus_nested : Forall (fun p => well_nested true true p.1 [] p.2) two_cpus.
Proof.
  assert (well_nested true true DISPATCH_LEVEL [] two_locks) as H.
  { unfold two_locks. cbn [well_nested]. split_and!; try done.
    - set_solver.
    - set_solver.
    - intros _. apply Forall_singleton. lia. }
  apply Forall_cons_2; [by split_and!|]. apply Forall_cons_2; [by split_and!|by apply Forall_nil_2].
Qed.

(** The second comes first and the first spins until it is done. *)
Lemma irql_nesting_witness :
  exists m c, mrun true (start (fun _ => 0) two_cpus) (replicate 15 1 ++ replicate 20 0)%nat = Some m /\
    cpus m !! O = Some c /\ seen c = [true; true; false] /\ lvl c = PASSIVE_LEVEL /\
    forall i, SpinLock (dlocks m i) = Free.
Proof.
  assert (option_map cpus (mrun true (start (fun _ => 0) two_cpus) (replicate 15 1 ++ replicate 20 0)%nat) =
    Some [mkCpu 0 (Run Skip) [] [true; true; false]; mkCpu 2 (Run Skip) [] [true; true; true]]) as Hm
    by (vm_compute; reflexivity).
  destruct (mrun _ _ _) as [m|] eqn:E; [|done]. injection Hm as Hm. exists m, (mkCpu 0 (Run Skip) [] [true; true; false]).
  destruct (irql_nesting true true (fun _ => 0) two_cpus (replicate 15 1 ++ replicate 20 0)%nat m
    two_cpus_below two_cpus_nested E) as (_ & _ & Hc & Hp).
  split; [done|]. split; [by rewrite Hm|].
  destruct (Hc O (mkCpu 0 (Run Skip) [] [true; true; false]) _ ltac:(by rewrite Hm) eq_refl) as [_ Hf].
  destruct (Hf (conj eq_refl eq_refl)) as [Hs Hl]. split; [exact Hs|]. split; [exact Hl|]. apply Hp; [exact eq_refl|].
  intros k. unfold mstep. rewrite Hm. destruct k as [|[|k]]; reflexivity.
Defined.

(** Shared sections are not like that: a shared section inside a shared section of
    the same lock overwrites the saved level, and the processor leaves both at
    DISPATCH_LEVEL; two readers on two processors do it too (file Lock).  An
    exclusive section inside an exclusive one of the same lock never gets on. *)
Theorem nested_shared_section DEBUG :
  (exists m c, mrun DEBUG (start (fun _ => 0) [(PASSIVE_LEVEL, Locked 0 true (Locked 0 true Skip))])
      (replicate 8 O) = Some m /\ cpus m !! O = Some c /\ finished c /\ lvl c = DISPATCH_LEVEL) /\
  (exists m, mrun DEBUG (start (fun _ => 0) [(PASSIVE_LEVEL, Locked 0 false (Locked 0 false Skip))])
      (replicate 2 O) = Some m /\ forall k, mstep DEBUG m k = None).
Proof.
  destruct DEBUG; (split; [eexists _, _; split; [vm_compute; reflexivity|]; by split|
    eexists; split; [vm_compute; reflexivity|]; by intros [|k]]).
Qed.

(** The macros outside the kernel: the level is always PASSIVE_LEVEL, so that code
    never is at DISPATCH_LEVEL and the check of passive code never fails. *)
Theorem irql_outside_kernel p DEBUG s :
  p <> WinKernelMode ->
  CXPLAT_IRQL p s = Ret PASSIVE_LEVEL s /\ CXPLAT_AT_DISPATCH p s = Ret false s /\
  CXPLAT_PASSIVE_CODE p DEBUG s = Ret tt s.
Proof. by destruct p, DEBUG. Qed.
