(* ===== verification/TestLib.v ===== *)
(** * The test macros (src/test/lib/TestAbstractionLayer.h)

    The platform-independent tests are functions that call the library and check
    what it does with these macros.  A failing check is reported by
    [LogTestFailure] with its line and ends the function, by a return or, in the
    goto variants, at the function's [Failure] label, after which it releases what
    it has.  A test is a computation whose value is the line of the check that
    failed, or what it goes on with. *)

From S2P Require Import Prelude.

(** A computation of a test: the line of a failed check, or a value. *)
Definition Test (S A : Type) : Type := M S (Z + A).

#[export] Instance Test_ret S : MRet (Test S) := fun A a s => Ret (inr a) s.
#[export] Instance Test_bind S : MBind (Test S) := fun A B k m s =>
  match m s with
  | Ret (inr a) s' => k a s'
  | Ret (inl line) s' => Ret (inl line) s'
  | Stop r => Stop r
  | Fault f => Fault f
  | NoFuel => NoFuel
  end.

Definition lift {S A} (m : M S A) : Test S A := fun s =>
  match m s with
  | Ret a s' => Ret (inr a) s'
  | Stop r => Stop r
  | Fault f => Fault f
  | NoFuel => NoFuel
  end.

Section Macros.
Context {S : Type}.

(** [LogTestFailure] and the jump out of the function. *)
Definition TEST_FAILURE {A} (line : Z) : Test S A := fun s => Ret (inl line) s.

Definition TEST_TRUE (line : Z) (condition : bool) : Test S unit :=
  if negb condition then TEST_FAILURE line else mret tt.

Definition TEST_FALSE (line : Z) (condition : bool) : Test S unit :=
  if condition then TEST_FAILURE line else mret tt.

Definition TEST_EQUAL (line expected condition : Z) : Test S unit :=
  if negb (condition =? expected) then TEST_FAILURE line else mret tt.

Definition TEST_NOT_EQUAL (line expected condition : Z) : Test S unit :=
  if condition =? expected then TEST_FAILURE line else mret tt.

(** [failed] is the platform's [CXPLAT_FAILED]. *)
Definition TEST_CXPLAT (failed : Z -> bool) (line status : Z) : Test S unit :=
  if failed status then TEST_FAILURE line else mret tt.

(** The part of a function up to its [Failure] label, whose checks jump there, and
    the code after the label, which runs in any case. *)
Definition Failure (body : Test S unit) (label : M S unit) : Test S unit := fun s =>
  match body s with
  | Ret r s' => match label s' with Ret _ s'' => Ret r s'' | Stop x => Stop x | Fault f => Fault f | NoFuel => NoFuel end
  | Stop r => Stop r
  | Fault f => Fault f
  | NoFuel => NoFuel
  end.

(** [for (i = i0; i < i0 + n; i++) body(i)]. *)
Fixpoint for_loop (n : nat) (i : Z) (body : Z -> Test S unit) : Test S unit :=
  match n with
  | O => mret tt
  | Datatypes.S n => _ ← body i; for_loop n (i + 1) body
  end.
End Macros.

(** ** Rules *)

Section Rules.
Context {S : Type}.

Lemma test_bind {A B} (m : Test S A) (k : A -> Test S B) s a s' :
  m s = Ret (inr a) s' -> (mbind k m) s = k a s'.
Proof. intros H. unfold mbind, Test_bind. by rewrite H. Qed.

Lemma test_fails {A B} (m : Test S A) (k : A -> Test S B) s line s' :
  m s = Ret (inl line) s' -> (mbind k m) s = Ret (inl line) s'.
Proof. intros H. unfold mbind, Test_bind. by rewrite H. Qed.

Lemma lift_value {A} (m : M S A) s a s' : m s = Ret a s' -> lift m s = Ret (inr a) s'.
Proof. intros H. unfold lift. by rewrite H. Qed.

Lemma lift_bind {A B} (m : M S A) (k : A -> Test S B) s a s' :
  m s = Ret a s' -> (mbind k (lift m)) s = k a s'.
Proof. intros H. by apply test_bind, lift_value. Qed.

Lemma failure_label (body : Test S unit) (label : M S unit) s r s1 s2 :
  body s = Ret r s1 -> label s1 = Ret tt s2 -> Failure body label s = Ret r s2.
Proof. intros H1 H2. unfold Failure. by rewrite H1, H2. Qed.

(** A loop all of whose checks hold, with an invariant. *)
Lemma for_loop_passes (Inv : Z -> S -> Prop) n i (body : Z -> Test S unit) s :
  Inv i s ->
  (forall j s, i <= j < i + Z.of_nat n -> Inv j s -> exists s', body j s = Ret (inr tt) s' /\ Inv (j + 1) s') ->
  exists s', for_loop n i body s = Ret (inr tt) s' /\ Inv (i + Z.of_nat n) s'.
Proof.
  induction n as [|n IH] in i, s |- *; intros Hi Hb; cbn [for_loop].
  - exists s. split; [done|]. by replace (i + Z.of_nat 0) with i by lia.
  - destruct (Hb i s) as (s1 & E1 & I1); [lia|done|]. rewrite (test_bind _ _ _ _ _ E1).
    destruct (IH (i + 1) s1 I1) as (s2 & E2 & I2); [intros j t Hj; apply Hb; lia|].
    exists s2. split; [done|]. by replace (i + Z.of_nat (Datatypes.S n)) with (i + 1 + Z.of_nat n) by lia.
Qed.

(** A loop whose checks hold, or one of which fails at [line], which shows [P]. *)
Lemma for_loop_cases (Inv : Z -> S -> Prop) (P : Prop) line n i (body : Z -> Test S unit) s :
  Inv i s ->
  (forall j s, i <= j < i + Z.of_nat n -> Inv j s ->
     (exists s', body j s = Ret (inr tt) s' /\ Inv (j + 1) s') \/ (P /\ exists s', body j s = Ret (inl line) s')) ->
  (exists s', for_loop n i body s = Ret (inr tt) s' /\ Inv (i + Z.of_nat n) s') \/
  (P /\ exists s', for_loop n i body s = Ret (inl line) s').
Proof.
  induction n as [|n IH] in i, s |- *; intros Hi Hb; cbn [for_loop].
  - left. exists s. split; [done|]. by replace (i + Z.of_nat 0) with i by lia.
  - destruct (Hb i s) as [(s1 & E1 & I1)|(HP & s1 & E1)]; [lia|done| |right; split; [done|]; exists s1; by apply test_fails].
    rewrite (test_bind _ _ _ _ _ E1).
    destruct (IH (i + 1) s1 I1) as [(s2 & E2 & I2)|Hf]; [intros j t Hj; apply Hb; lia| |by right].
    left. exists s2. split; [done|]. by replace (i + Z.of_nat (Datatypes.S n)) with (i + 1 + Z.of_nat n) by lia.
Qed.

(** A loop up to a check that fails. *)
Lemma for_loop_app n m i (body : Z -> Test S unit) s s1 :
  for_loop n i body s = Ret (inr tt) s1 ->
  for_loop (n + m) i body s = for_loop m (i + Z.of_nat n) body s1.
Proof.
  induction n as [|n IH] in i, s |- *; cbn [for_loop Nat.add].
  - intros [= <-]. f_equal. lia.
  - destruct (body i s) as [[line|u] s2| | |] eqn:E; unfold mbind, Test_bind; rewrite E; try done.
    intros H. rewrite (IH (i + 1) s2 H). f_equal. lia.
Qed.
End Rules.
