(* ===== verification/Memory.v ===== *)
(** * Memory macros and the memory test

    [CxPlatZeroMemory], [CxPlatCopyMemory], [CxPlatMoveMemory] and
    [CxPlatSecureZeroMemory] of the three platforms (inc/cxplat_posix.h,
    cxplat_winuser.h, cxplat_winkernel.h), over blocks of bytes, and the test of
    allocation and of these macros, src/test/lib/MemoryTest.cpp.  [Allocator] is
    what the test uses of a platform's heap, with the facts it relies on as laws;
    the heaps of user mode and of POSIX (files WinUser and Platform) are
    instances. *)

From S2P Require Import Prelude WinUser WinUserTheorems Platform TestLib.

(** ** Bytes *)

(** Memory that may be accessed: blocks of the heap and static objects, with the
    bytes they hold. *)
Abbreviation place := (nat + nat)%type.
#[export] Instance place_countable : Countable place | 0 := sum_countable.
Definition heap_block (b : nat) : place := inl b.
Definition static_object (b : nat) : place := inr b.
Abbreviation contents := (gmap place (list Z)).

(** A pointer: an object and an offset. *)
Abbreviation pointer := (place * Z)%type.

(** [n] bytes from [off] on are inside a block. *)
Definition in_block (off n : Z) (l : list Z) : bool := (0 <=? off) && (0 <=? n) && (off + n <=? Z.of_nat (length l)).

Definition read_bytes (p : pointer) (n : Z) : M contents (list Z) := fun m =>
  match m !! p.1 with
  | Some l => if in_block p.2 n l then Ret (take (Z.to_nat n) (drop (Z.to_nat p.2) l)) m else Fault BadAccess
  | None => Fault BadAccess
  end.

Definition overwrite (off : nat) (bytes l : list Z) : list Z := take off l ++ bytes ++ drop (off + length bytes) l.

Definition write_bytes (p : pointer) (bytes : list Z) : M contents unit := fun m =>
  match m !! p.1 with
  | Some l => if in_block p.2 (Z.of_nat (length bytes)) l
              then Ret tt (<[p.1 := overwrite (Z.to_nat p.2) bytes l]> m) else Fault BadAccess
  | None => Fault BadAccess
  end.

(** Two ranges of [n] bytes have one in common. *)
Definition overlap (p q : pointer) (n : Z) : bool :=
  bool_decide (p.1 = q.1) && (p.2 <? q.2 + n) && (q.2 <? p.2 + n).

(** The functions of the C library and of Windows behind the macros.  Copying
    between overlapping ranges is undefined, moving is not; the stores of
    [RtlSecureZeroMemory] are those of [RtlZeroMemory], but are never removed by
    the compiler. *)
Definition memset (p : pointer) (c n : Z) : M contents unit := write_bytes p (replicate (Z.to_nat n) (u8 c)).
Definition memmove (dst src : pointer) (n : Z) : M contents unit :=
  bytes ← read_bytes src n; write_bytes dst bytes.
Definition memcpy (dst src : pointer) (n : Z) : M contents unit :=
  if overlap dst src n then fail_with BadAccess else memmove dst src n.

(** ** The macros *)

Record memory_api := mkMemoryApi {
  ZeroMemory : pointer -> Z -> M contents unit;
  CopyMemory : pointer -> pointer -> Z -> M contents unit;
  MoveMemory : pointer -> pointer -> Z -> M contents unit;
  SecureZeroMemory : pointer -> Z -> M contents unit
}.

Module PosixMemory.
Definition CxPlatZeroMemory (Destination : pointer) (Length : Z) : M contents unit := memset Destination 0 Length.
Definition CxPlatCopyMemory (Destination Source : pointer) (Length : Z) : M contents unit :=
  memcpy Destination Source Length.
Definition CxPlatMoveMemory (Destination Source : pointer) (Length : Z) : M contents unit :=
  memmove Destination Source Length.
Definition CxPlatSecureZeroMemory : pointer -> Z -> M contents unit := CxPlatZeroMemory.
End PosixMemory.

Module WinMemory.
Definition RtlZeroMemory (Destination : pointer) (Length : Z) : M contents unit := memset Destination 0 Length.
Definition CxPlatZeroMemory : pointer -> Z -> M contents unit := RtlZeroMemory.
Definition CxPlatCopyMemory : pointer -> pointer -> Z -> M contents unit := memcpy.
Definition CxPlatMoveMemory : pointer -> pointer -> Z -> M contents unit := memmove.
Definition CxPlatSecureZeroMemory : pointer -> Z -> M contents unit := RtlZeroMemory.
End WinMemory.

(** The macros of the kernel are those of user mode. *)
Definition memory_of (posix : bool) : memory_api :=
  if posix
  then mkMemoryApi PosixMemory.CxPlatZeroMemory PosixMemory.CxPlatCopyMemory
         PosixMemory.CxPlatMoveMemory PosixMemory.CxPlatSecureZeroMemory
  else mkMemoryApi WinMemory.CxPlatZeroMemory WinMemory.CxPlatCopyMemory
         WinMemory.CxPlatMoveMemory WinMemory.CxPlatSecureZeroMemory.

(** ** The heap of a platform *)

(** [garbage] is what a new block of a size holds. *)
Class Allocator (St : Type) := {
  alloc : Z -> Z -> M St (option nat);
  free : option nat -> Z -> M St unit;
  garbage : Z -> list Z;
  heap_ok : St -> Prop;          (** what the calls need *)
  live : St -> gset nat;         (** the blocks that are allocated *)
  tagged : St -> nat -> Z -> Prop  (** a block was allocated with a tag *)
}.

Class AllocatorLaws (St : Type) `{!Allocator St} : Prop := {
  law_garbage n : 0 <= n -> length (garbage n) = Z.to_nat n;
  law_alloc s n tag : heap_ok s -> 0 < n < 2 ^ 32 ->
    exists r s', alloc n tag s = Ret r s' /\ heap_ok s' /\
      match r with
      | Some b => b ∉ live s /\ live s' = {[b]} ∪ live s /\ tagged s' b tag
      | None => live s' = live s
      end;
  law_free s b tag : heap_ok s -> b ∈ live s -> tagged s b tag ->
    exists s', free (Some b) tag s = Ret tt s' /\ heap_ok s' /\ live s' = live s ∖ {[b]}
}.

(** ** The test *)

Section MemoryTest.
Context {St : Type} `{!Allocator St}.
Variable api : memory_api.

#[local] Abbreviation W := (St * contents)%type.

(** The bytes are accessible from allocation to release. *)
Definition test_alloc (n tag : Z) : M W (option nat) := fun w =>
  match alloc n tag w.1 with
  | Ret (Some b) s' => Ret (Some b) (s', <[heap_block b := garbage n]> w.2)
  | Ret None s' => Ret None (s', w.2)
  | Stop r => Stop r | Fault f => Fault f | NoFuel => NoFuel
  end.

Definition test_free (b : option nat) (tag : Z) : M W unit := fun w =>
  match free b tag w.1 with
  | Ret _ s' => Ret tt (s', match b with Some b => delete (heap_block b) w.2 | None => w.2 end)
  | Stop r => Stop r | Fault f => Fault f | NoFuel => NoFuel
  end.

Definition on_memory {A} (m : M contents A) : M W A := fun w =>
  match m w.2 with
  | Ret a c => Ret a (w.1, c)
  | Stop r => Stop r | Fault f => Fault f | NoFuel => NoFuel
  end.

Definition CXPLAT_POOLTAG_MEMORY_TEST : Z := 0x744d7843.

(** The strings of the test, without their terminators. *)
Definition TestString : list Z :=
  [67; 120; 80; 108; 97; 116; 84; 101; 115; 116; 77; 101; 109; 111; 114; 121; 66; 97; 115; 105; 99].
Definition MovedString : list Z :=
  [67; 120; 80; 108; 97; 116; 67; 120; 80; 108; 97; 116; 84; 101; 114; 121; 66; 97; 115; 105; 99].
Definition BufferLen : Z := 21.

(** Byte [i] of the buffer. *)
Definition byte_at (b : place) (i : Z) : M W Z :=
  on_memory (l ← read_bytes (b, i) 1; mret (default 0 (head l))).

(** The literal is the static object 0. *)
Definition lit : place := static_object 0.

Definition memory_basic_body (b : place) : Test W unit :=
  _ ← lift (on_memory (ZeroMemory api (b, 0) BufferLen));
  _ ← for_loop 21 0 (fun i => c ← lift (byte_at b i); TEST_EQUAL 26 c 0);
  _ ← lift (on_memory (CopyMemory api (b, 0) (lit, 0) BufferLen));
  _ ← for_loop 21 0 (fun i => c ← lift (byte_at b i); t ← lift (byte_at lit i); TEST_EQUAL 31 c t);
  _ ← lift (on_memory (MoveMemory api (b, 6) (b, 0) 8));
  l ← lift (on_memory (read_bytes (b, 0) BufferLen));
  _ ← TEST_EQUAL 35 0 (if bool_decide (l = MovedString) then 0 else 1);
  _ ← lift (on_memory (SecureZeroMemory api (b, 0) BufferLen));
  for_loop 21 0 (fun i => c ← lift (byte_at b i); TEST_EQUAL 39 c 0).

Definition CxPlatTestMemoryBasic : Test W unit :=
  Buffer ← lift (test_alloc BufferLen CXPLAT_POOLTAG_MEMORY_TEST);
  Failure (_ ← TEST_TRUE 22 (bool_decide (Buffer <> None));
           match Buffer with Some b => memory_basic_body (heap_block b) | None => mret tt end)
          (match Buffer with
           | Some b => test_free Buffer CXPLAT_POOLTAG_MEMORY_TEST
           | None => mret tt
           end).
End MemoryTest.

(** ** The test passes *)

Section MemoryProofs.
Context {St : Type} `{L : AllocatorLaws St}.
Variable posix : bool.

Lemma byte_at_eq (s : St) (m : contents) (b : place) (l : list Z) (i : Z) x :
  m !! b = Some l -> 0 <= i -> l !! Z.to_nat i = Some x -> byte_at b i (s, m) = Ret x (s, m).
Proof.
  intros Hb Hi Hx. unfold byte_at, on_memory, read_bytes, mbind, M_bind. cbn [fst snd]. rewrite Hb.
  pose proof (lookup_lt_Some _ _ _ Hx). unfold in_block.
  rewrite (proj2 (Z.leb_le _ _)), (proj2 (Z.leb_le (i + 1) _)) by lia. cbn -[take drop].
  by rewrite (drop_S _ _ _ Hx).
Qed.

(** A loop that checks the bytes of a block one after the other. *)
Lemma check_loop (s : St) (m : contents) (b : place) (l : list Z) (check : Z -> Z -> Test (St * contents) unit) :
  m !! b = Some l -> length l = 21%nat ->
  (forall i x, 0 <= i -> l !! Z.to_nat i = Some x -> check i x (s, m) = Ret (inr tt) (s, m)) ->
  for_loop 21 0 (fun i => c ← lift (byte_at b i); check i c) (s, m) = Ret (inr tt) (s, m).
Proof.
  intros Hb Hn Hk.
  destruct (for_loop_passes (fun _ w => w = (s, m)) 21 0
    (fun i => c ← lift (byte_at b i); check i c) (s, m)) as (w & E & ->); [done| |done].
  intros j w Hj ->. destruct (lookup_lt_is_Some_2 l (Z.to_nat j)) as [x Hx]; [lia|]. exists (s, m). split; [|done].
  rewrite (lift_bind _ _ _ _ _ (byte_at_eq s m b l j x Hb ltac:(lia) Hx)). apply Hk; [lia|done].
Qed.

Lemma zero_loop (line : Z) (s : St) (m : contents) (b : place) :
  m !! b = Some (replicate 21 0) ->
  for_loop 21 0 (fun i => c ← lift (byte_at b i); TEST_EQUAL line c 0) (s, m) = Ret (inr tt) (s, m).
Proof.
  intros Hb. apply (check_loop s m b (replicate 21 0) (fun _ c => TEST_EQUAL line c 0)); [done..|].
  intros i x _ Hx. apply lookup_replicate in Hx as [-> _]. done.
Qed.

Lemma write_eq (s : St) (m : contents) (b : place) (l : list Z) off bytes :
  m !! b = Some l -> in_block off (Z.of_nat (length bytes)) l = true ->
  on_memory (write_bytes (b, off) bytes) (s, m) = Ret tt (s, <[b := overwrite (Z.to_nat off) bytes l]> m).
Proof. intros Hb Hi. unfold on_memory, write_bytes. cbn [fst snd]. by rewrite Hb, Hi. Qed.

Lemma read_eq (s : St) (m : contents) (b : place) (l : list Z) off n :
  m !! b = Some l -> in_block off n l = true ->
  on_memory (read_bytes (b, off) n) (s, m) = Ret (take (Z.to_nat n) (drop (Z.to_nat off) l)) (s, m).
Proof. intros Hb Hi. unfold on_memory, read_bytes. cbn [fst snd]. by rewrite Hb, Hi. Qed.

(** Zeroing the whole buffer, with either macro. *)
Lemma zero_eq (s : St) (m : contents) (b : place) (l : list Z) :
  m !! b = Some l -> length l = 21%nat ->
  on_memory (memset (b, 0) 0 BufferLen) (s, m) = Ret tt (s, <[b := replicate 21 0]> m).
Proof.
  intros Hb Hl. unfold memset. rewrite (write_eq s m b l) by (done || (unfold in_block; by rewrite Hl)).
  do 3 f_equal. unfold overwrite. rewrite drop_ge by (rewrite length_replicate, Hl; done). by rewrite app_nil_r.
Qed.

Lemma memmove_eq (s : St) (m : contents) (b : place) (l : list Z) off (b' : place) (l' : list Z) off' n :
  m !! b' = Some l' -> in_block off' n l' = true ->
  m !! b = Some l -> in_block off (Z.of_nat (length (take (Z.to_nat n) (drop (Z.to_nat off') l')))) l = true ->
  on_memory (memmove (b, off) (b', off') n) (s, m) =
    Ret tt (s, <[b := overwrite (Z.to_nat off) (take (Z.to_nat n) (drop (Z.to_nat off') l')) l]> m).
Proof.
  intros Hb' Hi' Hb Hi. rewrite <- (write_eq s m b l off _ Hb Hi).
  unfold on_memory, memmove, mbind, M_bind, read_bytes. cbn [fst snd]. by rewrite Hb', Hi'.
Qed.

Lemma copy_eq (s : St) (m : contents) (b : place) (l : list Z) :
  m !! b = Some l -> length l = 21%nat -> m !! lit = Some TestString -> b <> lit ->
  on_memory (memcpy (b, 0) (lit, 0) BufferLen) (s, m) = Ret tt (s, <[b := TestString]> m).
Proof.
  intros Hb Hl Hlit Hne. unfold memcpy, overlap. cbn [fst snd]. rewrite bool_decide_false by done. cbn [andb].
  rewrite (memmove_eq s m b l 0 lit TestString 0 BufferLen Hlit eq_refl Hb) by (unfold in_block; by rewrite Hl).
  do 3 f_equal. unfold overwrite. rewrite (drop_ge l) by (rewrite Hl; done). done.
Qed.

Lemma move_eq (s : St) (m : contents) (b : place) :
  m !! b = Some TestString ->
  on_memory (memmove (b, 6) (b, 0) 8) (s, m) = Ret tt (s, <[b := MovedString]> m).
Proof. intros Hb. exact (memmove_eq s m b TestString 6 b TestString 0 8 Hb eq_refl Hb eq_refl). Qed.

Lemma body_passes (s : St) (m : contents) (b : nat) (l : list Z) :
  m !! heap_block b = Some l -> length l = 21%nat -> m !! lit = Some TestString ->
  memory_basic_body (memory_of posix) (heap_block b) (s, m) = Ret (inr tt) (s, <[heap_block b := replicate 21 0]> m).
Proof.
  intros Hb Hl Hlit. set (api := memory_of posix).
  assert (ZeroMemory api = fun p n => memset p 0 n) as Hz by (by destruct posix).
  assert (CopyMemory api = memcpy) as Hc by (by destruct posix).
  assert (MoveMemory api = memmove) as Hm by (by destruct posix).
  assert (SecureZeroMemory api = fun p n => memset p 0 n) as Hs by (by destruct posix).
  unfold memory_basic_body. rewrite Hz, Hc, Hm, Hs.
  assert (forall v, (<[heap_block b := v]> m : contents) !! lit = Some TestString) as Hlit'
    by (intros v; exact (eq_trans (lookup_insert_ne m (heap_block b) lit v ltac:(done)) Hlit)).
  rewrite (lift_bind _ _ _ _ _ (zero_eq s m _ l Hb Hl)).
  rewrite (test_bind _ _ _ _ _ (zero_loop 26 s _ _ (lookup_insert_eq _ _ _))).
  rewrite (lift_bind _ _ _ _ _ (copy_eq s _ _ (replicate 21 0) (lookup_insert_eq _ _ _) eq_refl (Hlit' _) ltac:(done))).
  rewrite insert_insert_eq.
  rewrite (test_bind _ _ (s, <[heap_block b := TestString]> m) tt (s, <[heap_block b := TestString]> m)).
  2:{ apply (check_loop s _ _ TestString (fun i c => t ← lift (byte_at lit i); TEST_EQUAL 31 c t));
        [apply lookup_insert_eq|done|]. intros i x Hi Hx.
      rewrite (lift_bind _ _ _ _ _ (byte_at_eq s _ lit TestString i x (Hlit' _) Hi Hx)).
      unfold TEST_EQUAL. by rewrite Z.eqb_refl. }
  rewrite (lift_bind _ _ _ _ _ (move_eq s _ _ (lookup_insert_eq _ _ _))), insert_insert_eq.
  rewrite (lift_bind _ _ _ _ _ (read_eq s _ _ MovedString 0 BufferLen (lookup_insert_eq _ _ _) eq_refl)).
  change (take _ _) with MovedString. rewrite bool_decide_true by done.
  rewrite (test_bind (TEST_EQUAL 35 0 0) _ _ tt _ eq_refl).
  rewrite (lift_bind _ _ _ _ _ (zero_eq s _ _ MovedString (lookup_insert_eq _ _ _) eq_refl)), insert_insert_eq.
  apply zero_loop. apply lookup_insert_eq.
Qed.

(** The memory test reports no failure on any platform that has the memory, and
    exactly the check of the pointer when it has not; in both cases the heap is
    as before. *)
Lemma memory_basic_result (s : St) (m : contents) :
  heap_ok s -> m !! lit = Some TestString -> (forall b, m !! heap_block b <> None -> b ∈ live s) ->
  exists r s', alloc BufferLen CXPLAT_POOLTAG_MEMORY_TEST s = Ret r s' /\
    exists s'', CxPlatTestMemoryBasic (memory_of posix) (s, m) =
      Ret (match r with Some _ => inr tt | None => inl 22 end) (s'', m) /\ heap_ok s'' /\ live s'' = live s.
Proof.
  intros Hok Hlit Hm. destruct (law_alloc s BufferLen CXPLAT_POOLTAG_MEMORY_TEST Hok ltac:(done)) as (r & s1 & Ha & Hok1 & Hr).
  exists r, s1. split; [done|]. unfold CxPlatTestMemoryBasic.
  destruct r as [b|].
  - destruct Hr as (Hb & Hlive & Ht).
    destruct (law_free s1 b CXPLAT_POOLTAG_MEMORY_TEST Hok1) as (s2 & Hf & Hok2 & Hl2); [rewrite Hlive; set_solver|done|].
    exists s2. split; [|split; [done|rewrite Hl2, Hlive; set_solver]].
    rewrite (lift_bind _ _ (s, m) (Some b) (s1, <[heap_block b := garbage BufferLen]> m))
      by (unfold test_alloc; cbn [fst snd]; by rewrite Ha).
    eapply failure_label.
    + rewrite (test_bind _ _ _ tt (s1, <[heap_block b := garbage BufferLen]> m)) by done.
      apply (body_passes _ _ _ (garbage BufferLen)); [apply lookup_insert_eq|by apply law_garbage|exact (eq_trans (lookup_insert_ne m (heap_block b) lit _ ltac:(done)) Hlit)].
    + unfold test_free. cbn [fst snd]. rewrite Hf. rewrite insert_insert_eq, delete_insert_id; [done|].
      destruct (m !! heap_block b) eqn:E; [|done]. destruct Hb. apply Hm. by rewrite E.
  - exists s1. rewrite (lift_bind _ _ (s, m) None (s1, m)) by (unfold test_alloc; cbn [fst snd]; by rewrite Ha).
    by split_and!.
Qed.
End MemoryProofs.
