(* ===== verification/MemoryTest.v ===== *)
(** * The memory tests on the platforms (src/test/lib/MemoryTest.cpp)

    The heaps of Windows user mode, of POSIX and of the kernel as instances of
    the [Allocator] of the file Memory, the memory test on them, and the test of
    failure injection: it expects the wrong allocation to fail, and so never
    passes. *)

From S2P Require Import Prelude WinUser WinUserTheorems Platform SystemServices TestLib Memory.

(** ** Windows user mode *)

Section UserHeap.
Context `{!WinOs}.
Variable DEBUG : bool.
Variable fill : Z.

(** The interface names a pointer, a block with an offset, by a number. *)
Definition name_of (p : ptr) : nat := encode_nat p.

#[export] Instance user_allocator : Allocator win := {|
  alloc n tag := p ← WinUser.CxPlatAlloc DEBUG n tag; mret (name_of <$> p);
  free b tag := match b with
                | Some k => match decode_nat k with
                            | Some p => WinUser.CxPlatFree DEBUG (Some p) tag
                            | None => fail_with BadAccess
                            end
                | None => WinUser.CxPlatFree DEBUG None tag
                end;
  garbage n := replicate (Z.to_nat n) fill;
  heap_ok s := Heap s = true /\ forall b, (allocs s <= b)%nat -> blocks s !! b = None;
  live s := set_map (fun b => name_of (b, base DEBUG)) (dom (blocks s));
  tagged s k tag := exists b n v, k = name_of (b, base DEBUG) /\ base DEBUG <= n /\
    blocks s !! b = Some (mkBlock n (header DEBUG tag) v)
|}.

(** One allocation of a debug or release build, whatever the failure injection
    decides. *)
Lemma user_alloc_cases s n tag :
  Heap s = true -> fits n ->
  exists c d, let s0 := set_draws d (set_inject (AllocFailDenominator s) c s) in
    (DEBUG = false -> c = AllocCounter s) /\
    (DEBUG = true -> c = (inject_failure 32 (AllocFailDenominator s) (AllocCounter s) (Rand (draws s))).1) /\
    WinUser.CxPlatAlloc DEBUG n tag s =
      if DEBUG && (inject_failure 32 (AllocFailDenominator s) (AllocCounter s) (Rand (draws s))).2 then Ret None s0
      else if HeapAlloc_ok (allocs s) (request DEBUG n) then Ret (Some (allocs s, base DEBUG)) (granted DEBUG s0 n tag None)
      else Ret None (set_allocs (S (allocs s)) s0).
Proof.
  intros Hh Hn.
  exists (if DEBUG then (inject_failure 32 (AllocFailDenominator s) (AllocCounter s) (Rand (draws s))).1 else AllocCounter s),
    (if DEBUG && (0 <? AllocFailDenominator s) then S (draws s) else draws s).
  set (s0 := set_draws _ _). cbv zeta. split; [by intros ->|]. split; [by intros ->|].
  change (allocs s) with (allocs s0).
  rewrite <- (alloc_passed DEBUG s0 n tag) by done. unfold fits in Hn. unfold s0. clear s0.
  unfold WinUser.CxPlatAlloc, CXPLAT_DBG_ASSERT, gets, get, modify, mbind, M_bind. destruct DEBUG; cbn [andb].
  - rewrite Hh. cbn -[alloc_tagged]. rewrite (proj2 (Z.eqb_neq n 0)) by lia. cbn -[alloc_tagged].
    destruct (inject_failure _ _ _ _) as [c []]; destruct s; cbn -[alloc_tagged] in *; subst; by destruct (0 <? _).
  - by destruct s.
Qed.

Lemma name_of_inj p q : name_of p = name_of q -> p = q.
Proof. apply encode_nat_inj. Qed.

Lemma name_in_live (s : win) b : name_of (b, base DEBUG) ∈ live s <-> b ∈ dom (blocks s).
Proof.
  cbn. rewrite elem_of_map. split; [|by exists b]. intros (b' & [= ->]%name_of_inj & Hd). done.
Qed.

Lemma live_none (s s' : win) : blocks s' = ∅ -> live s = live s' -> blocks s = ∅.
Proof.
  intros Hs E. apply map_empty. intros b. apply not_elem_of_dom. rewrite <- name_in_live, E, name_in_live, Hs.
  rewrite dom_empty_L. apply not_elem_of_empty.
Qed.

#[export] Instance user_allocator_laws : AllocatorLaws win.
Proof.
  split; cbn.
  - intros n Hn. by rewrite length_replicate.
  - intros s n tag [Hh Hf] Hn. assert (fits n) as Hfit by (unfold fits, AllocOffset; lia).
    destruct (user_alloc_cases s n tag Hh Hfit) as (c & d & _ & _ & E). unfold mbind, M_bind. rewrite E.
    destruct (DEBUG && _); [|destruct (HeapAlloc_ok _ _)]; eexists _, _; (split; [done|]).
    + by split.
    + cbn [fmap option_fmap option_map]. split_and!; [done| | | |].
      * intros b Hb. cbn in *. rewrite lookup_insert_ne by lia. apply Hf. lia.
      * intros Hin. apply (name_in_live s) in Hin. revert Hin. by apply not_elem_of_dom, Hf.
      * cbn. rewrite dom_insert_L, set_map_union_L, set_map_singleton_L. done.
      * exists (allocs s), (request DEBUG n), None. split; [done|]. split; [by apply base_le|apply lookup_insert_eq].
    + split; [|done]. split; [done|]. intros b Hb. cbn in *. apply Hf. lia.
  - intros s k tag [Hh Hf] _ (b & n & v & -> & Hn & Ht). unfold name_of. rewrite decode_encode_nat.
    eexists. split; [by eapply free_plain|]. cbn. split.
    + split; [done|]. intros b' Hb'. cbn in *.
      destruct (decide (b = b')) as [->|]; [apply lookup_delete_eq|]. rewrite lookup_delete_ne by done. by apply Hf.
    + rewrite dom_delete_L. apply set_eq. intros k. rewrite elem_of_difference, !elem_of_map, elem_of_singleton. split.
      * intros (b' & -> & [Hb' Hne]%elem_of_difference). split; [by exists b'|].
        intros [= ->]%encode_nat_inj. set_solver.
      * intros [(b' & -> & Hb') Hne]. exists b'. split; [done|]. apply elem_of_difference. split; [done|].
        intros ->%elem_of_singleton. done.
Qed.
End UserHeap.

(** ** POSIX *)

Section PosixHeap.
Context `{!PosixOs}.
Variable DEBUG : bool.
Variable fill : Z.
Variable rand_garbage : list Z.

#[export] Instance posix_allocator : Allocator posix_plat := {|
  alloc n tag := CxPlatAlloc_posix DEBUG rand_garbage n tag;
  free b tag := CxPlatFree_posix b tag;
  garbage n := replicate (Z.to_nat n) fill;
  heap_ok s := forall b, (mallocs s <= b)%nat -> mem s !! b = None;
  live s := dom (mem s);
  tagged s b tag := True
|}.

Lemma posix_alloc_cases s n tag :
  n <> 0 ->
  exists c r rand, let s0 := p_reads r (p_inject (P_AllocFailDenominator s) c s) in
    (DEBUG = true -> c = (inject_failure 64 (P_AllocFailDenominator s) (P_AllocCounter s) rand).1) /\
    CxPlatAlloc_posix DEBUG rand_garbage n tag s =
      if DEBUG && (inject_failure 64 (P_AllocFailDenominator s) (P_AllocCounter s) rand).2 then Ret None s0
      else if malloc_ok (mallocs s) n then Ret (Some (mallocs s)) (p_mem (<[mallocs s := n]> (mem s)) (S (mallocs s)) s0)
      else Ret None (p_mem (mem s) (S (mallocs s)) s0).
Proof.
  intros Hn. unfold CxPlatAlloc_posix, CxPlatRandom, read_random, malloc, get, pmod, mbind, M_bind.
  destruct DEBUG; cbn [andb].
  - rewrite (proj2 (Z.eqb_neq n 0)) by done. cbn.
    destruct (0 <? P_AllocFailDenominator s).
    + assert (exists r rand, (if bool_decide (RandomFd s ∈ open_fds s) then Ret (random (reads s) 4) (p_reads (S (reads s)) s) else Ret None s)
        = Ret (if bool_decide (RandomFd s ∈ open_fds s) then random (reads s) 4 else None) (p_reads r s) /\
        rand = le_value (match (if bool_decide (RandomFd s ∈ open_fds s) then random (reads s) 4 else None) with
                         | None => rand_garbage | Some l => l ++ drop (length l) rand_garbage end)) as (r & rand & -> & Hrand).
      { destruct (bool_decide _); [by eexists (S (reads s)), _|]. exists (reads s). eexists. by destruct s. }
      exists (inject_failure 64 (P_AllocFailDenominator s) (P_AllocCounter s) rand).1, r, rand. split; [done|].
      destruct (if bool_decide _ then _ else _); cbn; rewrite <- Hrand;
        destruct (inject_failure _ _ _ _) as [c []]; cbn; destruct s; cbn; try done; by destruct (malloc_ok _ _).
    + exists (inject_failure 64 (P_AllocFailDenominator s) (P_AllocCounter s) 0).1, (reads s), 0. split; [done|].
      cbn. destruct (inject_failure _ _ _ _) as [c []], s; cbn; try done; by destruct (malloc_ok _ _).
  - exists (P_AllocCounter s), (reads s), 0. split; [done|]. destruct s; cbn. by destruct (malloc_ok _ _).
Qed.

#[export] Instance posix_allocator_laws : AllocatorLaws posix_plat.
Proof.
  split; cbn.
  - intros n Hn. by rewrite length_replicate.
  - intros s n tag Hf Hn. destruct (posix_alloc_cases s n tag ltac:(lia)) as (c & r & rand & _ & E). rewrite E.
    destruct (DEBUG && _); [|destruct (malloc_ok _ _)]; eexists _, _; (split; [done|]).
    + by split.
    + split_and!; [|by apply not_elem_of_dom, Hf|apply dom_insert_L|done].
      intros b Hb. cbn in *. rewrite lookup_insert_ne by lia. apply Hf. lia.
    + split; [|done]. intros b Hb. cbn in *. apply Hf. lia.
  - intros s b tag Hf [x Hb]%elem_of_dom _. unfold CxPlatFree_posix. rewrite Hb. eexists. split; [done|]. cbn.
    split; [|apply dom_delete_L]. intros b' Hb'. cbn in *.
    destruct (decide (b = b')) as [->|]; [apply lookup_delete_eq|]. rewrite lookup_delete_ne by done. by apply Hf.
Qed.
End PosixHeap.

(** ** Windows kernel mode *)

(** The pool: its blocks with their tags. *)
Record kernel_pool := mkPool { pool_blocks : gmap nat Z; pool_next : nat }.

Section KernelHeap.
(** Whether [ExAllocatePool2] has memory, by flags, size and tag. *)
Variable pool2_ok : nat -> Z -> Z -> Z -> bool.
Variable fill : Z.

Definition ExAllocatePool2 (Flags NumberOfBytes Tag : Z) : M kernel_pool (option nat) := fun s =>
  if pool2_ok (pool_next s) Flags NumberOfBytes Tag
  then Ret (Some (pool_next s)) (mkPool (<[pool_next s := Tag]> (pool_blocks s)) (S (pool_next s)))
  else Ret None (mkPool (pool_blocks s) (S (pool_next s))).

(** Freeing what is not allocated, or with another tag, is the bug check
    BAD_POOL_CALLER (0xC2). *)
Definition ExFreePoolWithTag (P : option nat) (Tag : Z) : M kernel_pool unit := fun s =>
  match P with
  | Some b => match pool_blocks s !! b with
              | Some t => if t =? Tag then Ret tt (mkPool (delete b (pool_blocks s)) (pool_next s)) else Stop (FastFail 0xC2)
              | None => Stop (FastFail 0xC2)
              end
  | None => Stop (FastFail 0xC2)
  end.

Definition CXPLAT_ALLOC_NONPAGED_kernel (Size Tag : Z) : M kernel_pool (option nat) :=
  ExAllocatePool2 (Z.lor POOL_FLAG_NON_PAGED POOL_FLAG_UNINITIALIZED) Size Tag.

Definition CXPLAT_FREE_kernel (Mem : option nat) (Tag : Z) : M kernel_pool unit := ExFreePoolWithTag Mem Tag.

#[export] Instance kernel_allocator : Allocator kernel_pool := {|
  alloc := CXPLAT_ALLOC_NONPAGED_kernel;
  free := CXPLAT_FREE_kernel;
  garbage n := replicate (Z.to_nat n) fill;
  heap_ok s := forall b, (pool_next s <= b)%nat -> pool_blocks s !! b = None;
  live s := dom (pool_blocks s);
  tagged s b tag := pool_blocks s !! b = Some tag
|}.

#[export] Instance kernel_allocator_laws : AllocatorLaws kernel_pool.
Proof.
  split; cbn.
  - intros n Hn. by rewrite length_replicate.
  - intros s n tag Hf Hn. unfold CXPLAT_ALLOC_NONPAGED_kernel, ExAllocatePool2.
    destruct (pool2_ok _ _ _ _); eexists _, _; (split; [done|]); cbn.
    + split_and!; [|by apply not_elem_of_dom, Hf|apply dom_insert_L|apply lookup_insert_eq].
      intros b Hb. rewrite lookup_insert_ne by lia. apply Hf. lia.
    + split; [|done]. intros b Hb. apply Hf. lia.
  - intros s b tag Hf Hb Ht. unfold CXPLAT_FREE_kernel, ExFreePoolWithTag. rewrite Ht, Z.eqb_refl. eexists. split; [done|]. cbn.
    split; [|apply dom_delete_L]. intros b' Hb'.
    destruct (decide (b = b')) as [->|]; [apply lookup_delete_eq|]. rewrite lookup_delete_ne by done. by apply Hf.
Qed.
End KernelHeap.

(** A POSIX system without memory. *)
Definition no_memory : PosixOs := {|
  nprocs := 1; open_fd := 3; posix_errno := 2; malloc_ok := fun _ _ => false;
  random := fun k n => Some (replicate n 0); sched_getcpu := 0; nodes := None;
  node_to_cpus_ok := true;
  random_len := zeros_len; open_fd_range := fd3_range; posix_errno_range := enoent_range
|}.

(** The memory test.  On every platform it reports no failure if the platform
    has the memory, and otherwise the failed allocation, at line 22; in both
    cases, and whatever the new block held, the heap and the rest of the memory
    are as before. *)
Theorem memory_test_passes {St} `{AllocatorLaws St} posix (s : St) (m : contents) :
  heap_ok s -> m !! lit = Some TestString -> (forall b, m !! heap_block b <> None -> b ∈ live s) ->
  exists r s', alloc BufferLen CXPLAT_POOLTAG_MEMORY_TEST s = Ret r s' /\
    exists s'', CxPlatTestMemoryBasic (memory_of posix) (s, m) =
      Ret (match r with Some _ => inr tt | None => inl 22 end) (s'', m) /\ heap_ok s'' /\ live s'' = live s.
Proof. apply memory_basic_result. Qed.

(** In user mode with a fresh heap, and on POSIX without memory. *)
Lemma memory_test_passes_witness :
  (exists s, CxPlatTestMemoryBasic (memory_of false) (Allocator0 := user_allocator (H := os (fun _ _ => true) None) true 0xAA)
     (ready_state, {[lit := TestString]}) = Ret (inr tt) (s, {[lit := TestString]}) /\ blocks s = ∅) /\
  (exists p, CxPlatTestMemoryBasic (memory_of true) (Allocator0 := posix_allocator (H := no_memory) false 0 [])
     (fresh_plat, {[lit := TestString]}) = Ret (inl 22) (p, {[lit := TestString]}) /\ mem p = ∅).
Proof.
  split.
  - pose (A := user_allocator (H := os (fun _ _ => true) None) true 0xAA).
    destruct (memory_test_passes (Allocator0 := A) (H := user_allocator_laws (H := os (fun _ _ => true) None) true 0xAA)
      false ready_state {[lit := TestString]}) as (r & s' & Ha & s & E & _ & Hl).
    + split; [done|]. intros b _. apply lookup_empty.
    + apply lookup_singleton_eq.
    + intros b Hb. by rewrite lookup_singleton_ne in Hb.
    + vm_compute in Ha. injection Ha as <- _. exists s. split; [exact E|]. by eapply (live_none true 0xAA) in Hl.
  - pose (A := posix_allocator (H := no_memory) false 0 []).
    destruct (memory_test_passes (Allocator0 := A) (H := posix_allocator_laws (H := no_memory) false 0 [])
      true fresh_plat {[lit := TestString]}) as (r & s' & Ha & s & E & _ & Hl).
    + intros b _. apply lookup_empty.
    + apply lookup_singleton_eq.
    + intros b Hb. by rewrite lookup_singleton_ne in Hb.
    + vm_compute in Ha. injection Ha as <- _. exists s. split; [exact E|]. apply dom_empty_inv_L. exact Hl.
Defined.

(** ** Failure injection *)

(** What the test uses of a debug build with failure injection; [w] is the width
    of the allocation counter. *)
Class Injection (St : Type) := {
  set_denominator : Z -> M St unit;
  get_denominator : M St Z;
  denominator : St -> Z;
  counter : St -> Z
}.

(** The laws hold of a system that always has memory. *)
Class InjectionLaws (St : Type) `{!Allocator St} `{!Injection St} : Prop := {
  law_set s v : heap_ok s ->
    exists s', set_denominator v s = Ret tt s' /\ heap_ok s' /\ live s' = live s /\ denominator s' = v /\ counter s' = 0;
  law_get s : get_denominator s = Ret (denominator s) s;
  law_inject s n tag r s' : heap_ok s -> 0 < n < 2 ^ 32 -> alloc n tag s = Ret r s' ->
    denominator s' = denominator s /\ (denominator s = 0 -> r <> None) /\
    (denominator s < 0 -> 0 <= counter s < 2 ^ 31 - 1 ->
       counter s' = counter s + 1 /\ (r = None <-> Z.rem (counter s + 1) (denominator s) = 0));
  law_free_inject s b tag s' : free b tag s = Ret tt s' -> denominator s' = denominator s /\ counter s' = counter s
}.

Section InjectionTest.
Context {St : Type} `{!Allocator St} `{!Injection St}.

(** The heap, and the local variables [Buffer] and [AllocsFailed]. *)
Record locals := mkLocals { heap : St; Buffer : option nat; AllocsFailed : Z }.

#[local] Abbreviation T := (Test locals).

Definition on_heap {A} (m : M St A) : M locals A := fun w =>
  match m (heap w) with
  | Ret a s => Ret a (mkLocals s (Buffer w) (AllocsFailed w))
  | Stop r => Stop r | Fault f => Fault f | NoFuel => NoFuel
  end.

Definition set_Buffer (b : option nat) : M locals unit := fun w => Ret tt (mkLocals (heap w) b (AllocsFailed w)).
Definition count_failure : M locals unit := fun w => Ret tt (mkLocals (heap w) (Buffer w) (u32 (AllocsFailed w + 1))).

(** [Buffer = CXPLAT_ALLOC_NONPAGED(BufferLen, ...)], with [BufferLen] 2. *)
Definition buffer_alloc : M locals (option nat) :=
  r ← on_heap (alloc 2 CXPLAT_POOLTAG_MEMORY_TEST); _ ← set_Buffer r; mret r.

(** [CXPLAT_FREE(Buffer, ...); Buffer = NULL;]. *)
Definition buffer_free : M locals unit :=
  w ← get; _ ← on_heap (free (Buffer w) CXPLAT_POOLTAG_MEMORY_TEST); set_Buffer None.

Definition FailureIter : Z := 6.

Definition injection_body : T unit :=
  _ ← lift (on_heap (set_denominator 0));
  _ ← for_loop 100 0 (fun _ =>
        b ← lift buffer_alloc;
        _ ← TEST_TRUE 63 (bool_decide (b <> None));
        lift buffer_free);
  _ ← lift (on_heap (set_denominator 4));
  _ ← for_loop 100 0 (fun _ =>
        b ← lift buffer_alloc;
        if bool_decide (b = None) then lift count_failure else lift buffer_free);
  w ← lift get;
  _ ← TEST_TRUE 81 (0 <? AllocsFailed w);
  _ ← TEST_TRUE 82 (AllocsFailed w <? 50);
  _ ← lift (on_heap (set_denominator (-1 * FailureIter)));
  for_loop 10 0 (fun i =>
    b ← lift buffer_alloc;
    if i =? FailureIter then TEST_TRUE 91 (bool_decide (b = None))
    else _ ← TEST_TRUE 93 (bool_decide (b <> None)); lift buffer_free).

Definition CxPlatTestMemoryFailureInjection : T unit :=
  OriginalDenominator ← lift (on_heap get_denominator);
  Failure injection_body
    (_ ← (w ← get; match Buffer w with
                   | Some b => on_heap (free (Buffer w) CXPLAT_POOLTAG_MEMORY_TEST)
                   | None => mret tt
                   end);
     on_heap (set_denominator OriginalDenominator)).
End InjectionTest.
Arguments locals St : clear implicits.

Section InjectionProofs.
Context {St : Type} `{!Allocator St} `{!Injection St} `{!AllocatorLaws St} `{!InjectionLaws St}.

(** Between the iterations: no buffer, and the blocks of the start. *)
Record quiet (ls : gset nat) (w : locals St) : Prop := {
  q_ok : heap_ok (heap w);
  q_buffer : Buffer w = None;
  q_live : live (heap w) = ls
}.

(** An allocation of the test: the heap it leaves, and with a buffer the release
    that follows it. *)
Lemma buffer_step ls w :
  quiet ls w ->
  exists r w1, buffer_alloc w = Ret r w1 /\ AllocsFailed w1 = AllocsFailed w /\
    denominator (heap w1) = denominator (heap w) /\
    (denominator (heap w) = 0 -> r <> None) /\
    (denominator (heap w) < 0 -> 0 <= counter (heap w) < 2 ^ 31 - 1 ->
       counter (heap w1) = counter (heap w) + 1 /\
       (r = None <-> Z.rem (counter (heap w) + 1) (denominator (heap w)) = 0)) /\
    match r with
    | None => quiet ls w1
    | Some _ => exists w2, buffer_free w1 = Ret tt w2 /\ quiet ls w2 /\ AllocsFailed w2 = AllocsFailed w1 /\
        denominator (heap w2) = denominator (heap w1) /\ counter (heap w2) = counter (heap w1)
    end.
Proof.
  intros [Hok Hb Hl]. destruct w as [h b n]. cbn in *. subst b.
  destruct (law_alloc h 2 CXPLAT_POOLTAG_MEMORY_TEST Hok ltac:(done)) as (r & h1 & Ha & Hok1 & Hr).
  destruct (law_inject h 2 _ r h1 Hok ltac:(done) Ha) as (Hd & H0 & Hneg).
  exists r, (mkLocals h1 r n). split; [unfold buffer_alloc, on_heap, mbind, M_bind; cbn; by rewrite Ha|].
  split_and!; try done. destruct r as [b|]; [|split; cbn; [done|done|congruence]].
  destruct Hr as (Hnew & Hlive & Ht).
  destruct (law_free h1 b CXPLAT_POOLTAG_MEMORY_TEST Hok1) as (h2 & Hf & Hok2 & Hl2); [set_solver|done|].
  destruct (law_free_inject h1 (Some b) _ h2 Hf) as [Hd2 Hc2].
  exists (mkLocals h2 None n). split; [unfold buffer_free, on_heap, get, mbind, M_bind; cbn; by rewrite Hf|].
  split_and!; try done. split; cbn; [done|done|]. rewrite Hl2, Hlive, Hl. set_solver.
Qed.

Lemma set_quiet ls w v :
  quiet ls w -> exists w', on_heap (set_denominator v) w = Ret tt w' /\ quiet ls w' /\
    AllocsFailed w' = AllocsFailed w /\ denominator (heap w') = v /\ counter (heap w') = 0.
Proof.
  intros [Hok Hb Hl]. destruct (law_set (heap w) v Hok) as (h & Hs & Hok' & Hl' & Hd & Hc).
  exists (mkLocals h (Buffer w) (AllocsFailed w)). split; [unfold on_heap; by rewrite Hs|].
  split_and!; try done. split; cbn; congruence.
Qed.

(** The first loop: no failures. *)
Lemma loop_without ls w :
  quiet ls w -> denominator (heap w) = 0 ->
  exists w', for_loop 100 0 (fun _ => b ← lift buffer_alloc; _ ← TEST_TRUE 63 (bool_decide (b <> None)); lift buffer_free) w =
    Ret (inr tt) w' /\ quiet ls w'.
Proof.
  intros Hq Hd.
  destruct (for_loop_passes (fun _ w => quiet ls w /\ denominator (heap w) = 0) 100 0
    (fun _ => b ← lift buffer_alloc; _ ← TEST_TRUE 63 (bool_decide (b <> None)); lift buffer_free) w)
    as (w' & E & Hq' & _); [done| |by exists w'].
  intros j w1 _ [Hq1 Hd1]. destruct (buffer_step ls w1 Hq1) as (r & w2 & Ha & _ & Hd2 & Hr & _ & Hcase).
  rewrite (lift_bind _ _ _ _ _ Ha). destruct r as [b|]; [|by destruct (Hr Hd1)].
  destruct Hcase as (w3 & Hf & Hq3 & _ & Hd3 & _). exists w3. split; [|split; [done|congruence]].
  rewrite (test_bind _ _ w2 tt w2) by done. by apply lift_value.
Qed.

(** The second loop: any of them may fail. *)
Lemma loop_random ls w :
  quiet ls w ->
  exists w', for_loop 100 0 (fun _ => b ← lift buffer_alloc; if bool_decide (b = None) then lift count_failure else lift buffer_free) w =
    Ret (inr tt) w' /\ quiet ls w'.
Proof.
  intros Hq.
  destruct (for_loop_passes (fun _ w => quiet ls w) 100 0
    (fun _ => b ← lift buffer_alloc; if bool_decide (b = None) then lift count_failure else lift buffer_free) w)
    as (w' & E & Hq'); [done| |by exists w'].
  intros j w1 _ Hq1. destruct (buffer_step ls w1 Hq1) as (r & w2 & Ha & _ & _ & _ & _ & Hcase).
  rewrite (lift_bind _ _ _ _ _ Ha). destruct r as [b|]; cbn [bool_decide].
  - destruct Hcase as (w3 & Hf & Hq3 & _). exists w3. split; [|done]. rewrite bool_decide_false by done. by apply lift_value.
  - exists (mkLocals (heap w2) (Buffer w2) (u32 (AllocsFailed w2 + 1))). rewrite bool_decide_true by done.
    split; [done|]. destruct Hcase. by split.
Qed.

(** The third loop: the sixth allocation fails, where the test expects a buffer. *)
Lemma loop_pattern ls w :
  quiet ls w -> denominator (heap w) = -6 -> counter (heap w) = 0 ->
  exists w', for_loop 10 0 (fun i => b ← lift buffer_alloc;
      if i =? FailureIter then TEST_TRUE 91 (bool_decide (b = None))
      else _ ← TEST_TRUE 93 (bool_decide (b <> None)); lift buffer_free) w = Ret (inl 93) w' /\ quiet ls w'.
Proof.
  intros Hq Hd Hc. set (body := fun i : Z => _).
  assert (forall j w, quiet ls w -> denominator (heap w) = -6 -> counter (heap w) = j -> 0 <= j < 6 ->
    exists w1, quiet ls w1 /\ denominator (heap w1) = -6 /\ counter (heap w1) = j + 1 /\
      body j w = Ret (if j =? 5 then inl 93 else inr tt) w1) as Hstep.
  { intros j w1 Hq1 Hd1 Hc1 Hj. destruct (buffer_step ls w1 Hq1) as (r & w2 & Ha & _ & Hd2 & _ & Hr & Hcase).
    destruct (Hr ltac:(lia) ltac:(lia)) as [Hc2 Hn]. rewrite Hc1, Hd1 in *.
    unfold body. rewrite (lift_bind _ _ _ _ _ Ha). rewrite (proj2 (Z.eqb_neq j FailureIter)) by (unfold FailureIter; lia).
    destruct (Z.eqb_spec j 5) as [->|Hne].
    - rewrite (proj2 Hn eq_refl) in *. exists w2. by split_and!; [| |lia|].
    - destruct r as [b|]; [|destruct (proj1 Hn eq_refl) as []; assert (Z.rem (j + 1) (-6) = j + 1); zdm].
      destruct Hcase as (w3 & Hf & Hq3 & _ & Hd3 & Hc3). exists w3. split_and!; [done|congruence|lia|].
      rewrite (test_bind _ _ w2 tt w2) by done. by apply lift_value. }
  destruct (for_loop_passes (fun j w => quiet ls w /\ denominator (heap w) = -6 /\ counter (heap w) = j) 5 0 body w)
    as (w5 & E5 & Hq5 & Hd5 & Hc5); [done| |].
  { intros j w1 Hj (Hq1 & Hd1 & Hc1). destruct (Hstep j w1 Hq1 Hd1 Hc1 ltac:(lia)) as (w2 & ? & ? & ? & E).
    exists w2. rewrite (proj2 (Z.eqb_neq j 5)) in E by lia. done. }
  destruct (Hstep 5 w5 Hq5 Hd5 Hc5 ltac:(lia)) as (w6 & Hq6 & _ & _ & E6). exists w6. split; [|done].
  refine (eq_trans (for_loop_app 5 5 0 body w w5 E5) _). by apply test_fails.
Qed.

(** The test with all its memory: it fails, and cleans up. *)
Lemma injection_fails ls w :
  quiet ls w ->
  exists line w', CxPlatTestMemoryFailureInjection w = Ret (inl line) w' /\ (line = 81 \/ line = 82 \/ line = 93) /\
    quiet ls w' /\ denominator (heap w') = denominator (heap w).
Proof.
  intros Hq. unfold CxPlatTestMemoryFailureInjection.
  rewrite (lift_bind _ _ w (denominator (heap w)) w) by (unfold on_heap; rewrite law_get; by destruct w).
  assert (exists line w1, injection_body w = Ret (inl line) w1 /\ (line = 81 \/ line = 82 \/ line = 93) /\ quiet ls w1)
    as (line & w1 & E & Hline & Hq1).
  { unfold injection_body.
    destruct (set_quiet ls w 0 Hq) as (w1 & E1 & Hq1 & _ & Hd1 & _). rewrite (lift_bind _ _ _ _ _ E1).
    destruct (loop_without ls w1 Hq1 Hd1) as (w2 & E2 & Hq2). rewrite (test_bind _ _ _ _ _ E2).
    destruct (set_quiet ls w2 4 Hq2) as (w3 & E3 & Hq3 & _). rewrite (lift_bind _ _ _ _ _ E3).
    destruct (loop_random ls w3 Hq3) as (w4 & E4 & Hq4). rewrite (test_bind _ _ _ _ _ E4).
    rewrite (lift_bind get _ w4 w4 w4) by done.
    destruct (0 <? AllocsFailed w4); [|exists 81, w4; auto]. rewrite (test_bind _ _ w4 tt w4) by done.
    destruct (AllocsFailed w4 <? 50); [|exists 82, w4; auto]. rewrite (test_bind _ _ w4 tt w4) by done.
    destruct (set_quiet ls w4 (-1 * FailureIter) Hq4) as (w5 & E5 & Hq5 & _ & Hd5 & Hc5). rewrite (lift_bind _ _ _ _ _ E5).
    destruct (loop_pattern ls w5 Hq5 Hd5 Hc5) as (w6 & E6 & Hq6). exists 93, w6. auto. }
  destruct (set_quiet ls w1 (denominator (heap w)) Hq1) as (w2 & E2 & Hq2 & _ & Hd2 & _).
  exists line, w2. split_and!; try done. eapply failure_label; [exact E|].
  rewrite (bind_Ret _ _ w1 tt w1); [done|]. unfold get, mbind, M_bind. by rewrite (q_buffer _ _ Hq1).
Qed.
End InjectionProofs.

(** What one allocation of a debug build does to the injection state, from
    [inject_failure]. *)
Lemma inject_law w rand d c d' c' (r : option nat) :
  32 <= w ->
  d' = d /\ c' = (inject_failure w d c rand).1 /\ (r = None <-> (inject_failure w d c rand).2 = true) ->
  d' = d /\ (d = 0 -> r <> None) /\ (d < 0 -> 0 <= c < 2 ^ 31 - 1 -> c' = c + 1 /\ (r = None <-> Z.rem (c + 1) d = 0)).
Proof.
  intros Hw (-> & -> & Hr). split; [done|]. unfold inject_failure in *. split.
  - intros ->. cbn in Hr. rewrite Hr. done.
  - intros Hd Hc. rewrite (proj2 (Z.ltb_ge 0 d)), (proj2 (Z.ltb_lt d 0)) in * by lia. cbn in *.
    assert (sgn w (c + 1) = c + 1) as E.
    { apply sgn_small; [lia|]. unfold is_s. assert (2 ^ 31 <= 2 ^ (w - 1)) by (apply Z.pow_le_mono_r; lia). lia. }
    rewrite E in *. split; [done|]. by rewrite Hr, Z.eqb_eq.
Qed.

(** The debug builds of the two user-mode platforms, on a system with memory. *)
Section UserInjection.
Context `{!WinOs}.
Variable fill : Z.

#[export] Instance user_injection : Injection win := {|
  set_denominator := WinUser.CxPlatSetAllocFailDenominator;
  get_denominator := WinUser.CxPlatGetAllocFailDenominator;
  denominator := AllocFailDenominator;
  counter := AllocCounter
|}.

Lemma user_injection_laws :
  (forall i n, HeapAlloc_ok i n = true) -> @InjectionLaws win (user_allocator true fill) user_injection.
Proof.
  intros Hok. split; cbn [heap_ok live denominator counter set_denominator get_denominator alloc free user_allocator user_injection].
  - intros s v Hs. by eexists.
  - done.
  - intros s n tag r s' [Hh _] Hn E. destruct (user_alloc_cases true s n tag Hh ltac:(unfold fits, AllocOffset; lia)) as (c & d & _ & Hc & E').
    unfold mbind, M_bind in E. rewrite E' in E. clear E'. specialize (Hc eq_refl). cbn [andb] in E. rewrite Hok in E. subst c.
    apply (inject_law 32 (Rand (draws s)) (AllocFailDenominator s) (AllocCounter s)); [done|].
    destruct (inject_failure _ _ _ _) as [c []]; injection E as <- <-; by cbn.
  - intros s b tag s' E. unfold WinUser.CxPlatFree, CXPLAT_DBG_ASSERT, fre_assert, fail_with, HeapFree, read_tag, access, mbind, M_bind, mret, M_ret in E.
    cbn in E. repeat (case_match; simplify_eq/=; try done).
Qed.
End UserInjection.

Section PosixInjection.
Context `{!PosixOs}.
Variable fill : Z.
Variable rand_garbage : list Z.

#[export] Instance posix_injection : Injection posix_plat := {|
  set_denominator := CxPlatSetAllocFailDenominator_posix;
  get_denominator := CxPlatGetAllocFailDenominator_posix;
  denominator := P_AllocFailDenominator;
  counter := P_AllocCounter
|}.

Lemma posix_injection_laws :
  (forall i n, malloc_ok i n = true) -> @InjectionLaws posix_plat (posix_allocator true fill rand_garbage) posix_injection.
Proof.
  intros Hok. split; cbn [heap_ok live denominator counter set_denominator get_denominator alloc free posix_allocator posix_injection].
  - intros s v Hs. by eexists.
  - done.
  - intros s n tag r s' _ Hn E. destruct (posix_alloc_cases true rand_garbage s n tag ltac:(lia)) as (c & rd & rand & Hc & E').
    rewrite E' in E. clear E'. specialize (Hc eq_refl). cbn [andb] in E. rewrite Hok in E. subst c.
    apply (inject_law 64 rand (P_AllocFailDenominator s) (P_AllocCounter s)); [done|].
    destruct (inject_failure _ _ _ _) as [c []]; cbn in E |- *; by simplify_eq.
  - intros s b tag s' E. unfold CxPlatFree_posix, mret, M_ret in E. repeat (case_match; simplify_eq/=); done.
Qed.
End PosixInjection.

(** C36: the test of failure injection.  In a debug build with failure injection, on
    a system that has memory, it never passes: whatever random numbers are drawn,
    it fails at the count of random failures (line 81 or 82) or at the pattern
    (line 93), where the sixth allocation fails and the test expects the seventh
    to.  Its [Failure] label leaves the blocks and the denominator as they were. *)
Theorem failure_injection_test_fails {St} `{!Allocator St} `{!Injection St} `{!AllocatorLaws St} `{!InjectionLaws St} (s : St) :
  heap_ok s ->
  exists line w, CxPlatTestMemoryFailureInjection (mkLocals s None 0) = Ret (inl line) w /\
    (line = 81 \/ line = 82 \/ line = 93) /\ live (heap w) = live s /\ denominator (heap w) = denominator s.
Proof.
  intros Hs. destruct (injection_fails (live s) (mkLocals s None 0)) as (line & w & E & Hl & [_ _ Hq] & Hd); [done|].
  by exists line, w.
Qed.

(** In user mode, where the random numbers are 0, 1, 2, ...: 25 of them fail. *)
Lemma failure_injection_test_fails_witness :
  exists w, CxPlatTestMemoryFailureInjection (Allocator0 := user_allocator (H := os (fun _ _ => true) None) true 0)
      (Injection0 := user_injection) (mkLocals ready_state None 0) = Ret (inl 93) w /\
    blocks (heap w) = ∅ /\ AllocFailDenominator (heap w) = 0.
Proof.
  destruct (failure_injection_test_fails (Allocator0 := user_allocator (H := os (fun _ _ => true) None) true 0)
    (Injection0 := user_injection) (AllocatorLaws0 := user_allocator_laws (H := os (fun _ _ => true) None) true 0)
    (InjectionLaws0 := user_injection_laws (H := os (fun _ _ => true) None) 0 (fun _ _ => eq_refl)) ready_state)
    as (line & w & E & _ & Hl & Hd); [split; [done|intros b _; apply lookup_empty]|].
  exists w. split; [|split; [by eapply (live_none true 0) in Hl|exact Hd]].
  vm_compute in E. injection E as <- <-. vm_compute. reflexivity.
Defined.
