(* ===== verification/Runner.v ===== *)
(** * The test program and the test driver (src/test/bin/cxplat_gtest.cpp, winkernel/driver.cpp)

    The program registers one test case per function of the test library.  In
    user mode a case calls its function; with [--kernel] it asks the control
    device of the test driver to run it ([DriverHelpers], [ControlDevice]).  The
    global environment starts the driver and opens its device before the first
    case and undoes this after the last one.  This file has the command line, the
    environment, the cases, and the driver's entry and unload routines, and it
    puts the components they use together: a case gives the same verdict in both
    modes, and what starting the driver and the program acquires is released. *)

From S2P Require Import Prelude Thread Platform TestLib ControlDevice ControlTheorems DriverHelpers.

(** ** The command line *)

(** Character strings, without their terminating zero. *)
Definition kernel_option : list Z := [45; 45; 107; 101; 114; 110; 101; 108].
Definition runner_option : list Z := [45; 45; 111; 115; 82; 117; 110; 110; 101; 114].
Definition timeout_option : list Z := [45; 45; 116; 105; 109; 101; 111; 117; 116].

(** [OsRunner] is a pointer into an argument: which, and the offset. *)
Record settings := mkSettings {
  TestingKernelMode : bool;
  OsRunner : option (nat * Z);
  Timeout : Z
}.

Definition default_settings : settings := mkSettings false None (2 ^ 32 - 1).

(** [strcmp(s, a) == 0], and [strstr(a, s) != NULL]. *)
Definition streq (s a : list Z) : bool := bool_decide (s = a).

Fixpoint strstr (a s : list Z) : bool :=
  bool_decide (take (length s) a = s) || match a with [] => false | _ :: a => strstr a s end.

(** [atoi]: white space, a sign and digits; a value that is not an [int] is
    undefined. *)
Fixpoint digits (l : list Z) (acc : Z) : Z :=
  match l with
  | c :: l => if (48 <=? c) && (c <=? 57) then digits l (10 * acc + (c - 48)) else acc
  | [] => acc
  end.

Fixpoint skip_space (l : list Z) : list Z :=
  match l with
  | c :: l' => if (c =? 32) || ((9 <=? c) && (c <=? 13)) then skip_space l' else l
  | [] => []
  end.

Definition atoi (l : list Z) : Z :=
  match skip_space l with
  | c :: l' => if c =? 45 then - digits l' 0 else if c =? 43 then digits l' 0 else digits (c :: l') 0
  | [] => 0
  end.

Definition is_int (n : Z) : bool := (- 2 ^ 31 <=? n) && (n <? 2 ^ 31).

(** The loop of [main] over [argv], from index [i]; [++i] skips the number. *)
Fixpoint main_args (i : nat) (argv : list (list Z)) : M settings unit :=
  match argv with
  | [] => mret tt
  | a :: rest =>
      if streq kernel_option a then
        _ ← (fun s => Ret tt (mkSettings true (OsRunner s) (Timeout s))); main_args (S i) rest
      else if strstr a runner_option then
        _ ← (fun s => Ret tt (mkSettings (TestingKernelMode s) (Some (i, Z.of_nat (length runner_option) + 1)) (Timeout s)));
        main_args (S i) rest
      else if streq timeout_option a then
        match rest with
        | n :: rest =>
            if is_int (atoi n) then
              _ ← (fun s => Ret tt (mkSettings (TestingKernelMode s) (OsRunner s) (u32 (atoi n))));
              main_args (S (S i)) rest
            else fail_with SignedOverflow
        | [] => main_args (S i) rest
        end
      else main_args (S i) rest
  end.

(** ** The cases *)

Inductive gtest_case :=
  | CryptSuite_Random | MemorySuite_Basic | MemorySuite_FailureInjection | TimeSuite_Basic
  | EventSuite_Basic | EventSuite_Cpp | ProcSuite_Basic | ThreadSuite_Basic | ThreadSuite_Async
  | ThreadSuite_WithTimeout | VectorSuite_Basic | LockSuite_Basic | LockSuite_ReadWrite.

#[export] Instance gtest_case_eq_dec : EqDecision gtest_case.
Proof. solve_decision. Defined.

(** The functions of the test library that user mode calls: those the driver has
    a control code for, and the test of failure injection. *)
Inductive test_function := TestFn (x : test) | MemoryFailureInjection.

(** What a case does: a request to the driver, a call, or nothing. *)
Inductive action := Request (IoControlCode : Z) | CallFn (f : test_function) | Skipped.

Definition gtest_body (c : gtest_case) (TestingKernelMode : bool) : action :=
  let both x := if TestingKernelMode then Request (IOCTL_CXPLAT_RUN x) else CallFn (TestFn x) in
  match c with
  | CryptSuite_Random => both CryptRandom
  | MemorySuite_Basic => both MemoryBasic
  | MemorySuite_FailureInjection => if TestingKernelMode then Skipped else CallFn (TestFn MemoryBasic)
  | TimeSuite_Basic => both TimeBasic
  | EventSuite_Basic => both EventBasic
  | EventSuite_Cpp => both EventCpp
  | ProcSuite_Basic => both ProcBasic
  | ThreadSuite_Basic => both ThreadBasic
  | ThreadSuite_Async => both ThreadAsync
  | ThreadSuite_WithTimeout => both ThreadWaitTimeout
  | VectorSuite_Basic => both VectorBasic
  | LockSuite_Basic => both LockBasic
  | LockSuite_ReadWrite => both LockReadWrite
  end.

(** The cases in the program, in its order. *)
Definition registered (DEBUG WIN32 : bool) : list gtest_case :=
  [CryptSuite_Random; MemorySuite_Basic] ++ (if DEBUG then [MemorySuite_FailureInjection] else []) ++
  [TimeSuite_Basic; EventSuite_Basic; EventSuite_Cpp; ProcSuite_Basic; ThreadSuite_Basic; ThreadSuite_Async] ++
  (if WIN32 then [ThreadSuite_WithTimeout] else []) ++
  [VectorSuite_Basic; LockSuite_Basic; LockSuite_ReadWrite].

(** The default time limit of [CxPlatDriverClient::Run]. *)
Definition RunTimeoutMs : Z := 30000.

(** A case in kernel mode: [ASSERT_TRUE(DriverClient.Run(...))].  [failures] is
    how often a function called in user mode calls [LogTestFailure]. *)
Definition case_passes `{!WinIo} (c : gtest_case) (kernel : bool) (failures : test_function -> nat) : M client bool :=
  match gtest_body c kernel with
  | Request _ => DriverHelpers.Run RunTimeoutMs
  | CallFn f => mret (Nat.eqb (failures f) 0)
  | Skipped => mret true
  end.

(** ** The environment *)

Section Environment.
Context `{!Scm} `{!WinIo}.
(** The library of the user-mode program: [CxPlatInitialize] and
    [CxPlatUninitialize] of its platform. *)
Context {L : Type}.
Variable CxPlatInitialize : M L Z.
Variable CxPlatUninitialize : M L unit.
Variable CXPLAT_FAILED : Z -> bool.
Variable kernel : bool.

Record environment := mkEnv { DriverService : service; DriverClient : client; library : L }.

Definition on_service {A} (m : M service A) : M environment A := fun e =>
  match m (DriverService e) with
  | Ret a s => Ret a (mkEnv s (DriverClient e) (library e))
  | Stop r => Stop r | Fault f => Fault f | NoFuel => NoFuel
  end.
Definition on_client {A} (m : M client A) : M environment A := fun e =>
  match m (DriverClient e) with
  | Ret a c => Ret a (mkEnv (DriverService e) c (library e))
  | Stop r => Stop r | Fault f => Fault f | NoFuel => NoFuel
  end.
Definition on_library {A} (m : M L A) : M environment A := fun e =>
  match m (library e) with
  | Ret a l => Ret a (mkEnv (DriverService e) (DriverClient e) l)
  | Stop r => Stop r | Fault f => Fault f | NoFuel => NoFuel
  end.

Definition CXPLAT_DRIVER_NAME : list Z := [99; 120; 112; 108; 97; 116; 116; 101; 115; 116].

Definition CxPlatTestInitialize : Test environment unit :=
  Status ← lift (on_library CxPlatInitialize);
  TEST_CXPLAT CXPLAT_FAILED 16 Status.

Definition CxPlatTestUninitialize : M environment unit := on_library CxPlatUninitialize.

(** A failing ASSERT reports the failure and returns. *)
Definition SetUp (fuel : nat) : Test environment unit :=
  if kernel then
    r ← lift (on_service (Service_Initialize fuel CXPLAT_DRIVER_NAME));
    _ ← TEST_EQUAL 26 0 r;
    r ← lift (on_service Start);
    _ ← TEST_EQUAL 27 0 r;
    ok ← lift (on_client (Client_Initialize (Z.of_nat (length CXPLAT_DRIVER_NAME))));
    TEST_TRUE 28 ok
  else CxPlatTestInitialize.

Definition TearDown : M environment unit :=
  if kernel then
    _ ← on_client Client_Uninitialize;
    on_service Service_Uninitialize
  else CxPlatTestUninitialize.
End Environment.
Arguments environment L : clear implicits.

(** ** Other platforms *)

(** The classes of cxplat_driver_helpers.h where there are no drivers. *)
Module Elsewhere.
Definition Service_Initialize (DriverName : list Z) : bool := false.
Definition Start : bool := false.
Definition Client_Initialize (DriverName : list Z) : bool := false.
Definition Run (IoControlCode InBufferSize TimeoutMs : Z) : bool := false.
Definition Read (IoControlCode OutBufferSize TimeoutMs : Z) : bool := false.

(** [SetUp] compiled with them; [ASSERT_EQ(0, ...)] compares the boolean with 0. *)
Definition SetUp_kernel : Test unit unit :=
  _ ← TEST_EQUAL 26 0 (Z.b2z (Service_Initialize CXPLAT_DRIVER_NAME));
  _ ← TEST_EQUAL 27 0 (Z.b2z Start);
  TEST_TRUE 28 (Client_Initialize CXPLAT_DRIVER_NAME).

(** A case with [--kernel]. *)
Definition case_passes (c : gtest_case) : bool :=
  match gtest_body c true with Request code => Run code 0 30000 | _ => true end.
End Elsewhere.

(** ** The driver *)

Section Driver.
Context `{!Wdf} `{!KernelOs}.
(** The status of [WdfDriverCreate]; whether the library is a debug build, and
    the driver a checked one. *)
Variable WdfDriverCreate_st : Z.
Variable DEBUG DBG : bool.

(** The control device, the library, and the client failures are reported to. *)
Record test_driver := mkTestDriver {
  ctl : driver;
  klib : kernel_plat;
  client_var : option nat
}.

Definition on_ctl {A} (m : M driver A) : M test_driver A := fun s =>
  match m (ctl s) with
  | Ret a c => Ret a (mkTestDriver c (klib s) (client_var s))
  | Stop r => Stop r | Fault f => Fault f | NoFuel => NoFuel
  end.
Definition on_klib {A} (m : M kernel_plat A) : M test_driver A := fun s =>
  match m (klib s) with
  | Ret a l => Ret a (mkTestDriver (ctl s) l (client_var s))
  | Stop r => Stop r | Fault f => Fault f | NoFuel => NoFuel
  end.

(** [CxPlatTestClient->TestFailure = true] of the driver's [LogTestFailure]. *)
Definition driver_log_failure : M test_driver unit := fun s =>
  match client_var s with Some _ => Ret tt s | None => Fault NullDeref end.

(** [TEST_CXPLAT(CxPlatInitialize())]: a failure is reported, and the function
    returns. *)
Definition CxPlatTestInitialize_kernel : M test_driver unit :=
  Status ← on_klib (CxPlatInitialize_kernel DEBUG);
  if Status <? 0 then driver_log_failure else mret tt.

Definition DriverEntry : M test_driver Z :=
  if negb (NT_SUCCESS WdfDriverCreate_st) then mret WdfDriverCreate_st
  else
    Status ← on_ctl CxPlatTestCtlInitialize;
    if negb (NT_SUCCESS Status) then mret Status
    else _ ← CxPlatTestInitialize_kernel; mret Status.

(** [NT_ASSERT] checks the interrupt level in a checked build. *)
Definition CxPlatTestDriverUnload (Irql : Z) : M test_driver unit :=
  _ ← (if DBG then fre_assert (Irql =? 0) else mret tt);
  _ ← on_klib CxPlatUninitialize_kernel;
  on_ctl (CxPlatTestCtlUninitialize DBG).
End Driver.

(** ** Theorems *)

(** What the arguments set.  Kernel mode is set only by [--kernel], and always by
    it when no [--timeout] stands before it; [OsRunner] points behind the option
    in an argument that contains it, or past the argument's terminating zero when
    nothing follows. *)
Definition seen (i : nat) (argv : list (list Z)) (s s' : settings) : Prop :=
  (TestingKernelMode s' = true -> TestingKernelMode s = true \/ kernel_option ∈ argv) /\
  (TestingKernelMode s = true \/ (kernel_option ∈ argv /\ timeout_option ∉ argv) -> TestingKernelMode s' = true) /\
  (OsRunner s' = OsRunner s \/
   exists j a, OsRunner s' = Some ((i + j)%nat, 11) /\ argv !! j = Some a /\ strstr a runner_option = true).

Lemma main_args_seen i argv s s' : main_args i argv s = Ret tt s' -> seen i argv s s'.
Proof.
  remember (length argv) as n eqn:Hn. assert (length argv <= n)%nat as Hle by lia. clear Hn.
  induction n as [|n IH] in i, argv, s, Hle |- *; destruct argv as [|a rest]; cbn in Hle; try lia;
    try (intros [= <-]; split_and!; [by left|intros [?|[[]%elem_of_nil _]]; done|by left]).
  cbn [main_args]. unfold streq. unfold seen in *.
  assert (forall s1 r k, (length r <= n)%nat -> main_args (i + k) r s1 = Ret tt s' -> (forall j, r !! j = (a :: rest) !! (k + j)%nat) ->
    (OsRunner s' = OsRunner s1 \/
     exists j a', OsRunner s' = Some ((i + j)%nat, 11) /\ (a :: rest) !! j = Some a' /\ strstr a' runner_option = true)) as Hrun.
  { intros s1 r k Hr E Hlk. destruct (IH _ _ _ Hr E) as (_ & _ & [?|(j & a' & H1 & H2 & H3)]); [by left|].
    right. exists (k + j)%nat, a'. rewrite H1, <- Hlk. split_and!; [do 2 f_equal; lia|done..]. }
  case_bool_decide as Hk; [|destruct (strstr a runner_option) eqn:Hs; [|case_bool_decide as Ht; [destruct rest as [|m rest]|]]].
  - intros E. change (main_args (S i) rest (mkSettings true (OsRunner s) (Timeout s)) = Ret tt s') in E.
    replace (S i) with (i + 1)%nat in E by lia. pose proof (IH _ rest _ ltac:(lia) E) as (_ & K & _).
    split_and!; [right; rewrite Hk; set_solver|intros _; apply K; by left|].
    exact (Hrun _ rest 1%nat ltac:(lia) E (fun j => eq_refl)).
  - intros E. change (main_args (S i) rest (mkSettings (TestingKernelMode s) (Some (i, 11)) (Timeout s)) = Ret tt s') in E.
    replace (S i) with (i + 1)%nat in E by lia. pose proof (IH _ rest _ ltac:(lia) E) as (K1 & K2 & _).
    split_and!; [set_solver|set_solver|].
    destruct (Hrun _ rest 1%nat ltac:(lia) E (fun j => eq_refl)) as [?|?]; [|by right].
    right. exists 0%nat, a. rewrite H, Nat.add_0_r. done.
  - intros E. injection E as <-. split_and!; [by left|set_solver|by left].
  - destruct (is_int (atoi m)); [|done]. intros E.
    change (main_args (S (S i)) rest (mkSettings (TestingKernelMode s) (OsRunner s) (u32 (atoi m))) = Ret tt s') in E.
    replace (S (S i)) with (i + 2)%nat in E by lia. cbn in Hle. pose proof (IH _ rest _ ltac:(lia) E) as (K1 & K2 & _).
    split_and!; [set_solver|set_solver|exact (Hrun _ rest 2%nat ltac:(lia) E (fun j => eq_refl))].
  - intros E. replace (S i) with (i + 1)%nat in E by lia. pose proof (IH _ rest _ ltac:(lia) E) as (K1 & K2 & _).
    split_and!; [set_solver|set_solver|exact (Hrun _ rest 1%nat ltac:(lia) E (fun j => eq_refl))].
Qed.

(** A program started with [--osRunner] alone: 11 is past the zero at 10. *)
Lemma os_runner_past_end :
  exists s, main_args 0 [[99]; runner_option] default_settings = Ret tt s /\
    OsRunner s = Some (1%nat, Z.of_nat (length runner_option) + 1).
Proof. by eexists. Qed.

(** The test of failure injection is in no case: the case that is named after it
    calls the memory test. *)
Lemma failure_injection_not_run c kernel : gtest_body c kernel <> CallFn MemoryFailureInjection.
Proof. by destruct c, kernel. Qed.

(** With [--kernel] on another platform the environment does not notice that there is
    no driver service: the booleans of the two calls that fail look like the
    success 0.  It fails at the device, and so does every case that makes a request. *)
Theorem kernel_mode_elsewhere s :
  Elsewhere.SetUp_kernel s = Ret (inl 28) s /\
  forall DEBUG c, c ∈ registered DEBUG false -> Elsewhere.case_passes c = bool_decide (c = MemorySuite_FailureInjection).
Proof. split; [done|]. intros DEBUG c _. by destruct c. Qed.

(** The request of a case is the control code of the function that the case calls
    in user mode; every kernel-mode test has a case on Windows, and no case is
    registered twice. *)
Lemma request_function c code :
  gtest_body c true = Request code -> exists x, code = IOCTL_CXPLAT_RUN x /\ gtest_body c false = CallFn (TestFn x).
Proof. destruct c; intros [= <-]; by eexists. Qed.

Lemma cases_cover DEBUG x : exists c, c ∈ registered DEBUG true /\ gtest_body c true = Request (IOCTL_CXPLAT_RUN x).
Proof.
  exists match x with
    | CryptRandom => CryptSuite_Random | MemoryBasic => MemorySuite_Basic | TimeBasic => TimeSuite_Basic
    | EventBasic => EventSuite_Basic | ProcBasic => ProcSuite_Basic | ThreadBasic => ThreadSuite_Basic
    | ThreadWaitTimeout => ThreadSuite_WithTimeout | VectorBasic => VectorSuite_Basic
    | ThreadAsync => ThreadSuite_Async | EventCpp => EventSuite_Cpp | LockBasic => LockSuite_Basic
    | LockReadWrite => LockSuite_ReadWrite end.
  split; [|by destruct x]. unfold registered. destruct DEBUG, x; cbn; set_solver.
Qed.

(** What [GetOverlappedResultEx] finds when the driver has completed the request
    with a status; [dos] is the system's conversion to an error. *)
Definition io_result (dos : Z -> Z) (Status : Z) : io_wait :=
  if NT_SUCCESS Status then Finished 0 else FailedWith (dos Status).

(** The client could make an event for the request, the request was accepted, and
    its completion was found before the time limit. *)
Definition delivered `{!WinIo} : bool :=
  CreateEvent_ok && (match DeviceIoControl with Refuses _ => false | _ => true end) &&
  (match GetOverlappedResultEx with StillPending => false | _ => true end).

(** C29: the verdict of a case in kernel mode.  The case of failure injection is
    skipped there, and passes.  For any other case, take a driver in a reachable
    state of a run in which no client is published while a cleanup is about to clear
    the variable, through whose open file the request comes, to an idle thread, at
    PASSIVE_LEVEL, and let it be handled without interruption: the driver runs the
    function that the case calls in user mode, and completes the request.  Then the
    case passes exactly when the function reports no failure, as it does in user
    mode, and the client's event was created, its request accepted and the
    completion found within 30 seconds.  The client has the handles it had; only
    after a timeout in which [CancelIoEx] finds the request, it is still pending. *)
Theorem runner_verdict `{!Wdf} n contexts ls w t f g q c failures :
  run (initial n contexts) ls = Some w -> polite (initial n contexts) ls = true ->
  files (dev w) !! f = Some g -> fstate g = Opened -> threads w !! t = Some (mkKthread Idle q) ->
  match gtest_body c true with
  | Skipped => c = MemorySuite_FailureInjection /\
      forall (W : WinIo) s, case_passes c true failures s = Ret true s
  | CallFn _ => False
  | Request code => exists x w' Status, gtest_body c false = CallFn (TestFn x) /\
      run w ([Control t (Some f) 0 0 code; ControlDevice.Run t; ControlDevice.Run t] ++
             replicate (failures (TestFn x)) (Failing t) ++
             [ControlDevice.Run t; ControlDevice.Run t; ControlDevice.Run t]) = Some w' /\
      completed w' = completed w ++ [(t, Status)] /\
      forall (W : WinIo) dos s, sent s ∉ pending s ->
        GetOverlappedResultEx = io_result dos Status \/ GetOverlappedResultEx = StillPending ->
        exists s', case_passes c true failures s = Ret (delivered && Nat.eqb (failures (TestFn x)) 0) s' /\
          case_passes c false failures s = Ret (Nat.eqb (failures (TestFn x)) 0) s /\
          open_handles s' = open_handles s /\
          pending s' = (if left_behind RunTimeoutMs then {[ sent s ]} ∪ pending s else pending s)
  end.
Proof.
  intros Hr Hp Hg Ho Hk. destruct (gtest_body c true) as [code|fn|] eqn:Hc.
  2:{ by destruct c. }
  2:{ unfold case_passes. rewrite Hc. split; [by destruct c|done]. }
  destruct (request_function c code Hc) as (x & -> & Hu).
  destruct (ctl_test_verdict n contexts ls w t f g q 0 0 x (failures (TestFn x)) Hr Hp Hg Ho Hk ltac:(lia) ltac:(lia))
    as (w' & Hw & _ & Hcw).
  eexists x, w', _. split; [exact Hu|]. split; [exact Hw|]. split; [exact Hcw|].
  intros W dos s Hs Hres. destruct (run_spec RunTimeoutMs s Hs) as (r & s' & E & Hh & _ & Hpe & Hsucc).
  exists s'. unfold case_passes. rewrite Hc, Hu. split_and!; [|done|done|exact Hpe].
  rewrite E. f_equal. unfold delivered. apply eq_true_iff_eq. rewrite Hsucc, !andb_true_iff. unfold succeeds.
  destruct (Nat.eqb (failures (TestFn x)) 0); destruct Hres as [Hres|Hres]; rewrite Hres; cbn.
  - split; [intros (k & Hev & Href & _)|intros [[[Hev Ha] _] _]].
    + split_and!; try done. destruct DeviceIoControl as [| |e]; [done|done|by destruct (Href e)].
    + exists 0. split_and!; [done| |done]. intros e He. by rewrite He in Ha.
  - split; [by intros (k & _ & _ & ?)|by intros [[_ ?] _]].
  - split; [by intros (k & _ & _ & ?)|by intros [_ ?]].
  - split; [by intros (k & _ & _ & ?)|by intros [_ ?]].
Qed.

(** The environment of the tests in kernel mode. *)
Lemma client_roundtrip `{!WinIo} s len :
  DeviceHandle s = None ->
  exists ok s', Client_Initialize len s = Ret ok s' /\ (ok = true <-> is_Some (DeviceHandle s')) /\
    exists s'', Client_Uninitialize s' = Ret tt s'' /\ open_handles s'' = open_handles s.
Proof.
  destruct s as [h hs k p]. cbn. intros ->. unfold Client_Initialize.
  destruct (_ || _); [eexists _, _; split; [done|]; split; [split; [done|by intros []]|]; by eexists|].
  destruct CreateFileA_ok; eexists _, _; (split; [done|]); cbn; (split; [split; [done|by try intros []]|]); [|by eexists].
  unfold Client_Uninitialize, CloseHandle, get, upd, mbind, M_bind. cbn. pose proof (is_fresh hs).
  rewrite bool_decide_true by set_solver. eexists. split; [done|]. cbn. apply leibniz_equiv. set_solver.
Qed.

Lemma on_client_Ret {L A} (m : M client A) (e : environment L) a c :
  m (DriverClient e) = Ret a c -> on_client m e = Ret a (mkEnv (DriverService e) c (library e)).
Proof. intros H. unfold on_client. by rewrite H. Qed.

Lemma teardown_eq {L} (uninit : M L unit) sv sv' cl cl' lib :
  Client_Uninitialize cl = Ret tt cl' -> Service_Uninitialize sv = Ret tt sv' ->
  TearDown uninit true (mkEnv sv cl lib) = Ret tt (mkEnv sv' cl' lib).
Proof.
  intros Hc Hs. unfold TearDown, on_client, on_service, mbind, M_bind. cbn [DriverClient DriverService library].
  rewrite Hc. cbn [DriverClient DriverService library]. by rewrite Hs.
Qed.

(** The environment in kernel mode.  When the driver's file is beside the
    program, its path fits, and the service manager lets the service be opened at
    the latest at the [k]-th attempt: [SetUp] returns; if it reports no failure,
    the service and the device are open; and wherever it failed, [TearDown] closes
    every handle it opened, and the user-mode library is not touched. *)
Theorem environment_balanced `{!Scm} `{!WinIo} {L} (init : M L Z) uninit failed_status dir fuel k (e : environment L) :
  ScmHandle (DriverService e) = None -> ServiceHandle (DriverService e) = None ->
  DeviceHandle (DriverClient e) = None ->
  directory module_path = Some dir ->
  Z.of_nat (length dir) + Z.of_nat (length (driver_file CXPLAT_DRIVER_NAME)) < MAX_PATH ->
  file_present (dir ++ driver_file CXPLAT_DRIVER_NAME) = true ->
  OpenServiceA k = true -> (k < fuel)%nat ->
  exists r e1, SetUp init failed_status true fuel e = Ret r e1 /\
    (r = inr tt -> is_Some (ServiceHandle (DriverService e1)) /\ is_Some (DeviceHandle (DriverClient e1))) /\
    exists e2, TearDown uninit true e1 = Ret tt e2 /\
      sc_handles (DriverService e2) = sc_handles (DriverService e) /\
      open_handles (DriverClient e2) = open_handles (DriverClient e) /\ library e2 = library e.
Proof.
  intros Hm Hs Hd Hdir Hl Hf Ho Hk. destruct e as [sv cl lib]. cbn in *.
  destruct (driver_service_initialize CXPLAT_DRIVER_NAME dir fuel k sv Hm Hs Hdir Hl Hf Ho Hk)
    as (r & sv1 & E1 & Hr & _ & sv2 & E2 & Hsc).
  assert (exists c2, Client_Uninitialize cl = Ret tt c2 /\ open_handles c2 = open_handles cl) as (c2 & C2 & Hoc).
  { unfold Client_Uninitialize, get, mbind, M_bind. rewrite Hd. by eexists. }
  pose proof (teardown_eq uninit sv1 sv2 cl c2 lib C2 E2) as Htd.
  unfold SetUp. rewrite (lift_bind _ _ _ r (mkEnv sv1 cl lib)) by (unfold on_service; cbn; by rewrite E1).
  destruct (Z.eqb_spec r 0) as [->|Hne].
  2: { eexists _, _. unfold TEST_EQUAL. rewrite (proj2 (Z.eqb_neq r 0)) by done. split; [done|].
       split; [done|]. exists (mkEnv sv2 c2 lib). done. }
  rewrite (test_bind _ _ _ tt (mkEnv sv1 cl lib)) by done.
  assert (exists r', on_service Start (mkEnv sv1 cl lib) = Ret r' (mkEnv sv1 cl lib)) as (r' & E3).
  { unfold on_service, Start. destruct StartServiceA as [x|]; [destruct (negb _)|]; by eexists. }
  rewrite (lift_bind _ _ _ _ _ E3). unfold TEST_EQUAL at 1. destruct (r' =? 0); cbn [negb].
  2: { eexists _, _. split; [done|]. split; [done|]. exists (mkEnv sv2 c2 lib). done. }
  rewrite (test_bind _ _ _ tt (mkEnv sv1 cl lib)) by done.
  destruct (client_roundtrip cl (Z.of_nat (length CXPLAT_DRIVER_NAME)) Hd) as (ok & c1 & E4 & Hok & c3 & E5 & Hop).
  rewrite (lift_bind _ _ _ ok (mkEnv sv1 c1 lib)) by (exact (on_client_Ret _ (mkEnv sv1 cl lib) _ _ E4)).
  pose proof (teardown_eq uninit sv1 sv2 c1 c3 lib E5 E2) as Htd'.
  unfold TEST_TRUE. destruct ok; cbn [negb]; eexists _, _; (split; [done|]); (split; [|by exists (mkEnv sv2 c3 lib)]).
  - intros _. split; [by apply Hr|by apply Hok].
  - done.
Qed.

(** The driver of the witnesses: file 0 is open, thread 1 is idle. *)
Definition opened_device : world :=
  mkWorld (mkDevice (mkExt None [O] 1) (Some O) [mkFile Opened true false]) [mkKthread Idle 0; mkKthread Idle 0]
    [(O, STATUS_SUCCESS)].

(** A test that fails twice: the case fails in both modes. *)
#[local] Program Instance failing_io : WinIo := {|
  CreateFileA_ok := true;
  CreateEvent_ok := true;
  DeviceIoControl := Pends;
  GetOverlappedResultEx := FailedWith 1358;
  CancelIoEx_ok := true
|}.
Solve All Obligations with naive_solver.

Lemma runner_verdict_witness :
  exists s', case_passes LockSuite_Basic true (fun _ => 2%nat) (mkClient (Some O) {[ O ]} 0 ∅) = Ret false s' /\
    open_handles s' = {[ O ]} /\ pending s' = ∅.
Proof.
  assert (run (initial 2 [true]) (opening 0 0) = Some opened_device) as Hr by (vm_compute; reflexivity).
  destruct (runner_verdict 2 [true] (opening 0 0) opened_device 1 0 (mkFile Opened true false) 0 LockSuite_Basic
    (fun _ => 2%nat) Hr eq_refl eq_refl eq_refl eq_refl)
    as (x & w' & Status & Hu & Hw & Hc & Hall).
  injection Hu as <-. assert (Status = STATUS_FAIL_FAST_EXCEPTION) as ->
    by (vm_compute in Hw; injection Hw as <-; vm_compute in Hc; injection Hc as <-; reflexivity).
  destruct (Hall failing_io (fun _ => 1358) (mkClient (Some O) {[ O ]} 0 ∅)) as (s' & E & _ & Hh & Hp);
    [apply not_elem_of_empty|left; reflexivity|].
  exists s'. split; [exact E|]. split; [exact Hh|exact Hp].
Defined.

Lemma environment_balanced_witness :
  exists e1 e2, SetUp (L := unit) (mret 0) (fun _ => false) true 5
      (mkEnv (mkService None None ∅ None) (mkClient None ∅ 0 ∅) tt) = Ret (inr tt) e1 /\
    TearDown (mret tt) true e1 = Ret tt e2 /\
    sc_handles (DriverService e2) = ∅ /\ open_handles (DriverClient e2) = ∅.
Proof.
  destruct (environment_balanced (L := unit) (mret 0) (mret tt) (fun _ => false) [92] 5 1
    (mkEnv (mkService None None ∅ None) (mkClient None ∅ 0 ∅) tt)) as (r & e1 & E & _ & e2 & T & Hs & Ho & _);
    try reflexivity; [lia|].
  exists e1, e2. split_and!; [|exact T|exact Hs|exact Ho].
  enough (r = inr tt) as <- by exact E. vm_compute in E. by injection E.
Defined.

(** The library's part, for any number of processors. *)
Lemma kernel_open `{!KernelOs} DEBUG l :
  RngAlgorithm l = false ->
  exists l1, CxPlatInitialize_kernel DEBUG l = Ret open_provider.1 l1 /\
    (0 <= open_provider.1 -> RngAlgorithm l1 = true /\ providers l1 = S (providers l) /\
       exists l2, CxPlatUninitialize_kernel l1 = Ret tt l2 /\ RngAlgorithm l2 = false /\ providers l2 = providers l).
Proof.
  intros Hr. pose proof provider_stored as Hst. unfold CxPlatInitialize_kernel, get, put, mbind, M_bind. rewrite Hr.
  destruct open_provider as [st stored]; cbn in *. destruct (Z.ltb_spec st 0).
  - destruct stored; cbn; eexists; (split; [done|lia]).
  - rewrite Hst by lia. cbn. eexists. split; [by destruct DEBUG|]. intros _. split_and!; [done|done|]. by eexists.
Qed.

(** C30: the life of the driver.  [DriverEntry] returns a failure only when the
    driver object or the control device could not be created, and then the library
    is untouched.  When it succeeds the device accepts requests and the library is
    initialized, and unloading at PASSIVE_LEVEL gives both back: the driver has
    the devices, and the library the providers, that it had before.  But a failure
    of [CxPlatInitialize] in it is reported to a client, of which there is none
    yet: the driver dereferences a null pointer. *)
Theorem driver_lifecycle `{!Wdf} `{!KernelOs} create_st DEBUG DBG s :
  CxPlatTestCtlDevice (ctl s) = None -> CxPlatTestCtlExtension (ctl s) = None ->
  RngAlgorithm (klib s) = false -> client_var s = None ->
  (exists Status s1, DriverEntry create_st DEBUG s = Ret Status s1 /\
     if NT_SUCCESS Status then
       (exists d c, CxPlatTestCtlDevice (ctl s1) = Some d /\ devices (ctl s1) !! d = Some c /\ c_ready c = true) /\
       RngAlgorithm (klib s1) = true /\ providers (klib s1) = S (providers (klib s)) /\
       exists s2, CxPlatTestDriverUnload DBG 0 s1 = Ret tt s2 /\ ctl s2 = ctl s /\
         RngAlgorithm (klib s2) = false /\ providers (klib s2) = providers (klib s)
     else klib s1 = klib s) \/
  (open_provider.1 < 0 /\ DriverEntry create_st DEBUG s = Fault NullDeref).
Proof.
  destruct s as [c l v]. cbn. intros Hd Hx Hr ->. unfold DriverEntry.
  destruct (NT_SUCCESS create_st) eqn:Hcr; cbn [negb]; [|left; eexists _, _; split; [done|]; by rewrite Hcr].
  destruct (ctl_initialize DBG c Hd Hx) as (Status & c1 & E1 & _ & Hcase).
  rewrite (bind_Ret _ _ _ Status (mkTestDriver c1 l None)) by (unfold on_ctl; cbn [ctl klib client_var]; by rewrite E1).
  destruct (NT_SUCCESS Status) eqn:Hst; cbn [negb]; [|left; eexists _, _; split; [done|]; by rewrite Hst].
  destruct Hcase as (d & _ & HD & _ & Hdev & Hun). destruct (kernel_open DEBUG l Hr) as (l1 & El & Hok).
  set (s1 := mkTestDriver c1 l1 None).
  assert (CxPlatTestInitialize_kernel DEBUG (mkTestDriver c1 l None) =
    if open_provider.1 <? 0 then Fault NullDeref else Ret tt s1) as Ei.
  { unfold CxPlatTestInitialize_kernel. rewrite (bind_Ret _ _ _ open_provider.1 s1)
      by (unfold on_klib; cbn [ctl klib client_var]; by rewrite El). by destruct (_ <? 0). }
  destruct (Z.ltb_spec open_provider.1 0) as [Hlt|Hge].
  { right. split; [done|]. unfold mbind, M_bind. by rewrite Ei. }
  left. exists Status, s1. rewrite (bind_Ret _ _ _ _ _ Ei), Hst. split; [done|].
  destruct (Hok Hge) as (H1 & H2 & l2 & Eu & H3 & H4).
  split_and!; [exists d; eexists; cbn; rewrite HD, Hdev, lookup_insert_eq; done|done|done|].
  exists (mkTestDriver c l2 None). split_and!; try done.
  unfold CxPlatTestDriverUnload. rewrite (bind_Ret _ _ s1 tt s1) by (by destruct DBG).
  rewrite (bind_Ret _ _ s1 tt (mkTestDriver c1 l2 None)) by (unfold on_klib; cbn [s1 ctl klib client_var]; by rewrite Eu).
  unfold on_ctl. cbn [ctl klib client_var]. by rewrite Hun.
Qed.

(** A kernel that has a random number provider, and one that has none. *)
Definition kernel_os (status : Z) (stored : bool) (H : 0 <= status -> stored = true) : KernelOs := {|
  active_processors := 4; counter_frequency := 10000000; open_provider := (status, stored); current_processor := 0;
  provider_stored := H
|}.
Definition kernel_ok : KernelOs := kernel_os 0 true (fun _ => eq_refl).

Lemma no_provider_status : 0 <= STATUS_INSUFFICIENT_RESOURCES -> false = true.
Proof. intros H. vm_compute in H. by destruct H. Qed.
Definition kernel_without : KernelOs := kernel_os STATUS_INSUFFICIENT_RESOURCES false no_provider_status.

Definition unloaded : test_driver := mkTestDriver (mkDriver 0 ∅ None None) (mkKPlat false 0 0 0) None.

Lemma driver_lifecycle_witness :
  (exists s1 s2, DriverEntry (H0 := kernel_ok) 0 true unloaded = Ret 0 s1 /\ RngAlgorithm (klib s1) = true /\
     CxPlatTestDriverUnload true 0 s1 = Ret tt s2 /\ ctl s2 = ctl unloaded /\ providers (klib s2) = O) /\
  DriverEntry (H0 := kernel_without) 0 true unloaded = Fault NullDeref.
Proof.
  split.
  - destruct (driver_lifecycle (H0 := kernel_ok) 0 true true unloaded eq_refl eq_refl eq_refl eq_refl)
      as [(Status & s1 & E & Hcase)|[Hlt _]]; [|vm_compute in Hlt; discriminate Hlt].
    assert (Status = 0) as -> by (vm_compute in E; by injection E).
    destruct Hcase as (_ & H1 & _ & s2 & Eu & Hc & _ & Hp). exists s1, s2. split_and!; [exact E|exact H1|exact Eu|exact Hc|exact Hp].
  - destruct (driver_lifecycle (H0 := kernel_without) 0 true true unloaded eq_refl eq_refl eq_refl eq_refl)
      as [(Status & s1 & E & _)|[_ E]]; [vm_compute in E; discriminate E|exact E].
Defined.
