(* ===== verification/Explore.v ===== *)
(** * Finite systems, by exploration

    A step function with finitely many labels; the states reachable from a state
    are computed, and a property checked of each of them holds after every run.
    The file has the search and what its result proves; the programs are in the
    files that use it. *)

From S2P Require Import Prelude.

Section Explore.
Context {W L : Type} `{!EqDecision W}.
Variable step : W -> L -> option W.
Variable labels : list L.
Hypothesis labels_complete : forall l, l ∈ labels.

Fixpoint steps (w : W) (ls : list L) : option W :=
  match ls with
  | [] => Some w
  | l :: ls => w' ← step w l; steps w' ls
  end.

Definition successors (w : W) : list W := omap (step w) labels.

(** The states found from [todo], each once. *)
Fixpoint explore (fuel : nat) (todo found : list W) : list W :=
  match fuel, todo with
  | S fuel, w :: todo =>
      if bool_decide (w ∈ found) then explore fuel todo found
      else explore fuel (successors w ++ todo) (w :: found)
  | _, _ => found
  end.

(** A set of states with a property that no step leaves. *)
Definition closed (good : W -> bool) (found : list W) : bool :=
  forallb (fun w => good w && forallb (fun w' => bool_decide (w' ∈ found)) (successors w)) found.

(** Whether a state with a property can be reached in [n] steps. *)
Fixpoint can_reach (goal : W -> bool) (n : nat) (w : W) : bool :=
  goal w || match n with O => false | S n => existsb (can_reach goal n) (successors w) end.

(** Some step is possible; every step decreases a measure. *)
Definition enabled (w : W) : bool := match successors w with [] => false | _ => true end.
Definition decreasing (weight : W -> nat) (w : W) : bool :=
  forallb (fun w' => weight w' <? weight w)%nat (successors w).

Lemma step_successor w l w' : step w l = Some w' -> w' ∈ successors w.
Proof. intros Hs. apply list_elem_of_omap. exists l. split; [apply labels_complete|done]. Qed.

Lemma successor_step w w' : w' ∈ successors w -> exists l, step w l = Some w'.
Proof. intros (l & _ & Hs)%list_elem_of_omap. eauto. Qed.

Lemma closed_elem good found w :
  closed good found = true -> w ∈ found -> good w = true /\ forall w', w' ∈ successors w -> w' ∈ found.
Proof.
  intros Hc Hw%list_elem_of_In. unfold closed in Hc. rewrite forallb_forall in Hc.
  specialize (Hc w Hw). apply andb_true_iff in Hc as [Hg Hs]. split; [done|].
  intros w' Hw'%list_elem_of_In. rewrite forallb_forall in Hs. specialize (Hs w' Hw').
  by apply bool_decide_eq_true in Hs.
Qed.

Lemma closed_runs good found w ls w' :
  closed good found = true -> w ∈ found -> steps w ls = Some w' -> good w' = true /\ w' ∈ found.
Proof.
  intros Hc. induction ls as [|l ls IH] in w |- *; intros Hw Hr; cbn in Hr.
  - injection Hr as <-. by destruct (closed_elem good found w Hc Hw).
  - destruct (step w l) as [w1|] eqn:Hs; [|done]. cbn in Hr.
    apply (IH w1); [|done]. by eapply closed_elem, step_successor.
Qed.

(** A measure that every step of the set decreases bounds the length of runs. *)
Lemma closed_measure good found (weight : W -> nat) w ls w' :
  closed good found = true -> w ∈ found ->
  (forall w w', good w = true -> w' ∈ successors w -> (weight w' < weight w)%nat) ->
  steps w ls = Some w' -> (length ls + weight w' <= weight w)%nat.
Proof.
  intros Hc Hw Hm. induction ls as [|l ls IH] in w, Hw |- *; intros Hr; cbn in Hr.
  - injection Hr as <-. done.
  - destruct (step w l) as [w1|] eqn:Hs; [|done]. cbn in Hr. apply step_successor in Hs.
    destruct (closed_elem good found w Hc Hw) as [Hg Hin]. pose proof (IH w1 (Hin _ Hs) Hr).
    pose proof (Hm w w1 Hg Hs). cbn. lia.
Qed.

Lemma closed_bound good found (weight : W -> nat) w ls w' :
  closed good found = true -> w ∈ found -> (forall w, good w = true -> decreasing weight w = true) ->
  steps w ls = Some w' -> (length ls <= weight w)%nat.
Proof.
  intros Hc Hw Hd Hr. enough (length ls + weight w' <= weight w)%nat by lia.
  eapply closed_measure; [done|done| |done]. intros w1 w2 Hg Hs%list_elem_of_In.
  specialize (Hd w1 Hg). unfold decreasing in Hd. rewrite forallb_forall in Hd. by apply Nat.ltb_lt, Hd.
Qed.

Lemma enabled_step w : enabled w = true -> exists l w', step w l = Some w'.
Proof.
  unfold enabled. destruct (successors w) as [|w' ws] eqn:Hs; [done|]. intros _.
  destruct (successor_step w w') as [l E]; [rewrite Hs; set_solver|]. eauto.
Qed.

Lemma can_reach_run goal n w :
  can_reach goal n w = true -> exists ls w', (length ls <= n)%nat /\ steps w ls = Some w' /\ goal w' = true.
Proof.
  induction n as [|n IH] in w |- *; cbn; intros [Hg|Hr]%orb_true_iff; try done.
  - exists [], w. split; [cbn; lia|done].
  - exists [], w. split; [cbn; lia|done].
  - apply existsb_exists in Hr as (w1 & Hin%list_elem_of_In & Hr).
    destruct (successor_step w w1 Hin) as [l Hs]. destruct (IH w1 Hr) as (ls & w' & Hl & Hrun & Hg).
    exists (l :: ls), w'. split; [cbn; lia|]. cbn. by rewrite Hs.
Qed.
End Explore.
