(* ===== verification/LockTest.v ===== *)
(** * Two threads, a lock and an event (src/test/lib/LockTest.cpp)

    The last part of [CxPlatTestLockBasic] is the one program of the repository in
    which a lock, an event and [CxPlatAsyncT] work together: the function holds the
    lock while it starts a thread that takes the lock and sets the event, and
    checks that a wait for the event is not satisfied before the lock is
    released and is satisfied after it.  The lock is the statements of the
    platform's macros ([SysLock]); the event is the atomic event ([spec_step])
    that the events of all platforms implement ([EventTheorems],
    [WinEventTheorems]); a timed wait may end at any time, and the thread may
    fail to start (a creation that reports failure makes no thread, one that
    reports success makes one).  The states of a run are finitely many, and the theorem about
    all runs is proved by exploring them ([Explore]). *)

From S2P Require Import Prelude Explore Event SysLock.

(** The statements of the function: a call on the lock, the constructor of the
    asynchronous call, a timed wait whose result is checked, the destructors of
    the asynchronous call and of the lock. *)
Inductive statement :=
  | LockCall (c : call)
  | AsyncCtor
  | WaitTimeout (line : Z) (expected : bool)
  | AsyncDtor
  | LockDtor.

(** Those of the callback. *)
Inductive callback_statement := CallbackLock (c : call) | CallbackSet.

#[export] Instance call_eq_dec : EqDecision call.
Proof. solve_decision. Defined.
#[export] Instance holder_eq_dec : EqDecision holder.
Proof. solve_decision. Defined.
#[export] Instance statement_eq_dec : EqDecision statement.
Proof. solve_decision. Defined.
#[export] Instance callback_statement_eq_dec : EqDecision callback_statement.
Proof. solve_decision. Defined.

(** What is left of the function, the line of a failed check, what is left of the
    thread ([None]: there is none), and how often a wait timed out. *)
Record test_world := mkTest {
  lk : holder;
  signaled : bool;
  main : list statement;
  failed_at : option Z;
  thread : option (list callback_statement);
  timeouts : nat;
  broken : bool                  (** a failed assertion, or an undefined call *)
}.

#[export] Instance test_world_eq_dec : EqDecision test_world.
Proof. solve_decision. Defined.

Inductive test_label :=
  | Main                         (** the function executes its next statement; a wait is satisfied *)
  | MainTimeout                  (** the wait of the function times out *)
  | MainNoThread                 (** the thread cannot be created *)
  | Callback.                    (** the thread executes its next statement *)

Section LockTest.
Context `{!DeadlockPolicy}.
Variable p : platform.

Definition callback : list callback_statement :=
  map CallbackLock (acquire (CxPlatLock p) Exclusive) ++ [CallbackSet] ++
  map CallbackLock (release (CxPlatLock p) Exclusive).

Definition lock_test : list statement :=
  map LockCall (acquire (CxPlatLock p) Exclusive) ++ [AsyncCtor; WaitTimeout 67 false] ++
  map LockCall (release (CxPlatLock p) Exclusive) ++ [WaitTimeout 69 true; AsyncDtor; LockDtor].

(** The event is not a manual-reset one and not signaled; the lock is new. *)
Definition test_start : test_world := mkTest Free false lock_test None None 0 false.

Definition break (w : test_world) : test_world :=
  mkTest (lk w) (signaled w) (main w) (failed_at w) (thread w) (timeouts w) true.

(** A check: the function goes on, or reports the line and returns, which runs
    the destructors. *)
Definition checked (w : test_world) (line : Z) (expected result : bool) (k : list statement) (sig : bool) (n : nat) : test_world :=
  if Bool.eqb expected result then mkTest (lk w) sig k (failed_at w) (thread w) n (broken w)
  else mkTest (lk w) sig [AsyncDtor; LockDtor] (Some line) (thread w) n (broken w).

Definition on_lock (c : call) (t : nat) (w : test_world) (k : holder -> test_world) : option test_world :=
  match perform c t (lk w) with
  | Go h => Some (k h)
  | Waits => None
  | Stops | Undefined => Some (break w)
  end.

(** The function is thread 0, the callback runs in thread 1. *)
Definition main_step (w : test_world) : option test_world :=
  match main w with
  | [] => None
  | LockCall c :: k =>
      on_lock c 0 w (fun h => mkTest h (signaled w) k (failed_at w) (thread w) (timeouts w) (broken w))
  | AsyncCtor :: k => Some (mkTest (lk w) (signaled w) k (failed_at w) (Some callback) (timeouts w) (broken w))
  | WaitTimeout line expected :: k =>
      b ← spec_step true (signaled w) (EWait true);
      Some (checked w line expected true k b (timeouts w))
  | AsyncDtor :: k =>
      match thread w with
      | Some (_ :: _) => None
      | _ => Some (mkTest (lk w) (signaled w) k (failed_at w) (thread w) (timeouts w) (broken w))
      end
  | LockDtor :: k =>
      match lk w with
      | Free => Some (mkTest (lk w) (signaled w) k (failed_at w) (thread w) (timeouts w) (broken w))
      | _ => Some (break w)
      end
  end.

Definition timeout_step (w : test_world) : option test_world :=
  match main w with
  | WaitTimeout line expected :: k =>
      b ← spec_step true (signaled w) (EWait false);
      Some (checked w line expected false k b (S (timeouts w)))
  | _ => None
  end.

Definition no_thread_step (w : test_world) : option test_world :=
  match main w with
  | AsyncCtor :: k => Some (mkTest (lk w) (signaled w) k (failed_at w) None (timeouts w) (broken w))
  | _ => None
  end.

Definition callback_step (w : test_world) : option test_world :=
  match thread w with
  | Some (CallbackLock c :: k) =>
      on_lock c 1 w (fun h => mkTest h (signaled w) (main w) (failed_at w) (Some k) (timeouts w) (broken w))
  | Some (CallbackSet :: k) =>
      b ← spec_step true (signaled w) ESet;
      Some (mkTest (lk w) b (main w) (failed_at w) (Some k) (timeouts w) (broken w))
  | _ => None
  end.

Definition test_step (w : test_world) (l : test_label) : option test_world :=
  match l with
  | Main => main_step w
  | MainTimeout => timeout_step w
  | MainNoThread => no_thread_step w
  | Callback => callback_step w
  end.

Definition labels : list test_label := [Main; MainTimeout; MainNoThread; Callback].
End LockTest.

Lemma labels_complete l : l ∈ labels.
Proof. destruct l; unfold labels; set_solver. Qed.

(** ** All runs *)

(** The statements that are left, also those of a thread still to be started. *)
Definition weight (p : platform) (w : test_world) : nat :=
  (length (main w) +
   match thread w with
   | Some k => length k
   | None => if bool_decide (AsyncCtor ∈ main w) then length (callback p) else 0
   end)%nat.

(** What the theorem says of one state. *)
Definition acceptable `{!DeadlockPolicy} (p : platform) (w : test_world) : bool :=
  negb (broken w) && bool_decide (failed_at w = None \/ failed_at w = Some 69) &&
  (if bool_decide (main w = [])
   then bool_decide (lk w = Free) && bool_decide (thread w = None \/ thread w = Some []) &&
        Bool.eqb (bool_decide (failed_at w = None)) (Nat.eqb (timeouts w) 1)
   else enabled (test_step p) labels w) &&
  decreasing (test_step p) labels (weight p) w.

(** The exploration of each platform is closed. *)
Lemma explored_closed P p :
  exists found, closed (test_step (H := P) p) labels (acceptable p) found = true /\ test_start p ∈ found.
Proof.
  exists (explore (test_step (H := P) p) labels 1000 [test_start p] []). split.
  - destruct P as [[]], p; vm_compute; reflexivity.
  - apply (proj1 (bool_decide_eq_true _)). destruct P as [[]], p; vm_compute; reflexivity.
Qed.

(** C15: the lock excludes the thread and the event wakes the function, on every
    platform and in every run.  No assertion of the macros fails and no call is
    undefined.  The first wait is never satisfied: the check at line 67 holds.
    As long as the function has not returned, something can happen, and the
    number of steps is bounded; at its end the lock is free, so its destructor may
    run, and the thread has ended.  The test then passes exactly when only the
    first wait timed out; it can fail only at line 69, if the second wait timed
    out as well. *)
Theorem lock_test_runs `{!DeadlockPolicy} p ls w :
  steps (test_step p) (test_start p) ls = Some w ->
  broken w = false /\ (failed_at w = None \/ failed_at w = Some 69) /\
  (length ls <= weight p (test_start p))%nat /\
  (main w <> [] -> exists l w', test_step p w l = Some w') /\
  (main w = [] -> lk w = Free /\ (thread w = None \/ thread w = Some []) /\ (failed_at w = None <-> timeouts w = 1%nat)).
Proof.
  intros Hr. destruct (explored_closed _ p) as (found & Hc & Hs).
  destruct (closed_runs _ _ labels_complete _ _ _ _ _ Hc Hs Hr) as [Ha _].
  unfold acceptable in Ha. rewrite !andb_true_iff in Ha.
  destruct Ha as [[[Hb Hf] Hm] _]. split_and!; [by apply negb_true_iff|by apply bool_decide_eq_true in Hf|..].
  - eapply (closed_bound _ _ labels_complete _ _ (weight p) _ _ _ Hc Hs); [|done].
    intros w1 Hg. unfold acceptable in Hg. rewrite !andb_true_iff in Hg. by destruct Hg as [_ Hg].
  - intros Hne. rewrite (bool_decide_false _ Hne) in Hm. exact (enabled_step _ _ labels_complete _ Hm).
  - intros He. rewrite (bool_decide_true _ He) in Hm. rewrite !andb_true_iff in Hm. destruct Hm as [[Hlk Ht] Hv].
    apply bool_decide_eq_true in Hlk, Ht. split_and!; [done..|]. apply Bool.eqb_prop in Hv.
    rewrite <- (bool_decide_eq_true (failed_at w = None)), Hv. apply Nat.eqb_eq.
Qed.

(** In the kernel: the thread waits for the lock, the first wait times out. *)
Definition blocked_first : list test_label :=
  [Main; Main; Main; Callback; MainTimeout; Main; Main; Callback; Callback; Main; Callback; Callback; Main; Main].

Lemma lock_test_runs_witness :
  exists w, steps (test_step (H := {| reports_deadlock := true |}) WINKERNEL) (test_start WINKERNEL) blocked_first = Some w /\
    main w = [] /\ failed_at w = None /\ lk w = Free.
Proof.
  eexists. split; [vm_compute; reflexivity|].
  assert (steps (test_step (H := {| reports_deadlock := true |}) WINKERNEL) (test_start WINKERNEL) blocked_first =
    Some (mkTest Free false [] None (Some []) 1 false)) as Hr by (vm_compute; reflexivity).
  destruct (lock_test_runs (H := {| reports_deadlock := true |}) WINKERNEL blocked_first _ Hr)
    as (_ & _ & _ & _ & Hend). destruct (Hend eq_refl) as (Hlk & _ & Hv).
  split; [reflexivity|]. split; [apply Hv; reflexivity|exact Hlk].
Defined.
