(* ===== verification/LockLevels.v ===== *)
(** * The lock tests on one thread (src/test/lib/LockTest.cpp)

    [CxPlatTestLockReadWrite] and the first three parts of [CxPlatTestLockBasic]:
    one thread takes and releases a lock of each class, and in the kernel checks
    the interrupt level around it.  The passive locks are the statements of
    [SysLock] on every platform, and so are the dispatch locks outside the
    kernel; the kernel's dispatch locks are those of [Irql].  The part with a
    second thread is in [LockTest]. *)

From S2P Require Import Prelude TestLib Lock SysLock Irql.

(** The lock of the block that is being executed, as a lock of the system or as a
    dispatch lock of the kernel (number 0 of the interrupt state); and how often the
    thread is in a critical region. *)
Record lock_state := mkLockState { irq : irql_state; held : holder; regions : Z }.

Section Tests.
Context `{!DeadlockPolicy} `{!PthreadLocks}.
Variable p : platform.

Definition kernel : bool := bool_decide (p = WINKERNEL).

Definition on_irql {A} (m : M irql_state A) : M lock_state A := fun s =>
  match m (irq s) with
  | Ret x i => Ret x (mkLockState i (held s) (regions s))
  | Stop r => Stop r
  | Fault f => Fault f
  | NoFuel => NoFuel
  end.

(** The statements of a lock macro.  A push lock may not be used at DISPATCH_LEVEL; a
    thread that waits for a lock it holds itself never returns. *)
Fixpoint run_calls (cs : list call) : M lock_state unit := fun s =>
  match cs with
  | [] => Ret tt s
  | c :: cs =>
      if kernel && (DISPATCH_LEVEL <=? level (irq s)) then Fault BadAccess
      else match perform c 0 (held s) with
           | Go h => run_calls cs (mkLockState (irq s) h (region_after c (regions s)))
           | Waits => NoFuel
           | Stops => Stop AssertFailed
           | Undefined => Fault BadAccess
           end
  end.

(** A constructor or destructor of [SysLock]. *)
Definition on_object (m : M lock_memory unit) (o : option holder) : M lock_state unit := fun s =>
  match m (mkMemory 0 o) with
  | Ret _ x => Ret tt (mkLockState (irq s) (default SysLock.Free (object x)) (regions s))
  | Stop r => Stop r
  | Fault f => Fault f
  | NoFuel => NoFuel
  end.

Definition build_lock (m : M lock_memory unit) : M lock_state unit := on_object m None.
Definition drop_lock (m : M lock_memory unit) : M lock_state unit := fun s => on_object m (Some (held s)) s.

(** [CxPlatDispatchLockInitialize] and [CxPlatDispatchRwLockInitialize] of the kernel:
    [KeInitializeSpinLock(&(Lock)->SpinLock)] and [(Lock)->SpinLock = 0]. *)
Definition dispatch_initialize : M irql_state unit := fun s =>
  Ret tt (set_lock 0 (Lock.mkLock Lock.Free (Lock.PrevIrql (locks s 0%nat))) s).

(** [#ifdef _KERNEL_MODE  TEST_TRUE(CXPLAT_AT_DISPATCH());  #endif], or [TEST_FALSE]. *)
Definition check_level (line : Z) (expected : bool) : Test lock_state unit :=
  if kernel then
    b ← lift (on_irql (CXPLAT_AT_DISPATCH WinKernelMode));
    if expected then TEST_TRUE line b else TEST_FALSE line b
  else mret tt.

(** A dispatch lock of the platform: exclusive ([CxPlatLockDispatch]) or shared
    ([CxPlatRwLockDispatch]). *)
Definition dispatch_api (sh : bool) : lock_api :=
  (if sh then CxPlatRwLockDispatch else CxPlatLockDispatch) (bool_decide (p = WINUSER)).

Definition dispatch_ctor (sh : bool) : M lock_state unit :=
  if kernel then on_irql dispatch_initialize
  else build_lock (dispatch_lock_ctor (bool_decide (p = WINUSER)) sh).

Definition dispatch_lock (sh : bool) : M lock_state unit :=
  if kernel then on_irql (dispatch_acquire 0 sh)
  else run_calls (acquire (dispatch_api sh) (if sh then Shared else Exclusive)).

Definition dispatch_unlock (sh : bool) : M lock_state unit :=
  if kernel then on_irql (dispatch_release 0 sh)
  else run_calls (release (dispatch_api sh) (if sh then Shared else Exclusive)).

Definition dispatch_dtor (sh : bool) : M lock_state unit :=
  if kernel then mret tt
  else drop_lock (dispatch_lock_dtor (bool_decide (p = WINUSER)) sh).

(** The block with a passive lock, and the one with a dispatch lock. *)
Definition passive_block (api : lock_api) (m : mode) (create destroy : M lock_memory unit) (line : Z)
    : Test lock_state unit :=
  _ ← lift (build_lock create);
  _ ← lift (run_calls (acquire api m));
  _ ← check_level line false;
  _ ← lift (run_calls (release api m));
  lift (drop_lock destroy).

Definition dispatch_block (sh : bool) (line1 line2 : Z) : Test lock_state unit :=
  _ ← lift (dispatch_ctor sh);
  _ ← lift (dispatch_lock sh);
  _ ← check_level line1 true;
  _ ← lift (dispatch_unlock sh);
  _ ← check_level line2 false;
  lift (dispatch_dtor sh).

(** The block of the kernel that takes the lock inside [CXPLAT_RAISE_IRQL]. *)
Definition raised_block (sh : bool) (line1 line2 line3 : Z) : Test lock_state unit :=
  if kernel then
    _ ← lift (dispatch_ctor sh);
    OldIrql ← lift (on_irql CXPLAT_RAISE_IRQL);
    _ ← lift (dispatch_lock sh);
    _ ← check_level line1 true;
    _ ← lift (dispatch_unlock sh);
    _ ← check_level line2 true;
    _ ← lift (on_irql (CXPLAT_LOWER_IRQL OldIrql));
    _ ← check_level line3 false;
    lift (dispatch_dtor sh)
  else mret tt.

(** [CxPlatTestLockBasic], up to the block with the second thread. *)
Definition CxPlatTestLockBasic_levels : Test lock_state unit :=
  _ ← check_level 17 false;
  _ ← passive_block (CxPlatLock p) Exclusive (lock_ctor p) (lock_dtor p) 24;
  _ ← dispatch_block false 33 37;
  raised_block false 46 48 50.

Definition CxPlatTestLockReadWrite : Test lock_state unit :=
  _ ← check_level 76 false;
  _ ← passive_block (CxPlatRwLock p) Shared (rwlock_ctor p) (rwlock_dtor p) 83;
  _ ← dispatch_block true 92 96;
  raised_block true 105 107 109.
End Tests.

(** The lock tests on one thread pass on every platform, where the initialization
    of the POSIX locks succeeds: every check of the level holds, no call blocks
    or is undefined, every lock is free when it is destroyed, and at the end the
    thread is at PASSIVE_LEVEL again and outside every critical region. *)
Theorem lock_levels_pass `{!DeadlockPolicy} `{P : !PthreadLocks} p i h :
  level i = PASSIVE_LEVEL ->
  mutexattr_init_rc = 0 -> mutexattr_settype_rc = 0 -> mutex_init_rc = 0 -> mutexattr_destroy_rc = 0 -> rwlock_init_rc = 0 ->
  forall test, test = CxPlatTestLockBasic_levels p \/ test = CxPlatTestLockReadWrite p ->
  exists s, test (mkLockState i h 0) = Ret (inr tt) s /\ level (irq s) = PASSIVE_LEVEL /\ regions s = 0 /\
    held s = SysLock.Free /\ (kernel p = true -> SpinLock (locks (irq s) 0%nat) = Lock.Free).
Proof.
  intros Hl H1 H2 H3 H4 H5 test Ht. destruct i as [lv lk], P. cbn in *. subst.
  destruct Ht as [-> | ->]; destruct p; eexists; (split; [vm_compute; reflexivity|]); by vm_compute.
Qed.
