(* ===== verification/ThreadTest.v ===== *)
(** * The thread tests (src/test/lib/ThreadTest.cpp)

    A function and one thread share a variable of the function: the thread writes
    it, the function waits for the thread and then checks it.  The statements of
    both are interleaved in any way; a timed wait may end at any time (so the
    lengths of the sleeps and of the waits do not matter), and the thread may
    fail to start: then a user-mode [CxPlatThreadCreate] reports success with a
    null handle ([user_thread_create]), and the other platforms report the failure.
    A write to the variable after the function has returned is recorded.  The
    states are finitely many, and the theorems are proved by exploring them. *)

From S2P Require Import Prelude Explore.

(** The values of the shared variable: [INITIAL_THREAD_ID_VALUE], the identifier of
    the thread (the system gives no thread the identifier -1), a number. *)
Inductive shared_value := INITIAL_THREAD_ID_VALUE | CurThreadID | Number (z : Z).

(** Statements of the thread. *)
Inductive worker_statement :=
  | CxPlatSleep
  | CheckInitial (line : Z)      (** [TEST_EQUAL_GOTO(Context->ThreadId, INITIAL_THREAD_ID_VALUE)] *)
  | Store (v : shared_value).

(** Statements of the function.  [ScopeBegin] and [ScopeEnd] bound the life of the
    variable.  [ThreadDelete] stands behind the label [Failure]; [AsyncDtor] is run
    by the end of a block and by a return from it. *)
Inductive test_statement :=
  | ScopeBegin (v : shared_value)
  | ThreadCreate (line : Z) (start : list worker_statement)
  | ThreadWaitForever
  | ThreadWaitWithTimeout (line : Z) (expected : bool)
  | CheckEqual (line : Z) (v : shared_value)
  | CheckNotEqual (line : Z) (v : shared_value)
  | ThreadDelete
  | AsyncCtor (start : list worker_statement)
  | AsyncWait
  | AsyncWaitFor (line : Z)      (** [TEST_FALSE(Async.WaitFor(...))] *)
  | AsyncDtor
  | ScopeEnd.

#[export] Instance shared_value_eq_dec : EqDecision shared_value.
Proof. solve_decision. Defined.
#[export] Instance worker_statement_eq_dec : EqDecision worker_statement.
Proof. solve_decision. Defined.
#[export] Instance test_statement_eq_dec : EqDecision test_statement.
Proof. solve_decision. Defined.

(** ** The programs *)

(** [ThreadFn], with or without a delay. *)
Definition ThreadFn (delayed : bool) : list worker_statement :=
  (if delayed then [CxPlatSleep] else []) ++ [CheckInitial 29; Store CurThreadID].

Definition CxPlatTestThreadBasic : list test_statement :=
  [ScopeBegin INITIAL_THREAD_ID_VALUE; ThreadCreate 53 (ThreadFn false); ThreadWaitForever;
   CheckNotEqual 57 INITIAL_THREAD_ID_VALUE; ThreadDelete; ScopeEnd].

Definition CxPlatTestThreadWaitTimeout : list test_statement :=
  [ScopeBegin INITIAL_THREAD_ID_VALUE; ThreadCreate 123 (ThreadFn true);
   ThreadWaitWithTimeout 125 false; ThreadWaitWithTimeout 127 true;
   CheckNotEqual 129 INITIAL_THREAD_ID_VALUE; ThreadDelete; ScopeEnd].

(** The last block is only compiled on Windows. *)
Definition CxPlatTestThreadAsync (windows : bool) : list test_statement :=
  [AsyncCtor []; AsyncDtor] ++
  [ScopeBegin (Number 0); AsyncCtor [Store (Number 123)]; AsyncWait; CheckEqual 78 (Number 123); AsyncDtor; ScopeEnd] ++
  [ScopeBegin INITIAL_THREAD_ID_VALUE; AsyncCtor [Store CurThreadID]; AsyncWait;
   CheckNotEqual 88 INITIAL_THREAD_ID_VALUE; AsyncDtor; ScopeEnd] ++
  (if windows
   then [ScopeBegin (Number 0); AsyncCtor [CxPlatSleep; Store (Number 0xdeadbeaf)]; AsyncWaitFor 99;
         CheckEqual 100 (Number 0); AsyncWait; CheckNotEqual 102 (Number 0); AsyncDtor; ScopeEnd]
   else []).

(** ** Their steps *)

(** [variable] is [None] outside its scope; [thread] is [None] when there is none;
    [joined] is [ThreadCompleted] of the asynchronous call. *)
Record thread_test := mkThreadTest {
  code : list test_statement;
  failure : option Z;
  variable : option shared_value;
  thread : option (list worker_statement);
  joined : bool;
  thread_failure : option Z;
  dangling : bool;               (** the thread wrote outside the variable's scope *)
  late : nat;                    (** timed waits that timed out *)
  unstarted : bool               (** a thread could not be created *)
}.

#[export] Instance thread_test_eq_dec : EqDecision thread_test.
Proof. solve_decision. Defined.

Inductive thread_label := Main | TimesOut | NoThread | Worker.

Definition thread_labels : list thread_label := [Main; TimesOut; NoThread; Worker].

Lemma thread_labels_complete l : l ∈ thread_labels.
Proof. destruct l; unfold thread_labels; set_solver. Qed.

Definition set_code (k : list test_statement) (w : thread_test) : thread_test :=
  mkThreadTest k (failure w) (variable w) (thread w) (joined w) (thread_failure w) (dangling w) (late w) (unstarted w).
Definition set_variable (v : option shared_value) (w : thread_test) : thread_test :=
  mkThreadTest (code w) (failure w) v (thread w) (joined w) (thread_failure w) (dangling w) (late w) (unstarted w).
Definition set_thread (t : option (list worker_statement)) (j : bool) (w : thread_test) : thread_test :=
  mkThreadTest (code w) (failure w) (variable w) t j (thread_failure w) (dangling w) (late w) (unstarted w).
Definition set_late (w : thread_test) : thread_test :=
  mkThreadTest (code w) (failure w) (variable w) (thread w) (joined w) (thread_failure w) (dangling w) (S (late w)) (unstarted w).

Definition set_unstarted (w : thread_test) : thread_test :=
  mkThreadTest (code w) (failure w) (variable w) (thread w) (joined w) (thread_failure w) (dangling w) (late w) true.

(** A failed check goes to the label [Failure] or returns: what is left is the
    clean-up of the block it is in. *)
Fixpoint unwind (k : list test_statement) : list test_statement :=
  match k with
  | ThreadDelete :: _ => [ThreadDelete; ScopeEnd]
  | AsyncDtor :: ScopeEnd :: _ => [AsyncDtor; ScopeEnd]
  | _ :: k => unwind k
  | [] => []
  end.

Definition check (line : Z) (ok : bool) (k : list test_statement) (w : thread_test) : thread_test :=
  if ok then set_code k w
  else mkThreadTest (unwind k) (Some line) (variable w) (thread w) (joined w) (thread_failure w) (dangling w) (late w) (unstarted w).

Section Steps.
(** Whether [CxPlatThreadCreate] reports a failure to create the thread. *)
Variable reports : bool.

(** The thread has ended, or there is none to wait for. *)
Definition waitable (w : thread_test) : bool := match thread w with Some (_ :: _) => false | _ => true end.

Definition main_step (w : thread_test) : option thread_test :=
  match code w with
  | [] => None
  | ScopeBegin v :: k => Some (set_variable (Some v) (set_code k w))
  | ThreadCreate _ start :: k | AsyncCtor start :: k => Some (set_thread (Some start) false (set_code k w))
  | ThreadWaitForever :: k => if waitable w then Some (set_code k w) else None
  | ThreadWaitWithTimeout line expected :: k =>
      match thread w with
      | Some [] => Some (check line (Bool.eqb true expected) k w)
      | Some _ => None
      | None => Some (check line (Bool.eqb false expected) k w)
      end
  | CheckEqual line v :: k => x ← variable w; Some (check line (bool_decide (x = v)) k w)
  | CheckNotEqual line v :: k => x ← variable w; Some (check line (bool_decide (x <> v)) k w)
  | ThreadDelete :: k => Some (set_code k w)
  | AsyncWait :: k => if waitable w then Some (set_thread (thread w) true (set_code k w)) else None
  | AsyncWaitFor line :: k =>
      match thread w with
      | Some [] => Some (check line false k (set_thread (thread w) true w))
      | Some _ => None
      | None => Some (set_code k w)
      end
  | AsyncDtor :: k => if joined w || waitable w then Some (set_thread None false (set_code k w)) else None
  | ScopeEnd :: k => Some (set_variable None (set_code k w))
  end.

Definition timeout_step (w : thread_test) : option thread_test :=
  match code w, thread w with
  | ThreadWaitWithTimeout line expected :: k, Some _ => Some (check line (Bool.eqb false expected) k (set_late w))
  | AsyncWaitFor line :: k, Some _ => Some (set_code k (set_late w))
  | _, _ => None
  end.

(** A failed creation: [TEST_CXPLAT] returns; the asynchronous call goes on without
    a thread. *)
Definition no_thread_step (w : thread_test) : option thread_test :=
  match code w with
  | ThreadCreate line _ :: k =>
      if reports
      then Some (mkThreadTest [ScopeEnd] (Some line) (variable w) None false (thread_failure w) (dangling w) (late w) true)
      else Some (set_unstarted (set_thread None false (set_code k w)))
  | AsyncCtor _ :: k => Some (set_unstarted (set_thread None false (set_code k w)))
  | _ => None
  end.

Definition worker_step (w : thread_test) : option thread_test :=
  match thread w with
  | Some (CxPlatSleep :: k) => Some (set_thread (Some k) (joined w) w)
  | Some (CheckInitial line :: k) =>
      Some (if bool_decide (variable w = Some INITIAL_THREAD_ID_VALUE) then set_thread (Some k) (joined w) w
            else mkThreadTest (code w) (failure w) (variable w) (Some []) (joined w) (Some line)
                   (dangling w || bool_decide (variable w = None)) (late w) (unstarted w))
  | Some (Store v :: k) =>
      Some match variable w with
           | Some _ => set_variable (Some v) (set_thread (Some k) (joined w) w)
           | None => mkThreadTest (code w) (failure w) None (Some k) (joined w) (thread_failure w) true (late w) (unstarted w)
           end
  | _ => None
  end.

Definition thread_test_step (w : thread_test) (l : thread_label) : option thread_test :=
  match l with
  | Main => main_step w
  | TimesOut => timeout_step w
  | NoThread => no_thread_step w
  | Worker => worker_step w
  end.
End Steps.

Definition thread_test_start (program : list test_statement) : thread_test :=
  mkThreadTest program None None None false None false 0 false.

(** ** All runs *)

(** The statements that are left, also those of threads still to be started. *)
Definition work (c : test_statement) : nat :=
  match c with ThreadCreate _ start | AsyncCtor start => S (length start) | _ => 1 end.

Definition weight (w : thread_test) : nat :=
  (sum_list_with work (code w) + match thread w with Some k => length k | None => 0 end)%nat.

(** Checks that may fail although the threads were created: the timed waits, and
    the look at the variable after a wait that timed out. *)
Definition timing_lines : list Z := [99; 100; 125; 127].

Definition acceptable (reports : bool) (program : list test_statement) (w : thread_test) : bool :=
  (negb (dangling w) || bool_decide (failure w = Some 127)) &&
  (dangling w || bool_decide (thread_failure w = None)) &&
  (unstarted w || match failure w with None => true | Some line => bool_decide (line ∈ timing_lines) end) &&
  (if bool_decide (code w = [])
   then unstarted w || negb (bool_decide (program = CxPlatTestThreadWaitTimeout)) ||
        Bool.eqb (bool_decide (failure w = None)) (Nat.eqb (late w) 1)
   else enabled (thread_test_step reports) thread_labels w) &&
  decreasing (thread_test_step reports) thread_labels weight w.

Definition programs : list (list test_statement) :=
  [CxPlatTestThreadBasic; CxPlatTestThreadWaitTimeout; CxPlatTestThreadAsync false; CxPlatTestThreadAsync true].

Lemma thread_explored reports program :
  program ∈ programs ->
  exists found, closed (thread_test_step reports) thread_labels (acceptable reports program) found = true /\
    thread_test_start program ∈ found.
Proof.
  intros Hp. exists (explore (thread_test_step reports) thread_labels 5000 [thread_test_start program] []).
  assert (program = CxPlatTestThreadBasic \/ program = CxPlatTestThreadWaitTimeout \/
    program = CxPlatTestThreadAsync false \/ program = CxPlatTestThreadAsync true) as Hc by (unfold programs in Hp; set_solver).
  split; [|apply (proj1 (bool_decide_eq_true _))]; destruct Hc as [->|[->|[->| ->]]], reports; vm_compute; reflexivity.
Qed.

(** The thread tests, in every run.  The thread's own check of the variable never
    fails unless the variable is gone; the function's checks after a completed
    wait never fail; when the threads could be created, the only checks that can
    fail are those of the timed waits and the one at line 100, which looks at the
    variable after a wait that timed out.  Every run ends, and the test with timed
    waits passes exactly when the first one timed out and the second did not.  The
    thread writes to the variable of a function that has returned only when the
    second timed wait of that test has timed out (line 127). *)
Theorem thread_tests_runs reports program ls w :
  program ∈ programs ->
  steps (thread_test_step reports) (thread_test_start program) ls = Some w ->
  (dangling w = true -> failure w = Some 127) /\
  (dangling w = false -> thread_failure w = None) /\
  (unstarted w = false -> forall line, failure w = Some line -> line ∈ timing_lines) /\
  (length ls <= weight (thread_test_start program))%nat /\
  (code w <> [] -> exists l w', thread_test_step reports w l = Some w') /\
  (code w = [] -> unstarted w = false -> program = CxPlatTestThreadWaitTimeout -> failure w = None <-> late w = 1%nat).
Proof.
  intros Hp Hr. destruct (thread_explored reports program Hp) as (found & Hc & Hs).
  destruct (closed_runs _ _ thread_labels_complete _ _ _ _ _ Hc Hs Hr) as [Ha _].
  unfold acceptable in Ha. rewrite !andb_true_iff in Ha. destruct Ha as [[[[Hd Ht] Hf] Hm] _]. split_and!.
  - intros E. rewrite E in Hd. by apply bool_decide_eq_true in Hd.
  - intros E. rewrite E in Ht. by apply bool_decide_eq_true in Ht.
  - intros E line Hline. rewrite E, Hline in Hf. by apply bool_decide_eq_true in Hf.
  - eapply (closed_bound _ _ thread_labels_complete _ _ weight _ _ _ Hc Hs); [|done].
    intros w1 Hg. unfold acceptable in Hg. rewrite !andb_true_iff in Hg. by destruct Hg as [_ Hg].
  - intros Hne. rewrite (bool_decide_false _ Hne) in Hm. exact (enabled_step _ _ thread_labels_complete _ Hm).
  - intros He Hu Hpr. rewrite (bool_decide_true _ He), Hu, (bool_decide_true _ Hpr) in Hm. apply Bool.eqb_prop in Hm.
    rewrite <- (bool_decide_eq_true (failure w = None)), Hm. apply Nat.eqb_eq.
Qed.

(** The thread sleeps during the first wait and ends during the second. *)
Definition on_time : list thread_label :=
  [Main; Main; TimesOut; Worker; Worker; Worker; Main; Main; Main; Main].

Lemma thread_tests_runs_witness :
  exists w, steps (thread_test_step true) (thread_test_start CxPlatTestThreadWaitTimeout) on_time = Some w /\
    code w = [] /\ failure w = None /\ dangling w = false.
Proof.
  eexists. split; [vm_compute; reflexivity|].
  edestruct (thread_tests_runs true CxPlatTestThreadWaitTimeout on_time) as (_ & _ & _ & _ & _ & Hend);
    [unfold programs; set_solver|vm_compute; reflexivity|].
  split; [reflexivity|]. split; [apply Hend; reflexivity|reflexivity].
Defined.

(** Both waits time out: the function returns, and the thread then writes to its
    variable. *)
Lemma thread_outlives_context :
  exists w, steps (thread_test_step true) (thread_test_start CxPlatTestThreadWaitTimeout)
      [Main; Main; TimesOut; Worker; Worker; TimesOut; Main; Main; Worker] = Some w /\
    code w = [] /\ failure w = Some 127 /\ dangling w = true.
Proof. eexists. split; [vm_compute; reflexivity|]. done. Qed.
