(* ===== verification/EventTest.v ===== *)
(** * The event tests on POSIX (src/test/lib/EventTest.cpp)

    [CxPlatTestEventBasic] and [CxPlatTestEventCpp] use an event from one thread:
    a wait that nothing satisfies, and waits after the event has been set.  The
    event is that of the file Event, statement by statement, and the condition
    variable may wake the thread spuriously or at its deadline. *)

From S2P Require Import Prelude Explore Event.

#[export] Instance pc_eq_dec : EqDecision pc.
Proof. solve_decision. Defined.
#[export] Instance CXPLAT_EVENT_eq_dec : EqDecision CXPLAT_EVENT.
Proof. solve_decision. Defined.

(** A call of the test, with the line of the check of its result and the result
    the check expects. *)
Record event_call := mkEventCall { operation : op; checked_as : option (Z * bool) }.

#[export] Instance event_call_eq_dec : EqDecision event_call.
Proof. solve_decision. Defined.

Definition CxPlatTestEventBasic : list event_call :=
  [mkEventCall OpWaitWithTimeout (Some (24, false));
   mkEventCall OpReset None; mkEventCall OpSet None;
   mkEventCall OpWaitWithTimeout (Some (31, true));
   mkEventCall OpReset None; mkEventCall OpSet None;
   mkEventCall OpWaitForever None].

Definition CxPlatTestEventCpp : list event_call :=
  [mkEventCall OpWaitWithTimeout (Some (49, false));
   mkEventCall OpReset None; mkEventCall OpSet None;
   mkEventCall OpWaitWithTimeout (Some (53, true));
   mkEventCall OpReset None; mkEventCall OpSet None;
   mkEventCall OpWaitForever None].

(** The event, where the thread is in the first of the calls that are left, and the
    check that failed. *)
Record event_test := mkEventTest {
  e_event : CXPLAT_EVENT;
  e_pc : pc;
  e_calls : list event_call;
  e_failed : option Z
}.

#[export] Instance event_test_eq_dec : EqDecision event_test.
Proof. solve_decision. Defined.

Inductive event_label := ERun | ESpurious | EDeadline.

(** A call returned: the check of its result, if it has one, and a failed check
    ends the test. *)
Definition returned (e : CXPLAT_EVENT) (r : bool) (calls : list event_call) (f : option Z) : event_test :=
  match calls with
  | mkEventCall _ (Some (line, expected)) :: k =>
      if Bool.eqb r expected then mkEventTest e Idle k f else mkEventTest e Idle [] (Some line)
  | _ :: k => mkEventTest e Idle k f
  | [] => mkEventTest e Idle [] f
  end.

Definition event_test_step (w : event_test) (l : event_label) : option event_test :=
  match l, e_pc w with
  | ERun, Idle =>
      match e_calls w with
      | c :: _ => Some (mkEventTest (e_event w) (start_pc (operation c)) (e_calls w) (e_failed w))
      | [] => None
      end
  | ERun, p =>
      '(e, _, p', es) ← thread_step 0 p (e_event w);
      Some match es with
           | [Return _ r] => returned e r (e_calls w) (e_failed w)
           | _ => mkEventTest e p' (e_calls w) (e_failed w)
           end
  | ESpurious, Wait_blocked timed => Some (mkEventTest (e_event w) (Wait_wake timed false) (e_calls w) (e_failed w))
  | EDeadline, Wait_blocked true => Some (mkEventTest (e_event w) (Wait_wake true true) (e_calls w) (e_failed w))
  | _, _ => None
  end.

Definition event_labels : list event_label := [ERun; ESpurious; EDeadline].

Lemma event_labels_complete l : l ∈ event_labels.
Proof. destruct l; unfold event_labels; set_solver. Qed.

(** [CxPlatEventInitialize(&Event, FALSE, FALSE)], and the constructor. *)
Definition event_test_start (calls : list event_call) : event_test :=
  mkEventTest (CxPlatEventInitialize false false) Idle calls None.

Definition finished (w : event_test) : bool := bool_decide (e_pc w = Idle) && bool_decide (e_calls w = []).

(** No check has failed, the end can be reached, and at the end the mutex is free
    and the event is reset. *)
Definition event_acceptable (w : event_test) : bool :=
  bool_decide (e_failed w = None) && can_reach event_test_step event_labels finished 60 w &&
  (negb (finished w) || bool_decide (e_event w = CxPlatEventInitialize false false)).

Lemma event_explored calls :
  calls = CxPlatTestEventBasic \/ calls = CxPlatTestEventCpp ->
  exists found, closed event_test_step event_labels event_acceptable found = true /\ event_test_start calls ∈ found.
Proof.
  intros Hc. exists (explore event_test_step event_labels 1000 [event_test_start calls] []).
  split; [|apply (proj1 (bool_decide_eq_true _))]; destruct Hc as [-> | ->]; vm_compute; reflexivity.
Qed.

(** The event tests pass on POSIX in every run.  However often the waits are
    woken spuriously, whenever the deadlines pass: no check ever fails (the
    first wait is not satisfied, the second does not time out, because it finds
    the event set and does not block), the test can always be brought to its end
    in at most 60 steps, and at its end the event is as it was created, with its
    mutex free, so that it can be destroyed. *)
Theorem event_tests_pass calls ls w :
  calls = CxPlatTestEventBasic \/ calls = CxPlatTestEventCpp ->
  steps event_test_step (event_test_start calls) ls = Some w ->
  e_failed w = None /\
  (exists ls' w', (length ls' <= 60)%nat /\ steps event_test_step w ls' = Some w' /\ finished w' = true) /\
  (finished w = true -> e_event w = CxPlatEventInitialize false false).
Proof.
  intros Hc Hr. destruct (event_explored calls Hc) as (found & Hcl & Hs).
  destruct (closed_runs _ _ event_labels_complete _ _ _ _ _ Hcl Hs Hr) as [Ha _].
  unfold event_acceptable in Ha. rewrite !andb_true_iff in Ha. destruct Ha as [[Hf Hreach] He].
  split_and!; [by apply bool_decide_eq_true in Hf|by eapply can_reach_run|].
  intros Hfin. rewrite Hfin in He. by apply bool_decide_eq_true in He.
Qed.

(** A spurious wake-up in the first wait, then its deadline. *)
Lemma event_tests_pass_witness :
  exists w, steps event_test_step (event_test_start CxPlatTestEventCpp)
      ([ERun; ERun; ERun; ERun; ESpurious; ERun; ERun; ERun; EDeadline] ++ replicate 30 ERun) = Some w /\
    finished w = true /\ e_failed w = None /\ e_event w = CxPlatEventInitialize false false.
Proof.
  eexists. split; [vm_compute; reflexivity|].
  edestruct (event_tests_pass CxPlatTestEventCpp
    ([ERun; ERun; ERun; ERun; ESpurious; ERun; ERun; ERun; EDeadline] ++ replicate 30 ERun)) as (Hf & _ & He);
    [by right|vm_compute; reflexivity|]. split; [reflexivity|]. split; [exact Hf|]. apply He. reflexivity.
Defined.
