(* ===== verification/VectorTest.v ===== *)
(** * The vector test (src/test/lib/VectorTest.cpp)

    [VectorBasic] is portable code over [CxPlatVector]; here it is a client of the
    interface [Vector], with the constructor that fills a vector.  From the laws
    alone: the test gets as far as its allocations succeed, and every check on
    contents holds.  The two implementations of the file CxPlatVector satisfy the
    laws. *)

From S2P Require Import Prelude KArray KArrayLemmas KArraySpec KArrayTheorems KArrayContracts CxPlatVector TestLib.

(** [CxPlatVector<T> v(n)]: declares a second vector of [n] copies of a value, to
    which the operations then refer; [can_declare] is whether there is memory. *)
Class Declares (T St : Type) := {
  declare : nat -> T -> M St unit;
  can_declare : St -> nat -> T -> bool
}.

Class DeclaresLaws (T St : Type) `{!Vector T St} `{!Declares T St} : Prop :=
  law_declare s l n v : holds s l -> can_declare s n v = true ->
    exists s', declare n v s = Ret tt s' /\ holds s' (replicate n v).

Definition value (x : pod) : Z := match x with Pod z => z end.

Section Test.
Context {St : Type} `{!Vector pod St} `{!Declares pod St}.

Definition check_size (line expected : Z) : Test St unit := n ← lift vec_size; TEST_EQUAL line n expected.
Definition check_at (line index expected : Z) : Test St unit :=
  x ← lift (vec_at index); TEST_EQUAL line (value x) expected.

Definition VectorBasic : Test St unit :=
  _ ← for_loop 10 0 (fun i => ok ← lift (push_back (Pod i)); TEST_EQUAL 19 (Z.b2z ok) 1);
  _ ← check_size 22 10;
  _ ← for_loop 10 0 (fun i => check_at 25 i i);
  _ ← lift (eraseAt 3);
  _ ← check_size 30 9;
  _ ← for_loop 3 0 (fun i => check_at 33 i i);
  _ ← for_loop 6 4 (fun i => check_at 37 (i - 1) i);
  _ ← lift (declare 10 (Pod 0));
  _ ← check_size 41 10;
  _ ← lift (push_back (Pod 10));
  _ ← check_size 45 11;
  check_at 46 10 10.

Context `{!VectorLaws pod St} `{!DeclaresLaws pod St}.

Lemma check_size_ok line s l n : holds s l -> Z.of_nat (length l) = n -> check_size line n s = Ret (inr tt) s.
Proof.
  intros Hh <-. unfold check_size. rewrite (lift_bind _ _ _ _ _ (law_size s l Hh)).
  unfold TEST_EQUAL. by rewrite Z.eqb_refl.
Qed.

Lemma check_at_ok line s l (i : nat) x :
  holds s l -> l !! i = Some x -> check_at line (Z.of_nat i) (value x) s = Ret (inr tt) s.
Proof.
  intros Hh Hx. unfold check_at. rewrite (lift_bind _ _ _ _ _ (law_at s l i x Hh Hx)).
  unfold TEST_EQUAL. by rewrite Z.eqb_refl.
Qed.

(** A loop of reads: index [ix j] holds [j]. *)
Lemma read_loop line s l n i (ix : Z -> Z) :
  holds s l ->
  (forall j, i <= j < i + Z.of_nat n -> 0 <= ix j /\ l !! Z.to_nat (ix j) = Some (Pod j)) ->
  for_loop n i (fun j => check_at line (ix j) j) s = Ret (inr tt) s.
Proof.
  intros Hh Hl.
  destruct (for_loop_passes (fun _ t => t = s) n i (fun j => check_at line (ix j) j) s) as (t & E & ->); [done| |done].
  intros j t Hj ->. exists s. split; [|done]. destruct (Hl j Hj) as [H0 H1].
  pose proof (check_at_ok line s l (Z.to_nat (ix j)) (Pod j) Hh H1) as E. by rewrite Z2Nat.id in E by lia.
Qed.

Lemma pod_seq_lookup n (i : nat) : (i < n)%nat -> (Pod ∘ Z.of_nat <$> seq 0 n) !! i = Some (Pod (Z.of_nat i)).
Proof. intros Hi. rewrite list_lookup_fmap, lookup_seq_lt by done. done. Qed.

(** A push failed: there was a vector that could not grow. *)
Definition push_failed : Prop := exists (t t' : St) l (x : pod), holds t l /\ push_back x t = Ret false t'.

(** The pushes of the first loop. *)
Lemma push_loop s :
  holds s [] ->
  let body := fun i => ok ← lift (push_back (Pod i)); TEST_EQUAL 19 (Z.b2z ok) 1 in
  (exists s', for_loop 10 0 body s = Ret (inr tt) s' /\ holds s' (Pod ∘ Z.of_nat <$> seq 0 10)) \/
  (push_failed /\ exists s', for_loop 10 0 body s = Ret (inl 19) s').
Proof.
  intros Hh body.
  apply (for_loop_cases (fun i s => holds s (Pod ∘ Z.of_nat <$> seq 0 (Z.to_nat i))) push_failed 19 10 0 body s Hh).
  intros j t Hj Ht. destruct (law_push t _ (Pod j) Ht) as (ok & t' & E & Ht'). unfold body.
  rewrite (lift_bind _ _ _ _ _ E). destruct ok.
  - left. exists t'. split; [done|].
    replace (Z.to_nat (j + 1)) with (Z.to_nat j + 1)%nat by lia. rewrite seq_app, fmap_app. cbn.
    by rewrite Z2Nat.id by lia.
  - right. split; [|by exists t']. exists t, t'. eexists _, (Pod j). done.
Qed.

(** The numbers in a concrete list, index by index. *)
Ltac contents :=
  let j := fresh in let Hj := fresh in let k := fresh in let Hk := fresh in
  intros j Hj; match type of Hj with ?i <= _ < _ =>
    destruct (Z_of_nat_complete (j - i)) as [k Hk]; [lia|]; replace j with (i + Z.of_nat k) in * by lia; clear Hk end;
  do 10 (destruct k as [|k]; [first [exfalso; lia | split; [cbn; lia|reflexivity]]|]); lia.

(** The result, and what has failed when the test has. *)
Lemma vector_basic_result s :
  holds s [] -> (forall t l, holds t l -> can_declare t 10 (Pod 0) = true) ->
  exists r s', VectorBasic s = Ret r s' /\ (r = inr tt \/ push_failed /\ (r = inl 19 \/ r = inl 45)).
Proof.
  intros Hh Hmem. unfold VectorBasic.
  destruct (push_loop s Hh) as [(s1 & E1 & H1)|(HP & s1 & E1)];
    [|exists (inl 19), s1; split; [by apply test_fails|auto]].
  rewrite (test_bind _ _ _ _ _ E1), (test_bind _ _ _ _ _ (check_size_ok 22 s1 _ 10 H1 eq_refl)).
  rewrite (test_bind _ _ _ _ _ (read_loop 25 s1 _ 10 0 (fun i => i) H1 ltac:(contents))).
  destruct (law_erase s1 _ 3 H1) as (s2 & E2 & H2); [cbn; lia|]. change (Z.of_nat 3) with 3 in E2. cbn in H2.
  rewrite (lift_bind _ _ _ _ _ E2), (test_bind _ _ _ _ _ (check_size_ok 30 s2 _ 9 H2 eq_refl)).
  rewrite (test_bind _ _ _ _ _ (read_loop 33 s2 _ 3 0 (fun i => i) H2 ltac:(contents))).
  rewrite (test_bind _ _ _ _ _ (read_loop 37 s2 _ 6 4 (fun i => i - 1) H2 ltac:(contents))).
  destruct (law_declare s2 _ 10 (Pod 0) H2 (Hmem _ _ H2)) as (s3 & E3 & H3).
  rewrite (lift_bind _ _ _ _ _ E3), (test_bind _ _ _ _ _ (check_size_ok 41 s3 _ 10 H3 eq_refl)).
  destruct (law_push s3 _ (Pod 10) H3) as (ok & s4 & E4 & H4). rewrite (lift_bind _ _ _ _ _ E4). destruct ok.
  - rewrite (test_bind _ _ _ _ _ (check_size_ok 45 s4 _ 11 H4 eq_refl)).
    exists (inr tt), s4. split; [exact (check_at_ok 46 s4 _ 10 (Pod 10) H4 eq_refl)|by left].
  - exists (inl 45), s4. split; [|right; split; [by exists s3, s4; eexists _, (Pod 10)|by right]].
    apply test_fails. unfold check_size. by rewrite (lift_bind _ _ _ _ _ (law_size s4 _ H4)).
Qed.
End Test.

(** ** The two implementations *)

(** In user mode the constructor throws when there is no memory, and nothing
    catches it: the program is terminated. *)
#[export] Instance user_declares {T} `{!StdAllocator} : Declares T (vector T) := {|
  declare n v := fun _ => if has_memory n then Ret tt (mkVector (replicate n v) n) else Stop (FastFail 7);
  can_declare _ n _ := has_memory n
|}.

#[export] Instance user_declares_laws {T} `{!StdAllocator} : DeclaresLaws T (vector T).
Proof. intros s l n v _ Hm. cbn in *. rewrite Hm. by eexists. Qed.

(** In the kernel the first array stays in the memory; [(T)0] is a temporary
    object. *)
#[export] Instance kernel_declares {T} `{!ElemType T} `{!PoolEnv} : Declares T kvector := {|
  declare n v := fun w =>
    match ctor (Z.of_nat n) (next_block w.1, 0) (with_argument v w.1) with
    | Ret a s' => Ret tt (s', a)
    | Stop r => Stop r | Fault f => Fault f | NoFuel => NoFuel
    end;
  can_declare w n v := grow_ok (with_argument v w.1) empty (Z.of_nat n)
|}.

Lemma kernel_declares_laws {T} `{!ElemType T} `{!PoolEnv} `{Hirql : !LowIrql} :
  @trivially_copyable T _ = true -> DeclaresLaws T kvector.
Proof.
  intros Ht [s a] l n v [rest Hr] Hg. cbn in Hr, Hg.
  assert (repr s empty [] (heap s)) as He by (apply repr_empty; [apply (repr_fresh _ _ _ _ Hr)|done]).
  destruct (repr_argument s empty [] (heap s) v He) as [Hr1 Hx].
  destruct (ctor_fills _ _ _ v n Ht Hr1 Hx Hg) as (a' & s' & E & Hr'). exists (s', a'). cbn. rewrite E. split; [done|].
  by eexists.
Qed.

(** The vector test.  On both implementations of [CxPlatVector], when the second
    vector can be declared, the test returns: every check on sizes and contents
    holds, also after [eraseAt], and it fails only after a push that failed, at
    that push (line 19) or at the size after it (line 45). *)
Theorem vector_test `{!PoolEnv} `{Hirql : !LowIrql} `{!StdAllocator} (c : nat) (s : kstate pod) :
  has_memory 10 = true ->
  (forall b, (next_block s <= b)%nat -> heap s !! b = None) ->
  (forall t : kstate pod, grow_ok t empty 10 = true) ->
  (exists r v, VectorBasic (mkVector [] c) = Ret r v /\
     (r = inr tt \/ push_failed (St := vector pod) /\ (r = inl 19 \/ r = inl 45))) /\
  (exists r w, VectorBasic (s, empty) = Ret r w /\
     (r = inr tt \/ push_failed (St := kvector) /\ (r = inl 19 \/ r = inl 45))).
Proof.
  intros Hm Hf Hg. split.
  - by apply vector_basic_result.
  - apply (vector_basic_result (DeclaresLaws0 := @kernel_declares_laws pod pod_type _ _ eq_refl)).
    + cbn. exists (heap s). by apply repr_empty.
    + intros [t a] l _. cbn. apply Hg.
Qed.

(** With memory the test passes in both. *)
Lemma vector_test_witness :
  (exists v, VectorBasic (Vector0 := user_vector (H := ample)) (Declares0 := user_declares (H := ample)) (mkVector [] 0) = Ret (inr tt) v) /\
  (exists w, VectorBasic (Vector0 := kernel_vector (H := roomy)) (Declares0 := kernel_declares (H := roomy)) (mkState ∅ 0, empty) = Ret (inr tt) w).
Proof.
  destruct (vector_test (H := roomy) (H0 := ample) 0 (mkState ∅ 0)) as [(r1 & v & E1 & _) (r2 & w & E2 & _)].
  - reflexivity.
  - intros b _. apply lookup_empty.
  - intros t. reflexivity.
  - split.
    + exists v. enough (r1 = inr tt) as <- by exact E1. vm_compute in E1. by injection E1 as <- _.
    + exists w. enough (r2 = inr tt) as <- by exact E2.
      assert (exists w', VectorBasic (Vector0 := kernel_vector (H := roomy)) (Declares0 := kernel_declares (H := roomy))
        (mkState ∅ 0, empty) = Ret (inr tt) w') as [w' E'] by (eexists; vm_compute; reflexivity).
      pose proof (eq_trans (eq_sym E') E2) as E. by injection E as <- _.
Defined.
