(* ===== verification/SystemTests.v ===== *)
(** * The time, processor and random number tests (src/test/lib/TimeTest.cpp, ProcTest.cpp, CryptTest.cpp)

    These tests check the platform itself, so they depend on what the system does.
    The time test reads the clocks before and after a sleep of a second: it is a
    client of the time interface ([TimeLaws]) and passes on every platform when
    the elapsed times are near a second, also when the 32-bit clocks wrap around
    meanwhile.  The processor and random number tests are run after
    [CxPlatInitialize], as the programs do. *)

From S2P Require Import Prelude TimeConv TimePlatforms WinUser WinUserTheorems Platform SystemServices TestLib.

(** ** Time *)

Section TimeTest.
Variable api : time_api.
(** The [k]-th reading of the clock, and the result of [CxPlatTimeEpochMs64]. *)
Variable clock : nat -> reading api.
Variable epoch : Z.

(** A clock function reads the clock; a signed overflow is undefined. *)
Definition read_clock (f : reading api -> option Z) : M nat Z := fun k =>
  match f (clock k) with Some v => Ret v (S k) | None => Fault SignedOverflow end.

Definition SleepTimeMs : Z := 1000.
Definition FudgeMs : Z := 500.

(** [CxPlatSleep] stands between readings 4 and 5. *)
Definition CxPlatTestTimeBasic : Test nat unit :=
  t ← lift (read_clock (TimeUs64 api));
  _ ← TEST_TRUE 24 (0 <? t);
  _ ← TEST_TRUE 26 (1714503647 <? epoch);
  T1Us32 ← lift (read_clock (TimeUs32 api));
  T1Us64 ← lift (read_clock (TimeUs64 api));
  T1Ms32 ← lift (read_clock (TimeMs32 api));
  T1Ms64 ← lift (read_clock (TimeMs64 api));
  T2Us32 ← lift (read_clock (TimeUs32 api));
  T2Us64 ← lift (read_clock (TimeUs64 api));
  T2Ms32 ← lift (read_clock (TimeMs32 api));
  T2Ms64 ← lift (read_clock (TimeMs64 api));
  _ ← TEST_TRUE 40 (SleepTimeMs - FudgeMs <? US_TO_MS (TimeDiff64 api T1Us64 T2Us64));
  _ ← TEST_TRUE 41 (US_TO_MS (TimeDiff64 api T1Us64 T2Us64) <? SleepTimeMs + FudgeMs);
  _ ← TEST_TRUE 42 (SleepTimeMs - FudgeMs <? US_TO_MS (TimeDiff32 api T1Us32 T2Us32));
  _ ← TEST_TRUE 43 (US_TO_MS (TimeDiff32 api T1Us32 T2Us32) <? SleepTimeMs + FudgeMs);
  _ ← TEST_TRUE 44 (SleepTimeMs - FudgeMs <? TimeDiff64 api T1Ms64 T2Ms64);
  _ ← TEST_TRUE 45 (TimeDiff64 api T1Ms64 T2Ms64 <? SleepTimeMs + FudgeMs);
  _ ← TEST_TRUE 46 (SleepTimeMs - FudgeMs <? TimeDiff32 api T1Ms32 T2Ms32);
  _ ← TEST_TRUE 47 (TimeDiff32 api T1Ms32 T2Ms32 <? SleepTimeMs + FudgeMs);
  _ ← TEST_TRUE 49 (TimeAtOrBefore32 api T1Ms32 T2Ms32);
  TEST_TRUE 50 (TimeAtOrBefore64 api T1Ms64 T2Ms64).

Context {ok : reading api -> Prop} {us : reading api -> Z} `{L : !TimeLaws api ok us}.
Hypothesis Hok : forall k, ok (clock k).

Lemma read_us64 k : read_clock (TimeUs64 api) k = Ret (us (clock k)) (S k).
Proof. unfold read_clock. by rewrite law_us64. Qed.
Lemma read_us32 k : read_clock (TimeUs32 api) k = Ret (u32 (us (clock k))) (S k).
Proof. unfold read_clock. by rewrite law_us32. Qed.
Lemma read_ms64 k : read_clock (TimeMs64 api) k = Ret (us (clock k) / 1000) (S k).
Proof. unfold read_clock. by rewrite law_ms64. Qed.
Lemma read_ms32 k : read_clock (TimeMs32 api) k = Ret (u32 (us (clock k) / 1000)) (S k).
Proof. unfold read_clock. by rewrite law_ms32. Qed.

(** The time between two readings of the same function. *)
Definition elapsed (k : nat) : Z := us (clock (k + 4)) - us (clock k).

Lemma elapsed_ms k a b :
  1000 * a <= elapsed k < 1000 * b -> a <= us (clock (k + 4)) / 1000 - us (clock k) / 1000 <= b.
Proof. unfold elapsed. intros H. zdm. Qed.

Lemma test_true line b (s : nat) : b = true -> TEST_TRUE line b s = Ret (inr tt) s.
Proof. by intros ->. Qed.

(** What the checks compare, in exact numbers. *)
Lemma diffs k :
  0 <= elapsed k < 2 ^ 31 ->
  TimeDiff64 api (us (clock k)) (us (clock (k + 4))) = elapsed k /\
  TimeDiff32 api (u32 (us (clock k))) (u32 (us (clock (k + 4)))) = elapsed k /\
  TimeDiff64 api (us (clock k) / 1000) (us (clock (k + 4)) / 1000) = us (clock (k + 4)) / 1000 - us (clock k) / 1000 /\
  TimeDiff32 api (u32 (us (clock k) / 1000)) (u32 (us (clock (k + 4)) / 1000)) = us (clock (k + 4)) / 1000 - us (clock k) / 1000 /\
  TimeAtOrBefore32 api (u32 (us (clock k) / 1000)) (u32 (us (clock (k + 4)) / 1000)) = true /\
  TimeAtOrBefore64 api (us (clock k) / 1000) (us (clock (k + 4)) / 1000) = true.
Proof.
  intros Hd. pose proof (law_range _ (Hok k)) as R1. pose proof (law_range _ (Hok (k + 4))) as R2.
  assert (0 <= us (clock (k + 4)) / 1000 - us (clock k) / 1000 < 2 ^ 31) by (unfold elapsed in Hd; zdm).
  unfold elapsed in *. split_and!.
  - apply diff64_order; [done..|lia].
  - apply diff32_small. lia.
  - apply diff64_order; [apply div_range; [done|lia]..|lia].
  - apply diff32_small. lia.
  - rewrite before32_small by lia. apply Z.leb_le. lia.
  - rewrite law_before64. apply Z.leb_le. lia.
Qed.

(** The test when the clocks advance by half a second to one and a half. *)
Lemma time_basic_passes :
  0 < us (clock 0) -> 1714503647 < epoch ->
  (forall k, (1 <= k <= 4)%nat -> 501000 <= elapsed k < 1499000) ->
  CxPlatTestTimeBasic 0%nat = Ret (inr tt) 9%nat.
Proof.
  intros H0 He Hel. unfold CxPlatTestTimeBasic.
  rewrite (lift_bind _ _ _ _ _ (read_us64 0)), (test_bind _ _ _ _ _ (test_true 24 _ _ (proj2 (Z.ltb_lt _ _) H0))).
  rewrite (test_bind _ _ _ _ _ (test_true 26 _ _ (proj2 (Z.ltb_lt _ _) He))).
  rewrite (lift_bind _ _ _ _ _ (read_us32 1)), (lift_bind _ _ _ _ _ (read_us64 2)), (lift_bind _ _ _ _ _ (read_ms32 3)),
    (lift_bind _ _ _ _ _ (read_ms64 4)), (lift_bind _ _ _ _ _ (read_us32 5)), (lift_bind _ _ _ _ _ (read_us64 6)),
    (lift_bind _ _ _ _ _ (read_ms32 7)), (lift_bind _ _ _ _ _ (read_ms64 8)).
  pose proof (Hel 1%nat ltac:(lia)) as H1. pose proof (Hel 2%nat ltac:(lia)) as H2.
  pose proof (Hel 3%nat ltac:(lia)) as H3. pose proof (Hel 4%nat ltac:(lia)) as H4.
  destruct (diffs 1 ltac:(lia)) as (_ & D1 & _). destruct (diffs 2 ltac:(lia)) as (D2 & _).
  destruct (diffs 3 ltac:(lia)) as (_ & _ & _ & D3 & B3 & _). destruct (diffs 4 ltac:(lia)) as (_ & _ & D4 & _ & _ & B4).
  pose proof (elapsed_ms 3 501 1499 ltac:(lia)). pose proof (elapsed_ms 4 501 1499 ltac:(lia)).
  cbn [Nat.add] in *. rewrite D1, D2, D3, D4, B3, B4. unfold US_TO_MS, SleepTimeMs, FudgeMs.
  assert (501 <= elapsed 1 / 1000 < 1500) by zdm. assert (501 <= elapsed 2 / 1000 < 1500) by zdm.
  do 9 (rewrite (test_bind _ _ _ tt 9%nat) by (apply test_true; try done; apply Z.ltb_lt; lia)). done.
Qed.
(** The test when the sleep or the scheduler takes half a second more. *)
Lemma time_basic_late :
  0 < us (clock 0) -> 1714503647 < epoch -> 1500000 <= elapsed 2 < 2 ^ 31 ->
  CxPlatTestTimeBasic 0%nat = Ret (inl 41) 9%nat.
Proof.
  intros H0 He Hel. unfold CxPlatTestTimeBasic.
  rewrite (lift_bind _ _ _ _ _ (read_us64 0)), (test_bind _ _ _ _ _ (test_true 24 _ _ (proj2 (Z.ltb_lt _ _) H0))).
  rewrite (test_bind _ _ _ _ _ (test_true 26 _ _ (proj2 (Z.ltb_lt _ _) He))).
  rewrite (lift_bind _ _ _ _ _ (read_us32 1)), (lift_bind _ _ _ _ _ (read_us64 2)), (lift_bind _ _ _ _ _ (read_ms32 3)),
    (lift_bind _ _ _ _ _ (read_ms64 4)), (lift_bind _ _ _ _ _ (read_us32 5)), (lift_bind _ _ _ _ _ (read_us64 6)),
    (lift_bind _ _ _ _ _ (read_ms32 7)), (lift_bind _ _ _ _ _ (read_ms64 8)).
  destruct (diffs 2 ltac:(lia)) as (D2 & _). cbn [Nat.add] in *. rewrite D2. unfold US_TO_MS, SleepTimeMs, FudgeMs.
  assert (1500 <= elapsed 2 / 1000) by zdm.
  rewrite (test_bind _ _ _ tt 9%nat) by (apply test_true, Z.ltb_lt; lia).
  apply test_fails. unfold TEST_TRUE. by rewrite (proj2 (Z.ltb_ge _ _)) by lia.
Qed.
End TimeTest.

(** The time test.  On every platform, with clock readings that can occur, a
    clock that is not at zero and a calendar after the date in the test: if
    between the two readings of each function 501 to 1499 milliseconds passed,
    all ten checks hold, also when the 32-bit clocks wrap around in between; and if
    1.5 seconds or more (up to half an hour) passed between the 64-bit readings,
    the test fails at line 41. *)
Theorem time_test p (clock : nat -> reading (platform_time p)) epoch :
  (forall k, platform_ok p (clock k)) -> 0 < platform_us p (clock 0%nat) -> 1714503647 < epoch ->
  let passed k := platform_us p (clock (k + 4)%nat) - platform_us p (clock k) in
  ((forall k, (1 <= k <= 4)%nat -> 501000 <= passed k < 1499000) ->
     CxPlatTestTimeBasic (platform_time p) clock epoch 0%nat = Ret (inr tt) 9%nat) /\
  (1500000 <= passed 2%nat < 2 ^ 31 -> CxPlatTestTimeBasic (platform_time p) clock epoch 0%nat = Ret (inl 41) 9%nat).
Proof.
  intros Hok H0 He passed. split.
  - by apply (time_basic_passes (platform_time p) clock epoch (ok := platform_ok p) (us := platform_us p)).
  - by apply (time_basic_late (platform_time p) clock epoch (ok := platform_ok p) (us := platform_us p)).
Qed.

(** A counter of 10 MHz, read every millisecond and after the sleep a second later; the
    32-bit microseconds wrap around in between. *)
Definition wrapping_clock (k : nat) : reading (platform_time (OnKernel 10000000)) :=
  (42949600000 + 10000 * Z.of_nat k + if (5 <=? k)%nat then 10000000 else 0)%Z.

Lemma wrapping_clock_ok k : platform_ok (OnKernel 10000000) (wrapping_clock (Nat.min k 8)).
Proof.
  assert (Nat.min k 8 <= 8)%nat as H by lia. revert H. generalize (Nat.min k 8). intros n Hn.
  do 9 (destruct n as [|n]; [vm_compute; repeat split; congruence|]). lia.
Qed.

Lemma time_test_witness :
  CxPlatTestTimeBasic (platform_time (OnKernel 10000000)) (fun k => wrapping_clock (Nat.min k 8)) 1800000000000 0%nat =
    Ret (inr tt) 9%nat.
Proof.
  apply (time_test (OnKernel 10000000) (fun k => wrapping_clock (Nat.min k 8)) 1800000000000).
  - intros k. apply wrapping_clock_ok.
  - reflexivity.
  - reflexivity.
  - intros k Hk. assert (k = 1 \/ k = 2 \/ k = 3 \/ k = 4)%nat as [->|[->|[->| ->]]] by lia; vm_compute; split; congruence.
Defined.

(** ** Processors and random numbers *)

Definition CxPlatTestProcBasic {St} (CxPlatProcCount CxPlatProcCurrentNumber : M St Z) : Test St unit :=
  n ← lift CxPlatProcCount;
  _ ← TEST_TRUE 16 (0 <? n);
  i ← lift CxPlatProcCurrentNumber;
  n ← lift CxPlatProcCount;
  TEST_TRUE 17 (i <? n).

(** [RandomValue] is four bytes, zero at first. *)
Definition CxPlatTestCryptRandom {St} (failed : Z -> bool) (CxPlatRandom : nat -> list Z -> M St (Z * list Z)) : Test St unit :=
  r ← lift (CxPlatRandom 4%nat [0; 0; 0; 0]);
  TEST_CXPLAT failed 29 r.1.

Lemma proc_basic_passes {St} (count current : M St Z) s n i :
  count s = Ret n s -> current s = Ret i s -> 0 <= i < n ->
  CxPlatTestProcBasic count current s = Ret (inr tt) s.
Proof.
  intros Hc Hi Hr. unfold CxPlatTestProcBasic. rewrite (lift_bind _ _ _ _ _ Hc).
  rewrite (test_bind _ _ s tt s) by (unfold TEST_TRUE; by rewrite (proj2 (Z.ltb_lt _ _)) by lia).
  rewrite (lift_bind _ _ _ _ _ Hi), (lift_bind _ _ _ _ _ Hc). unfold TEST_TRUE. by rewrite (proj2 (Z.ltb_lt _ _)) by lia.
Qed.

(** After a successful [CxPlatInitialize] in the kernel the processor test passes,
    and the random number test passes exactly when the provider delivers. *)
Lemma kernel_tests `{!KernelOs} `{!BCrypt} DEBUG s Status s1 :
  RngAlgorithm s = false -> 0 < active_processors < 2 ^ 32 -> 0 <= current_processor ->
  CxPlatInitialize_kernel DEBUG s = Ret Status s1 -> 0 <= Status ->
  CxPlatTestProcBasic (fun s => Ret (K_ProcessorCount s) s) CxPlatProcCurrentNumber_kernel s1 = Ret (inr tt) s1 /\
  exists r, CxPlatTestCryptRandom (fun st => negb (NT_SUCCESS st)) (CxPlatRandom_kernel DEBUG) s1 = Ret r s1 /\
    (r = inr tt <-> NT_SUCCESS (BCryptGenRandom (Some true) 4 [0; 0; 0; 0]).1 = true).
Proof.
  intros Hr Ha Hc Hi Hst.
  destruct (kernel_init DEBUG s Hr Ha Hc) as (st & s1' & Hi' & _ & Hok). rewrite Hi in Hi'. simplify_eq.
  destruct (Hok Hst) as (Hrng & _ & (n & Hcur & Hn) & _).
  assert (K_ProcessorCount s1' = active_processors) as Hcount.
  { revert Hi. unfold CxPlatInitialize_kernel, get, put, fre_assert, mbind, M_bind, mret, M_ret. destruct open_provider as [x y].
    assert (u32 active_processors = active_processors) as -> by (apply wrap_small; unfold is_u; lia).
    cbn. repeat case_match; cbn; intros; simplify_eq; done. }
  split; [eapply proc_basic_passes; [by rewrite Hcount|exact Hcur|done]|].
  unfold CxPlatTestCryptRandom, CxPlatRandom_kernel, get, TEST_CXPLAT.
  rewrite (lift_bind _ _ s1' (BCryptGenRandom (Some true) 4 [0; 0; 0; 0]) s1')
    by (unfold mbind, M_bind; rewrite Hrng; by destruct DEBUG).
  destruct (BCryptGenRandom (Some true) 4 [0; 0; 0; 0]) as [x l]. cbn.
  destruct (NT_SUCCESS x); eexists; (split; [reflexivity|by split]).
Qed.

(** On POSIX. *)
Lemma posix_tests `{!PosixOs} DEBUG Linux s s1 :
  0 < nprocs < 2 ^ 32 -> open_fd ∉ open_fds s -> CxPlatInitialize_posix DEBUG Linux false s = Ret 0 s1 ->
  CxPlatTestProcBasic (fun s => Ret (P_ProcessorCount s) s) (CxPlatProcCurrentNumber_posix Linux) s1 = Ret (inr tt) s1 /\
  exists r s2, CxPlatTestCryptRandom (fun st => 0 <? st) CxPlatRandom s1 = Ret r s2 /\
    (r = inr tt <-> random (reads s1) 4 <> None).
Proof.
  intros Hn Hf Hi. destruct (posix_init DEBUG Linux s Hn Hf) as (st & s1' & Hi' & Hok & _).
  rewrite Hi in Hi'. simplify_eq. destruct (Hok eq_refl) as (Hfds & Hfd & (n & Hcur & Hr) & _).
  split; [by eapply proc_basic_passes; [|exact Hcur|]|].
  unfold CxPlatTestCryptRandom, CxPlatRandom, read_random, TEST_CXPLAT. pose proof posix_errno_range.
  assert (bool_decide (RandomFd s1' ∈ open_fds s1') = true) as Hin by (apply bool_decide_eq_true; rewrite Hfd, Hfds; set_solver).
  destruct (random (reads s1') 4) as [l|] eqn:Hl.
  - eexists _, _. rewrite (lift_bind _ _ s1' (0, l ++ drop (length l) [0; 0; 0; 0]) (p_reads (S (reads s1')) s1'))
      by (unfold mbind, M_bind; rewrite Hin, Hl; done). by split.
  - eexists _, _. rewrite (lift_bind _ _ s1' (posix_errno, [0; 0; 0; 0]) (p_reads (S (reads s1')) s1'))
      by (unfold mbind, M_bind; rewrite Hin, Hl; done). cbn. rewrite (proj2 (Z.ltb_lt _ _)) by lia. split; [done|by split].
Qed.

(** In user mode, for a thread in any group that has processors. *)
Lemma user_proc_test `{!WinOs} DEBUG s g gs j ge Number :
  ready s -> plausible g gs -> group_entry (initialized DEBUG s g gs) j = Some ge -> 0 < Count ge -> 0 <= Number ->
  CxPlatTestProcBasic (fun s => Ret (CxPlatProcessorCount s) s) (CxPlatProcCurrentNumber (Z.of_nat j) Number)
    (initialized DEBUG s g gs) = Ret (inr tt) (initialized DEBUG s g gs).
Proof.
  intros Hr Hp Hj Hc Hn. destruct (current_number_in_range DEBUG s g gs j ge Number Hr Hp Hj Hc Hn) as (n & E & Hlt & _).
  by eapply proc_basic_passes; [|exact E|].
Qed.
