(* ===== verification/Placement.v ===== *)
(** * Where threads run: the processor tables and the creation of threads together

    [CxPlatInitialize] in Windows user mode builds the processor tables
    ([WinUser]); [CxPlatThreadCreate] reads them to place a thread ([Thread]), and
    [CxPlatProcCurrentNumber] reads them to tell a thread where it runs.  Here
    the three are put together: the thread creation gets the tables that the
    initialization built. *)

From S2P Require Import Prelude WinUser WinUserTheorems Thread WinThreadTheorems.








